(* ===== verification/_CoqProject ===== *)
-Q . S2P
Prelude.v
Values.v
Vocabulary.v
Models.v
Tree.v
Uploads.v
ScheduleConfig.v
Requests.v
Rebaseline.v
Backup.v
BackupFacts.v
Schedule.v
ScheduleFacts.v
Install.v
InstallFacts.v
InstallJournal.v
JournalFacts.v
SyncTypes.v
ClientPaths.v
ClientStore.v
FeedProtocol.v
StoreFacts.v
SyncWorld.v
Candidates.v
SnapshotFacts.v
Inbound.v
Cycle.v
InboundFacts.v
Disk.v
OutboundTypes.v
OutboundStore.v
ObservationStore.v
Watchers.v
Observation.v
ScanFacts.v
WatcherFacts.v
Submission.v
Conflicts.v
DiskFacts.v
Materialize.v
MaterializeFacts.v
EditFacts.v
SyncFacts.v
ConvergenceFacts.v
CycleFrame.v
ObservationFacts.v
WholeClient.v
QuietFacts.v
Runtime.v
RuntimeFacts.v
RuntimeLiveness.v
SubmissionFacts.v
UploadFacts.v
IntentFacts.v
OutcomeFacts.v
ConflictFacts.v
ClientFacts.v
CycleFacts.v
SyncExample.v
RecoveryExample.v
OutboundExample.v
ObservationExample.v
RuntimeExample.v
