(* ===== verification/Prelude.v ===== *)
(** * Synveil verification library

    Synveil keeps a folder on a desktop in step with a library on a server.
    This library models, as executable definitions, the domain layer of the
    server ([src/crates/core]), the decision of the backup scheduler
    ([src/crates/metadata/src/scheduler.rs]), the desktop synchroniser
    ([src/crates/client-sync]) and the installer ([src/crates/install-engine]),
    and proves what makes them correct.

    ** Conventions

    This file holds what all others share: [result] for [Result], the notations
    [let?] and [let*] for the question mark on results and options, [==] for
    derived equality, machine integers as [Z] with the bounds written out, byte
    strings ([rstring], literals with [lit]), and the tactics [rust_case] and
    [rust_bool].  A definition has the name of the Rust item it models, in a
    Module named after its type or file.  A method on a mutable receiver returns
    the state it leaves next to its result, on the error paths as well.  What is
    not written in the repository (Unicode tables, UUIDs, SHA-256, the calendar,
    JSON, the operating system, the server's answers, the clock, injected
    faults) is an argument: a class or a Section variable, with what the code
    relies on of it as named laws.

    ** The domain layer, [crates/core/src]

    - [Values]: [numbers.rs], [hashes.rs], [tokens.rs], [ids.rs]; parsing is the
      inverse of printing.
    - [Vocabulary]: the enumerations that are stored or sent as text, all
      instances of one class.
    - [Models] and [Tree]: [domain/models.rs].  [Node] and its operations, and
      the store of nodes; a store changed only through the operations, with
      moves guarded by [validate_move_parent], is always a forest.
    - [Uploads]: the session state machine of [domain/uploads.rs].
    - [Requests]: the canonical encodings behind every request fingerprint;
      equal fingerprints mean the same request, short of a digest collision.
    - [Rebaseline]: [domain/rebaseline.rs]; the constructor of a snapshot
      accepts exactly the rooted trees.
    - [Backup], [BackupFacts]: [domain/backup.rs], plans and their evidence.
    - [ScheduleConfig], [Schedule], [ScheduleFacts]: [domain/scheduling.rs] and
      the scheduler's decision; the next occurrence is the earliest one, and
      the scheduler fires, skips or rests as its misfire policy prescribes.

    ** The installer, [crates/install-engine/src]

    - [Install], [InstallFacts]: [model.rs], [adapter.rs], [engine.rs].
      Execution refines a protocol of adapter calls: mutations in plan order and
      once each, compensation in reverse.
    - [InstallJournal], [JournalFacts]: [journal.rs].  Over any history of runs,
      failures, kills and losses of power every effect is applied and
      compensated at most once, and the journal can always be read back.

    ** The synchroniser, [crates/client-sync/src]

    Data and store:
    - [SyncTypes]: [contracts.rs], [error.rs].
    - [ClientPaths]: [names.rs], [path.rs].
    - [ClientStore], [Candidates]: the tables of [migrations/] and the methods
      of [state.rs] on them, in a transaction monad in which a failed
      transaction leaves the store as it was.
    - [SyncWorld]: database, folder and requests sent, as a state and error
      monad over the clock, the faults and the server.

    Programs:
    - [Inbound] and [Materialize]: [engine.rs].  [Inbound] drives the feed, the
      acknowledgements and the bootstrap; [Materialize] writes one node into the
      folder.  They meet in the class [Materializer].
    - [Disk]: [replica.rs], the folder as a map from paths to entries.
    - [Candidates.Applier]: [rebaseline.rs], a snapshot fetched page by page.
    - [Cycle]: [rebaseline_convergence.rs] ([Coordinator]) and [sync_cycle.rs]
      ([Runner]).
    - [OutboundTypes], [OutboundStore], [Submission]: intents, the durable form
      of a mutation, the outbound tables of [state.rs] and [outbound.rs].  A
      local change is an intent; [Submission] submits the oldest one, a change
      of the namespace as one mutation, a change of content as a resumable
      upload.  [sync_cycle] is a whole cycle with this engine.
    - [Conflicts]: [conflict_policy.rs]; listing and resolving conflicts.
    - [Watchers], [ObservationStore], [Observation]: [observation.rs] and its
      tables.  The watchers deliver hints, the observer coalesces them, compares
      the folder with what it last knew and records intents and issues; a
      resumable scan covers what no hint was delivered for.  Its entry points
      are [Observation.enter]; the operating system behind the native watcher is
      a parameter.
    - [Runtime]: [runtime.rs].  The control plane, the supervisor, the cycles in
      flight and the clock interleave: [step] is one access to the shared state,
      [reachable] the states a runtime can be in.  The executor of a library is
      a parameter, a cycle may return any result.

    Theorems:
    - [FeedProtocol] is the contract between a client and the change feed as a
      step relation; [StoreFacts], [InboundFacts], [MaterializeFacts] and
      [SyncFacts] prove that every history of the engine refines it, and with it
      that only applied pages are acknowledged, that one call processes one page
      and that draining the feed ends.
    - [DiskFacts]: moves relocate exactly one subtree, staged content has the
      declared digest.
    - [EditFacts]: a local edit that was not observed survives a server change.
    - [SnapshotFacts], [ConvergenceFacts], [CycleFacts]: one snapshot per run,
      the page loop ends, activation makes the mirror exactly the snapshot, a
      reported convergence is at the snapshot's boundary, and the outbound
      engine only runs on a settled replica.
    - [CycleFrame]: what inbound work leaves of the outbound tables, and
      [client_history], the life of a client as a sequence of cycles,
      observations, resolutions, edits and foreign commits.
    - [SubmissionFacts], [UploadFacts], [IntentFacts], [OutcomeFacts],
      [ConflictFacts], [ClientFacts]: over any such history a mutation is durable
      before it is sent and the same on every retry, an upload sends the staged
      content, an intent that is finished stays finished, a call works for one
      intent and reports what the database records, a resolution settles its
      conflict, and the outbound side keeps the invariants of the feed.
    - [WatcherFacts], [ScanFacts]: between two rescans the hints are what the
      delivered events say, and following its cursors a scan comes by every name
      of a directory once.
    - [ObservationFacts]: every call of the observer is a sequence of small
      steps, whose intents describe the folder as it is; without a valid root
      nothing is recorded.
    - [WholeClient]: observer and synchroniser on one folder and one database
      are a client in the sense of [CycleFrame]; an open issue holds back
      submission for ever.
    - [QuietFacts]: scanning a folder in which nothing changed ([settled]) has no
      effect.
    - [RuntimeFacts], [RuntimeLiveness]: in every reachable runtime the cycles of
      a library do not overlap, no library is forgotten, the supervisor comes to
      rest, rests only when nothing is due, and serves the libraries in turn.
    - [SyncExample], [RecoveryExample], [OutboundExample], [ObservationExample],
      [RuntimeExample]: concrete runs.  They show that the hypotheses of the
      theorems hold of a running system, and they carry the theorems about
      behaviour the design does not intend.

    ** Fuel

    Loops without a structural measure take fuel and are proved to end within
    it: the topology walk of [Rebaseline] within one more than the number of
    entries, the page loop of [Candidates.Applier] within two more than the
    announced number of entries ([page_fuel]), the path resolution of a
    snapshot within one more than the number of its nodes, and the chunk loop of
    an upload within the number of missing bytes ([chunk_fuel]), because every
    turn moves the offset.  The supervisor of the runtime is a step function;
    that it comes to rest is shown by a measure ([weight]).

    ** Not modelled

    The SQL of the PostgreSQL repositories ([crates/metadata]) and the HTTP
    service over them, whose meaning lies in the database and the framework;
    authentication, storage backends, platform integration, the desktop shell
    and the clients in other languages, which are calls into libraries and the
    operating system.  Of the synchroniser: the desktop host that wires the
    engines to tasks, a panic of the supervisor itself and the joining of its
    task, the HTTP adapter, profile files, and the Windows build of the folder. *)

From stdpp Require Export prelude list sorting gmap strings.
From Stdlib Require Export ZArith Lia.

#[global] Open Scope Z_scope.

(** ** Results: Rust's [Result<A, E>] *)

Inductive result (A E : Type) : Type :=
| Ok (a : A)
| Err (e : E).
Arguments Ok {A E} a.
Arguments Err {A E} e.

#[global] Instance result_eq_dec {A E} `{EqDecision A} `{EqDecision E} :
  EqDecision (result A E).
Proof. solve_decision. Defined.

Definition is_ok {A E} (r : result A E) : bool :=
  match r with Ok _ => true | Err _ => false end.

Definition ok_or {A E} (o : option A) (e : E) : result A E :=
  match o with Some a => Ok a | None => Err e end.

Definition map_err {A E F} (f : E -> F) (r : result A E) : result A F :=
  match r with Ok a => Ok a | Err e => Err (f e) end.

Definition is_some {A} (o : option A) : bool :=
  match o with Some _ => true | None => false end.

Definition is_none {A} (o : option A) : bool := negb (is_some o).

Definition is_some_and {A} (o : option A) (f : A -> bool) : bool :=
  match o with Some a => f a | None => false end.

Definition is_none_or {A} (o : option A) (f : A -> bool) : bool :=
  match o with Some a => f a | None => true end.

(** The notations of the development: Rust's [?] on results and options, and
    [==] / [!=] for the derived [PartialEq] of the modelled types. *)
Declare Scope rust_scope.
Delimit Scope rust_scope with rust.

Notation "'let?' x ':=' e 'in' k" :=
  (match e with Ok x => k | Err err => Err err end)
  (at level 10, x binder, e at level 200, k at level 200,
   format "'[v' 'let?'  x  ':='  e  'in' '//' k ']'") : rust_scope.
Notation "'let*' x ':=' e 'in' k" :=
  (match e with Some x => k | None => None end)
  (at level 10, x binder, e at level 200, k at level 200,
   format "'[v' 'let*'  x  ':='  e  'in' '//' k ']'") : rust_scope.
Notation "x == y" := (bool_decide (x = y)) (at level 70, no associativity) : rust_scope.
Notation "x != y" := (negb (bool_decide (x = y))) (at level 70, no associativity) : rust_scope.

#[global] Open Scope rust_scope.

(** ** Machine integers

    An integer of width [w] is a [Z] kept in range; wrap-around and checked
    arithmetic are written out at the places where the source uses them. *)

Definition u16_max : Z := 2 ^ 16 - 1.
Definition u32_max : Z := 2 ^ 32 - 1.
Definition u64_max : Z := 2 ^ 64 - 1.
Definition i64_max : Z := 2 ^ 63 - 1.

Definition u64_ok (z : Z) : Prop := 0 <= z <= u64_max.

#[global] Instance u64_ok_dec z : Decision (u64_ok z).
Proof. unfold u64_ok. apply _. Defined.

(** [u64::checked_add], [u64::checked_sub], [u64::checked_mul]. *)
Definition checked_add64 (a b : Z) : option Z :=
  if a + b <=? u64_max then Some (a + b) else None.
Definition checked_sub64 (a b : Z) : option Z :=
  if b <=? a then Some (a - b) else None.
Definition checked_mul64 (a b : Z) : option Z :=
  if a * b <=? u64_max then Some (a * b) else None.

(** The unchecked [+] on [u64]: release builds wrap. *)
Definition wrapping_add64 (a b : Z) : Z := (a + b) mod 2 ^ 64.

(** [i64::try_from(v).is_err()] for a [u64] value. *)
Definition i64_try_from_is_err (v : Z) : bool := i64_max <? v.

(** ** Byte strings

    A Rust [String]/[&str] is the list of its UTF-8 bytes; [lit] reads an
    ASCII literal of the source. *)

Abbreviation rstring := (list Z).

Definition byte_of_ascii (c : Ascii.ascii) : Z := Z.of_N (Ascii.N_of_ascii c).
Definition lit (s : string) : rstring := map byte_of_ascii (String.list_ascii_of_string s).

Definition byte_ok (b : Z) : Prop := 0 <= b < 256.
Definition bytes_ok (l : rstring) : Prop := Forall byte_ok l.

(** [u8::is_ascii_digit], [is_ascii_lowercase], [is_ascii_uppercase]. *)
Definition is_ascii_digit (b : Z) : bool := (48 <=? b) && (b <=? 57).
Definition is_ascii_lowercase (b : Z) : bool := (97 <=? b) && (b <=? 122).
Definition is_ascii_uppercase (b : Z) : bool := (65 <=? b) && (b <=? 90).
Definition is_ascii_alphanumeric (b : Z) : bool :=
  is_ascii_digit b || is_ascii_lowercase b || is_ascii_uppercase b.

(** [u8::to_ascii_lowercase], [u8::to_ascii_uppercase]. *)
Definition to_ascii_lowercase (b : Z) : Z := if is_ascii_uppercase b then b + 32 else b.
Definition to_ascii_uppercase (b : Z) : Z := if is_ascii_lowercase b then b - 32 else b.

(** [str::eq_ignore_ascii_case]. *)
Definition eq_ignore_ascii_case (a b : rstring) : bool :=
  map to_ascii_lowercase a == map to_ascii_lowercase b.

Definition is_empty {A} (l : list A) : bool := match l with [] => true | _ => false end.
Definition len {A} (l : list A) : Z := Z.of_nat (length l).

(** [str::starts_with(char)] and [str::ends_with(char)] for one ASCII byte. *)
Definition starts_with (c : Z) (s : rstring) : bool :=
  match s with b :: _ => b =? c | [] => false end.
Definition ends_with (c : Z) (s : rstring) : bool :=
  match last s with Some b => b =? c | None => false end.

(** [str::strip_prefix]. *)
Fixpoint strip_prefix (p s : rstring) : option rstring :=
  match p, s with
  | [], _ => Some s
  | a :: p', b :: s' => if a =? b then strip_prefix p' s' else None
  | _ :: _, [] => None
  end.

(** [str::split(c)] on one ASCII byte: always at least one part. *)
Fixpoint split (c : Z) (s : rstring) : list rstring :=
  match s with
  | [] => [[]]
  | b :: s' =>
      if b =? c then [] :: split c s'
      else match split c s' with
           | p :: ps => (b :: p) :: ps
           | [] => [[b]]
           end
  end.

(** [parts.join(c)]: the inverse of [split]. *)
Fixpoint join (c : Z) (ps : list rstring) : rstring :=
  match ps with
  | [] => []
  | [p] => p
  | p :: ps' => p ++ c :: join c ps'
  end.

(** [str::chars]: the Unicode scalar values of (valid) UTF-8 bytes. *)
Fixpoint chars (s : rstring) : list Z :=
  match s with
  | [] => []
  | b0 :: s1 =>
      if b0 <? 128 then b0 :: chars s1
      else match s1 with
      | [] => [65533]
      | b1 :: s2 =>
          if b0 <? 224 then ((b0 - 192) * 64 + (b1 - 128)) :: chars s2
          else match s2 with
          | [] => [65533]
          | b2 :: s3 =>
              if b0 <? 240
              then ((b0 - 224) * 4096 + (b1 - 128) * 64 + (b2 - 128)) :: chars s3
              else match s3 with
              | [] => [65533]
              | b3 :: s4 =>
                  ((b0 - 240) * 262144 + (b1 - 128) * 4096 + (b2 - 128) * 64 + (b3 - 128))
                  :: chars s4
              end
          end
      end
  end.

(** [char::is_control]: the general category Cc. *)
Definition is_control (c : Z) : bool := (c <? 32) || ((127 <=? c) && (c <? 160)).

(** [str::encode_utf16().count()]. *)
Definition utf16_count (s : rstring) : Z :=
  fold_right (fun c n => n + (if c <? 65536 then 1 else 2)) 0 (chars s).

(** [uN::to_be_bytes] (and, in two's complement, [iN::to_be_bytes]). *)
Fixpoint be_bytes (n : nat) (z : Z) : rstring :=
  match n with
  | O => []
  | S n' => (z / 256 ^ Z.of_nat n') mod 256 :: be_bytes n' z
  end.

Fixpoint be_val (l : rstring) : Z :=
  match l with
  | [] => 0
  | b :: l' => b * 256 ^ Z.of_nat (length l') + be_val l'
  end.

(** ** Automation *)

Create HintDb synveil.
Create Rewrite HintDb synveil.

(** Opens every [match] on a scrutinee in a hypothesis or in the goal, keeping
    the equation, and closes the impossible branches. *)
Ltac rust_case :=
  repeat (case_match; simplify_eq/=; try done).

(** Turns the boolean tests of the modelled code into propositions. *)
Ltac rust_bool :=
  repeat match goal with
  | H : _ && _ = true |- _ => apply andb_true_iff in H; destruct H
  | H : _ || _ = false |- _ => apply orb_false_iff in H; destruct H
  | H : negb _ = true |- _ => apply negb_true_iff in H
  | H : negb _ = false |- _ => apply negb_false_iff in H
  | H : bool_decide _ = true |- _ => apply bool_decide_eq_true_1 in H
  | H : bool_decide _ = false |- _ => apply bool_decide_eq_false_1 in H
  | H : (_ <=? _)%Z = true |- _ => apply Z.leb_le in H
  | H : (_ <=? _)%Z = false |- _ => apply Z.leb_gt in H
  | H : (_ <? _)%Z = true |- _ => apply Z.ltb_lt in H
  | H : (_ <? _)%Z = false |- _ => apply Z.ltb_ge in H
  | H : (_ =? _)%Z = true |- _ => apply Z.eqb_eq in H
  | H : (_ =? _)%Z = false |- _ => apply Z.eqb_neq in H
  | H : is_none _ = true |- _ => apply negb_true_iff in H
  | H : is_none _ = false |- _ => apply negb_false_iff in H
  end.

(** ** Shared lemmas *)

Lemma length_be_bytes n z : length (be_bytes n z) = n.
Proof. induction n as [|n IH]; simpl; [done|]. by rewrite IH. Qed.

Lemma bytes_ok_be_bytes n z : bytes_ok (be_bytes n z).
Proof.
  induction n as [|n IH]; simpl; constructor; [|done].
  apply Z.mod_pos_bound. lia.
Qed.

Lemma be_val_be_bytes n z : be_val (be_bytes n z) = z mod 256 ^ Z.of_nat n.
Proof.
  induction n as [|n IH]; simpl be_val; simpl be_bytes.
  - by rewrite Z.mod_1_r.
  - simpl. rewrite length_be_bytes, IH, Nat2Z.inj_succ, Z.pow_succ_r by lia.
    rewrite (Z.mul_comm 256), Z.rem_mul_r by lia. lia.
Qed.

Lemma be_bytes_inj n a b :
  0 <= a < 256 ^ Z.of_nat n -> 0 <= b < 256 ^ Z.of_nat n ->
  be_bytes n a = be_bytes n b -> a = b.
Proof.
  intros Ha Hb H. apply (f_equal be_val) in H. rewrite !be_val_be_bytes in H.
  by rewrite !Z.mod_small in H by done.
Qed.

(** Two's complement: injective on the signed range. *)
Lemma be_bytes_inj_signed n a b :
  - 256 ^ Z.of_nat n <= 2 * a < 256 ^ Z.of_nat n ->
  - 256 ^ Z.of_nat n <= 2 * b < 256 ^ Z.of_nat n ->
  be_bytes n a = be_bytes n b -> a = b.
Proof.
  intros Ha Hb H. apply (f_equal be_val) in H. rewrite !be_val_be_bytes in H.
  set (m := 256 ^ Z.of_nat n) in *. assert (0 < m) by (subst m; lia).
  pose proof (Z.div_mod a m). pose proof (Z.div_mod b m).
  assert (a / m = b / m \/ a / m <> b / m) as [E|E] by lia; [nia|].
  assert (a / m - b / m >= 1 \/ a / m - b / m <= -1) as [|] by lia; nia.
Qed.

Lemma be_val_inj l k :
  bytes_ok l -> bytes_ok k -> length l = length k -> be_val l = be_val k -> l = k.
Proof.
  intros Hl. revert k. induction Hl as [|x l Hx Hl IH]; intros [|y k] Hk Hlen H; try done.
  simpl in *. injection Hlen as Hlen. rewrite Hlen in H.
  assert (forall t, bytes_ok t -> 0 <= be_val t < 256 ^ Z.of_nat (length t)) as Hb.
  { clear. induction 1 as [|b t Hb Ht IH]; simpl; [lia|].
    unfold byte_ok in Hb. rewrite Nat2Z.inj_succ, Z.pow_succ_r by lia. nia. }
  inversion Hk as [|?? Hy Hk' E]; subst. unfold byte_ok in *.
  pose proof (Hb l Hl) as B1. pose proof (Hb k Hk') as B2. rewrite Hlen in B1.
  assert (x = y) as -> by nia. f_equal. apply IH; [done..|lia].
Qed.

(** *** Splitting and joining paths and dotted versions *)

Lemma split_nonempty c s : split c s <> [].
Proof. destruct s as [|b s]; simpl; [done|]. repeat case_match; done. Qed.

Lemma join_split c s : join c (split c s) = s.
Proof.
  induction s as [|b s IH]; [done|]. simpl.
  destruct (b =? c) eqn:E.
  - apply Z.eqb_eq in E as ->. pose proof (split_nonempty c s).
    destruct (split c s) eqn:Es; [done|]. simpl in *. by rewrite IH.
  - pose proof (split_nonempty c s). destruct (split c s) as [|p ps]; [done|].
    destruct ps; simpl in *; by rewrite IH.
Qed.

Lemma split_no_sep c s : Forall (fun p => c ∉ p) (split c s).
Proof.
  induction s as [|b s IH]; simpl; [repeat constructor; set_solver|].
  destruct (b =? c) eqn:E; [constructor; [set_solver|done]|].
  apply Z.eqb_neq in E.
  destruct (split c s) as [|p ps]; inversion IH; subst; constructor; set_solver.
Qed.

Lemma split_app_sep c p s : c ∉ p -> split c (p ++ c :: s) = p :: split c s.
Proof.
  induction p as [|b p IH]; intros Hp; simpl.
  - by rewrite Z.eqb_refl.
  - assert (b <> c) by set_solver. rewrite (proj2 (Z.eqb_neq b c)) by done.
    rewrite IH by set_solver. done.
Qed.

Lemma split_plain c p : c ∉ p -> split c p = [p].
Proof.
  induction p as [|b p IH]; intros Hp; simpl; [done|].
  rewrite (proj2 (Z.eqb_neq b c)) by set_solver. rewrite IH by set_solver. done.
Qed.

Lemma split_join c ps : ps <> [] -> Forall (fun p => c ∉ p) ps -> split c (join c ps) = ps.
Proof.
  intros Hne H. induction H as [|p ps Hp Hps IH]; [done|].
  destruct ps as [|q ps]; [by apply split_plain|].
  change (join c (p :: q :: ps)) with (p ++ c :: join c (q :: ps)).
  rewrite split_app_sep by done. by rewrite IH.
Qed.

Lemma strip_prefix_app p s : strip_prefix p (p ++ s) = Some s.
Proof. induction p as [|b p IH]; simpl; [done|]. by rewrite Z.eqb_refl. Qed.

Lemma strip_prefix_Some p s r : strip_prefix p s = Some r <-> s = p ++ r.
Proof.
  split; [|by intros ->; apply strip_prefix_app].
  revert s. induction p as [|a p IH]; intros s H; simpl in *; [by simplify_eq|].
  destruct s as [|b s]; [done|]. destruct (a =? b) eqn:E; [|done].
  apply Z.eqb_eq in E as ->. by rewrite (IH s).
Qed.

(** *** Fixed-width prefixes of encodings *)

Lemma app_inj_len {A} (l1 l2 k1 k2 : list A) :
  length l1 = length k1 -> l1 ++ l2 = k1 ++ k2 -> l1 = k1 /\ l2 = k2.
Proof. apply app_inj_1. Qed.

Lemma bytes_ok_app l k : bytes_ok (l ++ k) <-> bytes_ok l /\ bytes_ok k.
Proof. apply Forall_app. Qed.

Lemma bytes_ok_lit s : bytes_ok (lit s).
Proof.
  unfold lit, bytes_ok. rewrite Forall_map. apply Forall_forall. intros c _.
  unfold byte_ok, byte_of_ascii. pose proof (Ascii.N_ascii_bounded c). simpl. lia.
Qed.

#[export] Hint Resolve bytes_ok_be_bytes bytes_ok_lit : synveil.
#[export] Hint Rewrite length_be_bytes : synveil.

(** *** Slices by an integer bound *)

Fixpoint take_z {A} (n : Z) (l : list A) : list A :=
  match l with
  | [] => []
  | x :: l' => if n <=? 0 then [] else x :: take_z (n - 1) l'
  end.

Fixpoint drop_z {A} (n : Z) (l : list A) : list A :=
  match l with
  | [] => []
  | x :: l' => if n <=? 0 then l else drop_z (n - 1) l'
  end.

Lemma take_z_take {A} n (l : list A) : take_z n l = take (Z.to_nat n) l.
Proof.
  revert n. induction l as [|x l IH]; intros n; [by rewrite take_nil|]. cbn [take_z].
  destruct (Z.leb_spec n 0) as [Hn|Hn]; [by replace (Z.to_nat n) with 0%nat by lia|].
  rewrite IH. by replace (Z.to_nat n) with (S (Z.to_nat (n - 1))) by lia.
Qed.

Lemma drop_z_drop {A} n (l : list A) : drop_z n l = drop (Z.to_nat n) l.
Proof.
  revert n. induction l as [|x l IH]; intros n; [by rewrite drop_nil|]. cbn [drop_z].
  destruct (Z.leb_spec n 0) as [Hn|Hn]; [by replace (Z.to_nat n) with 0%nat by lia|].
  rewrite IH. by replace (Z.to_nat n) with (S (Z.to_nat (n - 1))) by lia.
Qed.

(** Consecutive slices of at most [n] elements; [fuel] bounds their number. *)
Fixpoint slices {A} (fuel : nat) (n : Z) (l : list A) : list (list A) :=
  match fuel, l with
  | S fuel', _ :: _ => take_z n l :: slices fuel' n (drop_z n l)
  | _, _ => []
  end.

Lemma concat_slices {A} fuel n (l : list A) :
  0 < n -> (length l <= fuel)%nat -> concat (slices fuel n l) = l.
Proof.
  intros Hn. revert l. induction fuel as [|fuel IH]; intros l Hl.
  - by destruct l; [|cbn in Hl; lia].
  - destruct l as [|x l]; [done|]. cbn [slices concat]. rewrite IH.
    + rewrite take_z_take, drop_z_drop. apply take_drop.
    + rewrite drop_z_drop, length_drop. cbn in Hl |- *. lia.
Qed.

(** [Result::expect]: [None] stands for the panic. *)
Definition expect {A E} (r : result A E) : option A :=
  match r with Ok a => Some a | Err _ => None end.
