(* ===== verification/Values.v ===== *)
(** * Value types of [crates/core]: canonical decimals, digests, tokens, identifiers

    [Decimal] models [numbers.rs] ([Revision] and [Sequence]), [Sha256] models
    [hashes.rs], [Token] models [tokens.rs] and [Ids] models the validation
    part of [ids.rs].  A 128-bit identifier is the integer its 16 big-endian
    bytes denote, so the derived (byte-lexicographic) order is [Z]'s order. *)

From S2P Require Import Prelude.

(** ** Decimal values ([numbers.rs]) *)

Module Decimal.

Inductive DecimalValueError : Type := Empty | LeadingZero | InvalidCharacter | Overflow.

(** The digit loop of [u64::from_str]: every digit goes through
    [checked_mul(10)] and [checked_add(digit)]. *)
Fixpoint parse_digits (acc : Z) (s : rstring) : option Z :=
  match s with
  | [] => Some acc
  | b :: s' =>
      if is_ascii_digit b then
        let* m := checked_mul64 acc 10 in
        let* a := checked_add64 m (b - 48) in
        parse_digits a s'
      else None
  end.

(** [<u64 as FromStr>::from_str]: a single leading [+] is accepted. *)
Definition u64_from_str (s : rstring) : option Z :=
  match s with
  | [] => None
  | [43] => None
  | 43 :: rest => parse_digits 0 rest
  | _ => parse_digits 0 s
  end.

Definition parse_decimal (value : rstring) : result Z DecimalValueError :=
  if is_empty value then Err Empty
  else if (1 <? len value) && starts_with 48 value then Err LeadingZero
  else if negb (forallb is_ascii_digit value) then Err InvalidCharacter
  else ok_or (u64_from_str value) Overflow.

(** [<u64 as Display>::fmt]; a [u64] has at most 20 decimal digits. *)
Fixpoint digits (fuel : nat) (n : Z) : rstring :=
  match fuel with
  | O => []
  | S fuel' => if n <? 10 then [48 + n] else digits fuel' (n / 10) ++ [48 + n mod 10]
  end.

Definition fmt (n : Z) : rstring := digits 20 n.

(** The value of a digit string, with no bound. *)
Fixpoint value_from (acc : Z) (s : rstring) : Z :=
  match s with
  | [] => acc
  | b :: s' => value_from (acc * 10 + (b - 48)) s'
  end.

Lemma value_from_ge acc s :
  0 <= acc -> forallb is_ascii_digit s = true -> acc <= value_from acc s.
Proof.
  revert acc. induction s as [|b s IH]; intros acc Ha Hd; simpl in *; [lia|].
  unfold is_ascii_digit in Hd. rust_bool.
  transitivity (acc * 10 + (b - 48)); [lia|]. apply IH; [lia|done].
Qed.

Lemma value_from_app acc s t : value_from acc (s ++ t) = value_from (value_from acc s) t.
Proof. revert acc. induction s as [|b s IH]; intros acc; simpl; [done|]. apply IH. Qed.

Lemma parse_digits_spec acc s v :
  0 <= acc <= u64_max ->
  parse_digits acc s = Some v <->
  forallb is_ascii_digit s = true /\ v = value_from acc s /\ v <= u64_max.
Proof.
  revert acc. induction s as [|b s IH]; intros acc Ha; simpl.
  - split; [intros [= ->]; lia|intros (_ & -> & _); done].
  - destruct (is_ascii_digit b) eqn:Hb; simpl; [|split; [done|by intros (? & _)]].
    unfold is_ascii_digit in Hb. rust_bool.
    assert (forallb is_ascii_digit s = true ->
            acc * 10 + (b - 48) <= value_from (acc * 10 + (b - 48)) s) as Hge
      by (intros; apply value_from_ge; [lia|done]).
    unfold checked_mul64, checked_add64.
    destruct (acc * 10 <=? u64_max) eqn:E1; rust_bool.
    + destruct (acc * 10 + (b - 48) <=? u64_max) eqn:E2; rust_bool.
      * apply IH. lia.
      * split; [done|]. intros (Hd & -> & Hv). specialize (Hge Hd). lia.
    + split; [done|]. intros (Hd & -> & Hv). specialize (Hge Hd). lia.
Qed.

(** On an all-digit string the [+] branch of [u64::from_str] is never taken. *)
Lemma u64_from_str_digits s :
  s <> [] -> forallb is_ascii_digit s = true -> u64_from_str s = parse_digits 0 s.
Proof.
  intros Hne Hd. destruct s as [|b s]; [done|]. simpl in Hd. rust_bool.
  unfold u64_from_str. repeat case_match; subst; try done; simpl in *; discriminate.
Qed.

Lemma digits_digit fuel n : 0 <= n -> forallb is_ascii_digit (digits fuel n) = true.
Proof.
  revert n. induction fuel as [|fuel IH]; intros n Hn; simpl; [done|].
  destruct (n <? 10) eqn:E; rust_bool; simpl.
  - unfold is_ascii_digit. rewrite andb_true_r, andb_true_iff, !Z.leb_le. lia.
  - rewrite forallb_app, IH by (apply Z.div_pos; lia). simpl.
    pose proof (Z.mod_pos_bound n 10 ltac:(lia)).
    unfold is_ascii_digit. rewrite andb_true_r, andb_true_iff, !Z.leb_le. lia.
Qed.

Lemma digits_value fuel n :
  0 <= n < 10 ^ Z.of_nat fuel -> value_from 0 (digits fuel n) = n.
Proof.
  revert n. induction fuel as [|fuel IH]; intros n Hn; simpl; [simpl in Hn; lia|].
  rewrite Nat2Z.inj_succ, Z.pow_succ_r in Hn by lia.
  destruct (n <? 10) eqn:E; rust_bool; simpl; [lia|].
  rewrite value_from_app, IH; [simpl; pose proof (Z.div_mod n 10); lia|].
  split; [apply Z.div_pos; lia|]. apply Z.div_lt_upper_bound; lia.
Qed.

(** A canonical digit string: not empty, digits only, no superfluous zero. *)
Definition canonical (s : rstring) : Prop :=
  s <> [] /\ forallb is_ascii_digit s = true /\ (starts_with 48 s = true -> len s <= 1).

Lemma starts_with_app c s t : s <> [] -> starts_with c (s ++ t) = starts_with c s.
Proof. by destruct s. Qed.

Lemma digits_canonical fuel n :
  0 <= n < 10 ^ Z.of_nat fuel -> (0 < fuel)%nat ->
  canonical (digits fuel n) /\ (n <> 0 -> starts_with 48 (digits fuel n) = false).
Proof.
  revert n. induction fuel as [|fuel IH]; intros n Hn Hf; [lia|].
  rewrite Nat2Z.inj_succ, Z.pow_succ_r in Hn by lia.
  assert (forallb is_ascii_digit (digits (S fuel) n) = true) as Hd by (apply digits_digit; lia).
  unfold canonical. simpl digits in *. destruct (n <? 10) eqn:E; rust_bool.
  - repeat split; try done. intros Hn0. apply Z.eqb_neq. lia.
  - assert (0 < fuel)%nat by (destruct fuel; [change (10 ^ Z.of_nat 0) with 1 in Hn|]; lia).
    destruct (IH (n / 10)) as [(Hne & _ & _) Hz]; [|done|].
    { split; [apply Z.div_pos; lia|]. apply Z.div_lt_upper_bound; lia. }
    rewrite starts_with_app by done.
    assert (starts_with 48 (digits fuel (n / 10)) = false) as Hs.
    { apply Hz. pose proof (Z.div_le_lower_bound n 10 1). lia. }
    rewrite Hs. repeat split; try done. by destruct (digits fuel (n / 10)).
Qed.

Lemma value_from_pos s :
  forallb is_ascii_digit s = true -> starts_with 48 s = false -> s <> [] -> 0 < value_from 0 s.
Proof.
  destruct s as [|b s]; [done|]. intros Hd Hs _. cbn [forallb] in Hd. rust_bool.
  pose proof (value_from_ge (0 * 10 + (b - 48)) s) as Hge.
  match goal with H : is_ascii_digit b = true |- _ => unfold is_ascii_digit in H end. rust_bool.
  cbn [value_from]. cbn in Hs. rust_bool. specialize (Hge ltac:(lia)). naive_solver lia.
Qed.

(** Two canonical digit strings with the same value are the same string. *)
Lemma digits_of_value fuel s :
  canonical s -> (0 < fuel)%nat -> value_from 0 s < 10 ^ Z.of_nat fuel ->
  digits fuel (value_from 0 s) = s.
Proof.
  revert fuel. induction s as [|d s IH] using rev_ind; intros fuel (Hne & Hd & Hz) Hf Hv; [done|].
  rewrite forallb_app in Hd. simpl in Hd. rust_bool.
  rewrite value_from_app in *. simpl in *.
  match goal with H : is_ascii_digit d = true |- _ => unfold is_ascii_digit in H end. rust_bool.
  destruct fuel as [|fuel]; [lia|].
  rewrite Nat2Z.inj_succ, Z.pow_succ_r in Hv by lia. simpl.
  destruct (decide (s = [])) as [->|Hs].
  - simpl. rewrite (proj2 (Z.ltb_lt _ 10)) by lia. simpl. do 2 f_equal. lia.
  - assert (starts_with 48 s = false) as Hs0.
    { rewrite starts_with_app in Hz by done. destruct (starts_with 48 s); [|done].
      specialize (Hz eq_refl). unfold len in Hz. rewrite length_app in Hz. simpl in Hz.
      destruct s; simpl in Hz; [done|lia]. }
    assert (0 < value_from 0 s) by by apply value_from_pos.
    rewrite (proj2 (Z.ltb_ge _ 10)) by lia.
    replace ((value_from 0 s * 10 + (d - 48)) / 10) with (value_from 0 s)
      by (apply Z.div_unique with (d - 48); lia).
    replace ((value_from 0 s * 10 + (d - 48)) mod 10) with (d - 48)
      by (apply Z.mod_unique with (value_from 0 s); lia).
    rewrite IH; [do 2 f_equal; lia| |destruct fuel; [change (10 ^ Z.of_nat 0) with 1 in Hv|]; lia|lia].
    repeat split; [done|done|]. by rewrite Hs0.
Qed.

Lemma fmt_value n : u64_ok n -> value_from 0 (fmt n) = n.
Proof. intros H. apply digits_value. unfold u64_ok, u64_max in H. lia. Qed.

Lemma parse_digits_iff s n :
  s <> [] -> forallb is_ascii_digit s = true ->
  ok_or (u64_from_str s) Overflow = Ok n <-> n = value_from 0 s /\ n <= u64_max.
Proof.
  intros Hne Hd. rewrite u64_from_str_digits by done.
  pose proof (parse_digits_spec 0 s n ltac:(unfold u64_max; lia)) as HS.
  destruct (parse_digits 0 s) as [v|]; simpl.
  - split; [intros [= ->]; by apply HS|]. intros H. f_equal.
    assert (Some v = Some n) by (by apply HS). congruence.
  - split; [done|]. intros H. assert (None = Some n) by (by apply HS). done.
Qed.

Lemma parse_decimal_Ok s n :
  parse_decimal s = Ok n <-> canonical s /\ n = value_from 0 s /\ n <= u64_max.
Proof.
  unfold parse_decimal, canonical.
  destruct (decide (s = [])) as [->|Hne]; [simpl; split; [done|by intros ((? & _) & _)]|].
  replace (is_empty s) with false by (by destruct s).
  destruct (starts_with 48 s) eqn:Es; rewrite ?andb_true_r, ?andb_false_r.
  - destruct (1 <? len s) eqn:El; rust_bool.
    + split; [done|]. intros ((_ & _ & Hz) & _). specialize (Hz eq_refl). lia.
    + destruct (forallb is_ascii_digit s) eqn:Ed; simpl; [|naive_solver].
      rewrite parse_digits_iff by done. naive_solver lia.
  - destruct (forallb is_ascii_digit s) eqn:Ed; simpl; [|naive_solver].
    rewrite parse_digits_iff by done. naive_solver.
Qed.

(** Printing and parsing decimals are inverse to each other: a [u64] prints to
    a string that parses back to it, and a string that parses prints back to
    itself, so the accepted strings are exactly the canonical ones. *)
Theorem parse_decimal_fmt s n :
  parse_decimal s = Ok n <-> u64_ok n /\ s = fmt n.
Proof.
  rewrite parse_decimal_Ok. split.
  - intros (Hc & -> & Hle). assert (0 <= value_from 0 s) by (apply value_from_ge; [lia|apply Hc]).
    split; [done|]. symmetry. apply digits_of_value; [done|lia|unfold u64_max in *; lia].
  - intros ([H0 H1] & ->). split; [|by rewrite fmt_value].
    apply digits_canonical; [unfold u64_max in *; lia|lia].
Qed.

End Decimal.

(** ** SHA-256 digests ([hashes.rs]) *)

Module Sha256.

Definition SHA256_PREFIX : rstring := lit "sha256:".
Definition SHA256_HEX_LENGTH : Z := 64.

Inductive HashParseError : Type := InvalidAlgorithm | InvalidLength | InvalidHex.

(** [Sha256Digest([u8; 32])] is the list of its bytes. *)
Definition digest_ok (d : list Z) : Prop := length d = 32%nat /\ bytes_ok d.

Definition hex_char (b : Z) : bool := is_ascii_digit b || ((97 <=? b) && (b <=? 102)).

Definition hex_value (value : Z) : Z :=
  if (48 <=? value) && (value <=? 57) then value - 48
  else if (97 <=? value) && (value <=? 102) then value - 97 + 10
  else 0.

(** The loop over [hex.as_bytes().chunks(2)]; the length test before it leaves
    no odd chunk. *)
Fixpoint parse_pairs (s : rstring) : result (list Z) HashParseError :=
  match s with
  | a :: b :: s' =>
      if negb (hex_char a && hex_char b) then Err InvalidHex
      else
        let? rest := parse_pairs s' in
        Ok (Z.lor (Z.shiftl (hex_value a) 4) (hex_value b) :: rest)
  | [_] => Err InvalidHex
  | [] => Ok []
  end.

Definition from_str (value : rstring) : result (list Z) HashParseError :=
  match strip_prefix SHA256_PREFIX value with
  | None => Err InvalidAlgorithm
  | Some hex =>
      if negb (len hex =? SHA256_HEX_LENGTH) then Err InvalidLength else parse_pairs hex
  end.

(** [TryFrom<&[u8]>]. *)
Definition try_from (value : list Z) : result (list Z) HashParseError :=
  if len value =? 32 then Ok value else Err InvalidLength.

(** [write!("{byte:02x}")]. *)
Definition hex_digit (n : Z) : Z := if n <? 10 then 48 + n else 97 + (n - 10).
Definition hex_byte (b : Z) : rstring := [hex_digit (b / 16); hex_digit (b mod 16)].
Definition hex_bytes (d : list Z) : rstring := flat_map hex_byte d.

Definition fmt (d : list Z) : rstring := SHA256_PREFIX ++ hex_bytes d.

Lemma hex_value_digit n : 0 <= n < 16 -> hex_char (hex_digit n) = true /\ hex_value (hex_digit n) = n.
Proof.
  intros H. assert (n ∈ seqZ 0 16) as Hin by (apply elem_of_seqZ; lia).
  clear H. revert n Hin. apply Forall_forall. vm_compute. repeat constructor.
Qed.

Lemma hex_digit_value b : hex_char b = true -> 0 <= hex_value b < 16 /\ hex_digit (hex_value b) = b.
Proof.
  intros H. assert (b ∈ seqZ 48 55) as Hin.
  { apply elem_of_seqZ. unfold hex_char, is_ascii_digit in H.
    apply orb_true_iff in H as [H|H]; rust_bool; lia. }
  enough (Forall (fun c => hex_char c = true ->
                    0 <= hex_value c < 16 /\ hex_digit (hex_value c) = c) (seqZ 48 55)) as HF
    by (rewrite Forall_forall in HF; auto).
  vm_compute. repeat constructor; intros; done.
Qed.

(** The shift-and-or of two nibbles is their base-16 value. *)
Lemma pair_lor a b : 0 <= a < 16 -> 0 <= b < 16 -> Z.lor (Z.shiftl a 4) b = a * 16 + b.
Proof.
  intros Ha Hb. assert (a ∈ seqZ 0 16) as Ha' by (apply elem_of_seqZ; lia).
  assert (b ∈ seqZ 0 16) as Hb' by (apply elem_of_seqZ; lia).
  clear Ha Hb. revert b Hb'. apply Forall_forall. revert a Ha'. apply Forall_forall.
  vm_compute. repeat constructor.
Qed.

Lemma parse_pairs_hex_bytes d : bytes_ok d -> parse_pairs (hex_bytes d) = Ok d.
Proof.
  induction 1 as [|b d Hb Hd IH]; [done|].
  change (parse_pairs (hex_digit (b / 16) :: hex_digit (b mod 16) :: hex_bytes d) = Ok (b :: d)).
  unfold byte_ok in Hb. pose proof (Z.mod_pos_bound b 16 ltac:(lia)).
  assert (0 <= b / 16 < 16)
    by (split; [apply Z.div_pos; lia|apply Z.div_lt_upper_bound; lia]).
  destruct (hex_value_digit (b / 16)) as [C1 V1]; [done|].
  destruct (hex_value_digit (b mod 16)) as [C2 V2]; [done|].
  simpl. rewrite C1, C2, IH, V1, V2. simpl. rewrite pair_lor by done.
  do 2 f_equal. pose proof (Z.div_mod b 16). lia.
Qed.

Lemma parse_pairs_Ok n s d :
  length s = (2 * n)%nat -> parse_pairs s = Ok d ->
  length d = n /\ bytes_ok d /\ s = hex_bytes d.
Proof.
  revert s d. induction n as [|n IH]; intros s d Hl H.
  - destruct s; [|done]. simpl in H. simplify_eq. split; [done|split; [constructor|done]].
  - destruct s as [|a [|b s]]; simpl in Hl; [lia|lia|].
    simpl in H. destruct (hex_char a) eqn:Ca; [|done]. destruct (hex_char b) eqn:Cb; [|done].
    simpl in H. destruct (parse_pairs s) as [r|] eqn:Er; [|done]. simplify_eq.
    destruct (IH s r) as (Hr & Hb & Hs); [lia|done|].
    destruct (hex_digit_value a Ca) as [Ra Da]. destruct (hex_digit_value b Cb) as [Rb Db].
    rewrite pair_lor by done. split; [by simpl; rewrite Hr|split].
    + constructor; [unfold byte_ok; lia|done].
    + change (hex_bytes (?x :: r)) with (hex_byte x ++ hex_bytes r). rewrite <- Hs. unfold hex_byte.
      replace ((hex_value a * 16 + hex_value b) / 16) with (hex_value a)
        by (apply Z.div_unique with (hex_value b); lia).
      replace ((hex_value a * 16 + hex_value b) mod 16) with (hex_value b)
        by (apply Z.mod_unique with (hex_value a); lia).
      by rewrite Da, Db.
Qed.

(** The digest text form is canonical: exactly the printed digests parse, each
    to the digest it was printed from (32 bytes, lower-case hexadecimal). *)
Theorem from_str_fmt s d : from_str s = Ok d <-> digest_ok d /\ s = fmt d.
Proof.
  unfold from_str, fmt, digest_ok, len, SHA256_HEX_LENGTH. split.
  - destruct (strip_prefix SHA256_PREFIX s) as [hex|] eqn:E; [|done].
    apply strip_prefix_Some in E as ->. case_match; rust_bool; [done|]. intros Hp.
    apply (parse_pairs_Ok 32) in Hp as (Hl & Hb & ->); [done|lia].
  - intros ((Hl & Hb) & ->). rewrite strip_prefix_app.
    assert (length (hex_bytes d) = (2 * length d)%nat) as Hh.
    { clear. induction d; simpl; [done|]. unfold hex_bytes in *. simpl. lia. }
    rewrite Hh, Hl. simpl. by apply parse_pairs_hex_bytes.
Qed.

End Sha256.

(** ** Opaque tokens ([tokens.rs]) *)

Module Token.

Inductive TokenError : Type := Empty | TooShort | TooLong | ControlCharacter.

Definition validate_token (value : rstring) (minimum_length : Z) (maximum_length : option Z) :
  result unit TokenError :=
  if is_empty value then Err Empty
  else if len (chars value) <? minimum_length then Err TooShort
  else if is_some_and maximum_length (fun maximum => maximum <? len (chars value))
  then Err TooLong
  else if existsb is_control (chars value) then Err ControlCharacter
  else Ok tt.

(** [Etag::try_new] and [OpaqueCursor::try_new]. *)
Definition Etag_try_new (value : rstring) : result rstring TokenError :=
  let? _ := validate_token value 3 (Some 256) in Ok value.
Definition OpaqueCursor_try_new (value : rstring) : result rstring TokenError :=
  let? _ := validate_token value 1 None in Ok value.

End Token.

(** ** Identifiers ([ids.rs]) *)

Module Ids.

Inductive IdParseError : Type := InvalidUuid | NonCanonical | InvalidVariant | NotUuidV7.

(** The UUID as a 128-bit integer; [as_bytes] are its 16 big-endian bytes. *)
Definition as_bytes (id : Z) : rstring := be_bytes 16 id.
Definition id_ok (id : Z) : Prop := 0 <= id < 2 ^ 128.

Definition byte_at (id : Z) (i : nat) : Z := nth i (as_bytes id) 0.

Definition validate_uuid (value : Z) : result Z IdParseError :=
  if negb (Z.shiftr (byte_at value 6) 4 =? 7) then Err NotUuidV7
  else if negb (Z.land (byte_at value 8) 192 =? 128) then Err InvalidVariant
  else Ok value.

Lemma as_bytes_inj a b : id_ok a -> id_ok b -> as_bytes a = as_bytes b -> a = b.
Proof. apply (be_bytes_inj 16). Qed.

Lemma length_as_bytes a : length (as_bytes a) = 16%nat.
Proof. apply length_be_bytes. Qed.

(** The [uuid] crate's parser and printer are parameters of [parse_uuid]. *)
Section Parse.
Context (parse_str : rstring -> option Z) (hyphenated : Z -> rstring).

Definition parse_uuid (value : rstring) : result Z IdParseError :=
  match parse_str value with
  | None => Err InvalidUuid
  | Some uuid =>
      if value != hyphenated uuid then Err NonCanonical else validate_uuid uuid
  end.

(** What [uuid] documents: its parser accepts the hyphenated form it prints. *)
Hypothesis parse_hyphenated : forall u, id_ok u -> parse_str (hyphenated u) = Some u.

(** Identifier parsing accepts exactly one spelling of every valid UUIDv7 and
    nothing else: whatever other forms the library parser understands are
    refused. *)
Theorem parse_uuid_canonical s u :
  id_ok u ->
  parse_uuid s = Ok u <-> s = hyphenated u /\ validate_uuid u = Ok u.
Proof.
  intros Hu. unfold parse_uuid. split.
  - destruct (parse_str s) as [v|] eqn:E; [|done]. case_match; [done|]. rust_bool.
    intros Hv. assert (v = u) as -> by (unfold validate_uuid in Hv; repeat case_match; congruence).
    done.
  - intros [-> Hv]. rewrite parse_hyphenated by done. by rewrite bool_decide_true.
Qed.

End Parse.

(** A concrete printer and parser with the documented behaviour: the 16 raw
    bytes. *)
Lemma be_val_as_bytes u : id_ok u -> be_val (as_bytes u) = u.
Proof. intros Hu. unfold as_bytes. rewrite be_val_be_bytes. by apply Z.mod_small. Qed.

Lemma parse_uuid_canonical_witness :
  let u := be_val [1; 141; 0; 0; 0; 0; 112; 0; 128; 0; 0; 0; 0; 0; 0; 1] in
  parse_uuid (fun s => Some (be_val s)) as_bytes (as_bytes u) = Ok u <->
  as_bytes u = as_bytes u /\ validate_uuid u = Ok u.
Proof.
  apply (parse_uuid_canonical (fun s => Some (be_val s)) as_bytes).
  - intros v Hv. by rewrite be_val_as_bytes.
  - by vm_compute.
Defined.

End Ids.
