(* ===== verification/Vocabulary.v ===== *)
(** * The closed vocabularies of [crates/core]

    Every enumeration the domain persists or puts on the wire, with the text
    its [as_str] writes and its [FromStr] reads.  The interface between them is
    the class [Vocabulary]: a parser accepts a text exactly when the text is,
    up to the parser's case folding, the one [as_str] writes, so every value
    has one spelling and every other text is an error.  Each enumeration below
    discharges it. *)

From S2P Require Import Prelude.

(** A Rust [match] on string literals: the first equal literal wins. *)
Fixpoint match_str {T} (table : list (rstring * T)) (value : rstring) : option T :=
  match table with
  | [] => None
  | (key, x) :: table' => if value == key then Some x else match_str table' value
  end.

(** The chain of [value.eq_ignore_ascii_case(literal)] tests. *)
Fixpoint match_str_ignore_case {T} (table : list (rstring * T)) (value : rstring) : option T :=
  match table with
  | [] => None
  | (key, x) :: table' =>
      if eq_ignore_ascii_case value key then Some x else match_str_ignore_case table' value
  end.

Class Vocabulary {T} (as_str : T -> rstring) (from_str : rstring -> option T)
  (fold : rstring -> rstring) : Prop :=
  vocabulary_spec : forall s x, from_str s = Some x <-> fold s = fold (as_str x).

(** What every client of a vocabulary may rely on. *)
Section Clients.
Context {T} (as_str : T -> rstring) (from_str : rstring -> option T) (fold : rstring -> rstring).
Context `{!Vocabulary as_str from_str fold}.

Lemma from_str_as_str x : from_str (as_str x) = Some x.
Proof. by apply vocabulary_spec. Qed.

Lemma as_str_inj x y : as_str x = as_str y -> x = y.
Proof.
  intros H. assert (Some x = Some y) by (rewrite <- !from_str_as_str; by rewrite H).
  congruence.
Qed.

End Clients.

(** Proves a [Vocabulary] instance by walking the parser's table. *)
Ltac solve_vocabulary :=
  let s := fresh "s" in let x := fresh "x" in
  intros s x;
  match goal with
  | |- ?f s = Some x <-> _ => unfold f
  end;
  cbn [match_str match_str_ignore_case]; unfold eq_ignore_ascii_case; split;
  [ repeat case_bool_decide; intros; simplify_eq; unfold id in *; first [assumption | reflexivity]
  | let H := fresh in
    destruct x; intros H; unfold id in H; rewrite ?H; vm_compute in H |- *; subst; reflexivity ].

(** ** Enumerations of [models.rs] *)

Module UserStatus.

Inductive t : Type := Pending | Active | Locked | Disabled.

#[global] Instance t_eq_dec : EqDecision t.
Proof. solve_decision. Defined.

Definition as_str (self : t) : rstring :=
  match self with
  | Pending => lit "PENDING"
  | Active => lit "ACTIVE"
  | Locked => lit "LOCKED"
  | Disabled => lit "DISABLED"
  end.

End UserStatus.

Module DeviceStatus.

Inductive t : Type := Pending | Active | Paused | Revoked.

#[global] Instance t_eq_dec : EqDecision t.
Proof. solve_decision. Defined.

Definition as_str (self : t) : rstring :=
  match self with
  | Pending => lit "PENDING"
  | Active => lit "ACTIVE"
  | Paused => lit "PAUSED"
  | Revoked => lit "REVOKED"
  end.

End DeviceStatus.

Module LibraryStatus.

Inductive t : Type := Active | ReadOnly | Quarantined | Deleting.

#[global] Instance t_eq_dec : EqDecision t.
Proof. solve_decision. Defined.

Definition as_str (self : t) : rstring :=
  match self with
  | Active => lit "ACTIVE"
  | ReadOnly => lit "READ_ONLY"
  | Quarantined => lit "QUARANTINED"
  | Deleting => lit "DELETING"
  end.

End LibraryStatus.

Module NodeKind.

Inductive t : Type := File | Directory.

#[global] Instance t_eq_dec : EqDecision t.
Proof. solve_decision. Defined.

Definition as_str (self : t) : rstring :=
  match self with
  | File => lit "FILE"
  | Directory => lit "DIRECTORY"
  end.

End NodeKind.

Module NodeState.

Inductive t : Type := Active | Trashed | Purging.

#[global] Instance t_eq_dec : EqDecision t.
Proof. solve_decision. Defined.

Definition as_str (self : t) : rstring :=
  match self with
  | Active => lit "ACTIVE"
  | Trashed => lit "TRASHED"
  | Purging => lit "PURGING"
  end.

End NodeState.

(** ** Enumerations of [uploads.rs] *)

Module UploadOperation.

Inductive t : Type := CreateFile | ReplaceContent.

#[global] Instance t_eq_dec : EqDecision t.
Proof. solve_decision. Defined.

Definition as_str (self : t) : rstring :=
  match self with
  | CreateFile => lit "CREATE_FILE"
  | ReplaceContent => lit "REPLACE_CONTENT"
  end.

Definition from_str (value : rstring) : option t :=
  match_str [
    (lit "CREATE_FILE", CreateFile);
    (lit "REPLACE_CONTENT", ReplaceContent)] value.

#[global] Instance vocabulary : Vocabulary as_str from_str id.
Proof. solve_vocabulary. Qed.

End UploadOperation.

Module UploadSessionState.

Inductive t : Type := Open | Verifying | Committing | Committed | Failed | Expired | Aborted.

#[global] Instance t_eq_dec : EqDecision t.
Proof. solve_decision. Defined.

Definition as_str (self : t) : rstring :=
  match self with
  | Open => lit "OPEN"
  | Verifying => lit "VERIFYING"
  | Committing => lit "COMMITTING"
  | Committed => lit "COMMITTED"
  | Failed => lit "FAILED"
  | Expired => lit "EXPIRED"
  | Aborted => lit "ABORTED"
  end.

Definition from_str (value : rstring) : option t :=
  match_str [
    (lit "OPEN", Open);
    (lit "VERIFYING", Verifying);
    (lit "COMMITTING", Committing);
    (lit "COMMITTED", Committed);
    (lit "FAILED", Failed);
    (lit "EXPIRED", Expired);
    (lit "ABORTED", Aborted)] value.

#[global] Instance vocabulary : Vocabulary as_str from_str id.
Proof. solve_vocabulary. Qed.

End UploadSessionState.

(** ** Enumerations of [journal.rs] *)

Module ChangeResourceKind.

Inductive t : Type := Node.

#[global] Instance t_eq_dec : EqDecision t.
Proof. solve_decision. Defined.

Definition as_str (self : t) : rstring :=
  match self with
  | Node => lit "NODE"
  end.

Definition from_str (value : rstring) : option t :=
  match_str [
    (lit "NODE", Node)] value.

#[global] Instance vocabulary : Vocabulary as_str from_str id.
Proof. solve_vocabulary. Qed.

End ChangeResourceKind.

Module ChangeKind.

Inductive t : Type :=
| NodeCreated
| NodeRenamed
| NodeMoved
| NodeTrashed
| NodeRestored
| FileContentCommitted
| FileVersionRestored
| NodePurged.

#[global] Instance t_eq_dec : EqDecision t.
Proof. solve_decision. Defined.

Definition as_str (self : t) : rstring :=
  match self with
  | NodeCreated => lit "NODE_CREATED"
  | NodeRenamed => lit "NODE_RENAMED"
  | NodeMoved => lit "NODE_MOVED"
  | NodeTrashed => lit "NODE_TRASHED"
  | NodeRestored => lit "NODE_RESTORED"
  | FileContentCommitted => lit "FILE_CONTENT_COMMITTED"
  | FileVersionRestored => lit "FILE_VERSION_RESTORED"
  | NodePurged => lit "NODE_PURGED"
  end.

Definition from_str (value : rstring) : option t :=
  match_str [
    (lit "NODE_CREATED", NodeCreated);
    (lit "NODE_RENAMED", NodeRenamed);
    (lit "NODE_MOVED", NodeMoved);
    (lit "NODE_TRASHED", NodeTrashed);
    (lit "NODE_RESTORED", NodeRestored);
    (lit "FILE_CONTENT_COMMITTED", FileContentCommitted);
    (lit "FILE_VERSION_RESTORED", FileVersionRestored);
    (lit "NODE_PURGED", NodePurged)] value.

#[global] Instance vocabulary : Vocabulary as_str from_str id.
Proof. solve_vocabulary. Qed.

End ChangeKind.

(** ** Enumerations of [conflicts.rs] *)

Module ConflictLifecycle.

Inductive t : Type := Open | Resolved | Dismissed.

#[global] Instance t_eq_dec : EqDecision t.
Proof. solve_decision. Defined.

Definition as_str (self : t) : rstring :=
  match self with
  | Open => lit "OPEN"
  | Resolved => lit "RESOLVED"
  | Dismissed => lit "DISMISSED"
  end.

Definition from_str (value : rstring) : option t :=
  match_str [
    (lit "OPEN", Open);
    (lit "RESOLVED", Resolved);
    (lit "DISMISSED", Dismissed)] value.

#[global] Instance vocabulary : Vocabulary as_str from_str id.
Proof. solve_vocabulary. Qed.

End ConflictLifecycle.

Module ConflictResolutionAction.

Inductive t : Type := AcceptServer | ApplyClientIntent.

#[global] Instance t_eq_dec : EqDecision t.
Proof. solve_decision. Defined.

Definition as_str (self : t) : rstring :=
  match self with
  | AcceptServer => lit "ACCEPT_SERVER"
  | ApplyClientIntent => lit "APPLY_CLIENT_INTENT"
  end.

Definition from_str (value : rstring) : option t :=
  match_str [
    (lit "ACCEPT_SERVER", AcceptServer);
    (lit "APPLY_CLIENT_INTENT", ApplyClientIntent)] value.

#[global] Instance vocabulary : Vocabulary as_str from_str id.
Proof. solve_vocabulary. Qed.

End ConflictResolutionAction.

(** ** Enumerations of [mutations.rs] *)

Module ClientMutationKind.

Inductive t : Type := CreateDirectory | RenameNode | MoveNode | TrashNode | RestoreNode.

#[global] Instance t_eq_dec : EqDecision t.
Proof. solve_decision. Defined.

Definition as_str (self : t) : rstring :=
  match self with
  | CreateDirectory => lit "CREATE_DIRECTORY"
  | RenameNode => lit "RENAME_NODE"
  | MoveNode => lit "MOVE_NODE"
  | TrashNode => lit "TRASH_NODE"
  | RestoreNode => lit "RESTORE_NODE"
  end.

Definition from_str (value : rstring) : option t :=
  match_str [
    (lit "CREATE_DIRECTORY", CreateDirectory);
    (lit "RENAME_NODE", RenameNode);
    (lit "MOVE_NODE", MoveNode);
    (lit "TRASH_NODE", TrashNode);
    (lit "RESTORE_NODE", RestoreNode)] value.

#[global] Instance vocabulary : Vocabulary as_str from_str id.
Proof. solve_vocabulary. Qed.

End ClientMutationKind.

(** ** Enumerations of [rebaseline.rs] *)

Module SyncBootstrapState.

Inductive t : Type := Open | Completed | Aborted | Expired.

#[global] Instance t_eq_dec : EqDecision t.
Proof. solve_decision. Defined.

Definition as_str (self : t) : rstring :=
  match self with
  | Open => lit "OPEN"
  | Completed => lit "COMPLETED"
  | Aborted => lit "ABORTED"
  | Expired => lit "EXPIRED"
  end.

Definition from_str (value : rstring) : option t :=
  match_str [
    (lit "OPEN", Open);
    (lit "COMPLETED", Completed);
    (lit "ABORTED", Aborted);
    (lit "EXPIRED", Expired)] value.

#[global] Instance vocabulary : Vocabulary as_str from_str id.
Proof. solve_vocabulary. Qed.

End SyncBootstrapState.

(** ** Enumerations of [backup.rs] *)

Module BackupOperationKind.

Inductive t : Type := Maintenance | Restore | Prune.

#[global] Instance t_eq_dec : EqDecision t.
Proof. solve_decision. Defined.

Definition as_str (self : t) : rstring :=
  match self with
  | Maintenance => lit "MAINTENANCE"
  | Restore => lit "RESTORE"
  | Prune => lit "PRUNE"
  end.

Definition from_str (value : rstring) : option t :=
  match_str_ignore_case [
    (lit "MAINTENANCE", Maintenance);
    (lit "RESTORE", Restore);
    (lit "PRUNE", Prune)] value.

#[global] Instance vocabulary : Vocabulary as_str from_str (map to_ascii_lowercase).
Proof. solve_vocabulary. Qed.

End BackupOperationKind.

Module BackupSource.

Inductive t : Type := Library.

#[global] Instance t_eq_dec : EqDecision t.
Proof. solve_decision. Defined.

Definition as_str (self : t) : rstring :=
  match self with
  | Library => lit "LIBRARY"
  end.

Definition from_str (value : rstring) : option t :=
  match_str [
    (lit "LIBRARY", Library)] value.

#[global] Instance vocabulary : Vocabulary as_str from_str id.
Proof. solve_vocabulary. Qed.

End BackupSource.

Module BackupSetState.

Inductive t : Type := Created | Active | Disabled.

#[global] Instance t_eq_dec : EqDecision t.
Proof. solve_decision. Defined.

Definition as_str (self : t) : rstring :=
  match self with
  | Created => lit "CREATED"
  | Active => lit "ACTIVE"
  | Disabled => lit "DISABLED"
  end.

Definition from_str (value : rstring) : option t :=
  match_str [
    (lit "CREATED", Created);
    (lit "ACTIVE", Active);
    (lit "DISABLED", Disabled)] value.

#[global] Instance vocabulary : Vocabulary as_str from_str id.
Proof. solve_vocabulary. Qed.

End BackupSetState.

Module SnapshotState.

Inductive t : Type := Building | Completed | Failed | Expired.

#[global] Instance t_eq_dec : EqDecision t.
Proof. solve_decision. Defined.

Definition as_str (self : t) : rstring :=
  match self with
  | Building => lit "BUILDING"
  | Completed => lit "COMPLETED"
  | Failed => lit "FAILED"
  | Expired => lit "EXPIRED"
  end.

Definition from_str (value : rstring) : option t :=
  match_str [
    (lit "BUILDING", Building);
    (lit "COMPLETED", Completed);
    (lit "FAILED", Failed);
    (lit "EXPIRED", Expired)] value.

#[global] Instance vocabulary : Vocabulary as_str from_str id.
Proof. solve_vocabulary. Qed.

End SnapshotState.

Module BackupRestorePlanState.

Inductive t : Type := Planned | Stale | Executed.

#[global] Instance t_eq_dec : EqDecision t.
Proof. solve_decision. Defined.

Definition as_str (self : t) : rstring :=
  match self with
  | Planned => lit "PLANNED"
  | Stale => lit "STALE"
  | Executed => lit "EXECUTED"
  end.

Definition from_str (value : rstring) : option t :=
  match_str [
    (lit "PLANNED", Planned);
    (lit "STALE", Stale);
    (lit "EXECUTED", Executed)] value.

#[global] Instance vocabulary : Vocabulary as_str from_str id.
Proof. solve_vocabulary. Qed.

End BackupRestorePlanState.

Module BackupRestoreAction.

Inductive t : Type := CreateDirectory | CreateFile.

#[global] Instance t_eq_dec : EqDecision t.
Proof. solve_decision. Defined.

Definition as_str (self : t) : rstring :=
  match self with
  | CreateDirectory => lit "CREATE_DIRECTORY"
  | CreateFile => lit "CREATE_FILE"
  end.

Definition from_str (value : rstring) : option t :=
  match_str [
    (lit "CREATE_DIRECTORY", CreateDirectory);
    (lit "CREATE_FILE", CreateFile)] value.

#[global] Instance vocabulary : Vocabulary as_str from_str id.
Proof. solve_vocabulary. Qed.

End BackupRestoreAction.

Module BackupPrunePlanState.

Inductive t : Type := Planned | Stale | Executed.

#[global] Instance t_eq_dec : EqDecision t.
Proof. solve_decision. Defined.

Definition as_str (self : t) : rstring :=
  match self with
  | Planned => lit "PLANNED"
  | Stale => lit "STALE"
  | Executed => lit "EXECUTED"
  end.

Definition from_str (value : rstring) : option t :=
  match_str [
    (lit "PLANNED", Planned);
    (lit "STALE", Stale);
    (lit "EXECUTED", Executed)] value.

#[global] Instance vocabulary : Vocabulary as_str from_str id.
Proof. solve_vocabulary. Qed.

End BackupPrunePlanState.

Module BackupPruneImpact.

Inductive t : Type := RetainedByOtherReference | WouldBecomeUnreferenced.

#[global] Instance t_eq_dec : EqDecision t.
Proof. solve_decision. Defined.

Definition as_str (self : t) : rstring :=
  match self with
  | RetainedByOtherReference => lit "RETAINED_BY_OTHER_REFERENCE"
  | WouldBecomeUnreferenced => lit "WOULD_BECOME_UNREFERENCED"
  end.

Definition from_str (value : rstring) : option t :=
  match_str [
    (lit "RETAINED_BY_OTHER_REFERENCE", RetainedByOtherReference);
    (lit "WOULD_BECOME_UNREFERENCED", WouldBecomeUnreferenced)] value.

#[global] Instance vocabulary : Vocabulary as_str from_str id.
Proof. solve_vocabulary. Qed.

End BackupPruneImpact.

Module BackupSnapshotExpiryPlanState.

Inductive t : Type := Planned | Stale | Executed.

#[global] Instance t_eq_dec : EqDecision t.
Proof. solve_decision. Defined.

Definition as_str (self : t) : rstring :=
  match self with
  | Planned => lit "PLANNED"
  | Stale => lit "STALE"
  | Executed => lit "EXECUTED"
  end.

Definition from_str (value : rstring) : option t :=
  match_str [
    (lit "PLANNED", Planned);
    (lit "STALE", Stale);
    (lit "EXECUTED", Executed)] value.

#[global] Instance vocabulary : Vocabulary as_str from_str id.
Proof. solve_vocabulary. Qed.

End BackupSnapshotExpiryPlanState.

Module BackupSnapshotExpiryDecision.

Inductive t : Type := KeepLatest | KeepRecent | BlockedActiveRestorePlan | Expire.

#[global] Instance t_eq_dec : EqDecision t.
Proof. solve_decision. Defined.

Definition as_str (self : t) : rstring :=
  match self with
  | KeepLatest => lit "KEEP_LATEST"
  | KeepRecent => lit "KEEP_RECENT"
  | BlockedActiveRestorePlan => lit "BLOCKED_ACTIVE_RESTORE_PLAN"
  | Expire => lit "EXPIRE"
  end.

Definition from_str (value : rstring) : option t :=
  match_str [
    (lit "KEEP_LATEST", KeepLatest);
    (lit "KEEP_RECENT", KeepRecent);
    (lit "BLOCKED_ACTIVE_RESTORE_PLAN", BlockedActiveRestorePlan);
    (lit "EXPIRE", Expire)] value.

#[global] Instance vocabulary : Vocabulary as_str from_str id.
Proof. solve_vocabulary. Qed.

End BackupSnapshotExpiryDecision.

Module BackupMaintenanceRunState.

Inductive t : Type := Created | SnapshotCaptured | ExpiryPlanned | Completed | Stale.

#[global] Instance t_eq_dec : EqDecision t.
Proof. solve_decision. Defined.

Definition as_str (self : t) : rstring :=
  match self with
  | Created => lit "CREATED"
  | SnapshotCaptured => lit "SNAPSHOT_CAPTURED"
  | ExpiryPlanned => lit "EXPIRY_PLANNED"
  | Completed => lit "COMPLETED"
  | Stale => lit "STALE"
  end.

Definition from_str (value : rstring) : option t :=
  match_str [
    (lit "CREATED", Created);
    (lit "SNAPSHOT_CAPTURED", SnapshotCaptured);
    (lit "EXPIRY_PLANNED", ExpiryPlanned);
    (lit "COMPLETED", Completed);
    (lit "STALE", Stale)] value.

#[global] Instance vocabulary : Vocabulary as_str from_str id.
Proof. solve_vocabulary. Qed.

End BackupMaintenanceRunState.

(** ** Enumerations of [scheduling.rs] *)

Module BackupScheduleMisfireMode.

Inductive t : Type := ReplayOneByOne | LatestOnly.

#[global] Instance t_eq_dec : EqDecision t.
Proof. solve_decision. Defined.

Definition as_str (self : t) : rstring :=
  match self with
  | ReplayOneByOne => lit "REPLAY_ONE_BY_ONE"
  | LatestOnly => lit "LATEST_ONLY"
  end.

Definition from_str (value : rstring) : option t :=
  match_str_ignore_case [
    (lit "REPLAY_ONE_BY_ONE", ReplayOneByOne);
    (lit "LATEST_ONLY", LatestOnly)] value.

#[global] Instance vocabulary : Vocabulary as_str from_str (map to_ascii_lowercase).
Proof. solve_vocabulary. Qed.

End BackupScheduleMisfireMode.

Module BackupScheduleRecurrenceKind.

Inductive t : Type := Daily | Weekly.

#[global] Instance t_eq_dec : EqDecision t.
Proof. solve_decision. Defined.

Definition as_str (self : t) : rstring :=
  match self with
  | Daily => lit "DAILY"
  | Weekly => lit "WEEKLY"
  end.

Definition from_str (value : rstring) : option t :=
  match_str_ignore_case [
    (lit "DAILY", Daily);
    (lit "WEEKLY", Weekly)] value.

#[global] Instance vocabulary : Vocabulary as_str from_str (map to_ascii_lowercase).
Proof. solve_vocabulary. Qed.

End BackupScheduleRecurrenceKind.

Module BackupScheduleWeekday.

Inductive t : Type := Monday | Tuesday | Wednesday | Thursday | Friday | Saturday | Sunday.

#[global] Instance t_eq_dec : EqDecision t.
Proof. solve_decision. Defined.

Definition as_str (self : t) : rstring :=
  match self with
  | Monday => lit "MONDAY"
  | Tuesday => lit "TUESDAY"
  | Wednesday => lit "WEDNESDAY"
  | Thursday => lit "THURSDAY"
  | Friday => lit "FRIDAY"
  | Saturday => lit "SATURDAY"
  | Sunday => lit "SUNDAY"
  end.

Definition from_str (value : rstring) : option t :=
  match_str [
    (lit "MONDAY", Monday);
    (lit "TUESDAY", Tuesday);
    (lit "WEDNESDAY", Wednesday);
    (lit "THURSDAY", Thursday);
    (lit "FRIDAY", Friday);
    (lit "SATURDAY", Saturday);
    (lit "SUNDAY", Sunday)] (map to_ascii_uppercase value).

#[global] Instance vocabulary : Vocabulary as_str from_str (map to_ascii_uppercase).
Proof. solve_vocabulary. Qed.

End BackupScheduleWeekday.
