(* ===== verification/Models.v ===== *)
(** * The logical namespace ([crates/core/src/domain/{errors,names,models}.rs])

    [DomainError] is the error type of the whole domain layer; [Names] models
    [names.rs]; [Device], [Library], [Node] and [FileVersion] model the
    structures of [models.rs] with every operation.  A method on [&mut self]
    that can fail returns the state it leaves behind together with its result,
    on the error paths too.  Identifiers, revisions and instants (nanoseconds
    since the Unix epoch) are integers. *)

From S2P Require Import Prelude Vocabulary.

(** ** Errors ([errors.rs]) *)

Inductive DomainError : Type :=
| EmptyName | NameTooLong
| EmptyLoginIdentifier | LoginIdentifierTooLong | EmptyLoginKey | LoginKeyTooLong
| RootMustBeDirectory | RootMustBeActive | RootCannotHaveParent | RootCannotBeDeleted
| RootNodeMismatch
| ParentMustBeDirectory | ParentMustBeActive | ParentLibraryMismatch | ParentReferenceMismatch
| ParentCannotBeSelf | ParentChainMismatch | ParentCycle
| DirectoryNotEmpty | InvalidTrashTimestamp | LibraryNotWritable | NodeLibraryMismatch
| DirectoryCannotReferenceFileVersion | FileVersionRequiresFileNode
| FileVersionLibraryMismatch | FileVersionNodeMismatch | ObjectDedupDomainMismatch
| FileVersionCannotParentItself
| InvalidNodeStateTransition (from to : NodeState.t)
| InvalidDeviceStateTransition (from to : DeviceStatus.t)
| InvalidBackupSetStateTransition (from to : BackupSetState.t)
| InvalidSnapshotStateTransition (from to : SnapshotState.t)
| BackupManifestInvalidNodeState | BackupManifestInvalidRootShape
| BackupManifestDirectoryHasContent | BackupManifestIncompleteContentMetadata
| BackupRestoreInvalidPlanState | BackupRestoreInvalidPlanEntry
| BackupPruneInvalidPlanState | BackupPruneInvalidPlanEntry
| BackupRetentionPolicyInvalidConfig | BackupRetentionPolicyInvalidRevision
| BackupSnapshotExpiryInvalidPlanState | BackupSnapshotExpiryInvalidPlanEntry
| BackupSnapshotExpiryInvalidExecution
| BackupMaintenanceRunInvalidState
| InvalidBackupMaintenanceRunStateTransition (from to : BackupMaintenanceRunState.t)
| BackupSetSourceMismatch | BackupSnapshotForeignKeyMismatch
| InvalidTimezone | InvalidLocalTime | InvalidWeeklyDays | InvalidBackupScheduleMaxLateness
| BackupScheduleInvalidRevision | BackupScheduleInvalidOccurrence
| BackupScheduleInvalidHandoff | BackupScheduleInvalidMisfireSkip
| BackupScheduleInvalidMaintenanceClaim | BackupScheduleMaintenanceLeaseLost
| BackupScheduleMaintenanceStaleRun | BackupScheduleMaintenanceInconsistentState
| RevisionOverflow.

#[global] Instance DomainError_eq_dec : EqDecision DomainError.
Proof. solve_decision. Defined.

(** ** Names ([names.rs]) *)

Module Names.

Definition MAX_LOGICAL_NAME_BYTES : Z := 1024.

Definition validate_text (value : rstring) (empty_error too_long_error : DomainError) :
  result unit DomainError :=
  if is_empty value then Err empty_error
  else if MAX_LOGICAL_NAME_BYTES <? len value then Err too_long_error
  else Ok tt.

Definition LogicalName_new (value : rstring) : result rstring DomainError :=
  let? _ := validate_text value EmptyName NameTooLong in Ok value.

Record LoginIdentifier := mk_LoginIdentifier { value : rstring; uniqueness_key : rstring }.

Definition LoginIdentifier_new (value uniqueness_key : rstring) :
  result LoginIdentifier DomainError :=
  let? _ := validate_text value EmptyLoginIdentifier LoginIdentifierTooLong in
  let? _ := validate_text uniqueness_key EmptyLoginKey LoginKeyTooLong in
  Ok (mk_LoginIdentifier value uniqueness_key).

(** The type invariant of a [LogicalName]. *)
Definition name_ok (name : rstring) : Prop := 1 <= len name <= MAX_LOGICAL_NAME_BYTES.

Lemma LogicalName_new_Ok value n :
  LogicalName_new value = Ok n <-> n = value /\ name_ok value.
Proof.
  unfold LogicalName_new, validate_text, name_ok, len.
  destruct value as [|b value]; simpl is_empty; cbv iota.
  - split; [done|]. simpl. lia.
  - assert (1 <= Z.of_nat (length (b :: value))) by (simpl length; lia).
    destruct (MAX_LOGICAL_NAME_BYTES <? _) eqn:E; rust_bool.
    + split; [done|lia].
    + split; [intros; simplify_eq; done|by intros [-> _]].
Qed.

End Names.

Definition INITIAL_REVISION : Z := 0.

(** ** Users ([User]) *)

Module User.

Record t := mk {
  id : Z; login : Names.LoginIdentifier; status : UserStatus.t; is_instance_admin : bool;
  created_at : Z; updated_at : Z; revision : Z }.

Definition rehydrate_with_admin (id : Z) (login : Names.LoginIdentifier) (status : UserStatus.t)
  (is_instance_admin : bool) (created_at updated_at revision : Z) : t :=
  mk id login status is_instance_admin created_at updated_at revision.

Definition rehydrate (id : Z) (login : Names.LoginIdentifier) (status : UserStatus.t)
  (created_at updated_at revision : Z) : t :=
  rehydrate_with_admin id login status false created_at updated_at revision.

Definition new (id : Z) (login : Names.LoginIdentifier) (status : UserStatus.t)
  (observed_at : Z) : t :=
  rehydrate id login status observed_at observed_at INITIAL_REVISION.

End User.

(** ** Devices ([Device]) *)

Module Device.

Record t := mk {
  id : Z; owner_user_id : Z; display_name : rstring; status : DeviceStatus.t;
  created_at : Z; updated_at : Z; revision : Z }.

Definition rehydrate (id owner_user_id : Z) (display_name : rstring) (status : DeviceStatus.t)
  (created_at updated_at revision : Z) : t :=
  mk id owner_user_id display_name status created_at updated_at revision.

Definition new (id owner_user_id : Z) (display_name : rstring) (observed_at : Z) : t :=
  rehydrate id owner_user_id display_name DeviceStatus.Pending observed_at observed_at
    INITIAL_REVISION.

Definition with_status (self : t) (status : DeviceStatus.t) : t :=
  mk (id self) (owner_user_id self) (display_name self) status (created_at self)
    (updated_at self) (revision self).

Definition bump_revision (self : t) (observed_at : Z) : t * result unit DomainError :=
  match checked_add64 (revision self) 1 with
  | None => (self, Err RevisionOverflow)
  | Some next =>
      (mk (id self) (owner_user_id self) (display_name self) (status self) (created_at self)
         observed_at next, Ok tt)
  end.

Definition transition_allowed (from to : DeviceStatus.t) : bool :=
  match from, to with
  | DeviceStatus.Pending, (DeviceStatus.Active | DeviceStatus.Revoked)
  | DeviceStatus.Active, (DeviceStatus.Paused | DeviceStatus.Revoked)
  | DeviceStatus.Paused, (DeviceStatus.Active | DeviceStatus.Revoked)
  | DeviceStatus.Revoked, DeviceStatus.Revoked => true
  | _, _ => false
  end.

Definition transition_status (self : t) (next : DeviceStatus.t) (observed_at : Z) :
  t * result unit DomainError :=
  if negb (transition_allowed (status self) next)
  then (self, Err (InvalidDeviceStateTransition (status self) next))
  else if status self != next then bump_revision (with_status self next) observed_at
  else (self, Ok tt).

End Device.

(** ** Object references and file versions ([ObjectReference], [FileVersion]) *)

Module ObjectReference.

Record t := mk {
  object_id : Z; dedup_domain_id : Z; canonical_hash : list Z; plaintext_length : Z }.

Definition new (object_id dedup_domain_id : Z) (canonical_hash : list Z)
  (plaintext_length : Z) : t :=
  mk object_id dedup_domain_id canonical_hash plaintext_length.

Definition verified (object_id dedup_domain_id : Z) (canonical_hash : list Z)
  (plaintext_length : Z) : t :=
  new object_id dedup_domain_id canonical_hash plaintext_length.

End ObjectReference.

Module FileVersion.

Record t := mk {
  id : Z; library_id : Z; node_id : Z; object : ObjectReference.t;
  parent_version_id : option Z; committed_at : Z; revision : Z }.

End FileVersion.

(** ** Nodes ([Node]) *)

Module Node.

Record t := mk {
  id : Z; library_id : Z; parent_node_id : option Z; kind : NodeKind.t; name : rstring;
  current_version_id : option Z; state : NodeState.t; trashed_at : option Z;
  created_at : Z; updated_at : Z; revision : Z }.

Definition is_root (self : t) : bool := is_none (parent_node_id self).

Definition rehydrate_with_trash (id library_id : Z) (parent_node_id : option Z)
  (kind : NodeKind.t) (name : rstring) (current_version_id : option Z) (state : NodeState.t)
  (trashed_at : option Z) (created_at updated_at revision : Z) : result t DomainError :=
  if is_none parent_node_id && (kind != NodeKind.Directory) then Err RootMustBeDirectory
  else if is_none parent_node_id && (state != NodeState.Active) then Err RootMustBeActive
  else if (state == NodeState.Active) != is_none trashed_at then Err InvalidTrashTimestamp
  else if parent_node_id == Some id then Err ParentCannotBeSelf
  else if (kind == NodeKind.Directory) && is_some current_version_id
  then Err DirectoryCannotReferenceFileVersion
  else Ok (mk id library_id parent_node_id kind name current_version_id state trashed_at
             created_at updated_at revision).

Definition rehydrate (id library_id : Z) (parent_node_id : option Z) (kind : NodeKind.t)
  (name : rstring) (current_version_id : option Z) (state : NodeState.t)
  (created_at updated_at revision : Z) : result t DomainError :=
  rehydrate_with_trash id library_id parent_node_id kind name current_version_id state None
    created_at updated_at revision.

(** [.expect("canonical root node state is valid")]: [None] is the panic. *)
Definition new_root (id library_id : Z) (name : rstring) (observed_at : Z) : option t :=
  expect (rehydrate id library_id None NodeKind.Directory name None NodeState.Active
            observed_at observed_at INITIAL_REVISION).

Definition root (id library_id : Z) (name : rstring) (observed_at : Z) : option t :=
  new_root id library_id name observed_at.

Definition new_child (id library_id : Z) (parent : t) (kind : NodeKind.t) (name : rstring)
  (observed_at : Z) : result t DomainError :=
  if Node.library_id parent != library_id then Err ParentLibraryMismatch
  else if Node.kind parent != NodeKind.Directory then Err ParentMustBeDirectory
  else if Node.state parent != NodeState.Active then Err ParentMustBeActive
  else if Node.id parent == id then Err ParentCannotBeSelf
  else rehydrate id library_id (Some (Node.id parent)) kind name None NodeState.Active
         observed_at observed_at INITIAL_REVISION.

Definition child (id : Z) (parent : t) (kind : NodeKind.t) (name : rstring) (observed_at : Z) :
  result t DomainError :=
  new_child id (library_id parent) parent kind name observed_at.

Definition validate_parent_relationship (self parent : t) : result unit DomainError :=
  match parent_node_id self with
  | None => Err RootCannotHaveParent
  | Some parent_id =>
      if parent_id != id parent then Err ParentReferenceMismatch
      else if library_id self != library_id parent then Err ParentLibraryMismatch
      else if kind parent != NodeKind.Directory then Err ParentMustBeDirectory
      else if state parent != NodeState.Active then Err ParentMustBeActive
      else if id parent == id self then Err ParentCannotBeSelf
      else Ok tt
  end.

(** The loop of [validate_parent_chain]: [expected] and [seen] are its locals. *)
Fixpoint parent_chain_loop (self : t) (expected : option Z) (seen : list Z)
  (ancestors : list t) : result unit DomainError :=
  match ancestors with
  | [] => Ok tt
  | ancestor :: rest =>
      match expected with
      | None => Err ParentChainMismatch
      | Some expected_parent_id =>
          if id ancestor != expected_parent_id then Err ParentChainMismatch
          else if (id ancestor == id self) || bool_decide (id ancestor ∈ seen)
          then Err ParentCycle
          else if library_id ancestor != library_id self then Err ParentLibraryMismatch
          else if state ancestor != NodeState.Active then Err ParentMustBeActive
          else if kind ancestor != NodeKind.Directory then Err ParentMustBeDirectory
          else parent_chain_loop self (parent_node_id ancestor) (seen ++ [id ancestor]) rest
      end
  end.

Definition validate_parent_chain (self : t) (ancestors : list t) : result unit DomainError :=
  parent_chain_loop self (parent_node_id self) [] ancestors.

Definition validate_move_parent (self candidate_parent : t) (ancestors : list t) :
  result unit DomainError :=
  if library_id candidate_parent != library_id self then Err ParentLibraryMismatch
  else if kind candidate_parent != NodeKind.Directory then Err ParentMustBeDirectory
  else if state candidate_parent != NodeState.Active then Err ParentMustBeActive
  else if id candidate_parent == id self then Err ParentCannotBeSelf
  else if existsb (fun ancestor => id ancestor == id self) ancestors then Err ParentCycle
  else validate_parent_chain candidate_parent ancestors.

(** Field updates of [&mut self]. *)
Definition with_name (self : t) (v : rstring) : t :=
  mk (id self) (library_id self) (parent_node_id self) (kind self) v (current_version_id self)
    (state self) (trashed_at self) (created_at self) (updated_at self) (revision self).
Definition with_parent (self : t) (v : option Z) : t :=
  mk (id self) (library_id self) v (kind self) (name self) (current_version_id self)
    (state self) (trashed_at self) (created_at self) (updated_at self) (revision self).
Definition with_version (self : t) (v : option Z) : t :=
  mk (id self) (library_id self) (parent_node_id self) (kind self) (name self) v
    (state self) (trashed_at self) (created_at self) (updated_at self) (revision self).
Definition with_state (self : t) (s : NodeState.t) (at_ : option Z) : t :=
  mk (id self) (library_id self) (parent_node_id self) (kind self) (name self)
    (current_version_id self) s at_ (created_at self) (updated_at self) (revision self).

Definition bump_revision (self : t) (observed_at : Z) : t * result unit DomainError :=
  match checked_add64 (revision self) 1 with
  | None => (self, Err RevisionOverflow)
  | Some next =>
      (mk (id self) (library_id self) (parent_node_id self) (kind self) (name self)
         (current_version_id self) (state self) (trashed_at self) (created_at self)
         observed_at next, Ok tt)
  end.

Definition rename (self : t) (name : rstring) (observed_at : Z) : t * result unit DomainError :=
  if Node.name self != name then bump_revision (with_name self name) observed_at
  else (self, Ok tt).

Definition move_to (self parent : t) (observed_at : Z) : t * result unit DomainError :=
  if is_root self then (self, Err RootCannotHaveParent)
  else if library_id self != library_id parent then (self, Err ParentLibraryMismatch)
  else if kind parent != NodeKind.Directory then (self, Err ParentMustBeDirectory)
  else if state parent != NodeState.Active then (self, Err ParentMustBeActive)
  else if id parent == id self then (self, Err ParentCannotBeSelf)
  else if parent_node_id self != Some (id parent)
  then bump_revision (with_parent self (Some (id parent))) observed_at
  else (self, Ok tt).

(** [&self]: the receiver is cloned, an error leaves nothing behind. *)
Definition with_current_version (self : t) (version : FileVersion.t) (observed_at : Z) :
  result t DomainError :=
  if kind self == NodeKind.Directory then Err DirectoryCannotReferenceFileVersion
  else if FileVersion.library_id version != library_id self then Err FileVersionLibraryMismatch
  else if FileVersion.node_id version != id self then Err FileVersionNodeMismatch
  else
    match bump_revision (with_version self (Some (FileVersion.id version))) observed_at with
    | (next, Ok tt) => Ok next
    | (_, Err e) => Err e
    end.

Definition transition_allowed (from to : NodeState.t) : bool :=
  match from, to with
  | NodeState.Active, NodeState.Trashed
  | NodeState.Trashed, (NodeState.Active | NodeState.Purging)
  | NodeState.Purging, NodeState.Purging => true
  | _, _ => false
  end.

Definition transition_state (self : t) (next : NodeState.t) (observed_at : Z) :
  t * result unit DomainError :=
  if negb (transition_allowed (state self) next)
  then (self, Err (InvalidNodeStateTransition (state self) next))
  else if is_root self && ((next == NodeState.Trashed) || (next == NodeState.Purging))
  then (self, Err RootCannotBeDeleted)
  else if state self != next then
    let trashed := match next with
                   | NodeState.Active => None
                   | NodeState.Trashed => Some observed_at
                   | NodeState.Purging => trashed_at self
                   end in
    bump_revision (with_state self next trashed) observed_at
  else (self, Ok tt).

End Node.

(** ** Libraries ([Library]) *)

Module Library.

Record t := mk {
  id : Z; owner_user_id : Z; name : rstring; root_node_id : Z; dedup_domain_id : Z;
  status : LibraryStatus.t; created_at : Z; updated_at : Z; revision : Z }.

Definition rehydrate (id owner_user_id : Z) (name : rstring) (status : LibraryStatus.t)
  (root : Node.t) (dedup_domain_id created_at updated_at revision : Z) : result t DomainError :=
  if (Node.library_id root != id) || (Node.kind root != NodeKind.Directory)
     || (Node.state root != NodeState.Active) || negb (Node.is_root root)
     || is_some (Node.current_version_id root)
  then Err RootNodeMismatch
  else Ok (mk id owner_user_id name (Node.id root) dedup_domain_id status created_at updated_at
             revision).

Definition new (id owner_user_id : Z) (name : rstring) (root : Node.t)
  (dedup_domain_id observed_at : Z) : result t DomainError :=
  if Node.library_id root != id then Err NodeLibraryMismatch
  else if Node.kind root != NodeKind.Directory then Err RootMustBeDirectory
  else if Node.state root != NodeState.Active then Err RootMustBeActive
  else if negb (Node.is_root root) then Err RootCannotHaveParent
  else rehydrate id owner_user_id name LibraryStatus.Active root dedup_domain_id observed_at
         observed_at INITIAL_REVISION.

Definition validate_root (self : t) (root : Node.t) : result unit DomainError :=
  if (Node.id root != root_node_id self) || (Node.library_id root != id self)
     || (Node.kind root != NodeKind.Directory) || (Node.state root != NodeState.Active)
     || negb (Node.is_root root) || is_some (Node.current_version_id root)
  then Err RootNodeMismatch
  else Ok tt.

End Library.

(** [FileVersion::rehydrate] and [FileVersion::new]. *)
Module FileVersionOps.

Definition rehydrate (id : Z) (library : Library.t) (node : Node.t) (object : ObjectReference.t)
  (parent_version_id : option Z) (committed_at revision : Z) :
  result FileVersion.t DomainError :=
  if Node.kind node != NodeKind.File then Err FileVersionRequiresFileNode
  else if Node.library_id node != Library.id library then Err FileVersionLibraryMismatch
  else if ObjectReference.dedup_domain_id object != Library.dedup_domain_id library
  then Err ObjectDedupDomainMismatch
  else if parent_version_id == Some id then Err FileVersionCannotParentItself
  else Ok (FileVersion.mk id (Library.id library) (Node.id node) object parent_version_id
             committed_at revision).

Definition new (id : Z) (library : Library.t) (node : Node.t) (object : ObjectReference.t)
  (parent_version_id : option Z) (committed_at : Z) : result FileVersion.t DomainError :=
  if Node.kind node != NodeKind.File then Err FileVersionRequiresFileNode
  else if Node.library_id node != Library.id library then Err FileVersionLibraryMismatch
  else if ObjectReference.dedup_domain_id object != Library.dedup_domain_id library
  then Err ObjectDedupDomainMismatch
  else if parent_version_id == Some id then Err FileVersionCannotParentItself
  else rehydrate id library node object parent_version_id committed_at INITIAL_REVISION.

End FileVersionOps.

(** ** Node invariants *)

Module NodeFacts.
Import Node.

(** The local shape of a node: what [rehydrate_with_trash] enforces. *)
Record wf (n : t) : Prop := mk_wf {
  wf_root : parent_node_id n = None -> kind n = NodeKind.Directory /\ state n = NodeState.Active;
  wf_trash : state n = NodeState.Active <-> trashed_at n = None;
  wf_parent : parent_node_id n <> Some (id n);
  wf_version : kind n = NodeKind.Directory -> current_version_id n = None }.

(** [rehydrate_with_trash] accepts exactly the well-formed shapes. *)
Lemma rehydrate_with_trash_Ok i lib par k nm ver st tr c u r n :
  rehydrate_with_trash i lib par k nm ver st tr c u r = Ok n <->
  n = mk i lib par k nm ver st tr c u r /\ wf n.
Proof.
  unfold rehydrate_with_trash. split.
  - destruct par, k, st, tr, ver; cbn; repeat case_bool_decide; cbn; intros; simplify_eq;
      split; try done; constructor; cbn; naive_solver.
  - intros [-> [H1 H2 H3 H4]]; cbn in *.
    destruct par, k, st, tr, ver; cbn; repeat case_bool_decide; cbn; naive_solver.
Qed.

Lemma new_child_Ok i lib p k nm at_ n :
  new_child i lib p k nm at_ = Ok n ->
  wf n /\ id n = i /\ library_id n = lib /\ library_id p = lib /\ kind n = k /\
  parent_node_id n = Some (id p) /\ kind p = NodeKind.Directory /\
  state p = NodeState.Active /\ revision n = INITIAL_REVISION.
Proof.
  unfold new_child, rehydrate. rust_case. rust_bool.
  intros [-> ?]%rehydrate_with_trash_Ok. done.
Qed.

(** The mutating operations of a node, as data. *)
Inductive op : Type :=
| Rename (name : rstring) (observed_at : Z)
| MoveTo (parent : t) (observed_at : Z)
| SetVersion (version : FileVersion.t) (observed_at : Z)
| Transition (next : NodeState.t) (observed_at : Z).

Definition apply_op (n : t) (o : op) : t * result unit DomainError :=
  match o with
  | Rename nm at_ => rename n nm at_
  | MoveTo p at_ => move_to n p at_
  | SetVersion v at_ =>
      match with_current_version n v at_ with Ok n' => (n', Ok tt) | Err e => (n, Err e) end
  | Transition s at_ => transition_state n s at_
  end.

Definition observed_at (o : op) : Z :=
  match o with
  | Rename _ at_ | MoveTo _ at_ | SetVersion _ at_ | Transition _ at_ => at_
  end.

(** A node after a sequence of requests, the failing ones included. *)
Definition run (n : t) (ops : list op) : t := fold_left (fun n o => (apply_op n o).1) ops n.

(** What one operation may do: nothing; a change of fields with the revision
    advanced by one; or, at the last revision, a change of fields reported as
    [RevisionOverflow]. *)
Lemma apply_op_cases n o n' r :
  apply_op n o = (n', r) ->
  n' = n \/
  (r = Ok tt /\ revision n' = revision n + 1 /\ revision n + 1 <= u64_max /\
   updated_at n' = observed_at o) \/
  (r = Err RevisionOverflow /\ revision n' = revision n /\ u64_max < revision n + 1).
Proof.
  destruct o; cbn;
    unfold rename, move_to, with_current_version, transition_state, bump_revision, checked_add64;
    intros; rust_case; rust_bool; auto 6.
Qed.

Lemma apply_op_fixed n o n' r :
  apply_op n o = (n', r) ->
  id n' = id n /\ library_id n' = library_id n /\ kind n' = kind n /\
  created_at n' = created_at n /\ is_root n' = is_root n.
Proof.
  destruct o; cbn;
    unfold rename, move_to, with_current_version, transition_state, bump_revision, checked_add64;
    intros; rust_case; rust_bool; repeat split; try done; unfold is_root in *; by rust_bool;
    destruct (parent_node_id n).
Qed.

Lemma apply_op_wf n o n' r : wf n -> apply_op n o = (n', r) -> wf n'.
Proof.
  intros [W1 W2 W3 W4].
  destruct o; cbn;
    unfold rename, move_to, with_current_version, transition_state, bump_revision, checked_add64,
      is_root, transition_allowed;
    intros; rust_case; rust_bool; try (by constructor);
    constructor; cbn; try naive_solver;
    destruct (parent_node_id n); naive_solver.
Qed.

Lemma apply_op_purging n o n' r :
  state n = NodeState.Purging -> apply_op n o = (n', r) -> state n' = NodeState.Purging.
Proof.
  intros Hs. destruct o; cbn;
    unfold rename, move_to, with_current_version, transition_state, bump_revision, checked_add64;
    rewrite ?Hs; intros; rust_case; rust_bool; by subst.
Qed.

Lemma run_step n o ops : run n (o :: ops) = run (apply_op n o).1 ops.
Proof. done. Qed.

Lemma run_revision n ops :
  revision n <= u64_max -> revision n <= revision (run n ops) <= u64_max /\
  revision (run n ops) <= revision n + len ops.
Proof.
  revert n. induction ops as [|o ops IH]; intros n Hn;
    [change (run n []) with n; unfold len; cbn [length]; lia|].
  rewrite run_step. destruct (apply_op n o) as [n' r] eqn:E. cbn [fst].
  unfold len in *. cbn [length]. rewrite Nat2Z.inj_succ.
  apply apply_op_cases in E as [->|[(_ & E & ? & _)|(_ & E & ?)]];
    [pose proof (IH n)|pose proof (IH n')|pose proof (IH n')]; lia.
Qed.

(** every sequence of renames, moves, version changes and state transitions,
    with any arguments and whether the single requests succeed or fail, keeps a
    node well formed (a root is an active directory, a node is active exactly when
    it has no trash time, no node is its own parent, a directory has no version),
    keeps its identity, library, kind and creation time, keeps it a root exactly when
    it was one, never lowers the revision nor leaves the [u64] range, and never
    leaves [Purging]. *)
Theorem node_invariant n ops :
  wf n -> u64_ok (revision n) ->
  let n' := run n ops in
  wf n' /\ id n' = id n /\ library_id n' = library_id n /\ kind n' = kind n /\
  created_at n' = created_at n /\ is_root n' = is_root n /\
  revision n <= revision n' /\ u64_ok (revision n') /\
  (state n = NodeState.Purging -> state n' = NodeState.Purging).
Proof.
  intros W U. pose proof (run_revision n ops) as Hr. unfold u64_ok in *. cbn zeta.
  assert (wf (run n ops) /\ id (run n ops) = id n /\ library_id (run n ops) = library_id n /\
          kind (run n ops) = kind n /\ created_at (run n ops) = created_at n /\
          is_root (run n ops) = is_root n /\
          (state n = NodeState.Purging -> state (run n ops) = NodeState.Purging))
    as (? & ? & ? & ? & ? & ? & ?);
    [|destruct Hr as [[??]?]; [lia|]; split_and!; try done; lia].
  clear U Hr. revert n W. induction ops as [|o ops IH]; intros n W; [done|].
  rewrite run_step. destruct (apply_op n o) as [n' r] eqn:E. cbn [fst].
  pose proof (apply_op_wf _ _ _ _ W E) as W'.
  pose proof (apply_op_fixed _ _ _ _ E) as (? & ? & ? & ? & ?).
  pose proof (fun H => apply_op_purging _ _ _ _ H E).
  destruct (IH _ W') as (? & ? & ? & ? & ? & ? & ?).
  split_and!; try congruence; tauto.
Qed.

(** Revisions identify states. As long as the revision counter does not run
    out, a node whose revision is unchanged after any sequence of requests has not
    changed in any field, so a revision can be compared instead of the node. *)
Theorem node_revision_identifies n ops :
  revision n + len ops <= u64_max ->
  revision (run n ops) = revision n -> run n ops = n.
Proof.
  revert n. induction ops as [|o ops IH]; intros n Hm Hr; [done|].
  rewrite run_step in *. destruct (apply_op n o) as [n' r] eqn:E. cbn [fst] in *.
  unfold len in *. cbn [length] in Hm. rewrite Nat2Z.inj_succ in Hm.
  apply apply_op_cases in E as [->|[(_ & E & ? & _)|(_ & E & ?)]]; [|exfalso|lia].
  - apply IH; [lia|done].
  - pose proof (run_revision n' ops). lia.
Qed.


(** A file is renamed, trashed, refused a second trash, restored. *)
Definition sample : t :=
  mk 7 10 (Some 1) NodeKind.File (lit "a.txt") None NodeState.Active None 100 100 0.
Definition sample_ops : list op :=
  [Rename (lit "b.txt") 101; Transition NodeState.Trashed 102; Transition NodeState.Trashed 103;
   Transition NodeState.Active 104].

Lemma sample_wf : wf sample.
Proof. by constructor. Qed.

Lemma node_invariant_witness :
  let n' := run sample sample_ops in
  wf n' /\ id n' = 7 /\ library_id n' = 10 /\ kind n' = NodeKind.File /\ created_at n' = 100 /\
  is_root n' = false /\ 0 <= revision n' /\ u64_ok (revision n') /\
  (NodeState.Active = NodeState.Purging -> state n' = NodeState.Purging).
Proof.
  apply (node_invariant sample sample_ops); [apply sample_wf|by unfold u64_ok].
Defined.

Lemma node_revision_identifies_witness :
  run sample [Transition NodeState.Active 101; Rename (lit "a.txt") 102] = sample.
Proof.
  apply (node_revision_identifies sample); [by vm_compute|reflexivity].
Defined.

End NodeFacts.

(** ** Device lifecycle *)

Module DeviceFacts.
Import Device.

(** A device after a sequence of transition requests, the refused ones
    included. *)
Definition run (d : t) (requests : list (DeviceStatus.t * Z)) : t :=
  fold_left (fun d rq => (transition_status d rq.1 rq.2).1) requests d.

Lemma transition_status_revoked d next at_ :
  status d = DeviceStatus.Revoked -> (transition_status d next at_).1 = d.
Proof. intros Hs. unfold transition_status. rewrite Hs. by destruct next. Qed.

Lemma transition_status_fixed d next at_ :
  let d' := (transition_status d next at_).1 in
  id d' = id d /\ owner_user_id d' = owner_user_id d /\
  (status d' = DeviceStatus.Pending -> status d = DeviceStatus.Pending).
Proof.
  cbn zeta. unfold transition_status, bump_revision, checked_add64.
  destruct (status d) eqn:E, next; cbn; rust_case; by rewrite ?E.
Qed.

(** Revocation is final and pairing is not repeated. Whatever requests follow,
    a device never changes its identity or owner, never returns to [Pending], and,
    once revoked at some point of the sequence, is from then on unchanged in every
    field. *)
Theorem device_revocation_final d before after :
  id (run d before) = id d /\ owner_user_id (run d before) = owner_user_id d /\
  (status (run d before) = DeviceStatus.Pending -> status d = DeviceStatus.Pending) /\
  (status (run d before) = DeviceStatus.Revoked -> run d (before ++ after) = run d before).
Proof.
  assert (forall d, status d = DeviceStatus.Revoked -> run d after = d) as Habs.
  { induction after as [|rq after IH]; intros x Hx; [done|]. cbn.
    rewrite transition_status_revoked by done. by apply IH. }
  unfold run in Habs |- *. rewrite fold_left_app.
  enough (id (run d before) = id d /\ owner_user_id (run d before) = owner_user_id d /\
    (status (run d before) = DeviceStatus.Pending -> status d = DeviceStatus.Pending))
    as (? & ? & ?) by (split_and!; auto).
  clear Habs. revert d. induction before as [|rq before IH]; intros d; [done|].
  destruct (transition_status_fixed d rq.1 rq.2) as (E1 & E2 & E3).
  destruct (IH (transition_status d rq.1 rq.2).1) as (? & ? & ?). unfold run in *. cbn.
  split_and!; [congruence..|auto].
Qed.

End DeviceFacts.
