(* ===== verification/Tree.v ===== *)
(** * The namespace tree of a library

    [Node] of [crates/core/src/domain/models.rs] checks a move against the
    ancestors its caller loaded.  Here the nodes of a store are a finite map,
    [Chain] is the ancestor chain the caller loads, and the theorems say what
    the local checks are worth globally: a store changed only through the
    domain operations, its moves guarded by [validate_move_parent], stays a
    forest of directories. *)

From S2P Require Import Prelude Vocabulary Models.
Import Node NodeFacts.

(** The complete chain of ancestors from [parent], nearest first. *)
Inductive Chain (m : gmap Z Node.t) : option Z -> list Node.t -> Prop :=
| Chain_root : Chain m None []
| Chain_up i n l : m !! i = Some n -> Chain m (parent_node_id n) l -> Chain m (Some i) (n :: l).

(** A parent link points to a directory of the same library. *)
Definition link_ok (m : gmap Z Node.t) (n : Node.t) : Prop :=
  forall i, parent_node_id n = Some i ->
  exists p, m !! i = Some p /\ kind p = NodeKind.Directory /\ library_id p = library_id n.

Record Forest (m : gmap Z Node.t) : Prop := mk_Forest {
  forest_id : forall i n, m !! i = Some n -> id n = i;
  forest_wf : forall i n, m !! i = Some n -> wf n;
  forest_link : forall i n, m !! i = Some n -> link_ok m n;
  forest_chain : forall i n, m !! i = Some n -> exists l, Chain m (parent_node_id n) l }.

(** What a metadata transaction may do to the store through the domain
    operations. A move is preceded by [validate_move_parent] on the candidate's
    complete ancestor chain, and a node keeps what a failing request left. *)
Inductive step (m : gmap Z Node.t) : gmap Z Node.t -> Prop :=
| step_root i lib nm at_ n :
    m !! i = None -> new_root i lib nm at_ = Some n -> step m (<[i := n]> m)
| step_child i lib p k nm at_ n :
    m !! i = None -> m !! id p = Some p -> new_child i lib p k nm at_ = Ok n ->
    step m (<[i := n]> m)
| step_move n p ancestors at_ n' r :
    m !! id n = Some n -> m !! id p = Some p -> Chain m (parent_node_id p) ancestors ->
    validate_move_parent n p ancestors = Ok tt -> move_to n p at_ = (n', r) ->
    step m (<[id n := n']> m)
| step_update n o n' r :
    m !! id n = Some n -> (forall p at_, o <> MoveTo p at_) -> apply_op n o = (n', r) ->
    step m (<[id n := n']> m).

Inductive reachable : gmap Z Node.t -> Prop :=
| reachable_empty : reachable ∅
| reachable_step m m' : reachable m -> step m m' -> reachable m'.

(** ** Chains *)

Lemma Chain_functional m o l l' : Chain m o l -> Chain m o l' -> l = l'.
Proof.
  intros H. revert l'. induction H as [|i n l Hi _ IH]; intros l' H'; inversion H'; subst; [done|].
  simplify_eq. f_equal. by apply IH.
Qed.

Lemma Chain_lookup m o l a : Chain m o l -> a ∈ l -> exists i, m !! i = Some a.
Proof.
  induction 1 as [|i n l Hi _ IH]; intros Ha; [set_solver|].
  apply elem_of_cons in Ha as [->|?]; eauto.
Qed.

(** The part of a chain from one of its members on is that member's chain. *)
Lemma Chain_suffix m o l a :
  Chain m o l -> a ∈ l -> exists l', Chain m (parent_node_id a) l' /\ (length l' < length l)%nat.
Proof.
  induction 1 as [|i n l Hi Hl IH]; intros Ha; [set_solver|].
  apply elem_of_cons in Ha as [->|Ha]; [exists l; simpl; auto with lia|].
  destruct (IH Ha) as (l' & ? & ?). exists l'. simpl. auto with lia.
Qed.

(** No node of a store is among its own ancestors: a finite chain excludes it. *)
Lemma Chain_irrefl m n l : Chain m (parent_node_id n) l -> n ∉ l.
Proof.
  intros H Hn. destruct (Chain_suffix _ _ _ _ H Hn) as (l' & H' & Hlt).
  rewrite (Chain_functional _ _ _ _ H H') in Hlt. lia.
Qed.

Lemma Chain_insert m o l j n :
  Chain m o l -> Forall (fun a => m !! j <> Some a) l -> Chain (<[j := n]> m) o l.
Proof.
  induction 1 as [|i a l Hi _ IH]; intros Hl; [constructor|].
  inversion_clear Hl. econstructor; [|by apply IH].
  rewrite lookup_insert_ne; [done|congruence].
Qed.

Lemma Chain_insert_fresh m o l j n :
  m !! j = None -> Chain m o l -> Chain (<[j := n]> m) o l.
Proof.
  intros Hj H. apply Chain_insert; [done|]. apply Forall_forall. intros. by rewrite Hj.
Qed.

(** Changing one node re-routes the chains through it: if the changed node has a
    chain in the new store, so has everyone who had one in the old. *)
Lemma Chain_reroute m j n l :
  Chain (<[j := n]> m) (parent_node_id n) l ->
  forall o k, Chain m o k -> exists k', Chain (<[j := n]> m) o k'.
Proof.
  intros Hn o k H. induction H as [|i a k Hi _ [k' IH]]; [eexists; constructor|].
  destruct (decide (i = j)) as [->|Hij].
  - exists (n :: l). econstructor; [apply lookup_insert_eq|done].
  - exists (a :: k'). econstructor; [by rewrite lookup_insert_ne|done].
Qed.

(** ** The checks of [models.rs] on a complete chain *)

Section Checks.
Context (m : gmap Z Node.t) (Hid : forall i n, m !! i = Some n -> id n = i).

Lemma same_id_same_node i j a b : m !! i = Some a -> m !! j = Some b -> id a = id b -> a = b.
Proof. intros Ha Hb E. pose proof (Hid _ _ Ha). pose proof (Hid _ _ Hb). congruence. Qed.

Lemma Chain_ids_ne i n l a :
  m !! i = Some n -> Chain m (parent_node_id n) l -> a ∈ l -> id a <> id n.
Proof.
  intros Hn Hl Ha E. destruct (Chain_lookup _ _ _ _ Hl Ha) as [j Hj].
  apply (Chain_irrefl _ _ _ Hl). by rewrite <- (same_id_same_node _ _ _ _ Hj Hn E).
Qed.

Definition usable (self a : Node.t) : Prop :=
  library_id a = library_id self /\ state a = NodeState.Active /\ kind a = NodeKind.Directory.

Lemma parent_chain_loop_Ok self expected seen l :
  Chain m expected l -> (forall a, a ∈ l -> id a <> id self /\ id a ∉ seen) ->
  parent_chain_loop self expected seen l = Ok tt <-> Forall (usable self) l.
Proof.
  intros H. revert seen. induction H as [|i a l Hi Hl IH]; intros seen Hs; [done|].
  cbn [parent_chain_loop]. rewrite (Hid _ _ Hi). rewrite bool_decide_true by done. cbn [negb].
  destruct (Hs a) as [H1 H2]; [set_solver|]. rewrite (Hid _ _ Hi) in H1, H2.
  rewrite !bool_decide_false by done. cbn [orb]. rewrite Forall_cons. unfold usable at 1.
  repeat case_bool_decide; cbn [negb]; try (split; [done|naive_solver]).
  rewrite IH; [naive_solver|]. intros b Hb. split; [apply Hs; set_solver|].
  pose proof (Chain_ids_ne _ _ _ b Hi Hl Hb) as Hne. rewrite (Hid _ _ Hi) in Hne.
  destruct (Hs b) as [_ ?]; set_solver.
Qed.

Lemma validate_move_parent_Ok n p l :
  m !! id p = Some p -> Chain m (parent_node_id p) l ->
  validate_move_parent n p l = Ok tt <->
  Forall (usable n) (p :: l) /\ Forall (fun a => id a <> id n) (p :: l).
Proof.
  intros Hp Hl. unfold validate_move_parent, validate_parent_chain.
  rewrite !Forall_cons. unfold usable at 1.
  repeat case_bool_decide; cbn [negb]; try (split; [done|naive_solver]).
  destruct (existsb _ l) eqn:E.
  - split; [done|]. intros [_ [_ HF]]. apply existsb_exists in E as (a & Ha & Hn). rust_bool.
    rewrite Forall_forall in HF. by destruct (HF a); [apply list_elem_of_In|].
  - rewrite parent_chain_loop_Ok; [|done|].
    + assert (Forall (fun a => id a <> id n) l).
      { apply Forall_forall. intros a Ha Hn. rewrite <- not_true_iff_false in E. apply E.
        apply existsb_exists. exists a. split; [by apply list_elem_of_In|].
        by apply bool_decide_eq_true_2. }
      unfold usable. split; [|intros [[? ?] ?]].
      * intros HF. split_and!; try done. eapply Forall_impl; [exact HF|]. naive_solver congruence.
      * eapply Forall_impl; [eassumption|]. naive_solver congruence.
    + intros a Ha. split; [by eapply Chain_ids_ne|set_solver].
Qed.

End Checks.

(** ** Forests are preserved *)

Lemma forest_chain_links m n l :
  Forest m -> link_ok m n -> Chain m (parent_node_id n) l ->
  Forall (fun a => kind a = NodeKind.Directory /\ library_id a = library_id n) l.
Proof.
  intros F. remember (parent_node_id n) as o eqn:Eo. intros L H. revert n Eo L.
  induction H as [|i a l Hi _ IH]; intros n Eo L; [constructor|].
  destruct (L i (eq_sym Eo)) as (p & Hp & Hk & Hlib). simplify_eq.
  constructor; [done|]. rewrite <- Hlib. apply (IH a); [done|]. by eapply forest_link.
Qed.

Lemma link_ok_insert m j n x :
  link_ok m x ->
  (forall o, m !! j = Some o -> kind n = kind o /\ library_id n = library_id o) ->
  link_ok (<[j := n]> m) x.
Proof.
  intros L Hj i Hi. destruct (L i Hi) as (p & Hp & ? & ?).
  destruct (decide (i = j)) as [->|]; [|exists p; by rewrite lookup_insert_ne].
  exists n. rewrite lookup_insert_eq. destruct (Hj _ Hp). split_and!; congruence.
Qed.

(** One node inserted or replaced: it suffices to look at that node. *)
Lemma Forest_insert m n l :
  Forest m -> wf n ->
  (forall o, m !! id n = Some o -> kind n = kind o /\ library_id n = library_id o) ->
  link_ok m n -> Chain (<[id n := n]> m) (parent_node_id n) l ->
  Forest (<[id n := n]> m).
Proof.
  intros F W Hsame L HC.
  constructor; intros i x; (destruct (decide (i = id n)) as [->|Hne];
    [rewrite lookup_insert_eq; intros [= <-]
    |rewrite lookup_insert_ne by done; intros Hx]); try done.
  - by eapply forest_id.
  - by eapply forest_wf.
  - by apply link_ok_insert.
  - apply link_ok_insert; [by eapply forest_link|done].
  - by exists l.
  - destruct (forest_chain _ F _ _ Hx) as [k Hk]. by eapply Chain_reroute.
Qed.

(** A request other than a move keeps the parent. *)
Lemma apply_op_parent n o n' r :
  (forall p at_, o <> MoveTo p at_) -> apply_op n o = (n', r) ->
  parent_node_id n' = parent_node_id n.
Proof.
  intros Hm. destruct o; cbn; [| by edestruct Hm | |];
    unfold rename, with_current_version, transition_state, bump_revision, checked_add64;
    intros; rust_case.
Qed.

(** A move leaves the parent alone or sets it to the checked candidate. *)
Lemma move_to_parent n p at_ n' r :
  move_to n p at_ = (n', r) ->
  n' = n \/ (parent_node_id n' = Some (id p) /\ kind p = NodeKind.Directory /\
             library_id p = library_id n).
Proof.
  unfold move_to, bump_revision, checked_add64. intros; rust_case; rust_bool; auto.
Qed.

Lemma Chain_replace m n n' o l :
  (forall i x, m !! i = Some x -> id x = i) -> m !! id n = Some n -> Chain m o l -> n ∉ l ->
  Chain (<[id n := n']> m) o l.
Proof.
  intros Hid Hn HC Hl. apply Chain_insert; [done|]. apply Forall_forall. intros a Ha E.
  rewrite Hn in E. by simplify_eq.
Qed.

Lemma Forest_replace m n n' l :
  Forest m -> m !! id n = Some n -> wf n' -> id n' = id n -> kind n' = kind n ->
  library_id n' = library_id n -> link_ok m n' -> Chain m (parent_node_id n') l -> n ∉ l ->
  Forest (<[id n := n']> m).
Proof.
  intros F Hn W Ei Ek El L HC Hl. pose proof (Chain_replace _ _ n' _ _ (forest_id _ F) Hn HC Hl).
  rewrite <- Ei in *. eapply Forest_insert; eauto.
  intros o Ho. simplify_eq. done.
Qed.

Lemma link_ok_parent m n n' :
  parent_node_id n' = parent_node_id n -> library_id n' = library_id n ->
  link_ok m n -> link_ok m n'.
Proof. intros Hp Hl L i Hi. rewrite Hl. apply L. congruence. Qed.

Lemma step_forest m m' : Forest m -> step m m' -> Forest m'.
Proof.
  intros F Hs.
  destruct Hs as [i lib nm at_ n Hi Hn|i lib p k nm at_ n Hi Hp Hn
                 |n p anc at_ n' r Hn Hp HC Hv Hm|n o n' r Hn Hno Ho].
  - unfold new_root, rehydrate, expect in Hn. case_match eqn:E; [|done]. simplify_eq.
    apply rehydrate_with_trash_Ok in E as [E W].
    assert (i = id n /\ parent_node_id n = None) as [-> Epar] by by subst.
    apply (Forest_insert _ _ []); [done..|congruence|intros j; congruence|].
    rewrite Epar. constructor.
  - destruct (new_child_Ok _ _ _ _ _ _ _ Hn) as (W & Ei & El & Elp & _ & Epar & Hk & _ & _).
    destruct (forest_chain _ F _ _ Hp) as [l Hl]. rewrite <- Ei in *.
    apply (Forest_insert _ _ (p :: l)); [done..|congruence| |].
    + intros j Hj. exists p. simplify_eq. split_and!; congruence.
    + rewrite Epar. apply Chain_insert_fresh; [done|]. by econstructor.
  - pose proof (apply_op_fixed n (MoveTo p at_) n' r Hm) as (Ei & El & Ek & _).
    pose proof (apply_op_wf n (MoveTo p at_) n' r (forest_wf _ F _ _ Hn) Hm) as W.
    apply (validate_move_parent_Ok m (forest_id _ F)) in Hv as [_ Hne]; [|done..].
    apply move_to_parent in Hm as [->|(Epar & Hk & Hlib)]; [by rewrite insert_id|].
    apply (Forest_replace m n n' (p :: anc)); try done.
    + intros j Hj. exists p. simplify_eq. split_and!; congruence.
    + rewrite Epar. by econstructor.
    + rewrite Forall_forall in Hne. intros Hin. by apply (Hne n).
  - pose proof (apply_op_fixed _ _ _ _ Ho) as (Ei & El & Ek & _).
    pose proof (apply_op_wf _ _ _ _ (forest_wf _ F _ _ Hn) Ho) as W.
    pose proof (apply_op_parent _ _ _ _ Hno Ho) as Epar.
    destruct (forest_chain _ F _ _ Hn) as [l Hl].
    apply (Forest_replace m n n' l); try done.
    + by eapply link_ok_parent, forest_link.
    + by rewrite Epar.
    + by apply (Chain_irrefl m).
Qed.

Lemma reachable_is_forest m : reachable m -> Forest m.
Proof.
  induction 1 as [|m m' _ IH Hs]; [|by eapply step_forest].
  constructor; intros i n; by rewrite lookup_empty.
Qed.

(** ** Properties *)

(** C11: the namespace never becomes cyclic. In every store reached through node
    creation, renames, version changes, state transitions and moves guarded by
    [validate_move_parent], each node has a finite chain of ancestors that ends in
    a root, does not contain the node itself, and consists of directories of the
    node's own library. *)
Theorem namespace_is_forest m i n :
  reachable m -> m !! i = Some n ->
  exists l, Chain m (parent_node_id n) l /\ n ∉ l /\
    Forall (fun a => kind a = NodeKind.Directory /\ library_id a = library_id n) l.
Proof.
  intros F%reachable_is_forest Hn. destruct (forest_chain _ F _ _ Hn) as [l Hl].
  exists l. split_and!; [done|by apply (Chain_irrefl m)|].
  eapply forest_chain_links; [done| |done]. by eapply forest_link.
Qed.

(** [validate_move_parent] is exact. In a reached store, given the complete
    ancestor chain of the candidate, it accepts a move exactly when the candidate
    is a directory of the node's library, the candidate and all its ancestors are
    active, and the node is neither the candidate nor one of its ancestors. *)
Theorem validate_move_parent_exact m n p l :
  reachable m -> m !! id n = Some n -> m !! id p = Some p ->
  Chain m (parent_node_id p) l ->
  validate_move_parent n p l = Ok tt <->
  library_id p = library_id n /\ kind p = NodeKind.Directory /\
  Forall (fun a => state a = NodeState.Active) (p :: l) /\ n ∉ p :: l.
Proof.
  intros F%reachable_is_forest Hn Hp Hl.
  rewrite (validate_move_parent_Ok m (forest_id _ F)) by done.
  pose proof (forest_chain_links _ _ _ F (forest_link _ F _ _ Hp) Hl) as HF.
  rewrite !Forall_cons, !Forall_forall in *. unfold usable.
  rewrite not_elem_of_cons. split.
  - intros [[(? & ? & ?) Ha] [Hnp Hna]]. split_and!; try naive_solver.
  - intros (? & ? & [? ?] & ? & ?). split_and!; try done; [naive_solver congruence| |].
    + intros E. by pose proof (same_id_same_node m (forest_id _ F) _ _ _ _ Hp Hn E).
    + intros a Ha E. destruct (Chain_lookup _ _ _ _ Hl Ha) as [j Hj].
      by pose proof (same_id_same_node m (forest_id _ F) _ _ _ _ Hj Hn E); subst.
Qed.

(** ** A concrete store: a root with two directories, one moved into the other *)

Module Example.

Definition root : Node.t :=
  mk 1 10 None NodeKind.Directory (lit "Files") None NodeState.Active None 100 100 0.
Definition docs : Node.t :=
  mk 2 10 (Some 1) NodeKind.Directory (lit "docs") None NodeState.Active None 101 101 0.
Definition notes : Node.t :=
  mk 3 10 (Some 1) NodeKind.Directory (lit "notes") None NodeState.Active None 102 102 0.
Definition moved : Node.t :=
  mk 3 10 (Some 2) NodeKind.Directory (lit "notes") None NodeState.Active None 102 103 1.

Definition before : gmap Z Node.t := <[3 := notes]> (<[2 := docs]> (<[1 := root]> ∅)).
Definition after : gmap Z Node.t := <[3 := moved]> before.

Lemma before_reachable : reachable before.
Proof.
  eapply reachable_step; [|apply (step_child _ 3 10 root NodeKind.Directory (lit "notes") 102);
                           reflexivity].
  eapply reachable_step; [|apply (step_child _ 2 10 root NodeKind.Directory (lit "docs") 101);
                           reflexivity].
  eapply reachable_step; [apply reachable_empty|].
  apply (step_root _ 1 10 (lit "Files") 100); reflexivity.
Qed.

Lemma docs_chain : Chain before (parent_node_id docs) [root].
Proof. eapply Chain_up; [reflexivity|]. apply Chain_root. Qed.

Lemma after_reachable : reachable after.
Proof.
  eapply reachable_step; [apply before_reachable|].
  apply (step_move _ notes docs [root] 103 moved (Ok tt)); try reflexivity. apply docs_chain.
Qed.

End Example.

Lemma namespace_is_forest_witness :
  exists l, Chain Example.after (parent_node_id Example.moved) l /\ Example.moved ∉ l /\
    Forall (fun a => kind a = NodeKind.Directory /\
                     library_id a = library_id Example.moved) l.
Proof.
  apply (namespace_is_forest Example.after 3 Example.moved).
  - apply Example.after_reachable.
  - reflexivity.
Defined.

Lemma validate_move_parent_exact_witness :
  validate_move_parent Example.notes Example.docs [Example.root] = Ok tt <->
  library_id Example.docs = library_id Example.notes /\
  kind Example.docs = NodeKind.Directory /\
  Forall (fun a => state a = NodeState.Active) [Example.docs; Example.root] /\
  Example.notes ∉ [Example.docs; Example.root].
Proof.
  apply (validate_move_parent_exact Example.before Example.notes Example.docs [Example.root]).
  - apply Example.before_reachable.
  - reflexivity.
  - reflexivity.
  - apply Example.docs_chain.
Defined.
