(* ===== verification/Uploads.v ===== *)
(** * Upload sessions ([crates/core/src/domain/uploads.rs])

    The durable lifecycle of an upload session.  [transition] is the one place
    where a change of state is validated; [trace] is the history a session
    leaves when requests, the refused ones included, arrive one after the
    other. *)

From S2P Require Import Prelude Vocabulary.
Import UploadSessionState.

Record UploadStateTransitionError := mk_UploadStateTransitionError { from : t; to : t }.

Definition is_terminal (self : t) : bool :=
  match self with Committed | Failed | Expired | Aborted => true | _ => false end.

Definition transition (self next : t) : result t UploadStateTransitionError :=
  let allowed :=
    (self == next) ||
    match self, next with
    | Open, (Verifying | Aborted | Expired)
    | Verifying, (Committing | Aborted | Failed)
    | Committing, (Committed | Aborted | Failed) => true
    | _, _ => false
    end in
  if allowed then Ok next else Err (mk_UploadStateTransitionError self next).

(** The states a session is in before, between and after the requests. *)
Fixpoint trace (s : t) (requests : list t) : list t :=
  s :: match requests with
       | [] => []
       | next :: rest =>
           trace (match transition s next with Ok s' => s' | Err _ => s end) rest
       end.

(** The history without the repetitions of idempotent updates. *)
Fixpoint distinct_steps (l : list t) : list t :=
  match l with
  | [] => []
  | a :: l' =>
      match distinct_steps l' with
      | b :: k => if a == b then b :: k else a :: b :: k
      | [] => [a]
      end
  end.

(** What a successful session still has to go through. *)
Definition road (s : t) : option (list t) :=
  match s with
  | Open => Some [Open; Verifying; Committing; Committed]
  | Verifying => Some [Verifying; Committing; Committed]
  | Committing => Some [Committing; Committed]
  | Committed => Some [Committed]
  | _ => None
  end.

Lemma trace_cons s requests : exists l, trace s requests = s :: l.
Proof. destruct requests; simpl; eauto. Qed.

Lemma trace_terminal s requests :
  is_terminal s = true -> trace s requests = replicate (S (length requests)) s.
Proof.
  intros Hs. induction requests as [|next rest IH]; [done|]. cbn [trace length].
  replace (match transition s next with Ok s' => s' | Err _ => s end) with s
    by (destruct s, next; done).
  by rewrite IH.
Qed.

Lemma trace_committed s requests :
  last (trace s requests) = Some Committed ->
  Some (distinct_steps (trace s requests)) = road s.
Proof.
  revert s. induction requests as [|next rest IH]; intros s H; [by simplify_eq/=|].
  cbn [trace] in *. set (s' := match transition s next with Ok s' => s' | Err _ => s end) in *.
  destruct (trace_cons s' rest) as [l E]. rewrite E, last_cons_cons, <- E in H.
  specialize (IH s' H). cbn [distinct_steps].
  destruct (road s') as [k|] eqn:Er; [|done]. injection IH as IH. rewrite IH. clear IH.
  destruct s, next; vm_compute in Er; simplify_eq; reflexivity.
Qed.

(** A session is committed only after verification and a prepared commit, and
    a finished session never changes. A history that starts in [Open] and ends in
    [Committed] is, up to repeated updates, exactly [Open], [Verifying],
    [Committing], [Committed]; and once a terminal state is reached every later
    state of the session is the same. *)
Theorem upload_lifecycle requests later :
  (last (trace Open requests) = Some Committed ->
   distinct_steps (trace Open requests) = [Open; Verifying; Committing; Committed]) /\
  (forall s, is_terminal s = true -> Forall (fun s' => s' = s) (trace s later)).
Proof.
  split.
  - intros H%trace_committed. by injection H.
  - intros s Hs. rewrite trace_terminal by done. apply Forall_replicate. done.
Qed.
