(* ===== verification/ScheduleConfig.v ===== *)
(** * Schedule configuration ([crates/core/src/domain/scheduling.rs], first part)

    [Weekday] adds the ordinals to the vocabulary of weekdays, [LocalTime] is
    the wall-clock minute with its [HH:MM] text, [Config] the validated
    recurrence of one schedule revision.  A time zone is the canonical name of
    the [chrono_tz] entry; the zone database itself is a parameter where it is
    consulted. *)

From S2P Require Import Prelude Vocabulary Models.

Definition DEFAULT_BACKUP_SCHEDULE_MAX_LATENESS_SECONDS : Z := 604800.
Definition MIN_BACKUP_SCHEDULE_MAX_LATENESS_SECONDS : Z := 60.
Definition MAX_BACKUP_SCHEDULE_MAX_LATENESS_SECONDS : Z := 2678400.
Definition MINUTES_PER_DAY : Z := 24 * 60.
Definition MAX_RECURRENCE_DATE_SCAN_DAYS : Z :=
  MAX_BACKUP_SCHEDULE_MAX_LATENESS_SECONDS / 86400 + 3.

(** ** Weekday ordinals *)

Module Weekday.
Import BackupScheduleWeekday.

Definition ordinal (self : t) : Z :=
  match self with
  | Monday => 1 | Tuesday => 2 | Wednesday => 3 | Thursday => 4 | Friday => 5
  | Saturday => 6 | Sunday => 7
  end.

Definition from_ordinal (value : Z) : option t :=
  match value with
  | 1 => Some Monday | 2 => Some Tuesday | 3 => Some Wednesday | 4 => Some Thursday
  | 5 => Some Friday | 6 => Some Saturday | 7 => Some Sunday
  | _ => None
  end.

(** The derived [Ord]: declaration order. *)
Definition le (a b : t) : Prop := ordinal a <= ordinal b.

#[global] Instance le_dec : RelDecision le.
Proof. intros a b. unfold le. apply _. Defined.

Lemma from_ordinal_ordinal d : from_ordinal (ordinal d) = Some d.
Proof. by destruct d. Qed.

Lemma ordinal_inj a b : ordinal a = ordinal b -> a = b.
Proof.
  intros H. assert (Some a = Some b) by (rewrite <- !from_ordinal_ordinal; by rewrite H).
  congruence.
Qed.

#[global] Instance le_total : Total le.
Proof. intros a b. unfold le. lia. Qed.
#[global] Instance le_trans : Transitive le.
Proof. intros a b c. unfold le. lia. Qed.

End Weekday.

(** ** Local times *)

Module LocalTime.

(** [u8] arithmetic that panics on overflow in a checked build: [None]. *)
Definition sub8 (a b : Z) : option Z := if b <=? a then Some (a - b) else None.
Definition add8 (a b : Z) : option Z := if a + b <=? 255 then Some (a + b) else None.
Definition mul8 (a b : Z) : option Z := if a * b <=? 255 then Some (a * b) else None.

Definition from_minute (minute : Z) : result Z DomainError :=
  if MINUTES_PER_DAY <=? minute then Err InvalidLocalTime else Ok minute.

Definition new (hour minute : Z) : result Z DomainError :=
  if (24 <=? hour) || (60 <=? minute) then Err InvalidLocalTime
  else from_minute (hour * 60 + minute).

Definition hour (self : Z) : Z := (self / 60) mod 256.
Definition minute_of_hour (self : Z) : Z := (self mod 60) mod 256.

(** [(bytes[i] - b'0') * 10 + bytes[j] - b'0'], in the order Rust evaluates it. *)
Definition two_digits (a b : Z) : option Z :=
  let* x := sub8 a 48 in
  let* x := mul8 x 10 in
  let* x := add8 x b in
  sub8 x 48.

Definition from_str (value : rstring) : option (result Z DomainError) :=
  match value with
  | [b0; b1; b2; b3; b4] =>
      if (b2 != 58) || negb (is_ascii_digit b0) || negb (is_ascii_digit b1)
         || negb (is_ascii_digit b3) || negb (is_ascii_digit b4)
      then Some (Err InvalidLocalTime)
      else
        let* hour := two_digits b0 b1 in
        let* minute := two_digits b3 b4 in
        Some (new hour minute)
  | _ => Some (Err InvalidLocalTime)
  end.

(** [{:02}] of a number below 100. *)
Definition fmt02 (n : Z) : rstring := [48 + n / 10; 48 + n mod 10].

Definition fmt (self : Z) : rstring := fmt02 (hour self) ++ 58 :: fmt02 (minute_of_hour self).

Definition minute_ok (m : Z) : Prop := 0 <= m < MINUTES_PER_DAY.

Lemma two_digits_value a b :
  is_ascii_digit a = true -> is_ascii_digit b = true ->
  two_digits a b = Some ((a - 48) * 10 + (b - 48)).
Proof.
  unfold is_ascii_digit, two_digits, sub8, mul8, add8. intros Ha Hb. rust_bool.
  rewrite (proj2 (Z.leb_le _ _)) by lia. rewrite (proj2 (Z.leb_le _ _)) by lia.
  rewrite (proj2 (Z.leb_le _ _)) by lia. rewrite (proj2 (Z.leb_le _ _)) by lia.
  f_equal. lia.
Qed.

Lemma new_Ok h m t :
  0 <= h -> 0 <= m -> new h m = Ok t <-> h < 24 /\ m < 60 /\ t = h * 60 + m.
Proof.
  intros Hh Hm. unfold new, from_minute, MINUTES_PER_DAY.
  destruct (24 <=? h) eqn:E1, (60 <=? m) eqn:E2; cbn; rust_bool; try (split; [done|lia]).
  destruct (_ <=? _) eqn:E3; rust_bool; [lia|]. split; [intros; simplify_eq; done|].
  by intros (_ & _ & ->).
Qed.

Lemma two_digits_fmt02 n :
  0 <= n < 100 ->
  is_ascii_digit (48 + n / 10) = true /\ is_ascii_digit (48 + n mod 10) = true /\
  two_digits (48 + n / 10) (48 + n mod 10) = Some n.
Proof.
  intros Hn. assert (0 <= n / 10 < 10) by (split; [apply Z.div_pos; lia|apply Z.div_lt_upper_bound; lia]).
  pose proof (Z.mod_pos_bound n 10). pose proof (Z.div_mod n 10).
  assert (is_ascii_digit (48 + n / 10) = true /\ is_ascii_digit (48 + n mod 10) = true) as [? ?]
    by (unfold is_ascii_digit; split; apply andb_true_iff; split; apply Z.leb_le; lia).
  split_and!; try done. rewrite two_digits_value by done. f_equal. lia.
Qed.

Lemma hour_minute m :
  minute_ok m ->
  0 <= hour m < 24 /\ 0 <= minute_of_hour m < 60 /\ m = hour m * 60 + minute_of_hour m.
Proof.
  unfold minute_ok, MINUTES_PER_DAY, hour, minute_of_hour. intros Hm.
  assert (0 <= m / 60 < 24) by (split; [apply Z.div_pos; lia|apply Z.div_lt_upper_bound; lia]).
  pose proof (Z.mod_pos_bound m 60). pose proof (Z.div_mod m 60).
  rewrite !Z.mod_small by lia. lia.
Qed.

Lemma from_str_of_fmt m : minute_ok m -> from_str (fmt m) = Some (Ok m).
Proof.
  intros (Hh & Hm & Em)%hour_minute. unfold fmt, fmt02. cbn [app from_str].
  destruct (two_digits_fmt02 (hour m)) as (-> & -> & ->); [lia|].
  destruct (two_digits_fmt02 (minute_of_hour m)) as (-> & -> & ->); [lia|].
  cbn. f_equal. apply new_Ok; lia.
Qed.

Lemma digit_pair a b :
  is_ascii_digit a = true -> is_ascii_digit b = true ->
  fmt02 ((a - 48) * 10 + (b - 48)) = [a; b] /\ 0 <= (a - 48) * 10 + (b - 48).
Proof.
  unfold is_ascii_digit, fmt02. intros Ha Hb. rust_bool. split; [|lia].
  f_equal; [|f_equal].
  - rewrite <- (Z.div_unique ((a - 48) * 10 + (b - 48)) 10 (a - 48) (b - 48)); lia.
  - rewrite <- (Z.mod_unique ((a - 48) * 10 + (b - 48)) 10 (a - 48) (b - 48)); lia.
Qed.

(** The wall-clock text is canonical and its arithmetic stays in range. The
    parser never overflows its eight-bit digits, and it accepts exactly the texts
    printed for the 1440 minutes of a day, each as that minute. *)
Theorem local_time_roundtrip s :
  (exists r, from_str s = Some r) /\
  (forall m, from_str s = Some (Ok m) <-> minute_ok m /\ s = fmt m).
Proof.
  assert (forall m, minute_ok m /\ s = fmt m -> from_str s = Some (Ok m)) as Hback
    by (intros m [Hm ->]; by apply from_str_of_fmt).
  destruct s as [|b0 [|b1 [|b2 [|b3 [|b4 [|]]]]]];
    try (split; [by eexists|intros m; split; [done|by intros [_ ?]]]).
  destruct ((b2 != 58) || negb (is_ascii_digit b0) || negb (is_ascii_digit b1)
            || negb (is_ascii_digit b3) || negb (is_ascii_digit b4)) eqn:E.
  - assert (from_str [b0; b1; b2; b3; b4] = Some (Err InvalidLocalTime)) as E'
      by (cbn [from_str]; by rewrite E).
    split; [by eexists|]. intros m. split; [by rewrite E'|apply Hback].
  - assert (from_str [b0; b1; b2; b3; b4] =
            let* h := two_digits b0 b1 in let* m := two_digits b3 b4 in Some (new h m)) as E'
      by (cbn [from_str]; by rewrite E).
    rust_bool. rewrite !two_digits_value in E' by done. destruct (digit_pair b0 b1) as [F1 P1]; [done..|].
    destruct (digit_pair b3 b4) as [F2 P2]; [done..|].
    split; [by eexists|]. intros m. split; [|apply Hback]. rewrite E'. intros [= Hn].
    apply new_Ok in Hn as (? & ? & ->); [|lia..].
    assert (minute_ok (((b0 - 48) * 10 + (b1 - 48)) * 60 + ((b3 - 48) * 10 + (b4 - 48)))) as Hok
      by (unfold minute_ok, MINUTES_PER_DAY; lia).
    split; [done|]. destruct (hour_minute _ Hok) as (? & ? & ?). subst b2. unfold fmt.
    replace (hour _) with ((b0 - 48) * 10 + (b1 - 48)) by lia.
    replace (minute_of_hour _) with ((b3 - 48) * 10 + (b4 - 48)) by lia.
    by rewrite F1, F2.
Qed.

End LocalTime.

(** ** Recurrence configuration *)

(** [Vec::dedup]: drops an element equal to its predecessor. *)
Fixpoint dedup {A} `{EqDecision A} (l : list A) : list A :=
  match l with
  | [] => []
  | a :: l' =>
      match dedup l' with
      | b :: k => if a == b then b :: k else a :: b :: k
      | [] => [a]
      end
  end.

Module Config.

Record t := mk {
  recurrence_kind : BackupScheduleRecurrenceKind.t; timezone : rstring; local_time : Z;
  weekly_days : list BackupScheduleWeekday.t; misfire_mode : BackupScheduleMisfireMode.t;
  max_lateness_seconds : Z }.

Definition new_with_misfire_policy (recurrence_kind : BackupScheduleRecurrenceKind.t)
  (timezone : rstring) (local_time : Z) (weekly_days : list BackupScheduleWeekday.t)
  (misfire_mode : BackupScheduleMisfireMode.t) (max_lateness_seconds : Z) :
  result t DomainError :=
  let weekly_days := dedup (merge_sort Weekday.le weekly_days) in
  let? _ :=
    match recurrence_kind with
    | BackupScheduleRecurrenceKind.Daily =>
        if negb (is_empty weekly_days) then Err InvalidWeeklyDays else Ok tt
    | BackupScheduleRecurrenceKind.Weekly =>
        if is_empty weekly_days then Err InvalidWeeklyDays else Ok tt
    end in
  if negb ((MIN_BACKUP_SCHEDULE_MAX_LATENESS_SECONDS <=? max_lateness_seconds)
           && (max_lateness_seconds <=? MAX_BACKUP_SCHEDULE_MAX_LATENESS_SECONDS))
  then Err InvalidBackupScheduleMaxLateness
  else Ok (mk recurrence_kind timezone local_time weekly_days misfire_mode max_lateness_seconds).

Definition new (recurrence_kind : BackupScheduleRecurrenceKind.t) (timezone : rstring)
  (local_time : Z) (weekly_days : list BackupScheduleWeekday.t) : result t DomainError :=
  new_with_misfire_policy recurrence_kind timezone local_time weekly_days
    BackupScheduleMisfireMode.LatestOnly DEFAULT_BACKUP_SCHEDULE_MAX_LATENESS_SECONDS.

Definition daily (timezone : rstring) (local_time : Z) : result t DomainError :=
  new BackupScheduleRecurrenceKind.Daily timezone local_time [].

Definition weekly (timezone : rstring) (local_time : Z)
  (weekly_days : list BackupScheduleWeekday.t) : result t DomainError :=
  new BackupScheduleRecurrenceKind.Weekly timezone local_time weekly_days.

(** *** Normalised weekdays *)

Definition lt (a b : BackupScheduleWeekday.t) : Prop := Weekday.ordinal a < Weekday.ordinal b.

Lemma elem_of_dedup {A} `{EqDecision A} (l : list A) x : x ∈ dedup l <-> x ∈ l.
Proof.
  induction l as [|a l IH]; [done|]. cbn [dedup]. rewrite elem_of_cons, <- IH.
  destruct (dedup l) as [|b k]; [set_solver|]. case_bool_decide; set_solver.
Qed.

Lemma dedup_strict l : StronglySorted Weekday.le l -> StronglySorted lt (dedup l).
Proof.
  induction 1 as [|a l Hl IH Ha]; [constructor|]. cbn [dedup].
  assert (forall x, x ∈ dedup l -> Weekday.le a x) as Hd.
  { intros x. rewrite elem_of_dedup. by apply Forall_forall. }
  destruct (dedup l) as [|b k] eqn:E; [by repeat constructor|].
  case_bool_decide as Hab; [done|]. constructor; [done|].
  inversion_clear IH as [|? ? Hk Hb].
  assert (lt a b) as Hlt.
  { pose proof (Hd b ltac:(set_solver)). unfold Weekday.le, lt in *.
    assert (Weekday.ordinal a <> Weekday.ordinal b) by (intros ?%Weekday.ordinal_inj; done). lia. }
  constructor; [done|]. eapply Forall_impl; [exact Hb|]. unfold lt in *. lia.
Qed.

Lemma normalised_days days :
  StronglySorted lt (dedup (merge_sort Weekday.le days)) /\
  forall d, d ∈ dedup (merge_sort Weekday.le days) <-> d ∈ days.
Proof.
  split; [apply dedup_strict, StronglySorted_merge_sort; apply _|].
  intros d. by rewrite elem_of_dedup, merge_sort_Permutation.
Qed.

(** A strictly increasing list of weekdays is determined by its members. *)
Lemma strict_unique l k :
  StronglySorted lt l -> StronglySorted lt k -> (forall d, d ∈ l <-> d ∈ k) -> l = k.
Proof.
  intros Hl. revert k. induction Hl as [|a l Hl IH Ha]; intros [|b k] Hk Hin.
  - done.
  - exfalso. specialize (Hin b). set_solver.
  - exfalso. specialize (Hin a). set_solver.
  - inversion_clear Hk as [|? ? Hk' Hb]. rewrite Forall_forall in Ha, Hb.
    assert (a = b) as ->.
    { pose proof (proj1 (Hin a)) as H1. pose proof (proj2 (Hin b)) as H2.
      rewrite !elem_of_cons in H1, H2. destruct H1 as [|H1]; [by left|done|].
      destruct H2 as [|H2]; [by left|done|]. apply Hb in H1. apply Ha in H2.
      unfold lt in *. lia. }
    f_equal. apply IH; [done|]. intros d. specialize (Hin d). rewrite !elem_of_cons in Hin.
    assert (d ∈ l -> d <> b) by (intros H%Ha ->; unfold lt in H; lia).
    assert (d ∈ k -> d <> b) by (intros H0%Hb ->; unfold lt in H0; lia). tauto.
Qed.

(** What a configuration satisfies once it exists. *)
Record wf (c : t) : Prop := mk_wf {
  wf_days : StronglySorted lt (weekly_days c);
  wf_kind : recurrence_kind c = BackupScheduleRecurrenceKind.Daily <-> weekly_days c = [];
  wf_lateness : MIN_BACKUP_SCHEDULE_MAX_LATENESS_SECONDS <= max_lateness_seconds c
                <= MAX_BACKUP_SCHEDULE_MAX_LATENESS_SECONDS }.

Lemma new_with_misfire_policy_Ok kind tz lt' days mode late c :
  new_with_misfire_policy kind tz lt' days mode late = Ok c <->
  c = mk kind tz lt' (dedup (merge_sort Weekday.le days)) mode late /\ wf c.
Proof.
  unfold new_with_misfire_policy.
  destruct (normalised_days days) as [Hs _].
  set (ds := dedup (merge_sort Weekday.le days)) in *. split.
  - destruct kind, ds; cbn [is_empty negb]; try done;
      destruct (_ && _) eqn:E; cbn [negb]; intros; simplify_eq; rust_bool;
      split; try done; by constructor.
  - intros [-> [_ H2 H3]]. cbn in H2, H3.
    destruct kind, ds; cbn [is_empty negb]; try (naive_solver);
      rewrite (proj2 (Z.leb_le _ _)), (proj2 (Z.leb_le _ _)) by lia; done.
Qed.

(** A schedule configuration is normalised. The constructor accepts a request
    exactly when the lateness bound is within its range and weekdays are given for
    a weekly and only for a weekly recurrence; the stored weekdays are strictly
    increasing with the requested members, and requests that name the same
    weekdays, in any order and with any repetition, give the same outcome. *)
Theorem config_normalised kind tz lt' days mode late :
  (forall c, new_with_misfire_policy kind tz lt' days mode late = Ok c <->
     MIN_BACKUP_SCHEDULE_MAX_LATENESS_SECONDS <= late
       <= MAX_BACKUP_SCHEDULE_MAX_LATENESS_SECONDS /\
     (kind = BackupScheduleRecurrenceKind.Daily <-> days = []) /\
     StronglySorted lt (weekly_days c) /\ (forall d, d ∈ weekly_days c <-> d ∈ days) /\
     c = mk kind tz lt' (weekly_days c) mode late) /\
  (forall days', (forall d, d ∈ days <-> d ∈ days') ->
     new_with_misfire_policy kind tz lt' days mode late =
     new_with_misfire_policy kind tz lt' days' mode late).
Proof.
  destruct (normalised_days days) as [Hs Hm].
  assert (dedup (merge_sort Weekday.le days) = [] <-> days = []) as Hnil.
  { split; intros E; [|by rewrite E].
    destruct days as [|d days]; [done|]. specialize (Hm d). rewrite E in Hm. set_solver. }
  split.
  - intros c. rewrite new_with_misfire_policy_Ok. split.
    + intros [-> [H1 H2 H3]]. cbn in *. rewrite Hnil in H2. done.
    + intros (H1 & H2 & H3 & H4 & E).
      assert (weekly_days c = dedup (merge_sort Weekday.le days)) as Ed
        by (apply strict_unique; [done..|]; intros d; by rewrite H4, Hm).
      split; [by rewrite E at 1; rewrite Ed|]. rewrite E. constructor; cbn; [done| |done].
      by rewrite Ed, Hnil.
  - intros days' Hd. destruct (normalised_days days') as [Hs' Hm'].
    unfold new_with_misfire_policy. rewrite (strict_unique _ _ Hs Hs'); [done|].
    intros d. by rewrite Hm, Hm', Hd.
Qed.

End Config.
