(* ===== verification/Requests.v ===== *)
(** * Idempotency fingerprints of requests

    The canonical byte encodings behind every request fingerprint of
    [crates/core/src/domain]: client mutations ([mutations.rs]), manual
    conflict resolutions ([conflicts.rs]), restore, prune, retention,
    maintenance and expiry requests and the expiry basis ([backup.rs]), and
    schedules ([scheduling.rs]).  The hash function [Sha256::digest] of the
    [sha2] crate is a parameter and nothing is assumed of it.

    The interface is the class [Encoding]: on well-formed requests, equal
    encodings mean the same request.  Its client, [fingerprint_exact], turns it
    into the idempotency guarantee; the instances discharge it per request
    type, and [encode_document_inj] separates the types from each other. *)

From S2P Require Import Prelude Vocabulary Values Models ScheduleConfig.
Import Ids.

(** ** Fingerprints *)

Record fingerprint := mk_fingerprint { version : Z; sha256 : rstring }.

(** On well-formed values the encoding determines the value up to [same]. *)
Class Encoding {R} (encode : R -> rstring) (ok : R -> Prop) (same : R -> R -> Prop) : Prop :=
  encode_same : forall a b, ok a -> ok b -> encode a = encode b <-> same a b.

Section Digest.
Context (digest : rstring -> rstring).

(** [let digest = Sha256::digest(canonical)], with the encoding's version. *)
Definition seal (version : Z) (canonical : rstring) : fingerprint :=
  mk_fingerprint version (digest canonical).

Context {R} (encode : R -> rstring) (ok : R -> Prop) (same : R -> R -> Prop).
Context `{!Encoding encode ok same}.

(** Equal fingerprints: the same request, or a collision of the hash on the two
    encodings at hand. *)
Lemma fingerprint_exact v a b :
  ok a -> ok b ->
  seal v (encode a) = seal v (encode b) <->
  same a b \/ (encode a <> encode b /\ digest (encode a) = digest (encode b)).
Proof.
  intros Ha Hb. rewrite <- encode_same by done. unfold seal. split.
  - intros [= H]. destruct (decide (encode a = encode b)); auto.
  - intros [->|[_ ->]]; done.
Qed.

End Digest.

(** ** Fields *)

Definition append_id (id : Z) : rstring := as_bytes id.
Definition append_revision (revision : Z) : rstring := be_bytes 8 revision.
Definition append_name (name : rstring) : rstring := be_bytes 4 (len name) ++ name.
Definition append_optional_revision (revision : option Z) : rstring :=
  match revision with Some r => 1 :: be_bytes 8 r | None => [0] end.

Definition opt_u64_ok (o : option Z) : Prop := match o with Some r => u64_ok r | None => True end.

(** Instants: what [OffsetDateTime::unix_timestamp_nanos] returns is an [i128]. *)
Definition instant_ok (t : Z) : Prop := - 2 ^ 127 <= t < 2 ^ 127.

Lemma id_field a b r s :
  id_ok a -> id_ok b -> as_bytes a ++ r = as_bytes b ++ s <-> a = b /\ r = s.
Proof.
  intros Ha Hb. split; [|by intros [-> ->]]. intros H.
  apply app_inj_len in H as [H ->]; [|by rewrite !length_as_bytes].
  split; [by apply as_bytes_inj|done].
Qed.

Lemma u64_field a b r s :
  u64_ok a -> u64_ok b -> be_bytes 8 a ++ r = be_bytes 8 b ++ s <-> a = b /\ r = s.
Proof.
  intros Ha Hb. split; [|by intros [-> ->]]. intros H.
  apply app_inj_len in H as [H ->]; [|by rewrite !length_be_bytes].
  split; [|done]. unfold u64_ok, u64_max in *. apply (be_bytes_inj 8); [lia..|done].
Qed.

Lemma uint_field w a b r s :
  0 <= a < 256 ^ Z.of_nat w -> 0 <= b < 256 ^ Z.of_nat w ->
  be_bytes w a ++ r = be_bytes w b ++ s <-> a = b /\ r = s.
Proof.
  intros Ha Hb. split; [|by intros [-> ->]]. intros H.
  apply app_inj_len in H as [H ->]; [|by rewrite !length_be_bytes].
  split; [by apply (be_bytes_inj w)|done].
Qed.

Lemma instant_field a b r s :
  instant_ok a -> instant_ok b -> be_bytes 16 a ++ r = be_bytes 16 b ++ s <-> a = b /\ r = s.
Proof.
  intros Ha Hb. split; [|by intros [-> ->]]. intros H.
  apply app_inj_len in H as [H ->]; [|by rewrite !length_be_bytes].
  split; [|done]. unfold instant_ok in *. apply (be_bytes_inj_signed 16); [lia..|done].
Qed.

(** A length-prefixed field of a bounded length. *)
Lemma sized_field w (a b r s : rstring) :
  len a < 256 ^ Z.of_nat w -> len b < 256 ^ Z.of_nat w ->
  be_bytes w (len a) ++ a ++ r = be_bytes w (len b) ++ b ++ s <-> a = b /\ r = s.
Proof.
  intros Ha Hb. split; [|by intros [-> ->]]. unfold len in *.
  intros [Hl H]%uint_field; [|lia..]. apply app_inj_len in H; [done|lia].
Qed.

Lemma name_field a b r s :
  Names.name_ok a -> Names.name_ok b ->
  append_name a ++ r = append_name b ++ s <-> a = b /\ r = s.
Proof.
  unfold Names.name_ok, Names.MAX_LOGICAL_NAME_BYTES, append_name. intros Ha Hb.
  rewrite <- !app_assoc. apply (sized_field 4); lia.
Qed.

Lemma optional_revision_field a b r s :
  opt_u64_ok a -> opt_u64_ok b ->
  append_optional_revision a ++ r = append_optional_revision b ++ s <-> a = b /\ r = s.
Proof.
  intros Ha Hb. destruct a as [a|], b as [b|]; cbn [append_optional_revision app];
    try (split; [congruence|by intros [? ?]]).
  - rewrite (inj_iff (cons 1)), (u64_field a b) by done. naive_solver.
  - rewrite (inj_iff (cons 0)). naive_solver.
Qed.

Lemma tag_field (t : rstring) (r s : rstring) : t ++ r = t ++ s <-> r = s.
Proof. split; [apply app_inv_head|by intros ->]. Qed.

Lemma byte_field (x : Z) (r s : rstring) : x :: r = x :: s <-> r = s.
Proof. naive_solver. Qed.

(** The same fields at the end of an encoding. *)
Lemma id_last a b : id_ok a -> id_ok b -> as_bytes a = as_bytes b <-> a = b.
Proof. intros Ha Hb. split; [by apply as_bytes_inj|by intros ->]. Qed.

Lemma u64_last a b : u64_ok a -> u64_ok b -> be_bytes 8 a = be_bytes 8 b <-> a = b.
Proof.
  intros Ha Hb. rewrite <- (app_nil_r (be_bytes 8 a)), <- (app_nil_r (be_bytes 8 b)).
  rewrite u64_field by done. naive_solver.
Qed.

Lemma name_last a b :
  Names.name_ok a -> Names.name_ok b -> append_name a = append_name b <-> a = b.
Proof.
  intros Ha Hb. rewrite <- (app_nil_r (append_name a)), <- (app_nil_r (append_name b)).
  rewrite name_field by done. naive_solver.
Qed.

Lemma optional_revision_last a b :
  opt_u64_ok a -> opt_u64_ok b ->
  append_optional_revision a = append_optional_revision b <-> a = b.
Proof.
  intros Ha Hb.
  rewrite <- (app_nil_r (append_optional_revision a)), <- (app_nil_r (append_optional_revision b)).
  rewrite optional_revision_field by done. naive_solver.
Qed.

(** Reads an equation between encodings field by field. *)
Ltac fields :=
  unfold append_id, append_revision in *; rewrite ?tag_field;
  repeat first
    [ rewrite tag_field
    | rewrite id_field by done | rewrite u64_field by done | rewrite name_field by done
    | rewrite optional_revision_field by done | rewrite instant_field by done
    | rewrite id_last by done | rewrite u64_last by done | rewrite name_last by done
    | rewrite optional_revision_last by done ].

(** ** Client mutations ([mutations.rs]) *)

Module Mutation.

Definition CLIENT_MUTATION_FINGERPRINT_VERSION : Z := 1.

Inductive ClientMutation : Type :=
| CreateDirectory (parent_node_id expected_parent_revision : Z) (name : rstring)
| RenameNode (node_id expected_revision : Z) (new_name : rstring)
| MoveNode (node_id expected_revision new_parent_node_id expected_new_parent_revision : Z)
| TrashNode (node_id expected_revision : Z)
| RestoreNode (node_id expected_revision expected_parent_node_id expected_parent_revision : Z).

Definition kind (self : ClientMutation) : ClientMutationKind.t :=
  match self with
  | CreateDirectory _ _ _ => ClientMutationKind.CreateDirectory
  | RenameNode _ _ _ => ClientMutationKind.RenameNode
  | MoveNode _ _ _ _ => ClientMutationKind.MoveNode
  | TrashNode _ _ => ClientMutationKind.TrashNode
  | RestoreNode _ _ _ _ => ClientMutationKind.RestoreNode
  end.

Definition resource_id (self : ClientMutation) : Z :=
  match self with
  | CreateDirectory parent_node_id _ _ | MoveNode _ _ parent_node_id _ => parent_node_id
  | RenameNode node_id _ _ | TrashNode node_id _ | RestoreNode node_id _ _ _ => node_id
  end.

Record Request := mk_Request {
  mutation_id : Z; base_epoch : Z; base_sequence : Z; mutation : ClientMutation }.

(** The [match] of [fingerprint]. *)
Definition body (m : ClientMutation) : rstring :=
  match m with
  | CreateDirectory parent revision name =>
      1 :: append_id parent ++ append_revision revision ++ append_name name
  | RenameNode node revision new_name =>
      2 :: append_id node ++ append_revision revision ++ append_name new_name
  | MoveNode node revision new_parent new_parent_revision =>
      3 :: append_id node ++ append_revision revision ++ append_id new_parent
        ++ append_revision new_parent_revision
  | TrashNode node revision => 4 :: append_id node ++ append_revision revision
  | RestoreNode node revision parent parent_revision =>
      5 :: append_id node ++ append_revision revision ++ append_id parent
        ++ append_revision parent_revision
  end.

Definition canonical (self : Request) : rstring :=
  (lit "synveil:client-mutation" ++ [0]) ++ be_bytes 2 CLIENT_MUTATION_FINGERPRINT_VERSION
  ++ be_bytes 8 (base_epoch self) ++ be_bytes 8 (base_sequence self) ++ body (mutation self).

Definition fingerprint (digest : rstring -> rstring) (self : Request) : Requests.fingerprint :=
  seal digest CLIENT_MUTATION_FINGERPRINT_VERSION (canonical self).

(** The type invariants of the fields. *)
Definition mutation_ok (m : ClientMutation) : Prop :=
  match m with
  | CreateDirectory i r n | RenameNode i r n => id_ok i /\ u64_ok r /\ Names.name_ok n
  | MoveNode i r p q | RestoreNode i r p q => id_ok i /\ u64_ok r /\ id_ok p /\ u64_ok q
  | TrashNode i r => id_ok i /\ u64_ok r
  end.
Definition ok (r : Request) : Prop :=
  u64_ok (base_epoch r) /\ u64_ok (base_sequence r) /\ mutation_ok (mutation r).

(** The same intent: everything but the retry identity. *)
Definition same (a b : Request) : Prop :=
  base_epoch a = base_epoch b /\ base_sequence a = base_sequence b /\ mutation a = mutation b.

Lemma body_inj a b : mutation_ok a -> mutation_ok b -> body a = body b <-> a = b.
Proof.
  intros Ha Hb. destruct a, b; cbn [body mutation_ok] in *; destruct_and?;
    try (split; [intros [=]|discriminate]); rewrite byte_field; fields; naive_solver.
Qed.

#[global] Instance encoding : Encoding canonical ok same.
Proof.
  intros a b (? & ? & Ha) (? & ? & Hb). unfold canonical, same. fields.
  by rewrite body_inj.
Qed.

(** C37: a client mutation's fingerprint identifies its intent. For well-formed
    requests, two fingerprints are equal exactly when epoch, base sequence, kind of
    mutation and every one of its operands and expected revisions are equal, the
    retry identity being ignored, or the hash collides on the two distinct
    encodings. *)
Theorem mutation_fingerprint_exact digest a b :
  ok a -> ok b ->
  fingerprint digest a = fingerprint digest b <->
  same a b \/ (canonical a <> canonical b /\ digest (canonical a) = digest (canonical b)).
Proof. intros Ha Hb. by apply (fingerprint_exact digest canonical ok same). Qed.

Definition sample (retry : Z) (name : rstring) : Request :=
  mk_Request retry 1 9 (RenameNode 7 4 name).

Lemma mutation_fingerprint_exact_witness :
  (fingerprint (fun x => x) (sample 1 (lit "old.txt")) =
   fingerprint (fun x => x) (sample 2 (lit "old.txt")) <->
   same (sample 1 (lit "old.txt")) (sample 2 (lit "old.txt")) \/
   (canonical (sample 1 (lit "old.txt")) <> canonical (sample 2 (lit "old.txt")) /\
    canonical (sample 1 (lit "old.txt")) = canonical (sample 2 (lit "old.txt")))).
Proof.
  apply (mutation_fingerprint_exact (fun x => x)); by vm_compute.
Defined.

End Mutation.

(** ** Manual conflict resolutions ([conflicts.rs]) *)

Module Conflict.

Definition CONFLICT_RESOLUTION_FINGERPRINT_VERSION : Z := 1.

Record Request := mk_Request {
  resolution_id : Z; action : ConflictResolutionAction.t;
  expected_current_revision : option Z; expected_current_parent_revision : option Z }.

Definition canonical (self : Request) (conflict_id : Z) : rstring :=
  (lit "synveil:conflict-resolution" ++ [0]) ++ be_bytes 2 CONFLICT_RESOLUTION_FINGERPRINT_VERSION
  ++ as_bytes conflict_id
  ++ [match action self with
      | ConflictResolutionAction.AcceptServer => 1
      | ConflictResolutionAction.ApplyClientIntent => 2
      end]
  ++ append_optional_revision (expected_current_revision self)
  ++ append_optional_revision (expected_current_parent_revision self).

Definition fingerprint (digest : rstring -> rstring) (self : Request) (conflict_id : Z) :
  Requests.fingerprint :=
  seal digest CONFLICT_RESOLUTION_FINGERPRINT_VERSION (canonical self conflict_id).

Definition encode (x : Z * Request) : rstring := canonical x.2 x.1.
Definition ok (x : Z * Request) : Prop :=
  id_ok x.1 /\ opt_u64_ok (expected_current_revision x.2) /\
  opt_u64_ok (expected_current_parent_revision x.2).
Definition same (x y : Z * Request) : Prop :=
  x.1 = y.1 /\ action x.2 = action y.2 /\
  expected_current_revision x.2 = expected_current_revision y.2 /\
  expected_current_parent_revision x.2 = expected_current_parent_revision y.2.

#[global] Instance encoding : Encoding encode ok same.
Proof.
  intros [c a] [d b] (? & ? & ?) (? & ? & ?). cbn in * |-. unfold encode, canonical, same. cbn [fst snd].
  fields. destruct (action a), (action b); cbn [app];
    try (split; [intros [_ [=]]|by intros (_ & ? & _)]);
    rewrite byte_field; fields; tauto.
Qed.

(** A resolution's fingerprint identifies the decision. Two fingerprints are
    equal exactly when the conflict, the chosen action and both optional expected
    revisions are equal, a missing one differing from every present one, or the
    hash collides on the two distinct encodings; the resolution identity is
    ignored. *)
Theorem conflict_fingerprint_exact digest c d a b :
  ok (c, a) -> ok (d, b) ->
  fingerprint digest a c = fingerprint digest b d <->
  same (c, a) (d, b) \/
  (canonical a c <> canonical b d /\ digest (canonical a c) = digest (canonical b d)).
Proof. intros Ha Hb. by apply (fingerprint_exact digest encode ok same _ (c, a) (d, b)). Qed.

Definition sample (retry : Z) (expected : option Z) : Request :=
  mk_Request retry ConflictResolutionAction.ApplyClientIntent expected None.

Lemma conflict_fingerprint_exact_witness :
  fingerprint (fun x => x) (sample 1 (Some 7)) 5 = fingerprint (fun x => x) (sample 2 None) 5 <->
  same (5, sample 1 (Some 7)) (5, sample 2 None) \/
  (canonical (sample 1 (Some 7)) 5 <> canonical (sample 2 None) 5 /\
   canonical (sample 1 (Some 7)) 5 = canonical (sample 2 None) 5).
Proof. apply (conflict_fingerprint_exact (fun x => x) 5 5); by vm_compute. Defined.

End Conflict.

(** ** Backup requests ([backup.rs]) *)

Module RestorePlanRequest.

Definition BACKUP_RESTORE_PLAN_FINGERPRINT_VERSION : Z := 1.

Record t := mk {
  backup_set_id : Z; snapshot_id : Z; target_library_id : Z; target_parent_node_id : Z;
  destination_name : rstring }.

Definition canonical (self : t) : rstring :=
  (lit "synveil/backup-restore-plan" ++ [0]) ++ be_bytes 2 BACKUP_RESTORE_PLAN_FINGERPRINT_VERSION
  ++ as_bytes (backup_set_id self) ++ as_bytes (snapshot_id self)
  ++ as_bytes (target_library_id self) ++ as_bytes (target_parent_node_id self)
  ++ append_name (destination_name self).

Definition fingerprint (digest : rstring -> rstring) (self : t) : Requests.fingerprint :=
  seal digest BACKUP_RESTORE_PLAN_FINGERPRINT_VERSION (canonical self).

Definition ok (r : t) : Prop :=
  id_ok (backup_set_id r) /\ id_ok (snapshot_id r) /\ id_ok (target_library_id r) /\
  id_ok (target_parent_node_id r) /\ Names.name_ok (destination_name r).

#[global] Instance encoding : Encoding canonical ok eq.
Proof.
  intros a b (? & ? & ? & ? & ?) (? & ? & ? & ? & ?). unfold canonical. fields.
  destruct a, b; naive_solver.
Qed.

End RestorePlanRequest.

Module PrunePlanRequest.

Definition BACKUP_PRUNE_PLAN_FINGERPRINT_VERSION : Z := 1.

Record t := mk { backup_set_id : Z; snapshot_id : Z }.

Definition canonical (self : t) : rstring :=
  (lit "synveil/backup-prune-plan" ++ [0]) ++ be_bytes 2 BACKUP_PRUNE_PLAN_FINGERPRINT_VERSION
  ++ as_bytes (backup_set_id self) ++ as_bytes (snapshot_id self).

Definition fingerprint (digest : rstring -> rstring) (self : t) : Requests.fingerprint :=
  seal digest BACKUP_PRUNE_PLAN_FINGERPRINT_VERSION (canonical self).

Definition ok (r : t) : Prop := id_ok (backup_set_id r) /\ id_ok (snapshot_id r).

#[global] Instance encoding : Encoding canonical ok eq.
Proof.
  intros a b (? & ?) (? & ?). unfold canonical. fields. destruct a, b; naive_solver.
Qed.

End PrunePlanRequest.

Module RetentionPolicyConfig.

Definition MAX_BACKUP_SNAPSHOT_RETENTION_SECONDS : Z := 315576000000.

Record t := mk { keep_latest_completed : Z; expire_after_seconds : Z }.

Definition new (keep_latest_completed expire_after_seconds : Z) : result t DomainError :=
  if (keep_latest_completed == 0) || (expire_after_seconds == 0)
     || (MAX_BACKUP_SNAPSHOT_RETENTION_SECONDS <? expire_after_seconds)
     || i64_try_from_is_err keep_latest_completed
  then Err BackupRetentionPolicyInvalidConfig
  else Ok (mk keep_latest_completed expire_after_seconds).

End RetentionPolicyConfig.

Module RetentionPolicyRequest.

Definition BACKUP_SNAPSHOT_RETENTION_POLICY_FINGERPRINT_VERSION : Z := 1.

Record t := mk { backup_set_id : Z; config : RetentionPolicyConfig.t }.

Definition canonical (self : t) : rstring :=
  (lit "synveil/backup-snapshot-retention-policy" ++ [0])
  ++ be_bytes 2 BACKUP_SNAPSHOT_RETENTION_POLICY_FINGERPRINT_VERSION
  ++ as_bytes (backup_set_id self)
  ++ be_bytes 8 (RetentionPolicyConfig.keep_latest_completed (config self))
  ++ be_bytes 8 (RetentionPolicyConfig.expire_after_seconds (config self)).

Definition fingerprint (digest : rstring -> rstring) (self : t) : Requests.fingerprint :=
  seal digest BACKUP_SNAPSHOT_RETENTION_POLICY_FINGERPRINT_VERSION (canonical self).

Definition ok (r : t) : Prop :=
  id_ok (backup_set_id r) /\ u64_ok (RetentionPolicyConfig.keep_latest_completed (config r)) /\
  u64_ok (RetentionPolicyConfig.expire_after_seconds (config r)).

#[global] Instance encoding : Encoding canonical ok eq.
Proof.
  intros a b (? & ? & ?) (? & ? & ?). unfold canonical. fields.
  destruct a as [? []], b as [? []]; naive_solver.
Qed.

End RetentionPolicyRequest.

Module MaintenanceRunRequest.

Definition BACKUP_MAINTENANCE_RUN_FINGERPRINT_VERSION : Z := 1.

Record t := mk { backup_set_id : Z }.

Definition canonical (self : t) : rstring :=
  (lit "synveil/backup-maintenance-run" ++ [0])
  ++ be_bytes 2 BACKUP_MAINTENANCE_RUN_FINGERPRINT_VERSION ++ as_bytes (backup_set_id self).

Definition fingerprint (digest : rstring -> rstring) (self : t) : Requests.fingerprint :=
  seal digest BACKUP_MAINTENANCE_RUN_FINGERPRINT_VERSION (canonical self).

Definition ok (r : t) : Prop := id_ok (backup_set_id r).

#[global] Instance encoding : Encoding canonical ok eq.
Proof.
  intros a b ? ?. unfold canonical, ok in *. fields. destruct a, b; naive_solver.
Qed.

End MaintenanceRunRequest.

Module ExpiryPlanRequest.

Definition BACKUP_SNAPSHOT_EXPIRY_PLAN_FINGERPRINT_VERSION : Z := 1.

Record t := mk { backup_set_id : Z }.

Definition canonical (self : t) : rstring :=
  (lit "synveil/backup-snapshot-expiry-plan" ++ [0])
  ++ be_bytes 2 BACKUP_SNAPSHOT_EXPIRY_PLAN_FINGERPRINT_VERSION ++ as_bytes (backup_set_id self).

Definition fingerprint (digest : rstring -> rstring) (self : t) : Requests.fingerprint :=
  seal digest BACKUP_SNAPSHOT_EXPIRY_PLAN_FINGERPRINT_VERSION (canonical self).

Definition ok (r : t) : Prop := id_ok (backup_set_id r).

#[global] Instance encoding : Encoding canonical ok eq.
Proof.
  intros a b ? ?. unfold canonical, ok in *. fields. destruct a, b; naive_solver.
Qed.

End ExpiryPlanRequest.

Module ExpiryBasis.

Definition BACKUP_SNAPSHOT_EXPIRY_BASIS_FINGERPRINT_VERSION : Z := 1.

Record Entry := mk_Entry {
  snapshot_id : Z; committed_at : Z; blocked_by_active_restore_plan : bool }.

(** One turn of the loop over the cohort. *)
Definition entry_bytes (entry : Entry) : rstring :=
  as_bytes (snapshot_id entry) ++ be_bytes 16 (committed_at entry)
  ++ (lit "COMPLETED" ++ [0]) ++ [if blocked_by_active_restore_plan entry then 1 else 0].

Definition canonical (backup_set_id policy_revision_id evaluated_at : Z)
  (ordered_cohort : list Entry) : rstring :=
  (lit "synveil/backup-snapshot-expiry-basis" ++ [0])
  ++ be_bytes 2 BACKUP_SNAPSHOT_EXPIRY_BASIS_FINGERPRINT_VERSION
  ++ as_bytes backup_set_id ++ as_bytes policy_revision_id ++ be_bytes 16 evaluated_at
  ++ be_bytes 8 (len ordered_cohort) ++ flat_map entry_bytes ordered_cohort.

Definition calculate (digest : rstring -> rstring)
  (backup_set_id policy_revision_id evaluated_at : Z) (ordered_cohort : list Entry) :
  Requests.fingerprint :=
  seal digest BACKUP_SNAPSHOT_EXPIRY_BASIS_FINGERPRINT_VERSION
    (canonical backup_set_id policy_revision_id evaluated_at ordered_cohort).

(** The four arguments as one value. *)
Record t := mk { set_id : Z; policy_id : Z; evaluated : Z; cohort : list Entry }.
Definition encode (b : t) : rstring :=
  canonical (set_id b) (policy_id b) (evaluated b) (cohort b).

Definition entry_ok (e : Entry) : Prop := id_ok (snapshot_id e) /\ instant_ok (committed_at e).
Definition ok (b : t) : Prop :=
  id_ok (set_id b) /\ id_ok (policy_id b) /\ instant_ok (evaluated b) /\
  Forall entry_ok (cohort b) /\ u64_ok (len (cohort b)).

Lemma entry_field a b r s :
  entry_ok a -> entry_ok b ->
  entry_bytes a ++ r = entry_bytes b ++ s <-> a = b /\ r = s.
Proof.
  intros [? ?] [? ?]. unfold entry_bytes. rewrite <- !app_assoc. fields.
  destruct a as [? ? []], b as [? ? []]; cbn -[app lit]; naive_solver.
Qed.

Lemma cohort_inj k l :
  Forall entry_ok k -> Forall entry_ok l ->
  length k = length l -> flat_map entry_bytes k = flat_map entry_bytes l -> k = l.
Proof.
  intros Hk. revert l. induction Hk as [|a k Ha Hk IH]; intros [|b l] Hl Hlen; try done.
  inversion_clear Hl as [|? ? Hb Hl']. cbn [flat_map].
  rewrite entry_field by done. intros [-> H]. f_equal. apply IH; [done|by injection Hlen|done].
Qed.

#[global] Instance encoding : Encoding encode ok eq.
Proof.
  intros a b (? & ? & ? & ? & ?) (? & ? & ? & ? & ?). unfold encode, canonical. fields. split.
  - intros (? & ? & ? & Hl & Hc). unfold len in Hl.
    apply cohort_inj in Hc; [|done|done|lia]. destruct a, b; naive_solver.
  - by intros ->.
Qed.

(** The expiry basis seals the whole observation. Two basis fingerprints are
    equal exactly when backup set, policy revision, evaluation time and the ordered
    cohort agree, entry by entry in snapshot, commit time and restore blocker, or
    the hash collides on the two distinct encodings. *)
Theorem expiry_basis_exact digest a b :
  ok a -> ok b ->
  calculate digest (set_id a) (policy_id a) (evaluated a) (cohort a) =
  calculate digest (set_id b) (policy_id b) (evaluated b) (cohort b) <->
  a = b \/ (encode a <> encode b /\ digest (encode a) = digest (encode b)).
Proof. intros Ha Hb. by apply (fingerprint_exact digest encode ok eq). Qed.

Definition sample (blocked : bool) : t :=
  mk 1 2 1000 [mk_Entry 3 900 blocked; mk_Entry 4 800 false].

Lemma expiry_basis_exact_witness :
  calculate (fun x => x) 1 2 1000 (cohort (sample true)) =
  calculate (fun x => x) 1 2 1000 (cohort (sample false)) <->
  sample true = sample false \/
  (encode (sample true) <> encode (sample false) /\ encode (sample true) = encode (sample false)).
Proof.
  apply (expiry_basis_exact (fun x => x) (sample true) (sample false));
    (split_and!; [by vm_compute..| |by vm_compute]; repeat constructor; by vm_compute).
Defined.

End ExpiryBasis.

(** ** Schedules ([scheduling.rs]) *)

Module ScheduleRequest.
Import Config.

Definition BACKUP_SCHEDULE_FINGERPRINT_VERSION : Z := 2.
Definition BACKUP_SCHEDULE_LEGACY_FINGERPRINT_VERSION : Z := 1.

Record t := mk { backup_set_id : Z; config : Config.t }.

Definition canonical (self : t) (version : Z) : rstring :=
  (lit "synveil/backup-schedule" ++ [0]) ++ be_bytes 2 version ++ as_bytes (backup_set_id self)
  ++ [match recurrence_kind (config self) with
      | BackupScheduleRecurrenceKind.Daily => 1
      | BackupScheduleRecurrenceKind.Weekly => 2
      end]
  ++ be_bytes 2 (len (timezone (config self))) ++ timezone (config self)
  ++ be_bytes 2 (local_time (config self))
  ++ be_bytes 1 (len (weekly_days (config self)))
  ++ map Weekday.ordinal (weekly_days (config self))
  ++ if version == BACKUP_SCHEDULE_FINGERPRINT_VERSION
     then (match misfire_mode (config self) with
           | BackupScheduleMisfireMode.ReplayOneByOne => 1
           | BackupScheduleMisfireMode.LatestOnly => 2
           end) :: be_bytes 4 (max_lateness_seconds (config self))
     else [].

Definition fingerprint_for_version (digest : rstring -> rstring) (self : t) (version : Z) :
  option Requests.fingerprint :=
  if (version != BACKUP_SCHEDULE_LEGACY_FINGERPRINT_VERSION)
     && (version != BACKUP_SCHEDULE_FINGERPRINT_VERSION)
  then None
  else Some (seal digest version (canonical self version)).

(** [.expect("current schedule fingerprint version must be supported")]: [None]
    is the panic. *)
Definition fingerprint (digest : rstring -> rstring) (self : t) : option Requests.fingerprint :=
  fingerprint_for_version digest self BACKUP_SCHEDULE_FINGERPRINT_VERSION.

(** Zone names are shorter than 64 KiB, the width of their length field. *)
Definition ok (r : t) : Prop :=
  id_ok (backup_set_id r) /\ len (timezone (config r)) < 2 ^ 16 /\
  LocalTime.minute_ok (local_time (config r)) /\ Config.wf (config r).

(** The projection of version 1: everything but the misfire policy. *)
Definition same_legacy (a b : t) : Prop :=
  backup_set_id a = backup_set_id b /\
  recurrence_kind (config a) = recurrence_kind (config b) /\
  timezone (config a) = timezone (config b) /\ local_time (config a) = local_time (config b) /\
  weekly_days (config a) = weekly_days (config b).

Lemma strict_days_length l : StronglySorted Config.lt l -> (length l <= 7)%nat.
Proof.
  intros Hl.
  assert (NoDup l) as Hn.
  { induction Hl as [|a l Hl IH Ha]; constructor; [|done]. rewrite Forall_forall in Ha.
    intros Hin%Ha. unfold Config.lt in Hin. lia. }
  apply (submseteq_length l
    [BackupScheduleWeekday.Monday; BackupScheduleWeekday.Tuesday;
     BackupScheduleWeekday.Wednesday; BackupScheduleWeekday.Thursday;
     BackupScheduleWeekday.Friday; BackupScheduleWeekday.Saturday;
     BackupScheduleWeekday.Sunday]).
  apply NoDup_submseteq; [done|]. intros d _. destruct d; set_solver.
Qed.

Lemma days_field k l r s :
  (length k <= 7)%nat -> (length l <= 7)%nat ->
  be_bytes 1 (len k) ++ map Weekday.ordinal k ++ r =
  be_bytes 1 (len l) ++ map Weekday.ordinal l ++ s <-> k = l /\ r = s.
Proof.
  intros Hk Hl. split; [|by intros [-> ->]].
  replace (len k) with (len (map Weekday.ordinal k)) by (unfold len; by rewrite length_map).
  replace (len l) with (len (map Weekday.ordinal l)) by (unfold len; by rewrite length_map).
  rewrite (sized_field 1) by (unfold len; rewrite length_map; lia). intros [H ->].
  split; [|done]. revert l Hl H. clear Hk.
  induction k as [|a k IH]; intros [|b l] Hl; cbn [map]; try done.
  intros [= ->%Weekday.ordinal_inj H]. f_equal. apply IH; [cbn in Hl; lia|done].
Qed.

Lemma legacy_fields a b v :
  ok a -> ok b ->
  canonical a v = canonical b v <->
  same_legacy a b /\
  (if v == BACKUP_SCHEDULE_FINGERPRINT_VERSION
   then misfire_mode (config a) = misfire_mode (config b) /\
        max_lateness_seconds (config a) = max_lateness_seconds (config b)
   else True).
Proof.
  intros (? & Ta & La & [Da _ Ma]) (? & Tb & Lb & [Db _ Mb]). unfold canonical, same_legacy. fields.
  apply strict_days_length in Da, Db.
  unfold LocalTime.minute_ok, MINUTES_PER_DAY, MIN_BACKUP_SCHEDULE_MAX_LATENESS_SECONDS,
    MAX_BACKUP_SCHEDULE_MAX_LATENESS_SECONDS in *.
  destruct (recurrence_kind (config a)), (recurrence_kind (config b)); cbn [app];
    try (split; [intros [_ [=]]|by intros ((_ & ? & _) & _)]); rewrite byte_field;
    rewrite (sized_field 2) by lia; rewrite (uint_field 2) by lia; rewrite days_field by done;
    (case_bool_decide; [|naive_solver]);
    destruct (misfire_mode (config a)), (misfire_mode (config b));
    try (split; [intros (_ & _ & _ & _ & [=])|by intros (_ & ? & _)]); rewrite byte_field;
    rewrite <- (app_nil_r (be_bytes 4 (max_lateness_seconds (config a)))),
      <- (app_nil_r (be_bytes 4 (max_lateness_seconds (config b))));
    rewrite (uint_field 4) by lia; naive_solver.
Qed.

#[global] Instance encoding_legacy :
  Encoding (fun r => canonical r BACKUP_SCHEDULE_LEGACY_FINGERPRINT_VERSION) ok same_legacy.
Proof. intros a b Ha Hb. rewrite legacy_fields, bool_decide_false by done. tauto. Qed.

#[global] Instance encoding_current :
  Encoding (fun r => canonical r BACKUP_SCHEDULE_FINGERPRINT_VERSION) ok eq.
Proof.
  intros a b Ha Hb. rewrite legacy_fields, bool_decide_true by done. unfold same_legacy.
  destruct a as [? []], b as [? []]; cbn. naive_solver.
Qed.

(** Schedule fingerprints keep their two projections apart. Version 2
    identifies the whole request; version 1 identifies it up to the misfire policy,
    so evidence persisted before that policy existed still matches; every other
    version is refused and computing the current fingerprint never panics. Equality
    is up to a hash collision on the two encodings. *)
Theorem schedule_fingerprint_exact digest a b :
  ok a -> ok b ->
  let collide v := canonical a v <> canonical b v /\
                   digest (canonical a v) = digest (canonical b v) in
  (fingerprint_for_version digest a 1 = fingerprint_for_version digest b 1 <->
   same_legacy a b \/ collide 1) /\
  (fingerprint digest a = fingerprint digest b <-> a = b \/ collide 2) /\
  (forall v, is_some (fingerprint_for_version digest a v) = true <-> v = 1 \/ v = 2) /\
  fingerprint digest a = Some (seal digest 2 (canonical a 2)).
Proof.
  intros Ha Hb. cbn zeta.
  assert (forall r, fingerprint_for_version digest r 1 = Some (seal digest 1 (canonical r 1)))
    as E1 by done.
  assert (forall r, fingerprint digest r = Some (seal digest 2 (canonical r 2))) as E2 by done.
  split_and!.
  - rewrite !E1, (inj_iff Some). by apply (fingerprint_exact digest
      (fun r => canonical r BACKUP_SCHEDULE_LEGACY_FINGERPRINT_VERSION) ok same_legacy).
  - rewrite !E2, (inj_iff Some). by apply (fingerprint_exact digest
      (fun r => canonical r BACKUP_SCHEDULE_FINGERPRINT_VERSION) ok eq).
  - intros v. unfold fingerprint_for_version, BACKUP_SCHEDULE_LEGACY_FINGERPRINT_VERSION,
      BACKUP_SCHEDULE_FINGERPRINT_VERSION.
    repeat case_bool_decide; cbn -[canonical seal]; naive_solver.
  - done.
Qed.

Definition sample (late : Z) : t :=
  mk 1 (Config.mk BackupScheduleRecurrenceKind.Weekly (lit "Europe/Madrid") 150
          [BackupScheduleWeekday.Monday; BackupScheduleWeekday.Friday]
          BackupScheduleMisfireMode.LatestOnly late).

Lemma sample_ok late :
  60 <= late <= 2678400 -> ok (sample late).
Proof.
  intros Hl. split_and!; [by vm_compute..|]. constructor; [|done|done].
  repeat constructor; by vm_compute.
Qed.

Lemma schedule_fingerprint_exact_witness :
  fingerprint_for_version (fun x => x) (sample 60) 1 =
  fingerprint_for_version (fun x => x) (sample 3600) 1 /\
  fingerprint (fun x => x) (sample 60) <> fingerprint (fun x => x) (sample 3600).
Proof.
  destruct (schedule_fingerprint_exact (fun x => x) (sample 60) (sample 3600)) as (H1 & H2 & _).
  - apply sample_ok; lia.
  - apply sample_ok; lia.
  - split.
    + apply H1. left. by vm_compute.
    + intros E. apply H2 in E as [E|[E1 E2]]; [discriminate|by apply E1].
Defined.

End ScheduleRequest.

(** ** All sealed documents together *)

Inductive document : Type :=
| ClientMutationDocument (r : Mutation.Request)
| ConflictResolutionDocument (conflict_id : Z) (r : Conflict.Request)
| RestorePlanDocument (r : RestorePlanRequest.t)
| PrunePlanDocument (r : PrunePlanRequest.t)
| RetentionPolicyDocument (r : RetentionPolicyRequest.t)
| MaintenanceRunDocument (r : MaintenanceRunRequest.t)
| ExpiryPlanDocument (r : ExpiryPlanRequest.t)
| ExpiryBasisDocument (b : ExpiryBasis.t)
| LegacyScheduleDocument (r : ScheduleRequest.t)
| ScheduleDocument (r : ScheduleRequest.t).

(** What the code feeds to the hash for each of them. *)
Definition encode_document (d : document) : rstring :=
  match d with
  | ClientMutationDocument r => Mutation.canonical r
  | ConflictResolutionDocument c r => Conflict.canonical r c
  | RestorePlanDocument r => RestorePlanRequest.canonical r
  | PrunePlanDocument r => PrunePlanRequest.canonical r
  | RetentionPolicyDocument r => RetentionPolicyRequest.canonical r
  | MaintenanceRunDocument r => MaintenanceRunRequest.canonical r
  | ExpiryPlanDocument r => ExpiryPlanRequest.canonical r
  | ExpiryBasisDocument b => ExpiryBasis.encode b
  | LegacyScheduleDocument r => ScheduleRequest.canonical r 1
  | ScheduleDocument r => ScheduleRequest.canonical r 2
  end.

Definition document_ok (d : document) : Prop :=
  match d with
  | ClientMutationDocument r => Mutation.ok r
  | ConflictResolutionDocument c r => Conflict.ok (c, r)
  | RestorePlanDocument r => RestorePlanRequest.ok r
  | PrunePlanDocument r => PrunePlanRequest.ok r
  | RetentionPolicyDocument r => RetentionPolicyRequest.ok r
  | MaintenanceRunDocument r => MaintenanceRunRequest.ok r
  | ExpiryPlanDocument r => ExpiryPlanRequest.ok r
  | ExpiryBasisDocument b => ExpiryBasis.ok b
  | LegacyScheduleDocument r | ScheduleDocument r => ScheduleRequest.ok r
  end.

Definition same_document (d e : document) : Prop :=
  match d, e with
  | ClientMutationDocument a, ClientMutationDocument b => Mutation.same a b
  | ConflictResolutionDocument c a, ConflictResolutionDocument c' b =>
      Conflict.same (c, a) (c', b)
  | LegacyScheduleDocument a, LegacyScheduleDocument b => ScheduleRequest.same_legacy a b
  | _, _ => d = e
  end.

(** The domain tag of a document, up to its terminating zero, and the version. *)
Definition domain (d : document) : string :=
  match d with
  | ClientMutationDocument _ => "synveil:client-mutation"
  | ConflictResolutionDocument _ _ => "synveil:conflict-resolution"
  | RestorePlanDocument _ => "synveil/backup-restore-plan"
  | PrunePlanDocument _ => "synveil/backup-prune-plan"
  | RetentionPolicyDocument _ => "synveil/backup-snapshot-retention-policy"
  | MaintenanceRunDocument _ => "synveil/backup-maintenance-run"
  | ExpiryPlanDocument _ => "synveil/backup-snapshot-expiry-plan"
  | ExpiryBasisDocument _ => "synveil/backup-snapshot-expiry-basis"
  | LegacyScheduleDocument _ | ScheduleDocument _ => "synveil/backup-schedule"
  end.
Definition document_version (d : document) : Z :=
  match d with ScheduleDocument _ => 2 | _ => 1 end.

Lemma domain_no_zero d : 0 ∉ lit (domain d).
Proof.
  intros H%list_elem_of_In. destruct d; vm_compute in H; repeat destruct H as [H|H]; done.
Qed.

Lemma encode_document_shape d :
  exists r, encode_document d = lit (domain d) ++ 0 :: be_bytes 2 (document_version d) ++ r.
Proof.
  destruct d; cbn [encode_document domain document_version]; eexists;
    unfold Mutation.canonical, Conflict.canonical, RestorePlanRequest.canonical,
      PrunePlanRequest.canonical, RetentionPolicyRequest.canonical,
      MaintenanceRunRequest.canonical, ExpiryPlanRequest.canonical, ExpiryBasis.encode,
      ExpiryBasis.canonical, ScheduleRequest.canonical;
    rewrite <- app_assoc; reflexivity.
Qed.

(** Equal encodings start with the same tag and version. *)
Lemma encode_document_domain d e :
  encode_document d = encode_document e ->
  domain d = domain e /\ document_version d = document_version e.
Proof.
  destruct (encode_document_shape d) as [r ->], (encode_document_shape e) as [s ->]. intros H.
  pose proof (f_equal (split 0) H) as Hs.
  rewrite !split_app_sep in Hs by apply domain_no_zero. injection Hs as Ht _.
  rewrite Ht, tag_field, byte_field, (uint_field 2) in H
    by (unfold document_version; case_match; lia).
  split; [|apply H]. destruct d, e; vm_compute in Ht; done.
Qed.

(** no two sealed documents of the system share an encoding. Across client
    mutations, conflict resolutions, restore, prune, retention, maintenance and
    expiry requests, expiry bases and both schedule projections, two well-formed
    documents have the same bytes exactly when they are of the same type and state
    the same intent. *)
Theorem encode_document_exact d e :
  document_ok d -> document_ok e ->
  encode_document d = encode_document e <-> same_document d e.
Proof.
  intros Hd He. destruct (decide (domain d = domain e /\ document_version d = document_version e))
    as [[Ht Hv]|Hne].
  - destruct d, e; try discriminate Ht; try discriminate Hv;
      cbn [encode_document same_document document_ok] in *;
      [exact (Mutation.encoding _ _ Hd He)|exact (Conflict.encoding (_, _) (_, _) Hd He)|..
      |exact (ScheduleRequest.encoding_legacy _ _ Hd He)|];
      match goal with |- _ <-> _ ?x = _ ?y => transitivity (x = y); [|naive_solver] end;
      [exact (RestorePlanRequest.encoding _ _ Hd He)|exact (PrunePlanRequest.encoding _ _ Hd He)
      |exact (RetentionPolicyRequest.encoding _ _ Hd He)
      |exact (MaintenanceRunRequest.encoding _ _ Hd He)
      |exact (ExpiryPlanRequest.encoding _ _ Hd He)|exact (ExpiryBasis.encoding _ _ Hd He)
      |exact (ScheduleRequest.encoding_current _ _ Hd He)].
  - split; [by intros ?%encode_document_domain|]. intros Hs. destruct Hne.
    destruct d, e; cbn [same_document] in Hs; simplify_eq; done.
Qed.

Lemma encode_document_exact_witness :
  encode_document (MaintenanceRunDocument (MaintenanceRunRequest.mk 5)) =
  encode_document (ExpiryPlanDocument (ExpiryPlanRequest.mk 5)) <->
  same_document (MaintenanceRunDocument (MaintenanceRunRequest.mk 5))
    (ExpiryPlanDocument (ExpiryPlanRequest.mk 5)).
Proof.
  apply (encode_document_exact (MaintenanceRunDocument (MaintenanceRunRequest.mk 5))
           (ExpiryPlanDocument (ExpiryPlanRequest.mk 5))); by vm_compute.
Defined.
