(* ===== verification/Rebaseline.v ===== *)
(** * Logical snapshots ([crates/core/src/domain/rebaseline.rs])

    [SnapshotNode] is one captured node, [Snapshot] the validated namespace of a
    library.  [Snapshot.new] is the constructor as written: sort by identity,
    build the topology map, find the only root, and follow every entry's
    parents to it.  The inner [while] loop has a fuel argument; one more than
    the number of entries is proved to be enough, so [None] (out of fuel) never
    occurs. *)

From S2P Require Import Prelude Vocabulary Models.

(** ** Bootstrap manifests ([SyncBootstrap]) *)

Module SyncBootstrap.

Record t := mk {
  id : Z; owner_user_id : Z; device_id : Z; library_id : Z; generation : Z;
  snapshot_epoch : Z; snapshot_resume_sequence : Z; manifest_item_count : Z;
  terminal_node_id : option Z; state : SyncBootstrapState.t; created_at : Z; expires_at : Z;
  completed_at : option Z }.

End SyncBootstrap.

(** ** Captured nodes ([LogicalSnapshotNode]) *)

Module SnapshotNode.

Record t := mk {
  node_id : Z; parent_node_id : option Z; name : rstring; kind : NodeKind.t;
  state : NodeState.t; revision : Z; current_version_id : option Z;
  content_length : option Z; content_sha256 : option (list Z) }.

#[global] Instance t_eq_dec : EqDecision t.
Proof. solve_decision. Defined.

Inductive LogicalSnapshotNodeError : Type :=
| InternalState | InvalidRootShape | DirectoryHasContent | IncompleteContentMetadata.

Definition new (node_id : Z) (parent_node_id : option Z) (name : rstring) (kind : NodeKind.t)
  (state : NodeState.t) (revision : Z) (current_version_id content_length : option Z)
  (content_sha256 : option (list Z)) : result t LogicalSnapshotNodeError :=
  if state == NodeState.Purging then Err InternalState
  else if is_none parent_node_id
          && ((kind != NodeKind.Directory) || (state != NodeState.Active))
  then Err InvalidRootShape
  else if (kind == NodeKind.Directory)
          && (is_some current_version_id || is_some content_length || is_some content_sha256)
  then Err DirectoryHasContent
  else
    let has_complete_content :=
      is_some current_version_id && is_some content_length && is_some content_sha256 in
    let has_no_content :=
      is_none current_version_id && is_none content_length && is_none content_sha256 in
    if negb has_complete_content && negb has_no_content then Err IncompleteContentMetadata
    else Ok (mk node_id parent_node_id name kind state revision current_version_id content_length
               content_sha256).

End SnapshotNode.

(** [RebaselineSnapshotPageCursor]: a keyset position in one snapshot. *)
Module PageCursor.

Record t := mk { snapshot_id : Z; after_node_id : Z }.

End PageCursor.

(** ** Complete snapshots ([LogicalSnapshot]) *)

Module Snapshot.
Import SnapshotNode.

Record t := mk { library_id : Z; entries : list SnapshotNode.t }.

Inductive LogicalSnapshotError : Type :=
| Empty | DuplicateNodeId | MissingRoot | MultipleRoots | RootNotDirectory | RootNotActive
| MissingParent | ParentNotDirectory | ParentCycle.

(** Order of [sort_unstable_by_key(node_id)]. *)
Definition le (a b : SnapshotNode.t) : Prop := node_id a <= node_id b.

#[global] Instance le_dec : RelDecision le.
Proof. intros a b. unfold le. apply _. Defined.
#[global] Instance le_total : Total le.
Proof. intros a b. unfold le. lia. Qed.
#[global] Instance le_trans : Transitive le.
Proof. intros a b c. unfold le. lia. Qed.

Abbreviation topology := (gmap Z (NodeKind.t * option Z)).

(** The loop that fills the [BTreeMap]; a replaced key is a duplicate. *)
Fixpoint build_topology (m : topology) (l : list SnapshotNode.t) :
  result topology LogicalSnapshotError :=
  match l with
  | [] => Ok m
  | entry :: rest =>
      if is_some (m !! node_id entry) then Err DuplicateNodeId
      else build_topology (<[node_id entry := (kind entry, parent_node_id entry)]> m) rest
  end.

(** The [while let Some(current_id) = parent_id] loop. *)
Fixpoint climb (fuel : nat) (m : topology) (seen : gset Z) (parent_id : option Z) :
  option (result unit LogicalSnapshotError) :=
  match fuel with
  | O => None
  | S fuel' =>
      match parent_id with
      | None => Some (Ok tt)
      | Some current_id =>
          if bool_decide (current_id ∈ seen) then Some (Err ParentCycle)
          else
            match m !! current_id with
            | None => Some (Err MissingParent)
            | Some (kind, next_parent_id) =>
                if kind != NodeKind.Directory then Some (Err ParentNotDirectory)
                else climb fuel' m ({[current_id]} ∪ seen) next_parent_id
            end
      end
  end.

(** The [for] loop around it: the first failing entry decides. *)
Fixpoint climb_all (fuel : nat) (m : topology) (l : list SnapshotNode.t) :
  option (result unit LogicalSnapshotError) :=
  match l with
  | [] => Some (Ok tt)
  | entry :: rest =>
      match climb fuel m ∅ (parent_node_id entry) with
      | Some (Ok tt) => climb_all fuel m rest
      | other => other
      end
  end.

Definition climb_fuel (m : topology) : nat := S (size m).

Definition is_root (entry : SnapshotNode.t) : bool := is_none (parent_node_id entry).

Definition new (library_id : Z) (entries : list SnapshotNode.t) :
  option (result t LogicalSnapshotError) :=
  if is_empty entries then Some (Err Empty)
  else
    let entries := merge_sort le entries in
    match build_topology ∅ entries with
    | Err e => Some (Err e)
    | Ok m =>
        match List.filter is_root entries with
        | [] => Some (Err MissingRoot)
        | root :: roots =>
            if negb (is_empty roots) then Some (Err MultipleRoots)
            else if kind root != NodeKind.Directory then Some (Err RootNotDirectory)
            else if state root != NodeState.Active then Some (Err RootNotActive)
            else
              match climb_all (climb_fuel m) m entries with
              | Some (Ok tt) => Some (Ok (mk library_id entries))
              | Some (Err e) => Some (Err e)
              | None => None
              end
        end
    end.

(** [.expect("LogicalSnapshot always contains exactly one root")]: [None] is the
    panic. *)
Definition root (self : t) : option SnapshotNode.t := List.find is_root (entries self).

Definition root_node_id (self : t) : option Z :=
  match root self with Some r => Some (node_id r) | None => None end.

(** *** The loop *)

(** [Depth m o n]: from [o] the parents lead through [n] directories of [m] to an
    entry without a parent. *)
Inductive Depth (m : topology) : option Z -> nat -> Prop :=
| Depth_root : Depth m None 0
| Depth_up i p n :
    m !! i = Some (NodeKind.Directory, p) -> Depth m p n -> Depth m (Some i) (S n).

Lemma Depth_functional m o n n' : Depth m o n -> Depth m o n' -> n = n'.
Proof.
  intros H. revert n'. induction H as [|i p n Hi _ IH]; intros n' H'; inversion H'; subst; [done|].
  simplify_eq. f_equal. by apply IH.
Qed.

(** Fuel: what is not yet [seen] bounds the turns that remain. *)
Lemma climb_total fuel m seen o :
  (forall i, i ∈ seen -> is_Some (m !! i)) -> (size m < fuel + size seen)%nat ->
  exists r, climb fuel m seen o = Some r.
Proof.
  revert seen o. induction fuel as [|fuel IH]; intros seen o Hs Hf.
  - exfalso. assert (size seen <= size (dom m : gset Z))%nat as Hsz.
    { apply subseteq_size. intros i Hi. apply elem_of_dom. auto. }
    pose proof (size_dom (D := gset Z) m). lia.
  - cbn [climb]. destruct o as [i|]; [|by eexists].
    case_bool_decide as Hi; [by eexists|]. destruct (m !! i) as [[k p]|] eqn:E; [|by eexists].
    destruct (k != NodeKind.Directory); [by eexists|]. apply IH.
    + intros j. rewrite elem_of_union, elem_of_singleton. intros [->|?]; [by eexists|auto].
    + rewrite size_union, size_singleton by set_solver. lia.
Qed.

Lemma climb_Ok_Depth fuel m seen o : climb fuel m seen o = Some (Ok tt) -> exists n, Depth m o n.
Proof.
  revert seen o. induction fuel as [|fuel IH]; intros seen o; [done|]. cbn [climb].
  destruct o as [i|]; [|intros _; exists 0%nat; constructor].
  case_bool_decide; [done|]. destruct (m !! i) as [[k p]|] eqn:E; [|done].
  case_bool_decide as Hk; cbn [negb]; [|done]. intros [n Hn]%IH.
  exists (S n). subst. by econstructor.
Qed.

Lemma Depth_climb_Ok fuel m seen o n :
  Depth m o n -> (forall j, j ∈ seen -> exists k, Depth m (Some j) k /\ (n < k)%nat) ->
  climb fuel m seen o = None \/ climb fuel m seen o = Some (Ok tt).
Proof.
  revert seen o n. induction fuel as [|fuel IH]; intros seen o n H Hs; [by left|]. cbn [climb].
  destruct H as [|i p n Hi Hp]; [by right|]. rewrite bool_decide_false; [|intros Hin].
  - rewrite Hi, bool_decide_true by done. cbn [negb]. apply (IH _ _ n); [done|].
    intros j. rewrite elem_of_union, elem_of_singleton. intros [->|Hj].
    + exists (S n). split; [by econstructor|lia].
    + destruct (Hs j Hj) as (k & ? & ?). exists k. split; [done|lia].
  - destruct (Hs i Hin) as (k & Hk & Hlt).
    assert (Depth m (Some i) (S n)) as Hi' by by econstructor.
    rewrite (Depth_functional _ _ _ _ Hk Hi') in Hlt. lia.
Qed.

Lemma climb_iff m o :
  (exists r, climb (climb_fuel m) m ∅ o = Some r) /\
  (climb (climb_fuel m) m ∅ o = Some (Ok tt) <-> exists n, Depth m o n).
Proof.
  assert (exists r, climb (climb_fuel m) m ∅ o = Some r) as [r Hr].
  { apply climb_total; [set_solver|]. unfold climb_fuel. lia. }
  split; [by exists r|]. split; [apply climb_Ok_Depth|].
  intros [n Hn]. destruct (Depth_climb_Ok (climb_fuel m) m ∅ o n Hn) as [E|E];
    [set_solver|congruence|done].
Qed.

Lemma climb_all_iff m l :
  (exists r, climb_all (climb_fuel m) m l = Some r) /\
  (climb_all (climb_fuel m) m l = Some (Ok tt) <->
   Forall (fun e => exists n, Depth m (parent_node_id e) n) l).
Proof.
  induction l as [|e l [[r Hr] IH]]; [split; [by eexists|]; by split; [constructor|]|].
  cbn [climb_all]. destruct (climb_iff m (parent_node_id e)) as [[s Hs] Hc].
  rewrite Forall_cons, <- Hc, Hs. destruct s as [[]|err].
  - rewrite Hr in *. split; [by eexists|]. tauto.
  - split; [by eexists|]. split; [done|by intros [? _]].
Qed.

(** *** The topology map *)

Definition link (e : SnapshotNode.t) : Z * (NodeKind.t * option Z) :=
  (node_id e, (kind e, parent_node_id e)).

Lemma build_topology_Ok m l :
  (forall e, e ∈ l -> m !! node_id e = None) -> NoDup (map node_id l) ->
  build_topology m l = Ok (list_to_map (map link l) ∪ m).
Proof.
  revert m. induction l as [|e l IH]; intros m Hm Hn; cbn [build_topology map list_to_map].
  - f_equal. symmetry. apply map_empty_union.
  - inversion_clear Hn as [|? ? He Hn']. rewrite Hm by set_solver. cbn [is_some].
    rewrite IH; [|intros e' He'|done].
    + f_equal. cbn. rewrite <- insert_union_l, insert_union_r; [done|].
      apply not_elem_of_list_to_map. by rewrite map_map.
    + rewrite lookup_insert_ne; [apply Hm; set_solver|]. intros E. apply He. rewrite E.
      by apply list_elem_of_fmap_2.
Qed.

Lemma build_topology_dup m l :
  ~ (NoDup (map node_id l) /\ forall e, e ∈ l -> m !! node_id e = None) ->
  build_topology m l = Err DuplicateNodeId.
Proof.
  revert m. induction l as [|e l IH]; intros m H; cbn [build_topology].
  - destruct H. split; [constructor|set_solver].
  - destruct (m !! node_id e) as [x|] eqn:E; [done|]. cbn [is_some]. apply IH.
    intros [Hn Hm]. apply H. cbn [map]. split.
    + constructor; [|done]. intros (e' & Ee & He')%list_elem_of_fmap.
      specialize (Hm e' He'). rewrite Ee, lookup_insert_eq in Hm. done.
    + intros e' [->|He']%elem_of_cons; [done|]. specialize (Hm e' He').
      by apply lookup_insert_None in Hm as [? _].
Qed.

(** *** What a snapshot promises *)

(** From [o] the parents lead through directories among the entries to an entry
    without a parent. *)
Inductive Reaches (l : list SnapshotNode.t) : option Z -> Prop :=
| Reaches_root : Reaches l None
| Reaches_up e :
    e ∈ l -> kind e = NodeKind.Directory -> Reaches l (parent_node_id e) ->
    Reaches l (Some (node_id e)).

Record valid (l : list SnapshotNode.t) : Prop := mk_valid {
  valid_ids : NoDup (map node_id l);
  valid_root : exists r, List.filter is_root l = [r] /\ kind r = NodeKind.Directory /\
                         state r = NodeState.Active;
  valid_reach : forall e, e ∈ l -> Reaches l (parent_node_id e) }.

Lemma Depth_Reaches l o :
  NoDup (map node_id l) ->
  (exists n, Depth (list_to_map (map link l)) o n) <-> Reaches l o.
Proof.
  intros Hn. assert (NoDup (map link l).*1) as Hn' by (by rewrite map_map).
  split.
  - intros [n H]. induction H as [|i p n Hi _ IH]; [constructor|].
    apply elem_of_list_to_map in Hi; [|done].
    apply list_elem_of_fmap in Hi as (e & Ee & He). unfold link in Ee. simplify_eq.
    by constructor.
  - induction 1 as [|e He Hk _ [n IH]]; [exists 0%nat; constructor|].
    exists (S n). econstructor; [|exact IH]. apply elem_of_list_to_map; [done|].
    rewrite <- Hk. by apply (list_elem_of_fmap_2 link).
Qed.

Lemma NoDup_sorted l : NoDup (map node_id (merge_sort le l)) <-> NoDup (map node_id l).
Proof. by rewrite merge_sort_Permutation. Qed.

Lemma Reaches_perm l l' o : l ≡ₚ l' -> Reaches l o -> Reaches l' o.
Proof.
  intros Hp. induction 1 as [|e He Hk _ IH]; [constructor|]. constructor; [|done..].
  by rewrite <- Hp.
Qed.

Lemma valid_perm l l' : l ≡ₚ l' -> valid l -> valid l'.
Proof.
  intros Hp [H1 (r & Hr & ?) H3]. constructor.
  - by rewrite <- Hp.
  - exists r. split; [|done]. apply Permutation_singleton_r. rewrite <- Hr. symmetry.
    clear -Hp. induction Hp; cbn; repeat case_match; eauto using Permutation.
  - intros e He. apply (Reaches_perm l); [done|]. apply H3. by rewrite Hp.
Qed.

Lemma valid_nonempty l : valid l -> is_empty l = false.
Proof. intros [_ (r & Hr & _) _]. by destruct l. Qed.

(** Distinct identities leave one sorted order. *)
Lemma sorted_unique l k :
  NoDup (map node_id l) -> StronglySorted le l -> StronglySorted le k -> l ≡ₚ k -> l = k.
Proof.
  intros Hn Hl. revert k. induction Hl as [|a l Hl IH Ha]; intros k Hk Hp.
  - by apply Permutation_nil in Hp.
  - destruct k as [|b k]; [by apply Permutation_nil_r in Hp|].
    inversion_clear Hk as [|? ? Hk' Hb]. inversion_clear Hn as [|? ? Hna Hn'].
    rewrite Forall_forall in Ha, Hb.
    assert (a = b) as ->.
    { destruct (decide (a = b)) as [|Hne]; [done|exfalso].
      assert (b ∈ l) as Hbl by (assert (b ∈ a :: l) by (rewrite Hp; set_solver); set_solver).
      assert (a ∈ k) as Hak by (assert (a ∈ b :: k) by (rewrite <- Hp; set_solver); set_solver).
      apply Hna. apply Ha in Hbl as H1. apply Hb in Hak as H2. unfold le in *.
      replace (node_id a) with (node_id b) by lia. by apply list_elem_of_fmap_2. }
    f_equal. apply IH; [done..|]. by apply Permutation_cons_inv in Hp.
Qed.

Lemma sort_perm l l' :
  NoDup (map node_id l) -> l ≡ₚ l' -> merge_sort le l = merge_sort le l'.
Proof.
  intros Hn Hp. apply sorted_unique.
  - by apply NoDup_sorted.
  - apply StronglySorted_merge_sort; apply _.
  - apply StronglySorted_merge_sort; apply _.
  - by rewrite !merge_sort_Permutation.
Qed.

(** The constructor on the sorted entries, with the topology in closed form. *)
Lemma new_sorted lib l :
  (exists r, new lib l = Some r) /\
  (forall s, new lib l = Some (Ok s) <->
     s = mk lib (merge_sort le l) /\ valid (merge_sort le l)).
Proof.
  unfold new. destruct (is_empty l) eqn:El.
  { destruct l; [|done]. split; [by eexists|]. intros s. split; [done|].
    intros [_ Hv%valid_nonempty]. done. }
  set (k := merge_sort le l).
  destruct (decide (NoDup (map node_id k))) as [Hn|Hn]; cycle 1.
  { rewrite build_topology_dup by tauto. split; [by eexists|]. intros s. split; [done|].
    by intros [_ [? _ _]]. }
  rewrite build_topology_Ok by (intros; rewrite ?lookup_empty; done). rewrite map_union_empty.
  set (m := list_to_map (map link k)). destruct (climb_all_iff m k) as [[r Hr] Hc].
  assert (climb_all (climb_fuel m) m k = Some (Ok tt) <->
          (forall e, e ∈ k -> Reaches k (parent_node_id e))) as Hreach.
  { rewrite Hc, Forall_forall. unfold m. by setoid_rewrite (Depth_Reaches k _ Hn). }
  destruct (List.filter is_root k) as [|root roots] eqn:Ef.
  { split; [by eexists|]. intros s. split; [done|]. intros [_ [_ (x & Hx & _) _]]. congruence. }
  destruct roots as [|root' roots]; cbn [is_empty negb]; cycle 1.
  { split; [by eexists|]. intros s. split; [done|]. intros [_ [_ (x & Hx & _) _]]. congruence. }
  destruct (decide (kind root = NodeKind.Directory)) as [Hk|Hk]; cycle 1.
  { rewrite bool_decide_false by done. split; [by eexists|]. intros s. split; [done|].
    intros [_ [_ (x & Hx & ? & _) _]]. congruence. }
  destruct (decide (state root = NodeState.Active)) as [Hs|Hs]; cycle 1.
  { rewrite bool_decide_true, bool_decide_false by done. split; [by eexists|]. intros s.
    split; [done|]. intros [_ [_ (x & Hx & _ & ?) _]]. congruence. }
  rewrite !bool_decide_true by done. cbn [negb]. rewrite Hr in *. destruct r as [[]|e].
  - split; [by eexists|]. intros s. split; [intros; simplify_eq|by intros [-> _]].
    split; [done|]. constructor; [done|by exists root|by apply Hreach].
  - split; [by eexists|]. intros s. split; [done|]. intros [_ [_ _ H3]].
    by apply Hreach in H3.
Qed.

(** *** Properties *)

(** snapshot validation is total, sound and complete. Building a snapshot
    always returns (the parent loop ends within its fuel), and it succeeds with
    entries [s] exactly when the identities are distinct, exactly one entry has no
    parent and that one is an active directory, and every entry leads through
    directories of the snapshot to it; the result holds the given entries in
    increasing identity order. *)
Theorem snapshot_new_exact lib l :
  (exists r, new lib l = Some r) /\
  (forall s, new lib l = Some (Ok s) <->
     valid l /\ library_id s = lib /\ entries s ≡ₚ l /\ StronglySorted le (entries s)).
Proof.
  destruct (new_sorted lib l) as [Ht Hn]. split; [done|]. intros s. rewrite Hn. split.
  - intros [-> Hv]. cbn. split_and!; [|done| |].
    + eapply valid_perm; [|done]. apply merge_sort_Permutation.
    + apply merge_sort_Permutation.
    + apply StronglySorted_merge_sort; apply _.
  - intros (Hv & Hl & Hp & Hs). assert (valid (merge_sort le l)) as Hv'
      by (eapply valid_perm; [|done]; by rewrite merge_sort_Permutation).
    split; [|done]. destruct s as [lib' es]; cbn in *. subst. f_equal. symmetry.
    apply sorted_unique; [by apply valid_ids| |done|by rewrite merge_sort_Permutation].
    apply StronglySorted_merge_sort; apply _.
Qed.

(** A snapshot does not depend on the order in which its entries were read,
    in success and in failure alike. *)
Theorem snapshot_order_independent lib l l' : l ≡ₚ l' -> new lib l = new lib l'.
Proof.
  intros Hp. destruct (decide (NoDup (map node_id l))) as [Hn|Hn].
  - unfold new. rewrite (sort_perm l l') by done.
    destruct l as [|e l], l' as [|e' l']; try done;
      by first [apply Permutation_nil in Hp|apply Permutation_nil_r in Hp].
  - assert (~ NoDup (map node_id l')) as Hn' by (by rewrite <- Hp).
    unfold new. rewrite !build_topology_dup by (rewrite NoDup_sorted; tauto).
    destruct l as [|e l], l' as [|e' l']; try done;
      by first [apply Permutation_nil in Hp|apply Permutation_nil_r in Hp].
Qed.

(** [root] never panics on a constructed snapshot: it returns the one entry
    without a parent, an active directory that was among the given entries. *)
Theorem snapshot_root_total lib l s :
  new lib l = Some (Ok s) ->
  exists r, root s = Some r /\ r ∈ l /\ kind r = NodeKind.Directory /\
    state r = NodeState.Active /\ root_node_id s = Some (node_id r) /\
    (forall e, e ∈ l -> parent_node_id e = None <-> e = r).
Proof.
  intros [-> Hv]%new_sorted. destruct (valid_root _ Hv) as (r & Hr & Hk & Hs).
  assert (forall e, e ∈ merge_sort le l /\ is_root e = true <-> e = r) as Hin.
  { intros e. rewrite list_elem_of_In, <- filter_In, Hr. cbn. naive_solver. }
  assert (root (mk lib (merge_sort le l)) = Some r) as Er.
  { unfold root. cbn. destruct (List.find is_root (merge_sort le l)) as [x|] eqn:E.
    - apply find_some in E as [? ?]. f_equal. apply Hin. by rewrite list_elem_of_In.
    - destruct (proj2 (Hin r) eq_refl) as [H1 H2]. apply list_elem_of_In in H1.
      by rewrite (find_none _ _ E r H1) in H2. }
  exists r. split_and!; try done.
  - rewrite <- (merge_sort_Permutation le l). by apply Hin.
  - unfold root_node_id. by rewrite Er.
  - intros e He. rewrite <- Hin, merge_sort_Permutation. unfold is_root, is_none, is_some.
    destruct (parent_node_id e); naive_solver.
Qed.

End Snapshot.

(** ** A concrete namespace: a root, a directory and a trashed file in it *)

Module SnapshotExample.
Import SnapshotNode Snapshot.

Definition top : SnapshotNode.t :=
  SnapshotNode.mk 9 None (lit "Files") NodeKind.Directory NodeState.Active 0 None None None.
Definition dir : SnapshotNode.t :=
  SnapshotNode.mk 4 (Some 9) (lit "docs") NodeKind.Directory NodeState.Active 0 None None None.
Definition file : SnapshotNode.t :=
  SnapshotNode.mk 2 (Some 4) (lit "a.txt") NodeKind.File NodeState.Trashed 3 None None None.

Lemma snapshot_order_independent_witness :
  new 1 [top; dir; file] = new 1 [file; top; dir].
Proof.
  apply (snapshot_order_independent 1 [top; dir; file] [file; top; dir]).
  apply (Permutation_app_comm [top; dir] [file]).
Defined.

Lemma snapshot_root_total_witness :
  exists r, root (Snapshot.mk 1 [file; dir; top]) = Some r /\ r ∈ [top; dir; file] /\
    kind r = NodeKind.Directory /\ state r = NodeState.Active /\
    root_node_id (Snapshot.mk 1 [file; dir; top]) = Some (node_id r) /\
    (forall e, e ∈ [top; dir; file] -> parent_node_id e = None <-> e = r).
Proof.
  apply (snapshot_root_total 1 [top; dir; file] (Snapshot.mk 1 [file; dir; top])).
  vm_compute. reflexivity.
Defined.

End SnapshotExample.
