(* ===== verification/Backup.v ===== *)
(** * Backup evidence ([crates/core/src/domain/backup.rs])

    Backup sets, snapshots and their manifests, and the plans, executions and
    maintenance runs that are kept as evidence.  Constructors validate what they
    are given and lifecycles move in one direction; the theorems say what every
    value that exists satisfies and what no sequence of requests can undo.

    An unchecked [+] on [u64] wraps, as in a release build.  The hash of the
    [sha2] crate is the parameter [digest] of the constructors that recompute a
    request fingerprint. *)

From S2P Require Import Prelude Vocabulary Values Models ScheduleConfig Requests.

(** ** Backup sets ([BackupSet]) *)

Module BackupSet.

Record t := mk {
  id : Z; owner_user_id : Z; name : rstring; source_library_id : Z; source : BackupSource.t;
  retention_days : option Z; state : BackupSetState.t; created_at : Z; updated_at : Z;
  revision : Z }.

Definition rehydrate (id owner_user_id : Z) (name : rstring) (source_library_id : Z)
  (retention_days : option Z) (state : BackupSetState.t) (created_at updated_at revision : Z) :
  result t DomainError :=
  Ok (mk id owner_user_id name source_library_id BackupSource.Library retention_days state
        created_at updated_at revision).

Definition new (id owner_user_id : Z) (name : rstring) (source_library_id : Z)
  (retention_days : option Z) (observed_at : Z) : result t DomainError :=
  rehydrate id owner_user_id name source_library_id retention_days BackupSetState.Created
    observed_at observed_at 0.

Definition with_state (self : t) (s : BackupSetState.t) : t :=
  mk (id self) (owner_user_id self) (name self) (source_library_id self) (source self)
    (retention_days self) s (created_at self) (updated_at self) (revision self).

Definition bump_revision (self : t) (observed_at : Z) : t :=
  mk (id self) (owner_user_id self) (name self) (source_library_id self) (source self)
    (retention_days self) (state self) (created_at self) observed_at
    (wrapping_add64 (revision self) 1).

Definition activate (self : t) (observed_at : Z) : t * result unit DomainError :=
  if state self != BackupSetState.Created
  then (self, Err (InvalidBackupSetStateTransition (state self) BackupSetState.Active))
  else (bump_revision (with_state self BackupSetState.Active) observed_at, Ok tt).

Definition disable (self : t) (observed_at : Z) : t * result unit DomainError :=
  let allowed := match state self with
                 | BackupSetState.Created | BackupSetState.Active => true
                 | _ => false
                 end in
  if negb allowed
  then (self, Err (InvalidBackupSetStateTransition (state self) BackupSetState.Disabled))
  else (bump_revision (with_state self BackupSetState.Disabled) observed_at, Ok tt).

End BackupSet.

(** ** Snapshots ([SnapshotState], [BackupSnapshot]) *)

Module BackupSnapshot.

Definition is_restorable (s : SnapshotState.t) : bool :=
  match s with SnapshotState.Completed => true | _ => false end.

Record t := mk {
  id : Z; backup_set_id : Z; owner_user_id : Z; source_library_id : Z; snapshot_epoch : Z;
  snapshot_resume_sequence : Z; manifest_item_count : Z; terminal_node_id : option Z;
  content_reference_count : Z; state : SnapshotState.t; created_at : Z;
  committed_at : option Z; expired_at : option Z }.

Definition with_lifecycle (self : t) (s : SnapshotState.t) (committed expired : option Z) : t :=
  mk (id self) (backup_set_id self) (owner_user_id self) (source_library_id self)
    (snapshot_epoch self) (snapshot_resume_sequence self) (manifest_item_count self)
    (terminal_node_id self) (content_reference_count self) s (created_at self) committed expired.

Definition transition_allowed (from to : SnapshotState.t) : bool :=
  match from, to with
  | SnapshotState.Building, (SnapshotState.Completed | SnapshotState.Failed)
  | SnapshotState.Completed, SnapshotState.Expired => true
  | _, _ => false
  end.

Definition transition_state (self : t) (next : SnapshotState.t) (observed_at : Z) :
  t * result unit DomainError :=
  if negb (transition_allowed (state self) next)
  then (self, Err (InvalidSnapshotStateTransition (state self) next))
  else if state self == next then (self, Ok tt)
  else
    (match next with
     | SnapshotState.Completed => with_lifecycle self next (Some observed_at) (expired_at self)
     | SnapshotState.Failed => with_lifecycle self next (committed_at self) (expired_at self)
     | SnapshotState.Expired => with_lifecycle self next (committed_at self) (Some observed_at)
     | SnapshotState.Building => with_lifecycle self next (committed_at self) (expired_at self)
     end, Ok tt).

End BackupSnapshot.

(** ** Manifests ([BackupManifestContent], [BackupSnapshotNode]) *)

Module ManifestContent.

Record t := mk { file_version_id : Z; byte_length : Z; sha256 : list Z }.

End ManifestContent.

Module BackupSnapshotNode.

Record t := mk {
  node_id : Z; parent_node_id : option Z; name : rstring; kind : NodeKind.t;
  state : NodeState.t; revision : Z; content : option ManifestContent.t; created_at : Z;
  updated_at : Z }.

Definition new (node_id : Z) (parent_node_id : option Z) (name : rstring) (kind : NodeKind.t)
  (state : NodeState.t) (revision : Z) (content : option ManifestContent.t)
  (created_at updated_at : Z) : result t DomainError :=
  if state == NodeState.Purging then Err BackupManifestInvalidNodeState
  else if is_none parent_node_id
          && ((kind != NodeKind.Directory) || (state != NodeState.Active))
  then Err BackupManifestInvalidRootShape
  else if (kind == NodeKind.Directory) && is_some content
  then Err BackupManifestDirectoryHasContent
  else Ok (mk node_id parent_node_id name kind state revision content created_at updated_at).

End BackupSnapshotNode.

(** ** Restore plans and executions *)

Module RestorePlan.

Record t := mk {
  id : Z; owner_user_id : Z; operation_id : rstring; request_fingerprint : Requests.fingerprint;
  backup_set_id : Z; snapshot_id : Z; target_library_id : Z; target_parent_node_id : Z;
  destination_name : rstring; base_journal_epoch : Z; base_journal_head : Z; item_count : Z;
  content_item_count : Z; state : BackupRestorePlanState.t; created_at : Z;
  stale_at : option Z }.

Definition new (id owner_user_id : Z) (operation_id : rstring)
  (request_fingerprint : Requests.fingerprint) (request : RestorePlanRequest.t)
  (base_journal_epoch base_journal_head item_count content_item_count : Z)
  (state : BackupRestorePlanState.t) (created_at : Z) (stale_at : option Z) :
  result t DomainError :=
  if (base_journal_epoch == 0) || (item_count == 0) || (item_count <? content_item_count)
     || (match state with
         | BackupRestorePlanState.Planned | BackupRestorePlanState.Executed => true
         | _ => false
         end && is_some stale_at)
     || ((state == BackupRestorePlanState.Stale) && is_none stale_at)
  then Err BackupRestoreInvalidPlanState
  else Ok (mk id owner_user_id operation_id request_fingerprint
             (RestorePlanRequest.backup_set_id request) (RestorePlanRequest.snapshot_id request)
             (RestorePlanRequest.target_library_id request)
             (RestorePlanRequest.target_parent_node_id request)
             (RestorePlanRequest.destination_name request) base_journal_epoch base_journal_head
             item_count content_item_count state created_at stale_at).

Definition with_lifecycle (self : t) (s : BackupRestorePlanState.t) (stale : option Z) : t :=
  mk (id self) (owner_user_id self) (operation_id self) (request_fingerprint self)
    (backup_set_id self) (snapshot_id self) (target_library_id self)
    (target_parent_node_id self) (destination_name self) (base_journal_epoch self)
    (base_journal_head self) (item_count self) (content_item_count self) s (created_at self)
    stale.

Definition transition_state (self : t) (next : BackupRestorePlanState.t) (stale_at : option Z) :
  t * result unit DomainError :=
  let allowed := match state self, next with
                 | BackupRestorePlanState.Planned, BackupRestorePlanState.Stale
                 | BackupRestorePlanState.Planned, BackupRestorePlanState.Executed
                 | BackupRestorePlanState.Stale, BackupRestorePlanState.Stale
                 | BackupRestorePlanState.Executed, BackupRestorePlanState.Executed => true
                 | _, _ => false
                 end in
  if negb allowed || ((next == BackupRestorePlanState.Stale) != is_some stale_at)
     || ((next != BackupRestorePlanState.Stale) && is_some stale_at)
  then (self, Err BackupRestoreInvalidPlanState)
  else (with_lifecycle self next
          (if next == BackupRestorePlanState.Stale then stale_at else RestorePlan.stale_at self),
        Ok tt).

End RestorePlan.

Module RestorePlanEntry.

Record t := mk {
  plan_id : Z; ordinal : Z; planned_node_id : Z; planned_parent_node_id : Z;
  source_snapshot_node_id : option Z; source_parent_node_id : option Z;
  source_state : NodeState.t; action : BackupRestoreAction.t; kind : NodeKind.t;
  name : rstring; source_revision : option Z; content : option ManifestContent.t }.

Definition new (plan_id ordinal planned_node_id planned_parent_node_id : Z)
  (source_snapshot_node_id source_parent_node_id : option Z) (source_state : NodeState.t)
  (action : BackupRestoreAction.t) (kind : NodeKind.t) (name : rstring)
  (source_revision : option Z) (content : option ManifestContent.t) : result t DomainError :=
  let wrapper := is_none source_snapshot_node_id in
  let valid :=
    if wrapper then
      (ordinal == 0) && (planned_node_id != planned_parent_node_id)
      && is_none source_parent_node_id && is_none source_revision
      && (source_state == NodeState.Active) && (action == BackupRestoreAction.CreateDirectory)
      && (kind == NodeKind.Directory) && is_none content
    else
      (0 <? ordinal) && (planned_node_id != planned_parent_node_id)
      && is_some source_parent_node_id && is_some source_revision
      && (source_state != NodeState.Purging)
      && (((kind == NodeKind.Directory) && (action == BackupRestoreAction.CreateDirectory)
           && is_none content)
          || ((kind == NodeKind.File) && (action == BackupRestoreAction.CreateFile)
              && is_some content)) in
  if negb valid then Err BackupRestoreInvalidPlanEntry
  else Ok (mk plan_id ordinal planned_node_id planned_parent_node_id source_snapshot_node_id
             source_parent_node_id source_state action kind name source_revision content).

End RestorePlanEntry.

Module RestoreExecution.

Record t := mk {
  id : Z; owner_user_id : Z; plan_id : Z; target_library_id : Z; journal_first_sequence : Z;
  journal_last_sequence : Z; created_node_count : Z; created_file_version_count : Z;
  executed_at : Z }.

Definition new (id owner_user_id plan_id target_library_id journal_first_sequence
  journal_last_sequence created_node_count created_file_version_count executed_at : Z) :
  result t DomainError :=
  if (journal_first_sequence == 0) || (journal_last_sequence <? journal_first_sequence)
     || (created_node_count == 0) || (created_node_count <? created_file_version_count)
  then Err BackupRestoreInvalidPlanState
  else Ok (mk id owner_user_id plan_id target_library_id journal_first_sequence
             journal_last_sequence created_node_count created_file_version_count executed_at).

End RestoreExecution.

Module RestoreExecutionEntry.

Record t := mk {
  execution_id : Z; plan_id : Z; ordinal : Z; destination_node_id : Z;
  destination_file_version_id : option Z; node_created_journal_sequence : option Z;
  file_content_committed_journal_sequence : option Z }.

Definition new (execution_id plan_id ordinal destination_node_id : Z)
  (destination_file_version_id node_created_journal_sequence
   file_content_committed_journal_sequence : option Z) : result t DomainError :=
  let directory_shape :=
    is_none destination_file_version_id && is_some node_created_journal_sequence
    && is_none file_content_committed_journal_sequence in
  let file_shape :=
    is_some destination_file_version_id && is_none node_created_journal_sequence
    && is_some file_content_committed_journal_sequence in
  if (negb directory_shape && negb file_shape)
     || is_some_and node_created_journal_sequence (fun value => value == 0)
     || is_some_and file_content_committed_journal_sequence (fun value => value == 0)
  then Err BackupRestoreInvalidPlanEntry
  else Ok (mk execution_id plan_id ordinal destination_node_id destination_file_version_id
             node_created_journal_sequence file_content_committed_journal_sequence).

End RestoreExecutionEntry.

(** ** Prune plans and executions *)

Module PrunePlan.

Record t := mk {
  id : Z; owner_user_id : Z; operation_id : rstring; request_fingerprint : Requests.fingerprint;
  backup_set_id : Z; snapshot_id : Z; snapshot_manifest_item_count : Z;
  snapshot_content_reference_count : Z; planned_pin_release_count : Z;
  distinct_retained_content_count : Z; retained_after_release_count : Z;
  would_become_unreferenced_count : Z; state : BackupPrunePlanState.t; created_at : Z;
  stale_at : option Z }.

Definition new (id owner_user_id : Z) (operation_id : rstring)
  (request_fingerprint : Requests.fingerprint) (request : PrunePlanRequest.t)
  (snapshot_manifest_item_count snapshot_content_reference_count planned_pin_release_count
   distinct_retained_content_count retained_after_release_count
   would_become_unreferenced_count : Z)
  (state : BackupPrunePlanState.t) (created_at : Z) (stale_at : option Z) :
  result t DomainError :=
  let counts_are_valid :=
    (planned_pin_release_count == snapshot_content_reference_count)
    && (distinct_retained_content_count <=? planned_pin_release_count)
    && (wrapping_add64 retained_after_release_count would_become_unreferenced_count
        == distinct_retained_content_count) in
  let stale_shape_is_valid := (state == BackupPrunePlanState.Stale) == is_some stale_at in
  if negb counts_are_valid || negb stale_shape_is_valid then Err BackupPruneInvalidPlanState
  else Ok (mk id owner_user_id operation_id request_fingerprint
             (PrunePlanRequest.backup_set_id request) (PrunePlanRequest.snapshot_id request)
             snapshot_manifest_item_count snapshot_content_reference_count
             planned_pin_release_count distinct_retained_content_count
             retained_after_release_count would_become_unreferenced_count state created_at
             stale_at).

Definition with_lifecycle (self : t) (s : BackupPrunePlanState.t) (stale : option Z) : t :=
  mk (id self) (owner_user_id self) (operation_id self) (request_fingerprint self)
    (backup_set_id self) (snapshot_id self) (snapshot_manifest_item_count self)
    (snapshot_content_reference_count self) (planned_pin_release_count self)
    (distinct_retained_content_count self) (retained_after_release_count self)
    (would_become_unreferenced_count self) s (created_at self) stale.

Definition transition_state (self : t) (next : BackupPrunePlanState.t) (stale_at : option Z) :
  t * result unit DomainError :=
  let allowed := match state self, next with
                 | BackupPrunePlanState.Planned, BackupPrunePlanState.Stale
                 | BackupPrunePlanState.Stale, BackupPrunePlanState.Stale
                 | BackupPrunePlanState.Planned, BackupPrunePlanState.Executed => true
                 | _, _ => false
                 end in
  if negb allowed || ((next == BackupPrunePlanState.Stale) != is_some stale_at)
     || ((next != BackupPrunePlanState.Stale) && is_some stale_at)
     || ((state self == BackupPrunePlanState.Stale) && (stale_at != PrunePlan.stale_at self))
  then (self, Err BackupPruneInvalidPlanState)
  else (with_lifecycle self next stale_at, Ok tt).

End PrunePlan.

Module PrunePlanEntry.

Record t := mk {
  plan_id : Z; ordinal : Z; source_snapshot_node_id : Z; content : ManifestContent.t }.

End PrunePlanEntry.

Module PruneExecution.

Record t := mk {
  id : Z; owner_user_id : Z; prune_plan_id : Z; backup_set_id : Z; snapshot_id : Z;
  released_pin_count : Z; distinct_object_count : Z; retained_by_other_reference_count : Z;
  gc_handoff_object_count : Z; executed_at : Z }.

Definition new (id owner_user_id prune_plan_id backup_set_id snapshot_id released_pin_count
  distinct_object_count retained_by_other_reference_count gc_handoff_object_count
  executed_at : Z) : result t DomainError :=
  if wrapping_add64 retained_by_other_reference_count gc_handoff_object_count
     != distinct_object_count
  then Err BackupPruneInvalidPlanState
  else Ok (mk id owner_user_id prune_plan_id backup_set_id snapshot_id released_pin_count
             distinct_object_count retained_by_other_reference_count gc_handoff_object_count
             executed_at).

End PruneExecution.

(** ** Retention policy revisions *)

Module RetentionRevisionNumber.

Definition new (value : Z) : result Z DomainError :=
  if (value == 0) || i64_try_from_is_err value then Err BackupRetentionPolicyInvalidRevision
  else Ok value.

Definition checked_next (self : Z) : result Z DomainError :=
  let? next := ok_or (checked_add64 self 1) BackupRetentionPolicyInvalidRevision in new next.

Definition from_str (value : rstring) : result Z DomainError :=
  let? v := ok_or (Decimal.u64_from_str value) BackupRetentionPolicyInvalidRevision in new v.

End RetentionRevisionNumber.

Module RetentionPolicyRevision.

Record t := mk {
  id : Z; owner_user_id : Z; backup_set_id : Z; revision_number : Z; operation_id : rstring;
  request_fingerprint : Requests.fingerprint; config : RetentionPolicyConfig.t;
  created_at : Z }.

#[global] Instance fingerprint_eq_dec : EqDecision Requests.fingerprint.
Proof. solve_decision. Defined.

Definition new (digest : rstring -> rstring) (id owner_user_id backup_set_id revision_number : Z)
  (operation_id : rstring) (request_fingerprint : Requests.fingerprint)
  (config : RetentionPolicyConfig.t) (created_at : Z) : result t DomainError :=
  let request := RetentionPolicyRequest.mk backup_set_id config in
  if (Requests.version request_fingerprint
      != RetentionPolicyRequest.BACKUP_SNAPSHOT_RETENTION_POLICY_FINGERPRINT_VERSION)
     || (RetentionPolicyRequest.fingerprint digest request != request_fingerprint)
  then Err BackupRetentionPolicyInvalidRevision
  else Ok (mk id owner_user_id backup_set_id revision_number operation_id request_fingerprint
             config created_at).

End RetentionPolicyRevision.

(** ** Maintenance runs *)

Module MaintenanceRun.

Definition is_terminal (self : BackupMaintenanceRunState.t) : bool :=
  match self with
  | BackupMaintenanceRunState.Completed | BackupMaintenanceRunState.Stale => true
  | _ => false
  end.

Definition can_transition_to (self to : BackupMaintenanceRunState.t) : bool :=
  match self, to with
  | BackupMaintenanceRunState.Created, BackupMaintenanceRunState.SnapshotCaptured
  | BackupMaintenanceRunState.SnapshotCaptured, BackupMaintenanceRunState.ExpiryPlanned
  | BackupMaintenanceRunState.ExpiryPlanned, BackupMaintenanceRunState.Completed
  | BackupMaintenanceRunState.Created, BackupMaintenanceRunState.Stale
  | BackupMaintenanceRunState.SnapshotCaptured, BackupMaintenanceRunState.Stale
  | BackupMaintenanceRunState.ExpiryPlanned, BackupMaintenanceRunState.Stale => true
  | _, _ => false
  end.

Record t := mk {
  id : Z; owner_user_id : Z; operation_id : rstring; request_fingerprint : Requests.fingerprint;
  backup_set_id : Z; policy_revision_id : Z; policy_revision_number : Z;
  capture_operation_id : rstring; expiry_plan_operation_id : rstring;
  state : BackupMaintenanceRunState.t; captured_snapshot_id : option Z;
  expiry_plan_id : option Z; expiry_execution_id : option Z; snapshot_captured_at : option Z;
  expiry_planned_at : option Z; maintenance_completed_at : option Z; stale_at : option Z;
  created_at : Z }.

Definition reference_shape_is_valid (state : BackupMaintenanceRunState.t)
  (captured_snapshot_id expiry_plan_id expiry_execution_id snapshot_captured_at
   expiry_planned_at maintenance_completed_at stale_at : option Z) (created_at : Z) : bool :=
  let timestamps_are_ordered :=
    is_none_or snapshot_captured_at (fun value => created_at <=? value)
    && is_none_or expiry_planned_at (fun planned =>
         is_some_and snapshot_captured_at (fun captured => captured <=? planned))
    && is_none_or maintenance_completed_at (fun completed =>
         is_some_and expiry_planned_at (fun planned => planned <=? completed))
    && is_none_or stale_at (fun value => created_at <=? value) in
  let terminal_shape :=
    match state with
    | BackupMaintenanceRunState.Completed => is_some maintenance_completed_at && is_none stale_at
    | BackupMaintenanceRunState.Stale => is_none maintenance_completed_at && is_some stale_at
    | _ => is_none maintenance_completed_at && is_none stale_at
    end in
  timestamps_are_ordered && terminal_shape &&
  match state with
  | BackupMaintenanceRunState.Created =>
      is_none captured_snapshot_id && is_none expiry_plan_id && is_none expiry_execution_id
      && is_none snapshot_captured_at && is_none expiry_planned_at
  | BackupMaintenanceRunState.SnapshotCaptured =>
      is_some captured_snapshot_id && is_none expiry_plan_id && is_none expiry_execution_id
      && is_some snapshot_captured_at && is_none expiry_planned_at
  | BackupMaintenanceRunState.ExpiryPlanned =>
      is_some captured_snapshot_id && is_some expiry_plan_id && is_none expiry_execution_id
      && is_some snapshot_captured_at && is_some expiry_planned_at
  | BackupMaintenanceRunState.Completed =>
      is_some captured_snapshot_id && is_some expiry_plan_id && is_some expiry_execution_id
      && is_some snapshot_captured_at && is_some expiry_planned_at
  | BackupMaintenanceRunState.Stale => is_none expiry_execution_id
  end.

Definition new (digest : rstring -> rstring) (id owner_user_id : Z) (operation_id : rstring)
  (request_fingerprint : Requests.fingerprint)
  (backup_set_id policy_revision_id policy_revision_number : Z)
  (capture_operation_id expiry_plan_operation_id : rstring)
  (state : BackupMaintenanceRunState.t)
  (captured_snapshot_id expiry_plan_id expiry_execution_id snapshot_captured_at
   expiry_planned_at maintenance_completed_at stale_at : option Z) (created_at : Z) :
  result t DomainError :=
  let expected := MaintenanceRunRequest.fingerprint digest
                    (MaintenanceRunRequest.mk backup_set_id) in
  if (Requests.version request_fingerprint
      != MaintenanceRunRequest.BACKUP_MAINTENANCE_RUN_FINGERPRINT_VERSION)
     || (request_fingerprint != expected)
     || negb (reference_shape_is_valid state captured_snapshot_id expiry_plan_id
                expiry_execution_id snapshot_captured_at expiry_planned_at
                maintenance_completed_at stale_at created_at)
  then Err BackupMaintenanceRunInvalidState
  else Ok (mk id owner_user_id operation_id request_fingerprint backup_set_id policy_revision_id
             policy_revision_number capture_operation_id expiry_plan_operation_id state
             captured_snapshot_id expiry_plan_id expiry_execution_id snapshot_captured_at
             expiry_planned_at maintenance_completed_at stale_at created_at).

End MaintenanceRun.

(** ** Snapshot expiry *)

Module ExpiryPlan.

Record t := mk {
  id : Z; owner_user_id : Z; operation_id : rstring; request_fingerprint : Requests.fingerprint;
  backup_set_id : Z; policy_revision_id : Z; policy_revision_number : Z; evaluated_at : Z;
  cutoff_at : Z; snapshot_basis_fingerprint : Requests.fingerprint;
  evaluated_completed_snapshot_count : Z; expire_candidate_count : Z; keep_latest_count : Z;
  keep_recent_count : Z; blocked_active_restore_count : Z;
  state : BackupSnapshotExpiryPlanState.t; created_at : Z; stale_at : option Z }.

Definition new (digest : rstring -> rstring) (id owner_user_id : Z) (operation_id : rstring)
  (request_fingerprint : Requests.fingerprint)
  (backup_set_id policy_revision_id policy_revision_number evaluated_at cutoff_at : Z)
  (snapshot_basis_fingerprint : Requests.fingerprint)
  (evaluated_completed_snapshot_count expire_candidate_count keep_latest_count
   keep_recent_count blocked_active_restore_count : Z)
  (state : BackupSnapshotExpiryPlanState.t) (created_at : Z) (stale_at : option Z) :
  result t DomainError :=
  let classified_count :=
    let* value := checked_add64 keep_latest_count keep_recent_count in
    let* value := checked_add64 value blocked_active_restore_count in
    checked_add64 value expire_candidate_count in
  let stale_shape_is_valid :=
    (state == BackupSnapshotExpiryPlanState.Stale) == is_some stale_at in
  let stale_time_is_valid := is_none_or stale_at (fun value => created_at <=? value) in
  let expected_request_fingerprint :=
    ExpiryPlanRequest.fingerprint digest (ExpiryPlanRequest.mk backup_set_id) in
  if (classified_count != Some evaluated_completed_snapshot_count)
     || negb stale_shape_is_valid || negb stale_time_is_valid || (evaluated_at <=? cutoff_at)
     || (Requests.version request_fingerprint
         != ExpiryPlanRequest.BACKUP_SNAPSHOT_EXPIRY_PLAN_FINGERPRINT_VERSION)
     || (request_fingerprint != expected_request_fingerprint)
     || (Requests.version snapshot_basis_fingerprint
         != ExpiryBasis.BACKUP_SNAPSHOT_EXPIRY_BASIS_FINGERPRINT_VERSION)
  then Err BackupSnapshotExpiryInvalidPlanState
  else Ok (mk id owner_user_id operation_id request_fingerprint backup_set_id policy_revision_id
             policy_revision_number evaluated_at cutoff_at snapshot_basis_fingerprint
             evaluated_completed_snapshot_count expire_candidate_count keep_latest_count
             keep_recent_count blocked_active_restore_count state created_at stale_at).

Definition with_lifecycle (self : t) (s : BackupSnapshotExpiryPlanState.t) (stale : option Z) :
  t :=
  mk (id self) (owner_user_id self) (operation_id self) (request_fingerprint self)
    (backup_set_id self) (policy_revision_id self) (policy_revision_number self)
    (evaluated_at self) (cutoff_at self) (snapshot_basis_fingerprint self)
    (evaluated_completed_snapshot_count self) (expire_candidate_count self)
    (keep_latest_count self) (keep_recent_count self) (blocked_active_restore_count self) s
    (created_at self) stale.

Definition transition_state (self : t) (next : BackupSnapshotExpiryPlanState.t)
  (stale_at : option Z) : t * result unit DomainError :=
  let allowed := match state self, next with
                 | BackupSnapshotExpiryPlanState.Planned, BackupSnapshotExpiryPlanState.Stale
                 | BackupSnapshotExpiryPlanState.Stale, BackupSnapshotExpiryPlanState.Stale
                 | BackupSnapshotExpiryPlanState.Planned, BackupSnapshotExpiryPlanState.Executed
                 | BackupSnapshotExpiryPlanState.Executed,
                   BackupSnapshotExpiryPlanState.Executed => true
                 | _, _ => false
                 end in
  if negb allowed || ((next == BackupSnapshotExpiryPlanState.Stale) != is_some stale_at)
     || is_some_and stale_at (fun value => value <? created_at self)
     || ((state self == BackupSnapshotExpiryPlanState.Stale)
         && (stale_at != ExpiryPlan.stale_at self))
     || ((next == BackupSnapshotExpiryPlanState.Executed) && is_some stale_at)
     || ((state self == BackupSnapshotExpiryPlanState.Executed)
         && (next == BackupSnapshotExpiryPlanState.Executed) && is_some stale_at)
  then (self, Err BackupSnapshotExpiryInvalidPlanState)
  else (with_lifecycle self next stale_at, Ok tt).

End ExpiryPlan.

Module ExpiryPlanEntry.

Record t := mk {
  plan_id : Z; snapshot_id : Z; committed_at : Z; recency_rank : Z;
  decision : BackupSnapshotExpiryDecision.t }.

Definition new (plan_id snapshot_id committed_at recency_rank : Z)
  (decision : BackupSnapshotExpiryDecision.t) : result t DomainError :=
  if (recency_rank == 0) || i64_try_from_is_err recency_rank
  then Err BackupSnapshotExpiryInvalidPlanEntry
  else Ok (mk plan_id snapshot_id committed_at recency_rank decision).

End ExpiryPlanEntry.

Module ExpiryExecution.

Record t := mk {
  id : Z; owner_user_id : Z; expiry_plan_id : Z; backup_set_id : Z; policy_revision_id : Z;
  evaluated_at : Z; evaluated_snapshot_count : Z; expired_snapshot_count : Z;
  unchanged_snapshot_count : Z; executed_at : Z }.

Definition new (id owner_user_id expiry_plan_id backup_set_id policy_revision_id evaluated_at
  evaluated_snapshot_count expired_snapshot_count unchanged_snapshot_count executed_at : Z) :
  result t DomainError :=
  let? unchanged := ok_or (checked_sub64 evaluated_snapshot_count expired_snapshot_count)
                      BackupSnapshotExpiryInvalidExecution in
  if (unchanged != unchanged_snapshot_count) || (executed_at <? evaluated_at)
  then Err BackupSnapshotExpiryInvalidExecution
  else Ok (mk id owner_user_id expiry_plan_id backup_set_id policy_revision_id evaluated_at
             evaluated_snapshot_count expired_snapshot_count unchanged_snapshot_count
             executed_at).

End ExpiryExecution.

Module ExpiryExecutionEntry.

Record t := mk {
  execution_id : Z; expiry_plan_entry_plan_id : Z; snapshot_id : Z;
  original_decision : BackupSnapshotExpiryDecision.t; transitioned : bool }.

End ExpiryExecutionEntry.
