(* ===== verification/BackupFacts.v ===== *)
(** * What backup evidence promises

    Theorems about [Backup.v].  Restore, prune and expiry plans are three
    instances of one contract, [PlanLifecycle]; what follows for sequences of
    requests is proved once against the contract. *)

From S2P Require Import Prelude Vocabulary Values Models ScheduleConfig Requests Backup.

(** ** Plans *)

(** The contract of a plan type: a failing transition changes nothing, a
    successful one changes only the lifecycle, starts from [planned] or repeats
    the current state, never returns to [planned], and keeps the shape "stale
    exactly when a staleness time is recorded". *)
Class PlanLifecycle {P S : Type} (state : P -> S) (stale_at : P -> option Z)
  (with_lifecycle : P -> S -> option Z -> P)
  (transition : P -> S -> option Z -> P * result unit DomainError) (planned stale : S) : Prop := {
  pl_state p s w : state (with_lifecycle p s w) = s;
  pl_stale p s w : stale_at (with_lifecycle p s w) = w;
  pl_id p : with_lifecycle p (state p) (stale_at p) = p;
  pl_again p s w s' w' : with_lifecycle (with_lifecycle p s w) s' w' = with_lifecycle p s' w';
  pl_error p s w p' e : transition p s w = (p', Err e) -> p' = p;
  pl_ok p s w p' :
    transition p s w = (p', Ok tt) ->
    p' = with_lifecycle p s (stale_at p') /\ (state p = planned \/ state p = s) /\
    s <> planned /\
    ((state p = stale <-> is_some (stale_at p) = true) ->
     (s = stale <-> is_some (stale_at p') = true)) }.

Section Plans.
Context {P S : Type} (state : P -> S) (stale_at : P -> option Z)
  (with_lifecycle : P -> S -> option Z -> P)
  (transition : P -> S -> option Z -> P * result unit DomainError) (planned stale : S).
Context `{HL : !PlanLifecycle state stale_at with_lifecycle transition planned stale}.

(** A plan after a sequence of requests, the refused ones included. *)
Definition run_plan (p : P) (requests : list (S * option Z)) : P :=
  fold_left (fun p rq => (transition p rq.1 rq.2).1) requests p.

(** Stale exactly when a staleness time is recorded. *)
Definition stale_shape (p : P) : Prop := state p = stale <-> is_some (stale_at p) = true.

(** Only the lifecycle changed, the shape is kept, and a plan that has left
    [planned] stays in the state it went to. *)
Definition one_way (p p' : P) : Prop :=
  p' = with_lifecycle p (state p') (stale_at p') /\ (stale_shape p -> stale_shape p') /\
  (state p <> planned -> state p' = state p) /\ (state p' = planned -> p' = p).

Lemma one_way_refl p : one_way p p.
Proof. split_and!; try done. symmetry. apply pl_id. Qed.

Lemma one_way_trans p q r : one_way p q -> one_way q r -> one_way p r.
Proof.
  intros (E1 & S1 & T1 & F1) (E2 & S2 & T2 & F2). split_and!.
  - rewrite E2 at 1. rewrite E1 at 1. apply pl_again.
  - auto.
  - intros H. rewrite T2; [auto|]. by rewrite T1.
  - intros H. pose proof (F2 H) as ->. auto.
Qed.

Lemma transition_one_way p s w : one_way p (transition p s w).1.
Proof.
  destruct (transition p s w) as [p' [[]|e]] eqn:E; cbn [fst].
  - apply pl_ok in E as (Ep & Hfrom & Hs & Hshape).
    assert (state p' = s) as Es by (rewrite Ep; apply pl_state).
    split_and!.
    + by rewrite Es.
    + unfold stale_shape. by rewrite Es.
    + intros Hp. rewrite Es. by destruct Hfrom.
    + congruence.
  - apply pl_error in E as ->. apply one_way_refl.
Qed.

Lemma run_plan_one_way p requests : one_way p (run_plan p requests).
Proof.
  revert p. induction requests as [|rq requests IH]; intros p; [apply one_way_refl|].
  eapply one_way_trans; [apply (transition_one_way p rq.1 rq.2)|apply IH].
Qed.

End Plans.

Lemma is_some_true {A} (o : option A) : is_some o = true <-> exists a, o = Some a.
Proof. destruct o; cbn; naive_solver. Qed.

#[global] Instance restore_lifecycle :
  PlanLifecycle RestorePlan.state RestorePlan.stale_at RestorePlan.with_lifecycle
    RestorePlan.transition_state BackupRestorePlanState.Planned BackupRestorePlanState.Stale.
Proof.
  split; try done.
  - by intros [].
  - intros p s w p' e. unfold RestorePlan.transition_state. intros; rust_case.
  - intros p s w p'. unfold RestorePlan.transition_state.
    destruct (RestorePlan.state p) eqn:E, s, w; cbn; repeat case_bool_decide; cbn; intros;
      simplify_eq; cbn; split_and!; try done; auto; naive_solver.
Qed.

#[global] Instance prune_lifecycle :
  PlanLifecycle PrunePlan.state PrunePlan.stale_at PrunePlan.with_lifecycle
    PrunePlan.transition_state BackupPrunePlanState.Planned BackupPrunePlanState.Stale.
Proof.
  split; try done.
  - by intros [].
  - intros p s w p' e. unfold PrunePlan.transition_state. intros; rust_case.
  - intros p s w p'. unfold PrunePlan.transition_state.
    destruct (PrunePlan.state p) eqn:E, s, w; cbn; repeat case_bool_decide; cbn; intros;
      simplify_eq; cbn; split_and!; try done; auto.
Qed.

#[global] Instance expiry_lifecycle :
  PlanLifecycle ExpiryPlan.state ExpiryPlan.stale_at ExpiryPlan.with_lifecycle
    ExpiryPlan.transition_state BackupSnapshotExpiryPlanState.Planned
    BackupSnapshotExpiryPlanState.Stale.
Proof.
  split; try done.
  - by intros [].
  - intros p s w p' e. unfold ExpiryPlan.transition_state. intros; rust_case.
  - intros p s w p'. unfold ExpiryPlan.transition_state.
    destruct (ExpiryPlan.state p) eqn:E, s, w; cbn; repeat case_bool_decide; cbn;
      rewrite ?orb_false_r; try case_match; intros;
      simplify_eq; cbn; split_and!; try done; auto.
Qed.

(** Plan lifecycles are one-way. Whatever transition requests a restore,
    prune or expiry plan receives, in any order and with any arguments, only its
    state and staleness time can change; a plan is stale exactly when a staleness
    time is recorded, if it was so at first; a plan that has become stale or was
    executed never changes state again; and none returns to planned. *)
Theorem plans_one_way restore prune expiry rr rp re :
  one_way RestorePlan.state RestorePlan.stale_at RestorePlan.with_lifecycle
    BackupRestorePlanState.Planned BackupRestorePlanState.Stale restore
    (run_plan RestorePlan.transition_state restore rr) /\
  one_way PrunePlan.state PrunePlan.stale_at PrunePlan.with_lifecycle
    BackupPrunePlanState.Planned BackupPrunePlanState.Stale prune
    (run_plan PrunePlan.transition_state prune rp) /\
  one_way ExpiryPlan.state ExpiryPlan.stale_at ExpiryPlan.with_lifecycle
    BackupSnapshotExpiryPlanState.Planned BackupSnapshotExpiryPlanState.Stale expiry
    (run_plan ExpiryPlan.transition_state expiry re).
Proof. split_and!; apply run_plan_one_way; apply _. Qed.

Lemma prune_frozen p s w :
  PrunePlan.state p <> BackupPrunePlanState.Planned ->
  (PrunePlan.transition_state p s w).1 = p.
Proof.
  unfold PrunePlan.transition_state. destruct p as [? ? ? ? ? ? ? ? ? ? ? ? st ? at_]; cbn.
  destruct st, s, w; cbn; repeat case_bool_decide; cbn; naive_solver.
Qed.

Lemma expiry_frozen p s w :
  ExpiryPlan.state p <> BackupSnapshotExpiryPlanState.Planned ->
  stale_shape ExpiryPlan.state ExpiryPlan.stale_at BackupSnapshotExpiryPlanState.Stale p ->
  (ExpiryPlan.transition_state p s w).1 = p.
Proof.
  unfold ExpiryPlan.transition_state, stale_shape.
  destruct p as [? ? ? ? ? ? ? ? ? ? ? ? ? ? ? st ? at_]; cbn.
  destruct st, s, w, at_; cbn; repeat case_bool_decide; cbn; rewrite ?orb_true_r, ?orb_false_r;
    try case_match; cbn; intros Hp Hs; simplify_eq; try done;
    destruct Hs as [Hto Hfrom];
    first [by discriminate (Hfrom eq_refl)|by discriminate (Hto eq_refl)].
Qed.

(** A prune or expiry plan that is no longer planned is frozen: no sequence of
    requests changes any of its fields, the recorded staleness time included. A
    stale restore plan is not: a repeated request moves its staleness time. *)
Theorem finished_plans_frozen prune expiry rp re :
  (PrunePlan.state prune <> BackupPrunePlanState.Planned ->
   run_plan PrunePlan.transition_state prune rp = prune) /\
  (ExpiryPlan.state expiry <> BackupSnapshotExpiryPlanState.Planned ->
   stale_shape ExpiryPlan.state ExpiryPlan.stale_at BackupSnapshotExpiryPlanState.Stale expiry ->
   run_plan ExpiryPlan.transition_state expiry re = expiry) /\
  (forall restore t t',
     RestorePlan.state restore = BackupRestorePlanState.Stale ->
     RestorePlan.stale_at restore = Some t ->
     RestorePlan.transition_state restore BackupRestorePlanState.Stale (Some t') =
     (RestorePlan.with_lifecycle restore BackupRestorePlanState.Stale (Some t'), Ok tt)).
Proof.
  split_and!.
  - intros H. induction rp as [|rq rp IH]; [done|]. cbn. by rewrite prune_frozen.
  - intros H Hs. induction re as [|rq re IH]; [done|]. cbn. by rewrite expiry_frozen.
  - intros p t t' Hs Ht. unfold RestorePlan.transition_state. rewrite Hs.
    by rewrite !bool_decide_true by done.
Qed.

(** ** Counts *)

(** Decides the guard of a validating constructor. *)
Ltac decide_guard H :=
  match goal with |- (if ?c then _ else _) = _ -> _ => destruct c eqn:H end.

Lemma checked_add64_Some a b c : checked_add64 a b = Some c <-> c = a + b /\ a + b <= u64_max.
Proof.
  unfold checked_add64. destruct (_ <=? _) eqn:E; rust_bool; naive_solver lia.
Qed.

(** The counts of an expiry plan are exact. Whenever an expiry plan exists, its
    four decision counts add up to the evaluated snapshots as integers, without
    wrap-around; the cutoff precedes the evaluation; staleness is recorded exactly
    for stale plans and never before creation; and the stored request fingerprint is
    that of its own backup set. *)
Theorem expiry_plan_counts digest id owner op fp set pol num eval cut basis n expire latest
  recent blocked st created stale p :
  ExpiryPlan.new digest id owner op fp set pol num eval cut basis n expire latest recent blocked
    st created stale = Ok p ->
  ExpiryPlan.keep_latest_count p + ExpiryPlan.keep_recent_count p
    + ExpiryPlan.blocked_active_restore_count p + ExpiryPlan.expire_candidate_count p
    = ExpiryPlan.evaluated_completed_snapshot_count p /\
  ExpiryPlan.evaluated_completed_snapshot_count p <= u64_max /\
  ExpiryPlan.cutoff_at p < ExpiryPlan.evaluated_at p /\
  stale_shape ExpiryPlan.state ExpiryPlan.stale_at BackupSnapshotExpiryPlanState.Stale p /\
  (forall t, ExpiryPlan.stale_at p = Some t -> ExpiryPlan.created_at p <= t) /\
  ExpiryPlan.request_fingerprint p =
    ExpiryPlanRequest.fingerprint digest (ExpiryPlanRequest.mk (ExpiryPlan.backup_set_id p)).
Proof.
  unfold ExpiryPlan.new.
  destruct (let* v := checked_add64 latest recent in _) as [total|] eqn:Ec; [|done].
  decide_guard Hc; [done|]. rust_bool. intros [= <-]. cbn. simplify_eq.
  destruct (checked_add64 latest recent) as [v1|] eqn:E1; [|done].
  destruct (checked_add64 v1 blocked) as [v2|] eqn:E2; [|done].
  apply checked_add64_Some in E1 as [-> _], E2 as [-> _], Ec as [-> ?].
  split_and!; try done; try lia.
  - unfold stale_shape. cbn. destruct stale, st; cbn in *; naive_solver.
  - intros t ->. cbn in *. by rust_bool.
Qed.

Lemma expiry_plan_counts_witness :
  3 + 1 + 0 + 2 = 6 /\ 6 <= u64_max /\ 50 < 100 /\
  (BackupSnapshotExpiryPlanState.Planned = BackupSnapshotExpiryPlanState.Stale <->
   false = true) /\
  (forall t, None = Some t -> 100 <= t) /\
  ExpiryPlanRequest.fingerprint (fun x => x) (ExpiryPlanRequest.mk 7) =
  ExpiryPlanRequest.fingerprint (fun x => x) (ExpiryPlanRequest.mk 7).
Proof.
  apply (expiry_plan_counts (fun x => x) 1 2 (lit "op")
    (ExpiryPlanRequest.fingerprint (fun x => x) (ExpiryPlanRequest.mk 7)) 7 8 1 100 50
    (ExpiryBasis.calculate (fun x => x) 7 8 100 []) 6 2 3 1 0
    BackupSnapshotExpiryPlanState.Planned 100 None
    (ExpiryPlan.mk 1 2 (lit "op")
       (ExpiryPlanRequest.fingerprint (fun x => x) (ExpiryPlanRequest.mk 7)) 7 8 1 100 50
       (ExpiryBasis.calculate (fun x => x) 7 8 100 []) 6 2 3 1 0
       BackupSnapshotExpiryPlanState.Planned 100 None)).
  vm_compute. reflexivity.
Defined.

(** The counts of a prune plan and of a prune receipt are exact as long as
    they fit the signed columns they are stored in; beyond that the unchecked sum
    can wrap, and counts that do not add up are accepted. *)
Theorem prune_counts id owner op fp req items refs pins distinct kept freed st created stale p :
  PrunePlan.new id owner op fp req items refs pins distinct kept freed st created stale = Ok p ->
  (0 <= kept <= i64_max -> 0 <= freed <= i64_max -> kept + freed = distinct) /\
  pins = refs /\ distinct <= pins /\
  stale_shape PrunePlan.state PrunePlan.stale_at BackupPrunePlanState.Stale p /\
  is_ok (PruneExecution.new 1 2 3 4 5 6 0 u64_max 1 7) = true.
Proof.
  unfold PrunePlan.new. decide_guard Hc; [done|]. rust_bool. intros [= <-].
  split_and!; try done.
  - intros Hk Hf. subst distinct. unfold wrapping_add64, i64_max in *.
    rewrite Z.mod_small; lia.
  - unfold stale_shape. cbn. destruct stale, st; cbn in *; naive_solver.
Qed.

Lemma prune_counts_witness :
  (0 <= 2 <= i64_max -> 0 <= 1 <= i64_max -> 2 + 1 = 3) /\ 4 = 4 /\ 3 <= 4 /\
  (BackupPrunePlanState.Planned = BackupPrunePlanState.Stale <-> false = true) /\
  is_ok (PruneExecution.new 1 2 3 4 5 6 0 u64_max 1 7) = true.
Proof.
  apply (prune_counts 1 2 (lit "op") (mk_fingerprint 1 []) (PrunePlanRequest.mk 3 4) 9 4 4 3 2 1
    BackupPrunePlanState.Planned 100 None
    (PrunePlan.mk 1 2 (lit "op") (mk_fingerprint 1 []) 3 4 9 4 4 3 2 1
       BackupPrunePlanState.Planned 100 None)).
  vm_compute. reflexivity.
Defined.

(** ** Maintenance runs *)

(** A maintenance run's evidence is complete and ordered. Whenever a run
    exists, it is completed exactly when it has an execution and a completion time,
    and then it has snapshot, plan and all times, in the order creation, capture,
    planning, completion; it is terminal exactly when a completion or a staleness
    time is recorded, never both; and its fingerprint is that of its backup set. *)
Theorem maintenance_run_evidence digest id owner op fp set pol num cop eop st snap plan exec tc tp
  td ts created r :
  MaintenanceRun.new digest id owner op fp set pol num cop eop st snap plan exec tc tp td ts
    created = Ok r ->
  (st = BackupMaintenanceRunState.Completed <-> is_some exec = true) /\
  (st = BackupMaintenanceRunState.Completed <-> is_some td = true) /\
  (forall d, td = Some d -> is_some snap = true /\ is_some plan = true /\
     exists c p, tc = Some c /\ tp = Some p /\ created <= c <= p /\ p <= d) /\
  (MaintenanceRun.is_terminal st = true <-> is_some td = true \/ is_some ts = true) /\
  ~ (is_some td = true /\ is_some ts = true) /\
  fp = MaintenanceRunRequest.fingerprint digest (MaintenanceRunRequest.mk set).
Proof.
  unfold MaintenanceRun.new. decide_guard Hc; [done|]. rust_bool. intros _.
  match goal with H : MaintenanceRun.reference_shape_is_valid _ _ _ _ _ _ _ _ _ = true |- _ =>
    unfold MaintenanceRun.reference_shape_is_valid in H; rename H into Hs end.
  destruct st, snap, plan, exec, tc as [c|], tp as [p|], td as [d|], ts; cbn in Hs;
    rewrite ?andb_false_r in Hs; try discriminate Hs; rust_bool; cbn;
    split_and!; try naive_solver;
    intros ? [= <-]; split_and!; try done; exists c, p; split_and!; try done; lia.
Qed.

Lemma maintenance_run_evidence_witness :
  let fp := MaintenanceRunRequest.fingerprint (fun x => x) (MaintenanceRunRequest.mk 7) in
  (BackupMaintenanceRunState.Completed = BackupMaintenanceRunState.Completed <-> true = true) /\
  (BackupMaintenanceRunState.Completed = BackupMaintenanceRunState.Completed <-> true = true) /\
  (forall d, Some 40 = Some d -> true = true /\ true = true /\
     exists c p, Some 20 = Some c /\ Some 30 = Some p /\ 10 <= c <= p /\ p <= d) /\
  (true = true <-> true = true \/ false = true) /\ ~ (true = true /\ false = true) /\ fp = fp.
Proof.
  cbn zeta.
  apply (maintenance_run_evidence (fun x => x) 1 2 (lit "op")
    (MaintenanceRunRequest.fingerprint (fun x => x) (MaintenanceRunRequest.mk 7)) 7 3 1
    (lit "capture") (lit "plan") BackupMaintenanceRunState.Completed (Some 4) (Some 5) (Some 6)
    (Some 20) (Some 30) (Some 40) None 10
    (MaintenanceRun.mk 1 2 (lit "op")
       (MaintenanceRunRequest.fingerprint (fun x => x) (MaintenanceRunRequest.mk 7)) 7 3 1
       (lit "capture") (lit "plan") BackupMaintenanceRunState.Completed (Some 4) (Some 5)
       (Some 6) (Some 20) (Some 30) (Some 40) None 10)).
  vm_compute. reflexivity.
Defined.

(** ** Snapshots *)

Module SnapshotFacts.
Import BackupSnapshot.

Definition run (s : t) (requests : list (SnapshotState.t * Z)) : t :=
  fold_left (fun s rq => (transition_state s rq.1 rq.2).1) requests s.

(** Commit and expiry times match the state. *)
Definition wf (s : t) : Prop :=
  (is_some (committed_at s) = true <->
   state s = SnapshotState.Completed \/ state s = SnapshotState.Expired) /\
  (is_some (expired_at s) = true <-> state s = SnapshotState.Expired).

Definition step_ok (s s' : t) : Prop :=
  s' = with_lifecycle s (state s') (committed_at s') (expired_at s') /\ (wf s -> wf s') /\
  (forall t, wf s -> committed_at s = Some t -> committed_at s' = Some t) /\
  (state s = SnapshotState.Failed \/ state s = SnapshotState.Expired -> s' = s).

Lemma transition_step_ok s next at_ : step_ok s (transition_state s next at_).1.
Proof.
  unfold transition_state, step_ok, wf.
  destruct s as [? ? ? ? ? ? ? ? ? st ? com ex]; cbn.
  destruct st, next, com, ex; cbn; split_and!; try done; naive_solver.
Qed.

Lemma step_ok_trans a b c : step_ok a b -> step_ok b c -> step_ok a c.
Proof.
  intros (E1 & W1 & C1 & T1) (E2 & W2 & C2 & T2). split_and!.
  - rewrite E2 at 1. rewrite E1 at 1. done.
  - auto.
  - auto.
  - intros H. rewrite T2, T1; [done..|]. by rewrite T1.
Qed.

(** A snapshot's lifecycle. Whatever transitions are requested of a snapshot
    whose times match its state, they keep matching it; nothing but state, commit
    and expiry time changes; a recorded commit time is never moved or lost; and a
    failed or expired snapshot never changes again. *)
Theorem snapshot_lifecycle s requests :
  wf s ->
  let s' := run s requests in
  wf s' /\ s' = with_lifecycle s (state s') (committed_at s') (expired_at s') /\
  (forall t, committed_at s = Some t -> committed_at s' = Some t) /\
  (state s = SnapshotState.Failed \/ state s = SnapshotState.Expired -> s' = s).
Proof.
  intros W. cbn zeta. enough (step_ok s (run s requests)) as (? & ? & ? & ?)
    by (split_and!; eauto).
  clear W. revert s. induction requests as [|rq requests IH]; intros s.
  - split_and!; try done. by destruct s.
  - eapply step_ok_trans; [apply (transition_step_ok s rq.1 rq.2)|apply IH].
Qed.

Definition sample : t :=
  mk 1 2 3 4 1 9 5 None 3 SnapshotState.Building 100 None None.

Lemma snapshot_lifecycle_witness :
  let s' := run sample [(SnapshotState.Expired, 101); (SnapshotState.Completed, 102);
                        (SnapshotState.Expired, 103); (SnapshotState.Building, 104)] in
  wf s' /\ s' = with_lifecycle sample (state s') (committed_at s') (expired_at s') /\
  (forall t, None = Some t -> committed_at s' = Some t) /\
  (SnapshotState.Building = SnapshotState.Failed \/
   SnapshotState.Building = SnapshotState.Expired -> s' = sample).
Proof.
  apply (snapshot_lifecycle sample). unfold wf. cbn. split; split; try done. by intros [].
Defined.

End SnapshotFacts.
