(* ===== verification/Schedule.v ===== *)
(** * The recurrence planner and the scheduler's decision

    The second part of [crates/core/src/domain/scheduling.rs] (revisions,
    occurrences, the planner, maintenance claims) and the pure decision
    function of [crates/metadata/src/scheduler.rs].

    The calendar and time-zone libraries ([chrono], [chrono_tz], [time]) are
    the record [Calendar] the planner takes as an argument; a date is its day
    number, an instant its nanoseconds since the epoch.  [CalendarLaws] states
    what the planner relies on of them, law by law; [Utc] is an instance. *)

From S2P Require Import Prelude Vocabulary Values Models ScheduleConfig Requests Backup.

(** ** Time libraries *)

(** [chrono::LocalResult<DateTime<Tz>>]. *)
Inductive LocalResult : Type :=
| Single (value : Z)
| Ambiguous (first second : Z)
| NoLocal.

Record Calendar := mk_Calendar {
  (** [Tz::from_local_datetime] at a day and a minute of it. *)
  from_local_datetime : rstring -> Z -> Z -> LocalResult;
  (** [DateTime<Utc>::with_timezone(tz).date_naive()]. *)
  local_date : rstring -> Z -> Z;
  (** [NaiveDate::weekday().number_from_monday()]. *)
  number_from_monday : Z -> Z;
  (** [NaiveDate::succ_opt] and [NaiveDate::pred_opt]. *)
  succ_opt : Z -> option Z;
  pred_opt : Z -> option Z;
  (** [DateTime::<Utc>::from_timestamp] of an instant's seconds and nanoseconds. *)
  chrono_from_timestamp : Z -> option Z;
  (** [OffsetDateTime::from_unix_timestamp], to nanoseconds. *)
  from_unix_timestamp : Z -> option Z;
  (** [Date::from_calendar_date] of a [NaiveDate]'s year, month and day. *)
  time_date : Z -> option Z;
  (** [NaiveDate::from_ymd_opt] of a [time::Date]'s year, month and day. *)
  chrono_date : Z -> option Z;
  (** [OffsetDateTime::checked_sub]. *)
  instant_checked_sub : Z -> Z -> option Z }.

Definition NANOS : Z := 1000000000.
Definition DAY_NANOS : Z := 86400 * NANOS.

(** ** Revision numbers, revisions, schedules *)

Module ScheduleRevisionNumber.

Definition new (value : Z) : result Z DomainError :=
  if (value == 0) || i64_try_from_is_err value then Err BackupScheduleInvalidRevision
  else Ok value.

Definition checked_next (self : Z) : result Z DomainError :=
  let? next := ok_or (checked_add64 self 1) BackupScheduleInvalidRevision in new next.

Definition from_str (value : rstring) : result Z DomainError :=
  let? v := ok_or (Decimal.u64_from_str value) BackupScheduleInvalidRevision in new v.

End ScheduleRevisionNumber.

Module Revision.

Record t := mk {
  id : Z; schedule_id : Z; owner_user_id : Z; backup_set_id : Z; revision_number : Z;
  operation_id : rstring; request_fingerprint : Requests.fingerprint; config : Config.t;
  created_at : Z }.

Definition new (digest : rstring -> rstring)
  (id schedule_id owner_user_id backup_set_id revision_number : Z) (operation_id : rstring)
  (request_fingerprint : Requests.fingerprint) (config : Config.t) (created_at : Z) :
  result t DomainError :=
  let request := ScheduleRequest.mk backup_set_id config in
  if ((Requests.version request_fingerprint
       == ScheduleRequest.BACKUP_SCHEDULE_LEGACY_FINGERPRINT_VERSION)
      && ((Config.misfire_mode config != BackupScheduleMisfireMode.LatestOnly)
          || (Config.max_lateness_seconds config
              != DEFAULT_BACKUP_SCHEDULE_MAX_LATENESS_SECONDS)))
     || (ScheduleRequest.fingerprint_for_version digest request
           (Requests.version request_fingerprint) != Some request_fingerprint)
  then Err BackupScheduleInvalidRevision
  else Ok (mk id schedule_id owner_user_id backup_set_id revision_number operation_id
             request_fingerprint config created_at).

Definition timezone (self : t) : rstring := Config.timezone (config self).
Definition local_time (self : t) : Z := Config.local_time (config self).

End Revision.

Module Schedule.

Record t := mk {
  id : Z; owner_user_id : Z; backup_set_id : Z; current_revision_id : Z; enabled : bool;
  current_revision : Revision.t; effective_from : Z; created_at : Z; updated_at : Z }.

Definition new (id owner_user_id backup_set_id : Z) (current_revision : Revision.t)
  (enabled : bool) (effective_from created_at updated_at : Z) : result t DomainError :=
  if (Revision.schedule_id current_revision != id)
     || (Revision.owner_user_id current_revision != owner_user_id)
     || (Revision.backup_set_id current_revision != backup_set_id)
  then Err BackupScheduleInvalidRevision
  else Ok (mk id owner_user_id backup_set_id (Revision.id current_revision) enabled
             current_revision effective_from created_at updated_at).

End Schedule.

(** [PlannedScheduleOccurrence]. *)
Module Planned.

Record t := mk {
  schedule_id : Z; schedule_revision_id : Z; local_calendar_date : Z; local_wall_time : Z;
  timezone : rstring; scheduled_for_utc : Z }.

End Planned.

(** ** The planner *)

Section Planner.
Context (cal : Calendar).

Definition timestamp_to_chrono_utc (value : Z) : option Z := chrono_from_timestamp cal value.

(** The second [let value] shadows the argument, so [replace_nanosecond] puts
    back the zero nanoseconds of the whole-second instant. *)
Definition chrono_utc_to_timestamp (value : Z) : option Z :=
  let* value := from_unix_timestamp cal (value / NANOS) in
  Some (value / NANOS * NANOS + value mod NANOS).

Definition chrono_date_to_time_date (value : Z) : option Z := time_date cal value.

(** The loop [for minute in configured_minute..MINUTES_PER_DAY]; [n] is the
    number of minutes left. *)
Fixpoint resolve_from (n : nat) (timezone : rstring) (date minute : Z) : option (Z * Z) :=
  match n with
  | O => None
  | S n' =>
      match from_local_datetime cal timezone date minute with
      | Single value => Some (minute, value)
      | Ambiguous first second => Some (minute, if first <=? second then first else second)
      | NoLocal => resolve_from n' timezone date (minute + 1)
      end
  end.

Definition resolve_local_minute (timezone : rstring) (date configured_minute : Z) :
  option (Z * Z) :=
  resolve_from (Z.to_nat (MINUTES_PER_DAY - configured_minute)) timezone date configured_minute.

Definition occurs_on_date (revision : Revision.t) (date : Z) : bool :=
  match Config.recurrence_kind (Revision.config revision) with
  | BackupScheduleRecurrenceKind.Daily => true
  | BackupScheduleRecurrenceKind.Weekly =>
      let ordinal := number_from_monday cal date in
      existsb (fun day => Weekday.ordinal day == ordinal)
        (Config.weekly_days (Revision.config revision))
  end.

Definition planned_occurrence_on_chrono_date (revision : Revision.t) (date : Z) :
  option Planned.t :=
  if negb (occurs_on_date revision date) then None
  else
    let* resolved := resolve_local_minute (Revision.timezone revision) date
                       (Revision.local_time revision) in
    let* local_calendar_date := chrono_date_to_time_date date in
    let* local_wall_time := expect (LocalTime.from_minute resolved.1) in
    let* scheduled_for_utc := chrono_utc_to_timestamp resolved.2 in
    Some (Planned.mk (Revision.schedule_id revision) (Revision.id revision) local_calendar_date
            local_wall_time (Revision.timezone revision) scheduled_for_utc).

Definition occurrence_on_local_date (revision : Revision.t) (local_calendar_date : Z) :
  option Planned.t :=
  let* date := chrono_date cal local_calendar_date in
  planned_occurrence_on_chrono_date revision date.

(** The shape of the four scans: from [date], at most [n] dates, the first
    candidate that [accept]s; [next] is [succ_opt] or [pred_opt]. *)
Fixpoint scan (n : nat) (next : Z -> option Z) (revision : Revision.t)
  (accept : Planned.t -> bool) (date : Z) : option Planned.t :=
  match n with
  | O => None
  | S n' =>
      match planned_occurrence_on_chrono_date revision date with
      | Some candidate =>
          if accept candidate then Some candidate
          else let* date := next date in scan n' next revision accept date
      | None => let* date := next date in scan n' next revision accept date
      end
  end.

Definition SCAN_DAYS : nat := Z.to_nat MAX_RECURRENCE_DATE_SCAN_DAYS.

(** [next_occurrence_after] has its own loop: the candidate's instant is
    converted, and an unrepresentable one ends the search. *)
Fixpoint next_scan (n : nat) (revision : Revision.t) (reference date : Z) : option Planned.t :=
  match n with
  | O => None
  | S n' =>
      match planned_occurrence_on_chrono_date revision date with
      | Some candidate =>
          let* candidate_utc := timestamp_to_chrono_utc (Planned.scheduled_for_utc candidate) in
          if reference <? candidate_utc then Some candidate
          else let* date := succ_opt cal date in next_scan n' revision reference date
      | None => let* date := succ_opt cal date in next_scan n' revision reference date
      end
  end.

Definition next_occurrence_after (revision : Revision.t) (exclusive_utc_instant : Z) :
  option Planned.t :=
  let* reference := timestamp_to_chrono_utc exclusive_utc_instant in
  next_scan SCAN_DAYS revision reference
    (local_date cal (Revision.timezone revision) reference).

Definition bounded_window (not_before_utc through_utc : Z) : bool :=
  let width := through_utc - not_before_utc in
  (0 <? width)
  && (Z.quot width NANOS <=? MAX_BACKUP_SCHEDULE_MAX_LATENESS_SECONDS + 86400).

Definition in_window (resolved_after_utc not_before_utc through_utc : Z) (candidate : Planned.t) :
  bool :=
  (resolved_after_utc <? Planned.scheduled_for_utc candidate)
  && (not_before_utc <=? Planned.scheduled_for_utc candidate)
  && (Planned.scheduled_for_utc candidate <=? through_utc).

Definition oldest_occurrence_in_window (revision : Revision.t)
  (resolved_after_utc not_before_utc through_utc : Z) : option Planned.t :=
  if (through_utc <? not_before_utc) || negb (bounded_window not_before_utc through_utc) then None
  else
    let* reference := timestamp_to_chrono_utc not_before_utc in
    scan SCAN_DAYS (succ_opt cal) revision
      (in_window resolved_after_utc not_before_utc through_utc)
      (local_date cal (Revision.timezone revision) reference).

Definition latest_occurrence_in_window (revision : Revision.t)
  (resolved_after_utc not_before_utc through_utc : Z) : option Planned.t :=
  if (through_utc <? not_before_utc) || negb (bounded_window not_before_utc through_utc) then None
  else
    let* reference := timestamp_to_chrono_utc through_utc in
    scan SCAN_DAYS (pred_opt cal) revision
      (in_window resolved_after_utc not_before_utc through_utc)
      (local_date cal (Revision.timezone revision) reference).

Definition last_occurrence_before (revision : Revision.t) (exclusive_utc_instant : Z) :
  option Planned.t :=
  let* reference := timestamp_to_chrono_utc exclusive_utc_instant in
  scan SCAN_DAYS (pred_opt cal) revision
    (fun candidate => Planned.scheduled_for_utc candidate <? exclusive_utc_instant)
    (local_date cal (Revision.timezone revision) reference).

End Planner.

(** ** Durable occurrences and handoffs *)

Module Occurrence.

Record t := mk {
  id : Z; owner_user_id : Z; backup_set_id : Z; schedule_id : Z; schedule_revision_id : Z;
  local_calendar_date : Z; resolved_local_wall_time : Z; timezone : rstring;
  scheduled_for_utc : Z; materialized_at : Z }.

Definition new (cal : Calendar) (id : Z) (revision : Revision.t)
  (local_calendar_date resolved_local_wall_time scheduled_for_utc materialized_at : Z) :
  result t DomainError :=
  let? planned := ok_or (occurrence_on_local_date cal revision local_calendar_date)
                    BackupScheduleInvalidOccurrence in
  if (Planned.local_wall_time planned != resolved_local_wall_time)
     || (Planned.scheduled_for_utc planned != scheduled_for_utc)
  then Err BackupScheduleInvalidOccurrence
  else Ok (mk id (Revision.owner_user_id revision) (Revision.backup_set_id revision)
             (Revision.schedule_id revision) (Revision.id revision) local_calendar_date
             resolved_local_wall_time (Revision.timezone revision) scheduled_for_utc
             materialized_at).

End Occurrence.

Module Handoff.

Record t := mk {
  occurrence_id : Z; owner_user_id : Z; backup_set_id : Z; schedule_id : Z;
  maintenance_run_id : Z; created_at : Z }.

Definition new (occurrence : Occurrence.t) (maintenance_run : MaintenanceRun.t)
  (created_at : Z) : result t DomainError :=
  if (Occurrence.owner_user_id occurrence != MaintenanceRun.owner_user_id maintenance_run)
     || (Occurrence.backup_set_id occurrence != MaintenanceRun.backup_set_id maintenance_run)
  then Err BackupScheduleInvalidHandoff
  else Ok (mk (Occurrence.id occurrence) (Occurrence.owner_user_id occurrence)
             (Occurrence.backup_set_id occurrence) (Occurrence.schedule_id occurrence)
             (MaintenanceRun.id maintenance_run) created_at).

(** [BackupScheduleOccurrenceHandoffResult]. *)
Inductive HandoffResult : Type :=
| Created (occurrence : Occurrence.t) (maintenance_run : MaintenanceRun.t) (handoff : t)
| Existing (occurrence : Occurrence.t) (maintenance_run : MaintenanceRun.t) (handoff : t).

Definition result_occurrence (self : HandoffResult) : Occurrence.t :=
  match self with Created occurrence _ _ | Existing occurrence _ _ => occurrence end.
Definition result_maintenance_run (self : HandoffResult) : MaintenanceRun.t :=
  match self with Created _ run _ | Existing _ run _ => run end.
Definition result_handoff (self : HandoffResult) : t :=
  match self with Created _ _ handoff | Existing _ _ handoff => handoff end.

End Handoff.

Module MisfireSkip.

Record t := mk {
  id : Z; owner_user_id : Z; backup_set_id : Z; schedule_id : Z; schedule_revision_id : Z;
  activation_effective_from : Z; resolved_from_exclusive_utc : Z; resolved_through_utc : Z;
  observed_at_utc : Z; misfire_mode : BackupScheduleMisfireMode.t; max_lateness_seconds : Z;
  created_at : Z }.

Definition new (id : Z) (revision : Revision.t)
  (activation_effective_from resolved_from_exclusive_utc resolved_through_utc
   observed_at_utc : Z) (misfire_mode : BackupScheduleMisfireMode.t)
  (max_lateness_seconds created_at : Z) : result t DomainError :=
  if (resolved_from_exclusive_utc <? activation_effective_from)
     || (resolved_through_utc <=? resolved_from_exclusive_utc)
     || (observed_at_utc <? resolved_through_utc)
     || (misfire_mode != Config.misfire_mode (Revision.config revision))
     || (max_lateness_seconds != Config.max_lateness_seconds (Revision.config revision))
  then Err BackupScheduleInvalidMisfireSkip
  else Ok (mk id (Revision.owner_user_id revision) (Revision.backup_set_id revision)
             (Revision.schedule_id revision) (Revision.id revision) activation_effective_from
             resolved_from_exclusive_utc resolved_through_utc observed_at_utc misfire_mode
             max_lateness_seconds created_at).

End MisfireSkip.

Module TickOutcome.

Record t := mk {
  occurrence_id : Z; schedule_id : Z; schedule_revision_id : Z; backup_set_id : Z;
  scheduled_for_utc : Z; maintenance_run_id : Z }.

Definition from_handoff_result (result_ : Handoff.HandoffResult) : result t DomainError :=
  let occurrence := Handoff.result_occurrence result_ in
  let handoff := Handoff.result_handoff result_ in
  if (Handoff.occurrence_id handoff != Occurrence.id occurrence)
     || (Handoff.owner_user_id handoff != Occurrence.owner_user_id occurrence)
     || (Handoff.backup_set_id handoff != Occurrence.backup_set_id occurrence)
     || (Handoff.schedule_id handoff != Occurrence.schedule_id occurrence)
  then Err BackupScheduleInvalidHandoff
  else Ok (mk (Occurrence.id occurrence) (Occurrence.schedule_id occurrence)
             (Occurrence.schedule_revision_id occurrence) (Occurrence.backup_set_id occurrence)
             (Occurrence.scheduled_for_utc occurrence) (Handoff.maintenance_run_id handoff)).

End TickOutcome.

(** ** Scheduled maintenance claims *)

Module Claim.

Definition MIN_BACKUP_SCHEDULED_MAINTENANCE_LEASE_SECONDS : Z := 10.
Definition MAX_BACKUP_SCHEDULED_MAINTENANCE_LEASE_SECONDS : Z := 900.

Definition validate_scheduled_maintenance_lease_duration (lease_duration_seconds : Z) :
  result Z DomainError :=
  if (MIN_BACKUP_SCHEDULED_MAINTENANCE_LEASE_SECONDS <=? lease_duration_seconds)
     && (lease_duration_seconds <=? MAX_BACKUP_SCHEDULED_MAINTENANCE_LEASE_SECONDS)
  then Ok lease_duration_seconds
  else Err BackupScheduleInvalidMaintenanceClaim.

Definition scheduled_maintenance_resulting_state (expected_state : BackupMaintenanceRunState.t) :
  option BackupMaintenanceRunState.t :=
  match expected_state with
  | BackupMaintenanceRunState.Created => Some BackupMaintenanceRunState.SnapshotCaptured
  | BackupMaintenanceRunState.SnapshotCaptured => Some BackupMaintenanceRunState.ExpiryPlanned
  | BackupMaintenanceRunState.ExpiryPlanned => Some BackupMaintenanceRunState.Completed
  | BackupMaintenanceRunState.Completed | BackupMaintenanceRunState.Stale => None
  end.

Definition is_claimable_scheduled_maintenance_state (state : BackupMaintenanceRunState.t) : bool :=
  match state with
  | BackupMaintenanceRunState.Created | BackupMaintenanceRunState.SnapshotCaptured
  | BackupMaintenanceRunState.ExpiryPlanned => true
  | _ => false
  end.

Record t := mk {
  claim_id : Z; owner_user_id : Z; backup_set_id : Z; schedule_id : Z; occurrence_id : Z;
  maintenance_run_id : Z; expected_state : BackupMaintenanceRunState.t;
  resulting_state : option BackupMaintenanceRunState.t; lease_worker_id : Z; lease_token : Z;
  lease_generation : Z; lease_acquired_at : Z; lease_expires_at : Z; completed_at : option Z;
  created_at : Z }.

Definition new (claim_id owner_user_id backup_set_id schedule_id occurrence_id
  maintenance_run_id : Z) (expected_state : BackupMaintenanceRunState.t)
  (lease_worker_id lease_token lease_generation lease_acquired_at lease_expires_at
   created_at : Z) : result t DomainError :=
  let? resulting_state := ok_or (scheduled_maintenance_resulting_state expected_state)
                            BackupScheduleInvalidMaintenanceClaim in
  if (lease_generation == 0) || (lease_expires_at <=? lease_acquired_at)
  then Err BackupScheduleInvalidMaintenanceClaim
  else Ok (mk claim_id owner_user_id backup_set_id schedule_id occurrence_id maintenance_run_id
             expected_state (Some resulting_state) lease_worker_id lease_token lease_generation
             lease_acquired_at lease_expires_at None created_at).

Definition rehydrate (claim_id owner_user_id backup_set_id schedule_id occurrence_id
  maintenance_run_id : Z) (expected_state : BackupMaintenanceRunState.t)
  (resulting_state : option BackupMaintenanceRunState.t)
  (lease_worker_id lease_token lease_generation lease_acquired_at lease_expires_at : Z)
  (completed_at : option Z) (created_at : Z) : result t DomainError :=
  let? expected_resulting := ok_or (scheduled_maintenance_resulting_state expected_state)
                               BackupScheduleInvalidMaintenanceClaim in
  if (lease_generation == 0) || (lease_expires_at <=? lease_acquired_at)
  then Err BackupScheduleInvalidMaintenanceClaim
  else
    let claim := mk claim_id owner_user_id backup_set_id schedule_id occurrence_id
                   maintenance_run_id expected_state resulting_state lease_worker_id lease_token
                   lease_generation lease_acquired_at lease_expires_at completed_at created_at in
    match completed_at, resulting_state with
    | None, None => Ok claim
    | Some _, Some actual =>
        if actual == expected_resulting then Ok claim
        else Err BackupScheduleInvalidMaintenanceClaim
    | _, _ => Err BackupScheduleInvalidMaintenanceClaim
    end.

(** [.expect("claim expected state must be claimable")]: [None] is the panic. *)
Definition expected_resulting_state (self : t) : option BackupMaintenanceRunState.t :=
  scheduled_maintenance_resulting_state (expected_state self).

Definition is_completed (self : t) : bool := is_some (completed_at self).

Definition is_takeover_eligible (self : t) (observed_at_utc : Z) : bool :=
  negb (is_completed self) && (lease_expires_at self <=? observed_at_utc).

Definition is_lease_active (self : t) (observed_at_utc : Z) : bool :=
  negb (is_completed self) && (observed_at_utc <? lease_expires_at self).

End Claim.

(** ** The scheduler's decision ([crates/metadata/src/scheduler.rs]) *)

Module Scheduler.

(** [ScheduleDescriptor]: a schedule and how far it is resolved. *)
Record t := mk { owner_user_id : Z; schedule : Schedule.t; resolution_reference : Z }.

(** The end of [ScheduleDescriptor::try_from_row]: the latest of the activation, the
    last handoff and the last skipped instant. *)
Definition resolution (schedule : Schedule.t)
  (last_handed_off_utc last_skipped_through_utc : option Z) : Z :=
  let reference := Schedule.effective_from schedule in
  let reference := match last_handed_off_utc with
                   | Some value => Z.max reference value | None => reference end in
  match last_skipped_through_utc with
  | Some value => Z.max reference value | None => reference end.

Inductive SchedulerAction : Type :=
| SkipExpired (owner_user_id : Z) (schedule : Schedule.t) (resolved_from_exclusive_utc : Z)
    (planned_through : Planned.t)
| Fire (owner_user_id : Z) (schedule : Schedule.t) (planned : Planned.t).

(** Of [BackupSchedulerError], what [action] returns. *)
Inductive BackupSchedulerError : Type := InvalidTarget.

Definition action (cal : Calendar) (self : t) (observed_at_utc : Z) :
  result (option SchedulerAction) BackupSchedulerError :=
  if observed_at_utc <=? resolution_reference self then Ok None
  else
    let revision := Schedule.current_revision (schedule self) in
    let? cutoff := ok_or (instant_checked_sub cal observed_at_utc
                            (Config.max_lateness_seconds (Revision.config revision) * NANOS))
                     InvalidTarget in
    let expired :=
      match last_occurrence_before cal revision cutoff with
      | Some planned =>
          if resolution_reference self <? Planned.scheduled_for_utc planned then Some planned
          else None
      | None => None
      end in
    match Config.misfire_mode (Revision.config revision) with
    | BackupScheduleMisfireMode.ReplayOneByOne =>
        match expired with
        | Some planned_through =>
            Ok (Some (SkipExpired (owner_user_id self) (schedule self)
                        (resolution_reference self) planned_through))
        | None =>
            Ok (match oldest_occurrence_in_window cal revision (resolution_reference self) cutoff
                        observed_at_utc with
                | Some planned => Some (Fire (owner_user_id self) (schedule self) planned)
                | None => None
                end)
        end
    | BackupScheduleMisfireMode.LatestOnly =>
        match latest_occurrence_in_window cal revision (resolution_reference self) cutoff
                observed_at_utc with
        | Some planned => Ok (Some (Fire (owner_user_id self) (schedule self) planned))
        | None =>
            Ok (match expired with
                | Some planned_through =>
                    Some (SkipExpired (owner_user_id self) (schedule self)
                            (resolution_reference self) planned_through)
                | None => None
                end)
        end
    end.

(** [SchedulerAction::key]. *)
Definition key (self : SchedulerAction) : Z * Z * Z :=
  match self with
  | SkipExpired _ schedule _ planned | Fire _ schedule planned =>
      (Planned.scheduled_for_utc planned, Schedule.id schedule,
       Schedule.current_revision_id schedule)
  end.

(** The derived order of the key tuples. *)
Definition key_lt (a b : Z * Z * Z) : bool :=
  (a.1.1 <? b.1.1) || ((a.1.1 == b.1.1)
    && ((a.1.2 <? b.1.2) || ((a.1.2 == b.1.2) && (a.2 <? b.2)))).

(** [discover_action] over the loaded descriptors; [selected] is its local. *)
Fixpoint discover_action (cal : Calendar) (observed_at_utc : Z)
  (selected : option SchedulerAction) (descriptors : list t) :
  result (option SchedulerAction) BackupSchedulerError :=
  match descriptors with
  | [] => Ok selected
  | descriptor :: rest =>
      let? found := action cal descriptor observed_at_utc in
      match found with
      | None => discover_action cal observed_at_utc selected rest
      | Some candidate =>
          let selected :=
            if is_none_or selected (fun current => key_lt (key candidate) (key current))
            then Some candidate else selected in
          discover_action cal observed_at_utc selected rest
      end
  end.

End Scheduler.
