(* ===== verification/ScheduleFacts.v ===== *)
(** * What the planner and the scheduler promise

    Theorems about [Schedule.v], relative to the laws of the calendar.  A
    candidate date's occurrence is [occurs]; the scans are characterised once,
    in both directions, and the four searches and the scheduler's decision
    follow. *)

From S2P Require Import Prelude Vocabulary Values Models ScheduleConfig Requests Backup Schedule.

(** ** The laws of the calendar *)

(** The instants a local minute denotes, and the one the planner takes. *)
Definition denotes (l : LocalResult) (i : Z) : Prop :=
  match l with Single v => i = v | Ambiguous a b => i = a \/ i = b | NoLocal => False end.
Definition earliest (l : LocalResult) : option Z :=
  match l with Single v => Some v | Ambiguous a b => Some (Z.min a b) | NoLocal => None end.

(** [next] steps by [dir] days, and where it has no next date no later date is
    representable in [time]. *)
Definition steps (cal : Calendar) (next : Z -> option Z) (dir : Z) : Prop :=
  forall d, next d = Some (d + dir) \/
            (next d = None /\ forall k, 0 < k -> time_date cal (d + dir * k) = None).

Class CalendarLaws (cal : Calendar) : Prop := {
  (** Converting a local time to an instant and back gives its date. *)
  law_inverse tz d m i : denotes (from_local_datetime cal tz d m) i -> local_date cal tz i = d;
  (** Local minutes are whole seconds: zone offsets are. *)
  law_whole tz d m i : denotes (from_local_datetime cal tz d m) i -> i mod NANOS = 0;
  (** When a zone's clock shows a date, every earlier minute it ever shows has
      been shown. *)
  law_past tz d m i r :
    earliest (from_local_datetime cal tz d m) = Some i -> d < local_date cal tz r -> i <= r;
  (** Local dates advance with the days elapsed, up to one day of offset change. *)
  law_days tz r s : r <= s -> local_date cal tz s <= local_date cal tz r + (s - r) / DAY_NANOS + 2;
  law_succ : steps cal (succ_opt cal) 1;
  law_pred : steps cal (pred_opt cal) (-1);
  law_unix s v : from_unix_timestamp cal s = Some v -> v = s * NANOS;
  (** [chrono]'s range contains [time]'s. *)
  law_chrono s v : from_unix_timestamp cal s = Some v -> chrono_from_timestamp cal v = Some v;
  law_sub a b c :
    instant_checked_sub cal a b = Some c -> c = a - b /\ chrono_from_timestamp cal c = Some c }.

(** The zone's clock is never set back across midnight: no minute of a later date
    is shown before. Searches towards the past start at the reference's own date
    and rely on it. *)
Definition no_midnight_fallback (cal : Calendar) (tz : rstring) : Prop :=
  forall d m i r, earliest (from_local_datetime cal tz d m) = Some i ->
    local_date cal tz r < d -> r <= i.

(** [r] is an instant both libraries represent. *)
Definition representable (cal : Calendar) (r : Z) : Prop := chrono_from_timestamp cal r = Some r.

Section Facts.
Context (cal : Calendar) `{HL : !CalendarLaws cal}.

(** ** Wall-clock resolution *)

Lemma resolve_step n tz d m :
  resolve_from cal (S n) tz d m =
  match earliest (from_local_datetime cal tz d m) with
  | Some i => Some (m, i)
  | None => resolve_from cal n tz d (m + 1)
  end.
Proof.
  cbn [resolve_from]. destruct (from_local_datetime cal tz d m) as [v|a b|]; cbn; try done.
  do 2 f_equal. destruct (Z.leb_spec a b); lia.
Qed.

Lemma earliest_None l : earliest l = None <-> l = NoLocal.
Proof. by destruct l. Qed.

Lemma earliest_denotes l i : earliest l = Some i -> denotes l i.
Proof. destruct l; cbn; intros [= <-]; [done|]. lia. Qed.

Lemma resolve_from_Some n tz d m m' i :
  resolve_from cal n tz d m = Some (m', i) <->
  m <= m' < m + Z.of_nat n /\ earliest (from_local_datetime cal tz d m') = Some i /\
  (forall k, m <= k < m' -> from_local_datetime cal tz d k = NoLocal).
Proof.
  revert m. induction n as [|n IH]; intros m; [split; [done|lia]|].
  rewrite resolve_step, Nat2Z.inj_succ.
  destruct (earliest (from_local_datetime cal tz d m)) as [v|] eqn:E.
  - split.
    + intros [= <- <-]. split_and!; try done; lia.
    + intros (H1 & H2 & H3). destruct (decide (m' = m)) as [->|]; [congruence|].
      rewrite (H3 m) in E by lia. done.
  - apply earliest_None in E. rewrite IH.
    split; intros (H1 & H2 & H3); split_and!; try done; try lia.
    + intros k Hk. destruct (decide (k = m)) as [->|]; [done|]. apply H3. lia.
    + destruct (decide (m' = m)) as [->|]; [by rewrite E in H2|]. lia.
    + intros k Hk. apply H3. lia.
Qed.

Lemma resolve_from_None n tz d m :
  resolve_from cal n tz d m = None <->
  forall k, m <= k < m + Z.of_nat n -> from_local_datetime cal tz d k = NoLocal.
Proof.
  revert m. induction n as [|n IH]; intros m; [split; [lia|done]|].
  rewrite resolve_step, Nat2Z.inj_succ.
  destruct (earliest (from_local_datetime cal tz d m)) as [v|] eqn:E.
  - split; [done|]. intros H. rewrite H in E by lia. done.
  - apply earliest_None in E. rewrite IH. split; intros H k Hk; [|apply H; lia].
    destruct (decide (k = m)) as [->|]; [done|]. apply H. lia.
Qed.

(** ** Occurrences *)

Section OneRevision.
Context (rev : Revision.t).
Let tz := Revision.timezone rev.

(** The revision has occurrence [o] on date [d]. *)
Definition occurs (d : Z) (o : Planned.t) : Prop :=
  planned_occurrence_on_chrono_date cal rev d = Some o.

Lemma occurs_inv d o :
  occurs d o ->
  exists m, earliest (from_local_datetime cal tz d m) = Some (Planned.scheduled_for_utc o) /\
    local_date cal tz (Planned.scheduled_for_utc o) = d /\
    (exists v, time_date cal d = Some v) /\
    representable cal (Planned.scheduled_for_utc o).
Proof.
  unfold occurs, planned_occurrence_on_chrono_date, chrono_date_to_time_date. intros H.
  destruct (negb _); [done|].
  destruct (resolve_local_minute _ _ _ _) as [[m i]|] eqn:Er; [|done].
  destruct (time_date cal d) as [v|] eqn:Ed; [|done]. cbn [fst snd] in H.
  destruct (expect _) as [w|]; [|done].
  destruct (chrono_utc_to_timestamp cal i) as [ts|] eqn:Et; [|done]. simplify_eq. cbn.
  unfold resolve_local_minute in Er. apply resolve_from_Some in Er as (_ & Hi & _).
  pose proof (earliest_denotes _ _ Hi) as Hd.
  unfold chrono_utc_to_timestamp in Et.
  destruct (from_unix_timestamp cal (i / NANOS)) as [u|] eqn:Eu; [|done]. simplify_eq.
  pose proof (law_unix _ _ Eu) as Hu. pose proof (law_chrono _ _ Eu) as Hc.
  pose proof (law_whole _ _ _ _ Hd) as Hw.
  assert (u = i) as -> by (pose proof (Z.div_mod i NANOS); unfold NANOS in *; lia).
  assert (i / NANOS * NANOS + i mod NANOS = i) as ->
    by (pose proof (Z.div_mod i NANOS); unfold NANOS in *; lia).
  exists m. split_and!; [done|by eapply law_inverse|by exists v|done].
Qed.

Lemma occurs_past d o r :
  occurs d o -> d < local_date cal tz r -> Planned.scheduled_for_utc o < r.
Proof.
  intros (m & He & Hd & _)%occurs_inv Hlt.
  pose proof (law_past _ _ _ _ _ He Hlt).
  assert (Planned.scheduled_for_utc o <> r) by (intros <-; lia). lia.
Qed.

Lemma occurs_future d o r :
  no_midnight_fallback cal tz ->
  occurs d o -> local_date cal tz r < d -> r < Planned.scheduled_for_utc o.
Proof.
  intros Hf (m & He & Hd & _)%occurs_inv Hlt.
  pose proof (Hf _ _ _ _ He Hlt).
  assert (Planned.scheduled_for_utc o <> r) by (intros <-; lia). lia.
Qed.

(** Later dates have later occurrences. *)
Lemma occurs_mono d d' o o' :
  occurs d o -> occurs d' o' -> d < d' ->
  Planned.scheduled_for_utc o < Planned.scheduled_for_utc o'.
Proof.
  intros Ho Ho' Hlt. apply (occurs_past d); [done|].
  apply occurs_inv in Ho' as (m & _ & Hd & _). by rewrite Hd.
Qed.

Lemma occurs_mono_le d d' o o' :
  occurs d o -> occurs d' o' -> d <= d' ->
  Planned.scheduled_for_utc o <= Planned.scheduled_for_utc o'.
Proof.
  intros Ho Ho' Hle. destruct (decide (d = d')) as [->|].
  - unfold occurs in *. simplify_eq. lia.
  - pose proof (occurs_mono d d' o o' Ho Ho'). lia.
Qed.

(** ** Scans *)

Section Scan.
Context (next : Z -> option Z) (dir : Z) (Hnext : steps cal next dir) (accept : Planned.t -> bool).

Lemma scan_Some n d o :
  scan cal n next rev accept d = Some o ->
  exists k, 0 <= k < Z.of_nat n /\ occurs (d + dir * k) o /\ accept o = true /\
    (forall j o', 0 <= j < k -> occurs (d + dir * j) o' -> accept o' = false).
Proof.
  revert d. induction n as [|n IH]; intros d H; [done|]. cbn [scan] in H.
  rewrite Nat2Z.inj_succ.
  destruct (planned_occurrence_on_chrono_date cal rev d) as [c|] eqn:Ec.
  1: destruct (accept c) eqn:Ea.
  1: { simplify_eq. exists 0. split_and!; try done; [lia|..]; try lia.
       replace (d + dir * 0) with d by lia. done. }
  all: destruct (next d) as [d'|] eqn:En; [|done];
    (destruct (Hnext d) as [E|[E _]]; [|congruence]); rewrite En in E; simplify_eq;
    apply IH in H as (k & Hk & Ho & Hacc & Hmin); exists (k + 1);
    replace (d + dir * (k + 1)) with (d + dir + dir * k) by lia; split_and!; try done; try lia;
    intros j o' Hj Ho'; destruct (decide (j = 0)) as [->|];
    [replace (d + dir * 0) with d in Ho' by lia; unfold occurs in Ho'; congruence
    |apply (Hmin (j - 1)); [lia|]; by replace (d + dir + dir * (j - 1)) with (d + dir * j) by lia].
Qed.

Lemma scan_None n d :
  scan cal n next rev accept d = None ->
  forall k o, 0 <= k < Z.of_nat n -> occurs (d + dir * k) o -> accept o = false.
Proof.
  revert d. induction n as [|n IH]; intros d H k o Hk Ho; [lia|]. cbn [scan] in H.
  rewrite Nat2Z.inj_succ in Hk.
  destruct (decide (k = 0)) as [->|Hk0].
  - replace (d + dir * 0) with d in Ho by lia. unfold occurs in Ho. rewrite Ho in H.
    by destruct (accept o).
  - assert (match next d with Some d' => scan cal n next rev accept d' | None => None end = None)
      as H' by (destruct (planned_occurrence_on_chrono_date cal rev d); [case_match|]; done).
    destruct (Hnext d) as [E|[_ E]].
    + rewrite E in H'. apply (IH _ H' (k - 1)); [lia|].
      by replace (d + dir + dir * (k - 1)) with (d + dir * k) by lia.
    + apply occurs_inv in Ho as (m & _ & _ & [v Hv] & _). by rewrite E in Hv by lia.
Qed.

End Scan.

(** The loop of [next_occurrence_after] is the forward scan. *)
Lemma next_scan_is_scan n r d :
  next_scan cal n rev r d =
  scan cal n (succ_opt cal) rev (fun c => r <? Planned.scheduled_for_utc c) d.
Proof.
  revert d. induction n as [|n IH]; intros d; [done|]. cbn [next_scan scan].
  destruct (planned_occurrence_on_chrono_date cal rev d) as [c|] eqn:Ec.
  - apply occurs_inv in Ec as (m & _ & _ & _ & Hr). unfold timestamp_to_chrono_utc.
    rewrite Hr. case_match; [done|]. case_match; [apply IH|done].
  - case_match; [apply IH|done].
Qed.

End OneRevision.

(** ** The four searches *)

Section Searches.
Context (rev : Revision.t).
Let tz := Revision.timezone rev.
Let at_ := Planned.scheduled_for_utc.

Lemma SCAN_DAYS_value : Z.of_nat SCAN_DAYS = 34.
Proof. reflexivity. Qed.

Definition earliest_after (r : Z) (o : Planned.t) : Prop :=
  (exists d, occurs rev d o) /\ r < at_ o /\
  forall d' o', occurs rev d' o' -> r < at_ o' -> at_ o <= at_ o'.

Lemma next_search r :
  representable cal r ->
  (forall o, next_occurrence_after cal rev r = Some o -> earliest_after r o) /\
  (next_occurrence_after cal rev r = None ->
   forall d' o', occurs rev d' o' -> r < at_ o' -> local_date cal tz r + 34 <= d').
Proof.
  intros Hr.
  assert (next_occurrence_after cal rev r =
          scan cal SCAN_DAYS (succ_opt cal) rev (fun c => r <? Planned.scheduled_for_utc c)
            (local_date cal tz r)) as ->
    by (unfold next_occurrence_after, timestamp_to_chrono_utc; rewrite Hr; apply next_scan_is_scan).
  assert (forall d' o', occurs rev d' o' -> r < at_ o' -> local_date cal tz r <= d') as Hge.
  { intros d' o' Ho' Hlt. destruct (decide (d' < local_date cal tz r)) as [Hd|]; [|lia].
    pose proof (occurs_past rev d' o' r Ho' Hd). unfold at_ in *. lia. }
  split.
  - intros o H. apply (scan_Some rev _ 1 law_succ) in H as (k & Hk & Ho & Hacc & Hmin).
    rust_bool. split_and!; [by eexists|done|]. intros d' o' Ho' Hlt.
    pose proof (Hge d' o' Ho' Hlt).
    destruct (decide (d' - local_date cal tz r < k)) as [Hj|Hj].
    + exfalso. assert (occurs rev (local_date cal tz r + 1 * (d' - local_date cal tz r)) o') as Ho2
        by (by replace (local_date cal tz r + 1 * (d' - local_date cal tz r)) with d' by lia).
      apply Hmin in Ho2; [|lia]. apply Z.ltb_ge in Ho2. unfold at_ in *. lia.
    + eapply occurs_mono_le; [exact Ho|exact Ho'|fold tz; lia].
  - intros H d' o' Ho' Hlt. pose proof (Hge d' o' Ho' Hlt).
    destruct (decide (d' < local_date cal tz r + 34)) as [Hd|]; [|lia].
    pose proof (scan_None rev _ 1 law_succ _ _ _ H (d' - local_date cal tz r) o') as Hn.
    rewrite SCAN_DAYS_value in Hn. fold tz in Hn.
    replace (local_date cal tz r + 1 * (d' - local_date cal tz r)) with d' in Hn by lia.
    specialize (Hn ltac:(lia) Ho'). apply Z.ltb_ge in Hn. unfold at_ in *. lia.
Qed.

(** [o] is the newest occurrence before [r]. *)
Definition newest_before (r : Z) (o : Planned.t) : Prop :=
  (exists d, occurs rev d o) /\ at_ o < r /\
  forall d' o', occurs rev d' o' -> at_ o' < r -> at_ o' <= at_ o.

Lemma last_search r :
  representable cal r -> no_midnight_fallback cal tz ->
  (forall o, last_occurrence_before cal rev r = Some o -> newest_before r o) /\
  (last_occurrence_before cal rev r = None ->
   forall d' o', occurs rev d' o' -> at_ o' < r -> d' <= local_date cal tz r - 34).
Proof.
  intros Hr Hf.
  assert (last_occurrence_before cal rev r =
          scan cal SCAN_DAYS (pred_opt cal) rev (fun c => Planned.scheduled_for_utc c <? r)
            (local_date cal tz r)) as ->
    by (unfold last_occurrence_before, timestamp_to_chrono_utc; by rewrite Hr).
  assert (forall d' o', occurs rev d' o' -> at_ o' < r -> d' <= local_date cal tz r) as Hle.
  { intros d' o' Ho' Hlt. destruct (decide (local_date cal tz r < d')) as [Hd|]; [|lia].
    pose proof (occurs_future rev d' o' r Hf Ho' Hd). unfold at_ in *. lia. }
  split.
  - intros o H. apply (scan_Some rev _ (-1) law_pred) in H as (k & Hk & Ho & Hacc & Hmin).
    rust_bool. split_and!; [by eexists|done|]. intros d' o' Ho' Hlt.
    pose proof (Hle d' o' Ho' Hlt).
    destruct (decide (local_date cal tz r - d' < k)) as [Hj|Hj].
    + exfalso. assert (occurs rev (local_date cal tz r + -1 * (local_date cal tz r - d')) o') as Ho2
        by (by replace (local_date cal tz r + -1 * (local_date cal tz r - d')) with d' by lia).
      apply Hmin in Ho2; [|lia]. apply Z.ltb_ge in Ho2. unfold at_ in *. lia.
    + eapply occurs_mono_le; [exact Ho'|exact Ho|fold tz; lia].
  - intros H d' o' Ho' Hlt. pose proof (Hle d' o' Ho' Hlt).
    destruct (decide (local_date cal tz r - 34 < d')) as [Hd|]; [|lia].
    pose proof (scan_None rev _ (-1) law_pred _ _ _ H (local_date cal tz r - d') o') as Hn.
    rewrite SCAN_DAYS_value in Hn. fold tz in Hn.
    replace (local_date cal tz r + -1 * (local_date cal tz r - d')) with d' in Hn by lia.
    specialize (Hn ltac:(lia) Ho'). apply Z.ltb_ge in Hn. unfold at_ in *. lia.
Qed.

(** *** Windows *)

Definition MAX_WINDOW : Z := MAX_BACKUP_SCHEDULE_MAX_LATENESS_SECONDS * NANOS.

(** [o] is an occurrence after [after] and within the inclusive window. *)
Definition due (after nb th : Z) (o : Planned.t) : Prop :=
  (exists d, occurs rev d o) /\ after < at_ o /\ nb <= at_ o <= th.

Lemma in_window_true after nb th o :
  in_window after nb th o = true <-> after < at_ o /\ nb <= at_ o <= th.
Proof. unfold in_window, at_. rewrite !andb_true_iff, Z.ltb_lt, !Z.leb_le. lia. Qed.

Lemma window_guard nb th :
  nb < th -> th - nb <= MAX_WINDOW ->
  (th <? nb) || negb (bounded_window nb th) = false.
Proof.
  intros H1 H2. unfold bounded_window. apply orb_false_iff. split; [apply Z.ltb_ge; lia|].
  apply negb_false_iff, andb_true_iff. split; [apply Z.ltb_lt; lia|]. apply Z.leb_le.
  unfold MAX_WINDOW, NANOS, MAX_BACKUP_SCHEDULE_MAX_LATENESS_SECONDS in *.
  rewrite Z.quot_div_nonneg by lia.
  etransitivity; [apply (Z.div_le_mono _ (2678400 * 1000000000)); lia|]. by vm_compute.
Qed.

(** Within the window at most 34 local dates are touched. *)
Lemma window_dates r s :
  r <= s -> s - r <= MAX_WINDOW -> local_date cal tz s < local_date cal tz r + 34.
Proof.
  intros H1 H2. pose proof (law_days tz r s H1).
  assert ((s - r) / DAY_NANOS <= 31); [|lia].
  unfold MAX_WINDOW, DAY_NANOS, NANOS, MAX_BACKUP_SCHEDULE_MAX_LATENESS_SECONDS in *.
  etransitivity; [apply (Z.div_le_mono _ (2678400 * 1000000000)); lia|]. by vm_compute.
Qed.

Lemma occurs_date d o : occurs rev d o -> local_date cal tz (at_ o) = d.
Proof. by intros (m & _ & H & _)%occurs_inv. Qed.

Lemma oldest_search after nb th :
  representable cal nb -> nb < th -> th - nb <= MAX_WINDOW ->
  match oldest_occurrence_in_window cal rev after nb th with
  | Some o => due after nb th o /\ forall o', due after nb th o' -> at_ o <= at_ o'
  | None => forall o', ~ due after nb th o'
  end.
Proof.
  intros Hr Hlt Hw. unfold oldest_occurrence_in_window, timestamp_to_chrono_utc.
  rewrite window_guard, Hr by done. fold tz. set (D := local_date cal tz nb).
  assert (forall d' o', occurs rev d' o' -> nb <= at_ o' <= th -> 0 <= d' - D < 34) as Hrange.
  { intros d' o' Ho' Hin. split.
    - destruct (decide (d' < D)) as [Hd|]; [|lia].
      pose proof (occurs_past rev d' o' nb Ho' Hd). unfold at_ in *. lia.
    - rewrite <- (occurs_date d' o' Ho').
      pose proof (window_dates nb (at_ o')). unfold D. lia. }
  destruct (scan cal SCAN_DAYS (succ_opt cal) rev _ D) as [o|] eqn:E.
  - apply (scan_Some rev _ 1 law_succ) in E as (k & Hk & Ho & Hacc & Hmin).
    apply in_window_true in Hacc as Hin. split; [split; [by eexists|done]|].
    intros o' ([d' Ho'] & Ha & Hb). pose proof (Hrange d' o' Ho' Hb).
    destruct (decide (d' - D < k)) as [Hj|Hj].
    + exfalso. assert (in_window after nb th o' = false) as Hx.
      { apply (Hmin (d' - D)); [lia|]. by replace (D + 1 * (d' - D)) with d' by lia. }
      by rewrite (proj2 (in_window_true after nb th o')) in Hx.
    + eapply occurs_mono_le; [exact Ho|exact Ho'|lia].
  - intros o' ([d' Ho'] & Ha & Hb). pose proof (Hrange d' o' Ho' Hb).
    assert (in_window after nb th o' = false) as Hx.
    { apply (scan_None rev _ 1 law_succ _ _ _ E (d' - D)); [rewrite SCAN_DAYS_value; lia|].
      by replace (D + 1 * (d' - D)) with d' by lia. }
    by rewrite (proj2 (in_window_true after nb th o')) in Hx.
Qed.

Lemma latest_search after nb th :
  representable cal th -> no_midnight_fallback cal tz -> nb < th -> th - nb <= MAX_WINDOW ->
  match latest_occurrence_in_window cal rev after nb th with
  | Some o => due after nb th o /\ forall o', due after nb th o' -> at_ o' <= at_ o
  | None => forall o', ~ due after nb th o'
  end.
Proof.
  intros Hr Hf Hlt Hw. unfold latest_occurrence_in_window, timestamp_to_chrono_utc.
  rewrite window_guard, Hr by done. fold tz. set (D := local_date cal tz th).
  assert (forall d' o', occurs rev d' o' -> nb <= at_ o' <= th -> 0 <= D - d' < 34) as Hrange.
  { intros d' o' Ho' Hin. split.
    - destruct (decide (D < d')) as [Hd|]; [|lia].
      pose proof (occurs_future rev d' o' th Hf Ho' Hd). unfold at_ in *. lia.
    - rewrite <- (occurs_date d' o' Ho').
      pose proof (window_dates (at_ o') th). unfold D. lia. }
  destruct (scan cal SCAN_DAYS (pred_opt cal) rev _ D) as [o|] eqn:E.
  - apply (scan_Some rev _ (-1) law_pred) in E as (k & Hk & Ho & Hacc & Hmin).
    apply in_window_true in Hacc as Hin. split; [split; [by eexists|done]|].
    intros o' ([d' Ho'] & Ha & Hb). pose proof (Hrange d' o' Ho' Hb).
    destruct (decide (D - d' < k)) as [Hj|Hj].
    + exfalso. assert (in_window after nb th o' = false) as Hx.
      { apply (Hmin (D - d')); [lia|]. by replace (D + -1 * (D - d')) with d' by lia. }
      by rewrite (proj2 (in_window_true after nb th o')) in Hx.
    + eapply occurs_mono_le; [exact Ho'|exact Ho|lia].
  - intros o' ([d' Ho'] & Ha & Hb). pose proof (Hrange d' o' Ho' Hb).
    assert (in_window after nb th o' = false) as Hx.
    { apply (scan_None rev _ (-1) law_pred _ _ _ E (D - d')); [rewrite SCAN_DAYS_value; lia|].
      by replace (D + -1 * (D - d')) with d' by lia. }
    by rewrite (proj2 (in_window_true after nb th o')) in Hx.
Qed.

End Searches.

(** ** Properties of the planner *)

(** A configured wall-clock minute resolves to the first minute of the date,
    from the configured one on, that exists in the zone, and in an overlap to the
    earlier of its two instants; there is no result exactly when no minute from the
    configured one to midnight exists. *)
Theorem resolve_local_minute_exact tz d configured :
  LocalTime.minute_ok configured ->
  (forall m i, resolve_local_minute cal tz d configured = Some (m, i) <->
     configured <= m < MINUTES_PER_DAY /\
     earliest (from_local_datetime cal tz d m) = Some i /\
     (forall k, configured <= k < m -> from_local_datetime cal tz d k = NoLocal)) /\
  (resolve_local_minute cal tz d configured = None <->
     forall k, configured <= k < MINUTES_PER_DAY -> from_local_datetime cal tz d k = NoLocal).
Proof.
  unfold LocalTime.minute_ok, resolve_local_minute. intros Hc.
  assert (configured + Z.of_nat (Z.to_nat (MINUTES_PER_DAY - configured)) = MINUTES_PER_DAY)
    as E by lia.
  split; intros; [rewrite resolve_from_Some|rewrite resolve_from_None]; by rewrite E.
Qed.

(** the next occurrence is the earliest one strictly after the reference. Of all
    dates' occurrences, none lies between the reference and the result; and when
    there is no result, no occurrence after the reference falls on any of the 34
    local dates from the reference's own on. *)
Theorem next_occurrence_earliest rev r :
  representable cal r ->
  (forall o, next_occurrence_after cal rev r = Some o -> earliest_after rev r o) /\
  (next_occurrence_after cal rev r = None ->
   forall d o, occurs rev d o -> r < Planned.scheduled_for_utc o ->
   local_date cal (Revision.timezone rev) r + 34 <= d).
Proof. apply next_search. Qed.

(** The window searches are exact. In a window of positive width up to the
    largest lateness bound, the oldest (newest) search returns the least (greatest)
    instant among all occurrences that are unresolved and inside the inclusive
    window, and nothing exactly when there is none: 34 dates are enough. *)
Theorem window_searches_exact rev after nb th :
  representable cal nb -> representable cal th ->
  no_midnight_fallback cal (Revision.timezone rev) -> nb < th -> th - nb <= MAX_WINDOW ->
  match oldest_occurrence_in_window cal rev after nb th with
  | Some o => due rev after nb th o /\ forall o', due rev after nb th o' ->
                Planned.scheduled_for_utc o <= Planned.scheduled_for_utc o'
  | None => forall o', ~ due rev after nb th o'
  end /\
  match latest_occurrence_in_window cal rev after nb th with
  | Some o => due rev after nb th o /\ forall o', due rev after nb th o' ->
                Planned.scheduled_for_utc o' <= Planned.scheduled_for_utc o
  | None => forall o', ~ due rev after nb th o'
  end.
Proof. intros. split; [by apply oldest_search|by apply latest_search]. Qed.

(** ** The scheduler's decision *)

Section Decision.
Import Scheduler.
Context (self : Scheduler.t) (obs : Z).
Let rev := Schedule.current_revision (schedule self).
Let mode := Config.misfire_mode (Revision.config rev).
Let ref_ := resolution_reference self.
Let cutoff := obs - Config.max_lateness_seconds (Revision.config rev) * NANOS.

(** What each decision means for the occurrences of the schedule. *)
Definition decision_ok (a : option SchedulerAction) : Prop :=
  match a with
  | Some (Fire _ sched p) =>
      sched = schedule self /\ due rev ref_ cutoff obs p /\
      (mode = BackupScheduleMisfireMode.ReplayOneByOne -> forall o, due rev ref_ cutoff obs o ->
         Planned.scheduled_for_utc p <= Planned.scheduled_for_utc o) /\
      (mode = BackupScheduleMisfireMode.LatestOnly -> forall o, due rev ref_ cutoff obs o ->
         Planned.scheduled_for_utc o <= Planned.scheduled_for_utc p)
  | Some (SkipExpired _ sched from p) =>
      sched = schedule self /\ from = ref_ /\ ref_ < Planned.scheduled_for_utc p /\
      newest_before rev cutoff p /\
      (mode = BackupScheduleMisfireMode.LatestOnly -> forall o, ~ due rev ref_ cutoff obs o)
  | None =>
      obs <= ref_ \/
      ((forall o, ~ due rev ref_ cutoff obs o) /\
       forall d o, occurs rev d o -> ref_ < Planned.scheduled_for_utc o < cutoff ->
         d <= local_date cal (Revision.timezone rev) cutoff - 34)
  end.

Lemma expired_spec :
  representable cal cutoff -> no_midnight_fallback cal (Revision.timezone rev) ->
  match (match last_occurrence_before cal rev cutoff with
         | Some planned =>
             if ref_ <? Planned.scheduled_for_utc planned then Some planned else None
         | None => None
         end) with
  | Some p => newest_before rev cutoff p /\ ref_ < Planned.scheduled_for_utc p
  | None => forall d o, occurs rev d o -> ref_ < Planned.scheduled_for_utc o < cutoff ->
              d <= local_date cal (Revision.timezone rev) cutoff - 34
  end.
Proof.
  intros Hc Hf. destruct (last_search rev cutoff Hc Hf) as [Hs Hn].
  destruct (last_occurrence_before cal rev cutoff) as [p|] eqn:E.
  - destruct (Hs p eq_refl) as (Hex & Hlt & Hmax).
    destruct (ref_ <? Planned.scheduled_for_utc p) eqn:El; rust_bool; [done|].
    intros d o Ho Hin. specialize (Hmax d o Ho). lia.
  - intros d o Ho Hin. apply (Hn eq_refl d o Ho). lia.
Qed.

End Decision.


End Facts.

(** ** Choosing among schedules *)

Section Discovery.
Import Scheduler.
Context (cal : Calendar) (obs : Z).

Lemma key_lt_trans a b c : key_lt a b = false -> key_lt b c = false -> key_lt a c = false.
Proof.
  destruct a as [[a1 a2] a3], b as [[b1 b2] b3], c as [[c1 c2] c3]. unfold key_lt. cbn.
  rewrite !orb_false_iff, !andb_false_iff, !orb_false_iff, !andb_false_iff, !Z.ltb_ge,
    !bool_decide_eq_false. lia.
Qed.

Lemma key_lt_asym a b : key_lt a b = true -> key_lt b a = false.
Proof.
  destruct a as [[a1 a2] a3], b as [[b1 b2] b3]. unfold key_lt. cbn.
  rewrite !orb_true_iff, !andb_true_iff, !orb_true_iff, !andb_true_iff, !orb_false_iff,
    !andb_false_iff, !orb_false_iff, !andb_false_iff, !Z.ltb_ge, !Z.ltb_lt, !bool_decide_eq_true,
    !bool_decide_eq_false. lia.
Qed.

Lemma key_lt_irrefl a : key_lt a a = false.
Proof.
  destruct (key_lt a a) eqn:E; [|done]. pose proof (key_lt_asym _ _ E). congruence.
Qed.

Lemma discover_inv selected ds a :
  discover_action cal obs selected ds = Ok a ->
  (match selected with Some s => match a with Some x => key_lt (key s) (key x) = false
                                            | None => False end
                     | None => True end) /\
  (match a with
   | Some x => selected = Some x \/ exists d, d ∈ ds /\ action cal d obs = Ok (Some x)
   | None => True end) /\
  forall d, d ∈ ds -> match action cal d obs with
    | Ok (Some y) => match a with Some x => key_lt (key y) (key x) = false | None => False end
    | Ok None => True
    | Err _ => False
    end.
Proof.
  revert selected. induction ds as [|d ds IH]; intros selected H; cbn [discover_action] in H.
  { simplify_eq. split_and!; [|by destruct a; auto|set_solver].
    destruct a; [apply key_lt_irrefl|done]. }
  destruct (action cal d obs) as [[y|]|e] eqn:Ea; [|apply IH in H as (H1 & H2 & H3)|done].
  2: { split_and!; [done| |].
       - destruct a; [|done]. destruct H2 as [|(d' & ? & ?)]; [by left|right; set_solver].
       - intros d' [->|?]%elem_of_cons; [by rewrite Ea|by apply H3]. }
  apply IH in H as (H1 & H2 & H3).
  destruct selected as [s|]; cbn [is_none_or] in *;
    [destruct (key_lt (key y) (key s)) eqn:El|]; destruct a as [x|]; try done;
    (split_and!; [| |intros d' [->|?]%elem_of_cons; [rewrite Ea|by apply H3]]);
    try done; try (destruct H2 as [[= ->]|(d' & ? & ?)]; [right; set_solver|right; set_solver]).
  - eapply key_lt_trans; [|exact H1]. by apply key_lt_asym.
  - destruct H2 as [[= ->]|(d' & ? & ?)]; [by left|right; set_solver].
  - eapply key_lt_trans; [exact El|exact H1].
Qed.

(** One tick serves the most urgent schedule. The chosen action is one of the
    loaded schedules' decisions and no other decision has a smaller key (instant,
    then schedule, then revision); nothing is chosen only when no schedule has
    anything to do. *)
Theorem discovery_most_urgent ds a :
  discover_action cal obs None ds = Ok a ->
  match a with
  | Some x => (exists d, d ∈ ds /\ action cal d obs = Ok (Some x)) /\
      forall d y, d ∈ ds -> action cal d obs = Ok (Some y) -> key_lt (key y) (key x) = false
  | None => forall d, d ∈ ds -> action cal d obs = Ok None
  end.
Proof.
  intros (_ & H2 & H3)%discover_inv. destruct a as [x|].
  - destruct H2 as [|H2]; [done|]. split; [done|]. intros d y Hd Hy. specialize (H3 d Hd).
    by rewrite Hy in H3.
  - intros d Hd. specialize (H3 d Hd). by destruct (action cal d obs) as [[]|].
Qed.

End Discovery.

(** ** Maintenance claims *)

Module ClaimFacts.
Import Claim.

(** A claim authorises one forward step and its lease is exclusive. The state a
    claim leads to is the one non-stale transition the maintenance machine allows;
    exactly the non-terminal states are claimable; and at every instant an
    incomplete claim is either held or open to takeover, never both, a completed one
    neither, and an expired lease stays open to takeover. *)
Theorem claim_lease_exclusive c now later s s' :
  (scheduled_maintenance_resulting_state s = Some s' <->
   MaintenanceRun.can_transition_to s s' = true /\ s' <> BackupMaintenanceRunState.Stale) /\
  is_claimable_scheduled_maintenance_state s = negb (MaintenanceRun.is_terminal s) /\
  xorb (is_lease_active c now) (is_takeover_eligible c now) = negb (is_completed c) /\
  (is_takeover_eligible c now = true -> now <= later -> is_takeover_eligible c later = true).
Proof.
  split_and!.
  - destruct s, s'; cbn; naive_solver.
  - by destruct s.
  - unfold is_lease_active, is_takeover_eligible. destruct (is_completed c); cbn; [done|].
    destruct (Z.ltb_spec now (lease_expires_at c)), (Z.leb_spec (lease_expires_at c) now);
      cbn; try done; lia.
  - unfold is_takeover_eligible. rewrite !andb_true_iff, !Z.leb_le. intros [? ?] ?. split; [done|lia].
Qed.

(** A freshly constructed claim cannot be reloaded. [new] records the resulting
    state at once while leaving the claim incomplete, a combination [rehydrate]
    refuses: every claim [new] returns is rejected when its own fields are read
    back. *)
Theorem claim_new_not_reloadable id owner set sched occ run st worker token gen acq exp created c :
  new id owner set sched occ run st worker token gen acq exp created = Ok c ->
  rehydrate (claim_id c) (owner_user_id c) (backup_set_id c) (schedule_id c) (occurrence_id c)
    (maintenance_run_id c) (expected_state c) (resulting_state c) (lease_worker_id c)
    (lease_token c) (lease_generation c) (lease_acquired_at c) (lease_expires_at c)
    (completed_at c) (created_at c) = Err BackupScheduleInvalidMaintenanceClaim.
Proof.
  unfold new, rehydrate.
  destruct (scheduled_maintenance_resulting_state st) as [s'|] eqn:E; cbn [ok_or]; [|done].
  destruct (_ || _) eqn:Eg; [done|]. intros [= <-]. cbn. by rewrite E, Eg.
Qed.

Lemma claim_new_not_reloadable_witness :
  rehydrate 1 2 3 4 5 6 BackupMaintenanceRunState.Created
    (Some BackupMaintenanceRunState.SnapshotCaptured) 7 8 1 100 220 None 100 =
  Err BackupScheduleInvalidMaintenanceClaim.
Proof.
  apply (claim_new_not_reloadable 1 2 3 4 5 6 BackupMaintenanceRunState.Created 7 8 1 100 220 100
    (mk 1 2 3 4 5 6 BackupMaintenanceRunState.Created
       (Some BackupMaintenanceRunState.SnapshotCaptured) 7 8 1 100 220 None 100)).
  vm_compute. reflexivity.
Defined.

End ClaimFacts.

(** ** The proleptic UTC calendar satisfies the laws *)

Module Utc.

Definition calendar : Calendar := {|
  from_local_datetime _ d m :=
    if (0 <=? m) && (m <? MINUTES_PER_DAY) then Single (d * DAY_NANOS + m * 60 * NANOS)
    else NoLocal;
  local_date _ i := i / DAY_NANOS;
  number_from_monday d := (d + 3) mod 7 + 1;
  succ_opt d := Some (d + 1);
  pred_opt d := Some (d - 1);
  chrono_from_timestamp v := Some v;
  from_unix_timestamp s := Some (s * NANOS);
  time_date d := Some d;
  chrono_date d := Some d;
  instant_checked_sub a b := Some (a - b) |}.

Lemma local_instant tz d m i :
  denotes (from_local_datetime calendar tz d m) i ->
  0 <= m < 1440 /\ i = d * DAY_NANOS + m * 60 * NANOS.
Proof.
  cbn [from_local_datetime calendar]. unfold MINUTES_PER_DAY.
  destruct (_ && _) eqn:E; [|done]. rust_bool. intros ->. lia.
Qed.

Lemma instant_date d m : 0 <= m < 1440 -> (d * DAY_NANOS + m * 60 * NANOS) / DAY_NANOS = d.
Proof.
  intros Hm. symmetry. apply (Z.div_unique _ _ _ (m * 60 * NANOS)); unfold DAY_NANOS, NANOS; lia.
Qed.

#[global] Instance laws : CalendarLaws calendar.
Proof.
  split; try done.
  - intros tz d m i [Hm ->]%local_instant. by apply instant_date.
  - intros tz d m i [Hm ->]%local_instant. unfold DAY_NANOS, NANOS.
    replace (_ + _) with ((d * 86400 + m * 60) * 1000000000) by lia. apply Z.mod_mul. lia.
  - intros tz d m i r [Hm ->]%earliest_denotes%local_instant. cbn. intros Hlt.
    pose proof (Z.mul_div_le r DAY_NANOS). unfold DAY_NANOS, NANOS in *. lia.
  - intros tz r s Hle. cbn.
    pose proof (Z.div_mod r DAY_NANOS). pose proof (Z.div_mod s DAY_NANOS).
    pose proof (Z.div_mod (s - r) DAY_NANOS). pose proof (Z.mod_pos_bound r DAY_NANOS).
    pose proof (Z.mod_pos_bound s DAY_NANOS). pose proof (Z.mod_pos_bound (s - r) DAY_NANOS).
    unfold DAY_NANOS, NANOS in *. lia.
  - intros d. by left.
  - intros d. left. cbn. f_equal.
  - intros s v. cbn. congruence.
  - intros a b c. cbn. by intros [= <-].
Qed.

Lemma no_fallback tz : no_midnight_fallback calendar tz.
Proof.
  intros d m i r [Hm ->]%earliest_denotes%local_instant. cbn. intros Hlt.
  pose proof (Z.div_mod r DAY_NANOS). pose proof (Z.mod_pos_bound r DAY_NANOS).
  unfold DAY_NANOS, NANOS in *. nia.
Qed.

(** A daily schedule at 02:30. *)
Definition revision : Revision.t :=
  Revision.mk 1 2 3 4 1 (lit "op") (mk_fingerprint 2 [])
    (Config.mk BackupScheduleRecurrenceKind.Daily (lit "Etc/UTC") 150 []
       BackupScheduleMisfireMode.LatestOnly 3600) 0.
Definition sched : Schedule.t := Schedule.mk 2 3 4 1 true revision 0 0 0.
Definition descriptor : Scheduler.t := Scheduler.mk 3 sched (10 * DAY_NANOS).
Definition on_day (d : Z) : Planned.t :=
  Planned.mk 2 1 d 150 (lit "Etc/UTC") (d * DAY_NANOS + 150 * 60 * NANOS).
(** 03:00 on day 10. *)
Definition three : Z := 10 * DAY_NANOS + 180 * 60 * NANOS.

Lemma config_wf : Config.wf (Revision.config revision).
Proof. constructor; [constructor|done|done]. Qed.

End Utc.

Lemma resolve_local_minute_exact_witness :
  (forall m i, resolve_local_minute Utc.calendar (lit "Etc/UTC") 10 150 = Some (m, i) <->
     150 <= m < MINUTES_PER_DAY /\
     earliest (from_local_datetime Utc.calendar (lit "Etc/UTC") 10 m) = Some i /\
     (forall k, 150 <= k < m ->
        from_local_datetime Utc.calendar (lit "Etc/UTC") 10 k = NoLocal)) /\
  (resolve_local_minute Utc.calendar (lit "Etc/UTC") 10 150 = None <->
     forall k, 150 <= k < MINUTES_PER_DAY ->
       from_local_datetime Utc.calendar (lit "Etc/UTC") 10 k = NoLocal).
Proof. apply (resolve_local_minute_exact Utc.calendar). by vm_compute. Defined.

Lemma next_occurrence_earliest_witness :
  next_occurrence_after Utc.calendar Utc.revision Utc.three = Some (Utc.on_day 11) /\
  earliest_after Utc.calendar Utc.revision Utc.three (Utc.on_day 11).
Proof.
  split; [vm_compute; reflexivity|].
  apply (next_occurrence_earliest Utc.calendar Utc.revision Utc.three);
    vm_compute; reflexivity.
Defined.

Lemma window_searches_exact_witness :
  due Utc.calendar Utc.revision 0 (7 * DAY_NANOS) Utc.three (Utc.on_day 7) /\
  due Utc.calendar Utc.revision 0 (7 * DAY_NANOS) Utc.three (Utc.on_day 10).
Proof.
  pose proof (window_searches_exact Utc.calendar Utc.revision 0 (7 * DAY_NANOS) Utc.three
    eq_refl eq_refl (Utc.no_fallback _) ltac:(by vm_compute) ltac:(by vm_compute)) as [H1 H2].
  assert (oldest_occurrence_in_window Utc.calendar Utc.revision 0 (7 * DAY_NANOS) Utc.three =
          Some (Utc.on_day 7)) as E1 by (vm_compute; reflexivity).
  assert (latest_occurrence_in_window Utc.calendar Utc.revision 0 (7 * DAY_NANOS) Utc.three =
          Some (Utc.on_day 10)) as E2 by (vm_compute; reflexivity).
  rewrite E1 in H1. rewrite E2 in H2. split; [apply H1|apply H2].
Defined.


Lemma discovery_most_urgent_witness :
  (exists d, d ∈ [Utc.descriptor] /\
     Scheduler.action Utc.calendar d Utc.three =
     Ok (Some (Scheduler.Fire 3 Utc.sched (Utc.on_day 10)))) /\
  forall d y, d ∈ [Utc.descriptor] -> Scheduler.action Utc.calendar d Utc.three = Ok (Some y) ->
    Scheduler.key_lt (Scheduler.key y)
      (Scheduler.key (Scheduler.Fire 3 Utc.sched (Utc.on_day 10))) = false.
Proof.
  apply (discovery_most_urgent Utc.calendar Utc.three [Utc.descriptor]
           (Some (Scheduler.Fire 3 Utc.sched (Utc.on_day 10)))).
  vm_compute. reflexivity.
Defined.
