(* ===== verification/Install.v ===== *)
(** * The installer engine ([crates/install-engine/src/model.rs], [adapter.rs],
    [engine.rs])

    The data of a plan, the [InstallationAdapter] trait as a class of state-passing
    operations, plan validation, and the execution of a plan with its event stream,
    its verification of every effect and its compensation on failure. *)

From S2P Require Import Prelude.

(** [lib.rs] *)
Definition ENGINE_SCHEMA_VERSION : Z := 1.

(** ** The vocabulary of a plan ([model.rs]) *)

Inductive InstallationIntent : Type := IntentInstall | Upgrade | Repair | IntentVerify | Uninstall.

Inductive TargetScope : Type := ScopeCurrentUser | System | NativePackage | PortableUser.

Inductive ResourceClass : Type :=
| PackageOwned | NativePackageState | PlatformIntegrationOwned | ApplicationConfig
| CredentialState | ClientSyncState | UserLibraryContent | ServerConfig | ServerDatabase
| ServerObjectData | ExternalDependency | EphemeralRuntimeState.

Inductive EffectPhase : Type := PhaseInstall | PhaseIntegrate.

Inductive EffectAuthority : Type :=
| InstallerAdapter | NativePackageManager | PlatformIntegrationAdapter.

Inductive PrivilegeRequirement : Type :=
| PrivilegeCurrentUser | NativeAuthorization | ElevatedSystem.

Inductive Reversibility : Type :=
| Reversible | PartiallyReversible | Irreversible | ReversibilityNotApplicable.

Inductive RetryPolicy : Type := Never | AfterReplan.

Inductive ReconciliationPolicy : Type := InspectByEffectId | ReconciliationNotApplicable.

Record VerifiedArtifactEvidence := mk_VerifiedArtifactEvidence {
  evidence_artifact_id : rstring; artifact_type : rstring; product_version : rstring;
  source_commit : rstring; artifact_sha256 : rstring; manifest_sha256 : rstring;
  authentication_method : rstring; verified_local_path : rstring }.

Inductive ArtifactEvidence : Type :=
| VerifiedReleaseArtifact (evidence : VerifiedArtifactEvidence)
| LocallySuppliedArtifact (artifact_id local_path : rstring)
| NativeManagedArtifact (package_identity : rstring).

(** [ArtifactEvidence::identity]. *)
Definition identity (self : ArtifactEvidence) : rstring :=
  match self with
  | VerifiedReleaseArtifact evidence => evidence_artifact_id evidence
  | LocallySuppliedArtifact artifact_id _ => artifact_id
  | NativeManagedArtifact package_identity => package_identity
  end.

#[global] Instance InstallationIntent_eq_dec : EqDecision InstallationIntent.
Proof. solve_decision. Defined.
#[global] Instance TargetScope_eq_dec : EqDecision TargetScope.
Proof. solve_decision. Defined.
#[global] Instance ResourceClass_eq_dec : EqDecision ResourceClass.
Proof. solve_decision. Defined.
#[global] Instance EffectPhase_eq_dec : EqDecision EffectPhase.
Proof. solve_decision. Defined.
#[global] Instance EffectAuthority_eq_dec : EqDecision EffectAuthority.
Proof. solve_decision. Defined.
#[global] Instance PrivilegeRequirement_eq_dec : EqDecision PrivilegeRequirement.
Proof. solve_decision. Defined.
#[global] Instance Reversibility_eq_dec : EqDecision Reversibility.
Proof. solve_decision. Defined.
#[global] Instance RetryPolicy_eq_dec : EqDecision RetryPolicy.
Proof. solve_decision. Defined.
#[global] Instance ReconciliationPolicy_eq_dec : EqDecision ReconciliationPolicy.
Proof. solve_decision. Defined.
#[global] Instance VerifiedArtifactEvidence_eq_dec : EqDecision VerifiedArtifactEvidence.
Proof. solve_decision. Defined.
#[global] Instance ArtifactEvidence_eq_dec : EqDecision ArtifactEvidence.
Proof. solve_decision. Defined.

Module Request.

(** [InstallationRequest] *)
Record t := mk {
  intent : InstallationIntent; target_scope : TargetScope;
  verified_artifact : option ArtifactEvidence; user_choices : gmap rstring bool }.

End Request.

Inductive FindingSeverity : Type := Information | Warning | Blocking.

Record PreflightFinding := mk_PreflightFinding {
  finding_id : rstring; severity : FindingSeverity; capability : rstring;
  finding_evidence : rstring; blocks_planning : bool }.

Record Precondition := mk_Precondition { precondition_kind : rstring; precondition_expected : rstring }.

Record VerificationContract := mk_VerificationContract {
  verification_id : rstring; expected : rstring }.

Module Effect.

(** [InstallationEffect] *)
Record t := mk {
  effect_id : rstring; phase : EffectPhase; owner : ResourceClass;
  resource_class : ResourceClass; authority : EffectAuthority; target_scope : TargetScope;
  preconditions : list Precondition; privilege : PrivilegeRequirement;
  mutation_kind : rstring; verification : option VerificationContract;
  retry_policy : RetryPolicy; reconciliation_policy : ReconciliationPolicy;
  reversibility : Reversibility; safe_inverse : option rstring;
  preservation_constraints : list ResourceClass; artifact_identity : option rstring }.

End Effect.

Module Plan.

(** [InstallationPlan] *)
Record t := mk {
  schema_version : Z; plan_id : rstring; intent : InstallationIntent;
  target_scope : TargetScope; ordered_effects : list Effect.t;
  preservation_set : list ResourceClass;
  expected_completion_verification : VerificationContract;
  artifact : option ArtifactEvidence }.

End Plan.

Inductive Stage : Type :=
| StagePreflight | StagePlan | StageInstall | StageIntegrate | StageVerify | StageComplete.

#[global] Instance Stage_eq_dec : EqDecision Stage.
Proof. solve_decision. Defined.

Module EffectResultState.

Inductive t : Type :=
| VerifiedSuccess | VerifiedNoop | FailureBeforeMutation | KnownPartialMutation
| OutcomeUnknown.

End EffectResultState.

Module ApplyOutcome.

Inductive t : Type :=
| Success | Noop | FailureBeforeMutation | KnownPartialMutation | OutcomeUnknown.

End ApplyOutcome.

Module ReconciliationOutcome.

Inductive t : Type := VerifiedApplied | VerifiedNotApplied | StillUnknown.

End ReconciliationOutcome.

Module EngineErrorCode.

Inductive t : Type :=
| InvalidPlan | UnsupportedSchema | UnauthorizedOwnership | PrivilegeUnavailable | PlanStale
| EffectFailed | VerificationFailed | OutcomeUnknown | ReconciliationRequired
| CompensationFailed | FinalVerificationFailed | PreflightBlocked.

End EngineErrorCode.

Inductive EngineEventKind : Type :=
| StageEntered (stage : Stage)
| StageCompleted (stage : Stage)
| EffectStarted (effect_id : rstring)
| EffectResultRecorded (effect_id : rstring) (result_ : EffectResultState.t)
| VerificationStarted (verification_id : rstring)
| VerificationRecorded (verification_id : rstring) (succeeded : bool)
| InstallationCompleted
| InstallationStopped (code : EngineErrorCode.t).

Record EngineEvent := mk_EngineEvent {
  event_schema_version : Z; event_plan_id : rstring; sequence : Z; kind : EngineEventKind }.

Record EffectRecord := mk_EffectRecord {
  recorded_effect_id : rstring; recorded_result : EffectResultState.t;
  redacted_evidence : rstring }.

Record CompensationRecord := mk_CompensationRecord {
  compensated_effect_id : rstring; succeeded : bool; verified : bool }.

Module Result.

(** [InstallationResult] *)
Record t := mk {
  schema_version : Z; plan_id : rstring; completed : bool; installation_verified : bool;
  launch_eligible : bool; first_run_complete : bool; sync_ready : bool; server_ready : bool;
  error : option EngineErrorCode.t; safe_to_replan : bool; effects : list EffectRecord;
  compensations : list CompensationRecord; events : list EngineEvent }.

End Result.

(** ** The adapter ([adapter.rs])

    The trait's [&mut self] methods as operations that pass the adapter's state. *)

Class InstallationAdapter (A : Type) := {
  preflight : A -> list PreflightFinding * A;
  privilege_available : PrivilegeRequirement -> A -> bool * A;
  inspect_preconditions : Effect.t -> A -> bool * A;
  apply_effect : Effect.t -> A -> ApplyOutcome.t * A;
  verify_effect : Effect.t -> A -> bool * A;
  reconcile_unknown : Effect.t -> A -> ReconciliationOutcome.t * A;
  compensation_supported : Effect.t -> A -> bool * A;
  compensate_effect : Effect.t -> A -> bool * A;
  verify_compensation : Effect.t -> A -> bool * A;
  verify_installation : Plan.t -> A -> bool * A }.

(** ** Validation ([engine.rs]) *)

Definition REQUIRED_PRESERVATION : list ResourceClass :=
  [ApplicationConfig; CredentialState; ClientSyncState; UserLibraryContent; ServerConfig;
   ServerDatabase; ServerObjectData; ExternalDependency].

(** [char::is_whitespace]: the Unicode property White_Space. *)
Definition is_whitespace (c : Z) : bool :=
  ((9 <=? c) && (c <=? 13)) || (c =? 32) || (c =? 133) || (c =? 160) || (c =? 5760)
  || ((8192 <=? c) && (c <=? 8202)) || (c =? 8232) || (c =? 8233) || (c =? 8239)
  || (c =? 8287) || (c =? 12288).

(** [str::trim().is_empty()]. *)
Definition trim_is_empty (s : rstring) : bool := forallb is_whitespace (chars s).

Definition valid_id (id : rstring) : bool :=
  negb (is_empty id)
  && forallb (fun b => is_ascii_lowercase b || is_ascii_digit b || (b =? 46) || (b =? 45)) id.

Definition forbidden (c : ResourceClass) : bool :=
  match c with
  | CredentialState | ClientSyncState | UserLibraryContent | ServerDatabase
  | ServerObjectData | ExternalDependency => true
  | _ => false
  end.

(** [Vec::contains] and [slice::contains]. *)
Definition contains {T} `{EqDecision T} (l : list T) (x : T) : bool := bool_decide (x ∈ l).

Definition validate_authority (e : Effect.t) : result unit EngineErrorCode.t :=
  if (Effect.owner e == NativePackageState) && (Effect.authority e != NativePackageManager)
  then Err EngineErrorCode.UnauthorizedOwnership
  else if (Effect.owner e == PlatformIntegrationOwned)
          && (Effect.authority e != PlatformIntegrationAdapter)
  then Err EngineErrorCode.UnauthorizedOwnership
  else Ok tt.

(** The loop of [validate]: [ids] and [integration_seen] are its locals. *)
Fixpoint validate_effects (plan : Plan.t) (effects : list Effect.t) (ids : list rstring)
  (integration_seen : bool) : result unit EngineErrorCode.t :=
  match effects with
  | [] => Ok tt
  | effect :: rest =>
      if negb (valid_id (Effect.effect_id effect)) || contains ids (Effect.effect_id effect)
      then Err EngineErrorCode.InvalidPlan
      else if (Effect.target_scope effect != Plan.target_scope plan)
              || is_empty (Effect.preconditions effect)
              || is_none (Effect.verification effect)
              || trim_is_empty (Effect.mutation_kind effect)
      then Err EngineErrorCode.InvalidPlan
      else if (Effect.phase effect != PhaseIntegrate) && integration_seen
      then Err EngineErrorCode.InvalidPlan
      else if Plan.intent plan == IntentVerify then Err EngineErrorCode.InvalidPlan
      else
        let? _ := validate_authority effect in
        if forbidden (Effect.resource_class effect) || forbidden (Effect.owner effect)
           || (Effect.owner effect == ApplicationConfig)
        then Err EngineErrorCode.UnauthorizedOwnership
        else if contains (Plan.preservation_set plan) (Effect.resource_class effect)
                || contains (Effect.preservation_constraints effect) (Effect.resource_class effect)
        then Err EngineErrorCode.UnauthorizedOwnership
        else if (Effect.reversibility effect == Reversible) && is_none (Effect.safe_inverse effect)
        then Err EngineErrorCode.InvalidPlan
        else if (Effect.owner effect == NativePackageState)
                && (Effect.reversibility effect == Reversible)
        then Err EngineErrorCode.InvalidPlan
        else if (Effect.reconciliation_policy effect == ReconciliationNotApplicable)
                && (Effect.retry_policy effect != Never)
        then Err EngineErrorCode.InvalidPlan
        else if is_some_and (Effect.artifact_identity effect)
                  (fun expected => option_map identity (Plan.artifact plan) != Some expected)
        then Err EngineErrorCode.InvalidPlan
        else validate_effects plan rest (Effect.effect_id effect :: ids)
               (integration_seen || (Effect.phase effect == PhaseIntegrate))
  end.

(** [InstallerEngine::validate]. *)
Definition validate (request : Request.t) (plan : Plan.t) : result unit EngineErrorCode.t :=
  if Plan.schema_version plan != ENGINE_SCHEMA_VERSION
  then Err EngineErrorCode.UnsupportedSchema
  else if (Request.intent request != Plan.intent plan) || is_empty (Plan.plan_id plan)
  then Err EngineErrorCode.InvalidPlan
  else if Request.target_scope request != Plan.target_scope plan
  then Err EngineErrorCode.InvalidPlan
  else if Request.verified_artifact request != Plan.artifact plan
  then Err EngineErrorCode.InvalidPlan
  else if is_empty (verification_id (Plan.expected_completion_verification plan))
          || is_empty (expected (Plan.expected_completion_verification plan))
          || existsb (fun class => negb (contains (Plan.preservation_set plan) class))
               REQUIRED_PRESERVATION
  then Err EngineErrorCode.InvalidPlan
  else validate_effects plan (Plan.ordered_effects plan) [] false.

(** ** The run: events and records ([engine.rs], [struct Run]) *)

Module Run.

Record t := mk {
  plan_id : rstring; next : Z; effects : list EffectRecord;
  compensations : list CompensationRecord; events : list EngineEvent }.

Definition new (id : rstring) : t := mk id 0 [] [] [].

Definition event (kind : EngineEventKind) (self : t) : t :=
  mk (plan_id self) (wrapping_add64 (next self) 1) (effects self) (compensations self)
    (events self ++ [mk_EngineEvent ENGINE_SCHEMA_VERSION (plan_id self) (next self) kind]).

Definition stage_enter (stage : Stage) (self : t) : t := event (StageEntered stage) self.
Definition stage_complete (stage : Stage) (self : t) : t := event (StageCompleted stage) self.

Definition record (effect : Effect.t) (result_ : EffectResultState.t) (self : t) : t :=
  event (EffectResultRecorded (Effect.effect_id effect) result_)
    (mk (plan_id self) (next self)
       (effects self ++ [mk_EffectRecord (Effect.effect_id effect) result_
                           (lit "adapter-classification")])
       (compensations self) (events self)).

(** [run.compensations.push(..)]. *)
Definition push_compensation (r : CompensationRecord) (self : t) : t :=
  mk (plan_id self) (next self) (effects self) (compensations self ++ [r]) (events self).

Definition result (completed verified : bool) (error : option EngineErrorCode.t) (safe : bool)
  (self : t) : Result.t :=
  Result.mk ENGINE_SCHEMA_VERSION (plan_id self) completed verified verified false false false
    error safe (effects self) (compensations self) (events self).

Definition stop (code : EngineErrorCode.t) (safe : bool) (self : t) : Result.t :=
  result false false (Some code) safe (event (InstallationStopped code) self).

End Run.

(** ** Execution ([engine.rs]) *)

Section Engine.
Context {A : Type} `{InstallationAdapter A}.

(** [None] is the panic of [expect]. *)
Definition verify_effect_with_event (effect : Effect.t) (adapter : A) (run : Run.t) :
  option (bool * A * Run.t) :=
  let* contract := Effect.verification effect in
  let verification_id := verification_id contract in
  let run := Run.event (VerificationStarted verification_id) run in
  let '(succeeded, adapter) := verify_effect effect adapter in
  let run := Run.event (VerificationRecorded verification_id succeeded) run in
  Some (succeeded, adapter, run).

Definition final_verify (plan : Plan.t) (adapter : A) (run : Run.t) : Result.t * A :=
  let id := verification_id (Plan.expected_completion_verification plan) in
  let run := Run.stage_enter StageVerify run in
  let run := Run.event (VerificationStarted id) run in
  let '(ok, adapter) := verify_installation plan adapter in
  let run := Run.event (VerificationRecorded id ok) run in
  if negb ok then (Run.stop EngineErrorCode.FinalVerificationFailed false run, adapter)
  else
    let run := Run.stage_complete StageVerify run in
    let run := Run.stage_enter StageComplete run in
    let run := Run.stage_complete StageComplete run in
    let run := Run.event InstallationCompleted run in
    (Run.result true true None false run, adapter).

(** The filter of [compensation_candidates] over the reversed list: every candidate's
    support is queried before the first compensation. *)
Fixpoint candidates (reversed : list Effect.t) (adapter : A) : list Effect.t * A :=
  match reversed with
  | [] => ([], adapter)
  | effect :: rest =>
      if (Effect.reversibility effect == Reversible) && is_some (Effect.safe_inverse effect)
      then
        let '(supported, adapter) := compensation_supported effect adapter in
        let '(chosen, adapter) := candidates rest adapter in
        (if supported then effect :: chosen else chosen, adapter)
      else candidates rest adapter
  end.

Definition compensation_candidates (applied : list Effect.t) (adapter : A) :
  list Effect.t * A := candidates (reverse applied) adapter.

(** The loop of [fail_with_compensation_replan]. *)
Fixpoint compensate (chosen : list Effect.t) (run : Run.t) (code : EngineErrorCode.t)
  (adapter : A) : Run.t * EngineErrorCode.t * A :=
  match chosen with
  | [] => (run, code, adapter)
  | effect :: rest =>
      let '(succeeded, adapter) := compensate_effect effect adapter in
      let '(verified, adapter) :=
        if succeeded then verify_compensation effect adapter else (false, adapter) in
      let run := Run.push_compensation
                   (mk_CompensationRecord (Effect.effect_id effect) succeeded verified) run in
      let code := if negb verified then EngineErrorCode.CompensationFailed else code in
      compensate rest run code adapter
  end.

Definition fail_with_compensation_replan (run : Run.t) (code : EngineErrorCode.t)
  (applied : list Effect.t) (adapter : A) (replan : bool) : Result.t * A :=
  let '(chosen, adapter) := compensation_candidates applied adapter in
  let '(run, code, adapter) := compensate chosen run code adapter in
  (Run.stop code replan run, adapter).

Definition fail_with_compensation (run : Run.t) (code : EngineErrorCode.t)
  (applied : list Effect.t) (adapter : A) : Result.t * A :=
  fail_with_compensation_replan run code applied adapter false.

(** The stage bookkeeping at the head of the loop of [execute]. *)
Definition stage_of (effect : Effect.t) : Stage :=
  match Effect.phase effect with
  | PhaseInstall => StageInstall
  | PhaseIntegrate => StageIntegrate
  end.

Definition enter_phase (current_phase : option Stage) (stage : Stage) (run : Run.t) :
  option Stage * Run.t :=
  if current_phase != Some stage then
    let run := match current_phase with
               | Some previous => Run.stage_complete previous run
               | None => run
               end in
    (Some stage, Run.stage_enter stage run)
  else (current_phase, run).

(** The loop of [execute] over the remaining effects, and what follows it. *)
Fixpoint execute_effects (plan : Plan.t) (effects applied : list Effect.t)
  (current_phase : option Stage) (adapter : A) (run : Run.t) : option (Result.t * A) :=
  match effects with
  | [] =>
      let run := match current_phase with
                 | Some stage => Run.stage_complete stage run
                 | None => run
                 end in
      Some (final_verify plan adapter run)
  | effect :: rest =>
      let '(current_phase, run) := enter_phase current_phase (stage_of effect) run in
      let '(available, adapter) := privilege_available (Effect.privilege effect) adapter in
      if negb available
      then Some (fail_with_compensation run EngineErrorCode.PrivilegeUnavailable applied adapter)
      else
      let '(fresh, adapter) := inspect_preconditions effect adapter in
      if negb fresh
      then Some (fail_with_compensation run EngineErrorCode.PlanStale applied adapter)
      else
      let run := Run.event (EffectStarted (Effect.effect_id effect)) run in
      let '(outcome, adapter) := apply_effect effect adapter in
      match outcome with
      | ApplyOutcome.Success | ApplyOutcome.Noop =>
          let* verification := verify_effect_with_event effect adapter run in
          let '(ok, adapter, run) := verification in
          if ok then
            let state := match outcome with
                         | ApplyOutcome.Noop => EffectResultState.VerifiedNoop
                         | _ => EffectResultState.VerifiedSuccess
                         end in
            execute_effects plan rest (applied ++ [effect]) current_phase adapter
              (Run.record effect state run)
          else
            Some (fail_with_compensation
                    (Run.record effect EffectResultState.KnownPartialMutation run)
                    EngineErrorCode.VerificationFailed applied adapter)
      | ApplyOutcome.FailureBeforeMutation =>
          Some (fail_with_compensation
                  (Run.record effect EffectResultState.FailureBeforeMutation run)
                  EngineErrorCode.EffectFailed applied adapter)
      | ApplyOutcome.KnownPartialMutation =>
          Some (fail_with_compensation
                  (Run.record effect EffectResultState.KnownPartialMutation run)
                  EngineErrorCode.EffectFailed applied adapter)
      | ApplyOutcome.OutcomeUnknown =>
          let run := Run.record effect EffectResultState.OutcomeUnknown run in
          let '(reconciled, adapter) := reconcile_unknown effect adapter in
          match reconciled with
          | ReconciliationOutcome.VerifiedApplied =>
              let* verification := verify_effect_with_event effect adapter run in
              let '(ok, adapter, run) := verification in
              if ok then
                execute_effects plan rest (applied ++ [effect]) current_phase adapter
                  (Run.record effect EffectResultState.VerifiedSuccess run)
              else
                Some (fail_with_compensation run EngineErrorCode.VerificationFailed applied adapter)
          | ReconciliationOutcome.VerifiedNotApplied =>
              Some (fail_with_compensation_replan run EngineErrorCode.ReconciliationRequired
                      applied adapter true)
          | ReconciliationOutcome.StillUnknown =>
              Some (fail_with_compensation run EngineErrorCode.OutcomeUnknown applied adapter)
          end
      end
  end.

(** [InstallerEngine::execute]. *)
Definition execute (request : Request.t) (plan : Plan.t) (adapter : A) : option (Result.t * A) :=
  let run := Run.new (Plan.plan_id plan) in
  let run := Run.stage_enter StagePreflight run in
  let '(findings, adapter) := preflight adapter in
  if existsb blocks_planning findings
  then Some (Run.stop EngineErrorCode.PreflightBlocked false run, adapter)
  else
    let run := Run.stage_complete StagePreflight run in
    let run := Run.stage_enter StagePlan run in
    match validate request plan with
    | Err code => Some (Run.stop code false run, adapter)
    | Ok _ =>
        let run := Run.stage_complete StagePlan run in
        if Plan.intent plan == IntentVerify then Some (final_verify plan adapter run)
        else execute_effects plan (Plan.ordered_effects plan) [] None adapter run
    end.

End Engine.
