(* ===== verification/InstallFacts.v ===== *)
(** * What the installer engine guarantees

    A trace semantics for adapters, the session protocol as a relation between the
    calls an execution makes and the result it reports, the refinement of the protocol
    by [execute], and its consequences: protected resources, order of mutations,
    compensation in reverse and the numbered event stream. *)

From S2P Require Import Prelude Install.

(** ** Observing an adapter *)

Inductive call : Type :=
| CallPreflight (findings : list PreflightFinding)
| CallPrivilege (p : PrivilegeRequirement) (available : bool)
| CallInspect (e : Effect.t) (fresh : bool)
| CallApply (e : Effect.t) (outcome : ApplyOutcome.t)
| CallVerify (e : Effect.t) (ok : bool)
| CallReconcile (e : Effect.t) (outcome : ReconciliationOutcome.t)
| CallSupported (e : Effect.t) (supported : bool)
| CallCompensate (e : Effect.t) (ok : bool)
| CallVerifyCompensation (e : Effect.t) (ok : bool)
| CallVerifyInstallation (p : Plan.t) (ok : bool).

Definition logging {R A} (c : R -> call) (op : A -> R * A) (s : A * list call) :
  R * (A * list call) :=
  let '(r, a) := op s.1 in (r, (a, s.2 ++ [c r])).

(** Any adapter, with every call and its answer written to a log. *)
#[global] Instance logged {A} `{InstallationAdapter A} : InstallationAdapter (A * list call) := {
  preflight := logging CallPreflight preflight;
  privilege_available p := logging (CallPrivilege p) (privilege_available p);
  inspect_preconditions e := logging (CallInspect e) (inspect_preconditions e);
  apply_effect e := logging (CallApply e) (apply_effect e);
  verify_effect e := logging (CallVerify e) (verify_effect e);
  reconcile_unknown e := logging (CallReconcile e) (reconcile_unknown e);
  compensation_supported e := logging (CallSupported e) (compensation_supported e);
  compensate_effect e := logging (CallCompensate e) (compensate_effect e);
  verify_compensation e := logging (CallVerifyCompensation e) (verify_compensation e);
  verify_installation p := logging (CallVerifyInstallation p) (verify_installation p) }.

(** The effects whose mutation, or whose compensation, the calls request, in order. *)
Definition applies (calls : list call) : list Effect.t :=
  omap (fun c => match c with CallApply e _ => Some e | _ => None end) calls.
Definition compensates (calls : list call) : list Effect.t :=
  omap (fun c => match c with CallCompensate e _ => Some e | _ => None end) calls.

(** ** The session protocol *)

(** The calls that carry one effect through to its verification, with the results
    recorded for it. *)
Inductive verified_segment (e : Effect.t) : list call -> list EffectResultState.t -> Prop :=
| seg_success :
    verified_segment e
      [CallPrivilege (Effect.privilege e) true; CallInspect e true;
       CallApply e ApplyOutcome.Success; CallVerify e true]
      [EffectResultState.VerifiedSuccess]
| seg_noop :
    verified_segment e
      [CallPrivilege (Effect.privilege e) true; CallInspect e true;
       CallApply e ApplyOutcome.Noop; CallVerify e true]
      [EffectResultState.VerifiedNoop]
| seg_reconciled :
    verified_segment e
      [CallPrivilege (Effect.privilege e) true; CallInspect e true;
       CallApply e ApplyOutcome.OutcomeUnknown;
       CallReconcile e ReconciliationOutcome.VerifiedApplied; CallVerify e true]
      [EffectResultState.OutcomeUnknown; EffectResultState.VerifiedSuccess].

(** The calls after which the effect is given up, with the results recorded, the error
    reported and whether a new plan may be made. *)
Inductive failed_segment (e : Effect.t) :
  list call -> list EffectResultState.t -> EngineErrorCode.t -> bool -> Prop :=
| fail_privilege :
    failed_segment e [CallPrivilege (Effect.privilege e) false] []
      EngineErrorCode.PrivilegeUnavailable false
| fail_stale :
    failed_segment e [CallPrivilege (Effect.privilege e) true; CallInspect e false] []
      EngineErrorCode.PlanStale false
| fail_before :
    failed_segment e
      [CallPrivilege (Effect.privilege e) true; CallInspect e true;
       CallApply e ApplyOutcome.FailureBeforeMutation]
      [EffectResultState.FailureBeforeMutation] EngineErrorCode.EffectFailed false
| fail_partial :
    failed_segment e
      [CallPrivilege (Effect.privilege e) true; CallInspect e true;
       CallApply e ApplyOutcome.KnownPartialMutation]
      [EffectResultState.KnownPartialMutation] EngineErrorCode.EffectFailed false
| fail_unverified out :
    out = ApplyOutcome.Success \/ out = ApplyOutcome.Noop ->
    failed_segment e
      [CallPrivilege (Effect.privilege e) true; CallInspect e true; CallApply e out;
       CallVerify e false]
      [EffectResultState.KnownPartialMutation] EngineErrorCode.VerificationFailed false
| fail_reconciled :
    failed_segment e
      [CallPrivilege (Effect.privilege e) true; CallInspect e true;
       CallApply e ApplyOutcome.OutcomeUnknown;
       CallReconcile e ReconciliationOutcome.VerifiedApplied; CallVerify e false]
      [EffectResultState.OutcomeUnknown] EngineErrorCode.VerificationFailed false
| fail_not_applied :
    failed_segment e
      [CallPrivilege (Effect.privilege e) true; CallInspect e true;
       CallApply e ApplyOutcome.OutcomeUnknown;
       CallReconcile e ReconciliationOutcome.VerifiedNotApplied]
      [EffectResultState.OutcomeUnknown] EngineErrorCode.ReconciliationRequired true
| fail_unknown :
    failed_segment e
      [CallPrivilege (Effect.privilege e) true; CallInspect e true;
       CallApply e ApplyOutcome.OutcomeUnknown;
       CallReconcile e ReconciliationOutcome.StillUnknown]
      [EffectResultState.OutcomeUnknown] EngineErrorCode.OutcomeUnknown false.

Definition invertible (e : Effect.t) : Prop :=
  Effect.reversibility e = Reversible /\ is_some (Effect.safe_inverse e) = true.

(** The support queries over a list of effects, and those chosen. *)
Inductive queried : list Effect.t -> list call -> list Effect.t -> Prop :=
| queried_nil : queried [] [] []
| queried_skip e es calls chosen :
    ~ invertible e -> queried es calls chosen -> queried (e :: es) calls chosen
| queried_no e es calls chosen :
    invertible e -> queried es calls chosen ->
    queried (e :: es) (CallSupported e false :: calls) chosen
| queried_yes e es calls chosen :
    invertible e -> queried es calls chosen ->
    queried (e :: es) (CallSupported e true :: calls) (e :: chosen).

(** The compensation of the chosen effects and its records. *)
Inductive compensated : list Effect.t -> list call -> list CompensationRecord -> Prop :=
| compensated_nil : compensated [] [] []
| compensated_failed e es calls recs :
    compensated es calls recs ->
    compensated (e :: es) (CallCompensate e false :: calls)
      (mk_CompensationRecord (Effect.effect_id e) false false :: recs)
| compensated_checked e es ok calls recs :
    compensated es calls recs ->
    compensated (e :: es) (CallCompensate e true :: CallVerifyCompensation e ok :: calls)
      (mk_CompensationRecord (Effect.effect_id e) true ok :: recs).

Record report := mk_report {
  report_error : option EngineErrorCode.t; report_replan : bool;
  report_effects : list EffectRecord; report_compensations : list CompensationRecord }.

Definition records_of (e : Effect.t) (rs : list EffectResultState.t) : list EffectRecord :=
  map (fun r => mk_EffectRecord (Effect.effect_id e) r (lit "adapter-classification")) rs.

Definition prepend (e : Effect.t) (rs : list EffectResultState.t) (o : report) : report :=
  mk_report (report_error o) (report_replan o) (records_of e rs ++ report_effects o)
    (report_compensations o).

(** The steps of a session once the plan is accepted: [applied] effects are behind,
    [todo] are ahead. *)
Inductive remaining (plan : Plan.t) : list Effect.t -> list Effect.t -> list call -> report -> Prop :=
| rem_final applied ok :
    remaining plan applied [] [CallVerifyInstallation plan ok]
      (mk_report (if ok : bool then None else Some EngineErrorCode.FinalVerificationFailed)
         false [] [])
| rem_next applied e todo seg rs calls o :
    verified_segment e seg rs -> remaining plan (applied ++ [e]) todo calls o ->
    remaining plan applied (e :: todo) (seg ++ calls) (prepend e rs o)
| rem_fail applied e todo seg rs code replan queries chosen comps recs :
    failed_segment e seg rs code replan -> queried (reverse applied) queries chosen ->
    compensated chosen comps recs ->
    remaining plan applied (e :: todo) (seg ++ queries ++ comps)
      (mk_report (Some (if forallb verified recs then code
                        else EngineErrorCode.CompensationFailed))
         replan (records_of e rs) recs).

(** A whole session: the preflight, the validation, then the steps. *)
Inductive session (request : Request.t) (plan : Plan.t) : list call -> report -> Prop :=
| session_blocked findings :
    existsb blocks_planning findings = true ->
    session request plan [CallPreflight findings]
      (mk_report (Some EngineErrorCode.PreflightBlocked) false [] [])
| session_refused findings code :
    existsb blocks_planning findings = false -> validate request plan = Err code ->
    session request plan [CallPreflight findings] (mk_report (Some code) false [] [])
| session_run findings calls o :
    existsb blocks_planning findings = false -> validate request plan = Ok tt ->
    remaining plan [] (Plan.ordered_effects plan) calls o ->
    session request plan (CallPreflight findings :: calls) o.

(** What a result reports. *)
Definition reports (res : Result.t) (o : report) : Prop :=
  Result.error res = report_error o /\ Result.safe_to_replan res = report_replan o /\
  Result.effects res = report_effects o /\ Result.compensations res = report_compensations o.

(** ** Validation *)

(** What one effect of an accepted plan satisfies. *)
Record effect_ok (plan : Plan.t) (e : Effect.t) : Prop := {
  ok_id : valid_id (Effect.effect_id e) = true;
  ok_scope : Effect.target_scope e = Plan.target_scope plan;
  ok_preconditions : Effect.preconditions e <> [];
  ok_verification : is_some (Effect.verification e) = true;
  ok_mutation : trim_is_empty (Effect.mutation_kind e) = false;
  ok_package : Effect.owner e = NativePackageState ->
    Effect.authority e = NativePackageManager /\ Effect.reversibility e <> Reversible;
  ok_integration : Effect.owner e = PlatformIntegrationOwned ->
    Effect.authority e = PlatformIntegrationAdapter;
  ok_owner : Effect.owner e ∈ [PackageOwned; NativePackageState; PlatformIntegrationOwned;
                               ServerConfig; EphemeralRuntimeState];
  ok_class : Effect.resource_class e ∉ Plan.preservation_set plan /\
    Effect.resource_class e ∉ Effect.preservation_constraints e /\
    forbidden (Effect.resource_class e) = false;
  ok_inverse : Effect.reversibility e = Reversible -> is_some (Effect.safe_inverse e) = true;
  ok_retry : Effect.retry_policy e = AfterReplan ->
    Effect.reconciliation_policy e = InspectByEffectId;
  ok_artifact : forall i, Effect.artifact_identity e = Some i ->
    option_map identity (Plan.artifact plan) = Some i }.

(** Integration never precedes installation. *)
Definition phased (es : list Effect.t) : Prop :=
  exists installs integrates, es = installs ++ integrates /\
    Forall (fun e => Effect.phase e = PhaseInstall) installs /\
    Forall (fun e => Effect.phase e = PhaseIntegrate) integrates.

Record plan_ok (request : Request.t) (plan : Plan.t) : Prop := {
  ok_schema : Plan.schema_version plan = ENGINE_SCHEMA_VERSION;
  ok_request : Request.intent request = Plan.intent plan /\
    Request.target_scope request = Plan.target_scope plan /\
    Request.verified_artifact request = Plan.artifact plan;
  ok_plan_id : Plan.plan_id plan <> [];
  ok_completion : verification_id (Plan.expected_completion_verification plan) <> [] /\
    expected (Plan.expected_completion_verification plan) <> [];
  ok_preservation : forall c, c ∈ REQUIRED_PRESERVATION -> c ∈ Plan.preservation_set plan;
  ok_effects : Forall (effect_ok plan) (Plan.ordered_effects plan);
  ok_unique : NoDup (map Effect.effect_id (Plan.ordered_effects plan));
  ok_phased : phased (Plan.ordered_effects plan);
  ok_verify_only : Plan.intent plan = IntentVerify -> Plan.ordered_effects plan = [] }.

Lemma is_empty_false {A} (l : list A) : is_empty l = false <-> l <> [].
Proof. by destruct l. Qed.

Lemma validate_authority_exact e :
  validate_authority e = Ok tt <->
  (Effect.owner e = NativePackageState -> Effect.authority e = NativePackageManager) /\
  (Effect.owner e = PlatformIntegrationOwned -> Effect.authority e = PlatformIntegrationAdapter).
Proof.
  unfold validate_authority. repeat case_bool_decide; cbn; naive_solver congruence.
Qed.

Lemma guard_ok {E} (b : bool) (e : E) (k : result unit E) :
  (if b then Err e else k) = Ok tt <-> b = false /\ k = Ok tt.
Proof. destruct b; naive_solver. Qed.

Lemma let_ok {E} (r k : result unit E) :
  (let? _ := r in k) = Ok tt <-> r = Ok tt /\ k = Ok tt.
Proof. destruct r as [[]|]; naive_solver. Qed.

Lemma owner_allowed o :
  (forbidden o = false /\ o <> ApplicationConfig) <->
  o ∈ [PackageOwned; NativePackageState; PlatformIntegrationOwned; ServerConfig;
       EphemeralRuntimeState].
Proof. rewrite !elem_of_cons, elem_of_nil. destruct o; cbn; naive_solver. Qed.

Lemma retry_allowed (p : ReconciliationPolicy) (r : RetryPolicy) :
  (p == ReconciliationNotApplicable) && (r != Never) = false <->
  (r = AfterReplan -> p = InspectByEffectId).
Proof. destruct p, r; cbn; naive_solver. Qed.

Lemma artifact_allowed (a : option rstring) (b : option rstring) :
  is_some_and a (fun expected => b != Some expected) = false <->
  (forall i, a = Some i -> b = Some i).
Proof.
  destruct a as [i|]; cbn; [|naive_solver].
  rewrite negb_false_iff, bool_decide_eq_true. naive_solver.
Qed.

(** One round of the loop of [validate]. *)
Lemma validate_effects_cons plan e es ids seen :
  validate_effects plan (e :: es) ids seen = Ok tt <->
  effect_ok plan e /\ Effect.effect_id e ∉ ids /\ Plan.intent plan <> IntentVerify /\
  (seen = true -> Effect.phase e = PhaseIntegrate) /\
  validate_effects plan es (Effect.effect_id e :: ids)
    (seen || (Effect.phase e == PhaseIntegrate)) = Ok tt.
Proof.
  cbn [validate_effects]. set (next := validate_effects plan es _ _).
  rewrite !guard_ok, let_ok, !guard_ok, validate_authority_exact. unfold contains, is_none.
  rewrite retry_allowed, artifact_allowed, !orb_false_iff, !negb_false_iff, is_empty_false,
    !bool_decide_eq_false, !bool_decide_eq_true, !andb_false_iff, !negb_false_iff,
    !bool_decide_eq_true, !bool_decide_eq_false.
  pose proof (owner_allowed (Effect.owner e)) as Ho. split.
  - intros H. split; [constructor; tauto|]. split_and!; try tauto. intros ->.
    destruct H as (_ & _ & [?|?] & _); done.
  - intros ([] & ? & ? & ? & ?). split_and!; try tauto.
    + destruct seen; tauto.
    + destruct (decide (Effect.reversibility e = Reversible)); tauto.
    + destruct (decide (Effect.owner e = NativePackageState)); tauto.
Qed.

Lemma phased_cons e es :
  phased (e :: es) <->
  phased es /\ (Effect.phase e = PhaseIntegrate ->
               Forall (fun e => Effect.phase e = PhaseIntegrate) es).
Proof.
  split.
  - intros ([|i l] & k & E & Hl & Hk); simplify_eq/=.
    + inversion Hk; subst. split; [|done]. by exists [], es.
    + inversion Hl; subst. split; [by exists l, k|congruence].
  - intros [(l & k & -> & Hl & Hk) Hi]. destruct (Effect.phase e) eqn:E.
    + exists (e :: l), k. split_and!; [done|by constructor|done].
    + exists [], (e :: l ++ k). split_and!; [done..|]. constructor; auto.
Qed.

(** The loop of [validate], seen from the plan. *)
Lemma validate_effects_exact plan es ids seen :
  validate_effects plan es ids seen = Ok tt <->
  Forall (effect_ok plan) es /\ NoDup (map Effect.effect_id es) /\
  (forall e, e ∈ es -> Effect.effect_id e ∉ ids) /\ phased es /\
  (seen = true -> Forall (fun e => Effect.phase e = PhaseIntegrate) es) /\
  (Plan.intent plan = IntentVerify -> es = []).
Proof.
  revert ids seen. induction es as [|e es IH]; intros ids seen.
  - split; [intros _|done]. split_and!; [constructor..|set_solver| |constructor|done].
    by exists [], [].
  - rewrite validate_effects_cons, IH, phased_cons, !Forall_cons, map_cons, NoDup_cons,
      orb_true_iff, bool_decide_eq_true, list_elem_of_fmap.
    setoid_rewrite elem_of_cons. split.
    + intros (? & ? & ? & ? & ? & ? & Hids & ? & ? & ?). split_and!; try done; try tauto.
      * intros (x & E & Hx). apply (Hids x Hx). by left.
      * intros x [->|Hx]; [done|]. intros ?. apply (Hids x Hx). by right.
    + intros ([? ?] & [Hn ?] & Hids & [? ?] & ? & Hv). split_and!; try tauto.
      * apply Hids. by left.
      * by intros ?%Hv.
      * intros x Hx [E|E]; [apply Hn; by exists x|]. by apply (Hids x); [right|].
      * by intros ?%Hv.
Qed.

Lemma preserved_exact (s l : list ResourceClass) :
  existsb (fun class => negb (contains s class)) l = false <-> (forall c, c ∈ l -> c ∈ s).
Proof.
  unfold contains. induction l as [|c l IH]; cbn; [set_solver|].
  rewrite orb_false_iff, negb_false_iff, bool_decide_eq_true, IH. set_solver.
Qed.

Lemma validate_plan_ok request plan :
  validate request plan = Ok tt <-> plan_ok request plan.
Proof.
  unfold validate. rewrite !guard_ok, validate_effects_exact.
  rewrite !orb_false_iff, !negb_false_iff, !bool_decide_eq_true, !is_empty_false, preserved_exact.
  split; [intros H; constructor; tauto|].
  intros []. split_and!; try tauto; try done. intros e _. apply not_elem_of_nil.
Qed.

(** a plan is accepted exactly when it is well formed. Acceptance
    means that plan and request agree, that identifiers are unique, that installation
    precedes integration, that every effect states preconditions and a verification,
    and that it acts under the authority its owner needs; and no effect of an accepted
    plan targets a protected class: configuration, credentials, sync state, user
    content, server data or an external dependency. *)
Theorem validate_exact request plan :
  (validate request plan = Ok tt <-> plan_ok request plan) /\
  (validate request plan = Ok tt -> forall e, e ∈ Plan.ordered_effects plan ->
     Effect.resource_class e ∉ REQUIRED_PRESERVATION).
Proof.
  split; [apply validate_plan_ok|]. intros Hv%validate_plan_ok e He Hc.
  pose proof (ok_effects _ _ Hv) as Hes. rewrite Forall_forall in Hes.
  destruct (ok_class _ _ (Hes e He)) as [Hn _]. apply Hn. by apply (ok_preservation _ _ Hv).
Qed.

(** ** Execution follows the protocol *)

(** What the rest of an execution adds to the run it continues. *)
Definition continues (run : Run.t) (res : Result.t) (o : report) : Prop :=
  Result.error res = report_error o /\ Result.safe_to_replan res = report_replan o /\
  Result.effects res = Run.effects run ++ report_effects o /\
  Result.compensations res = Run.compensations run ++ report_compensations o.

Section Protocol.
Context {A : Type} `{InstallationAdapter A}.
Implicit Types (a : A) (log : list call).

Lemma candidates_queried es a log :
  exists chosen a' calls, candidates es (a, log) = (chosen, (a', log ++ calls)) /\
    queried es calls chosen.
Proof.
  revert a log. induction es as [|e es IH]; intros a log.
  - exists [], a, []. rewrite app_nil_r. split; [done|constructor].
  - cbn [candidates]. destruct (_ && _) eqn:E.
    + rust_bool. cbn [compensation_supported logged]. unfold logging. cbn [fst snd].
      destruct (compensation_supported e a) as [s a1].
      destruct (IH a1 (log ++ [CallSupported e s])) as (chosen & a' & calls & -> & Hq).
      exists (if s then e :: chosen else chosen), a', (CallSupported e s :: calls).
      rewrite <- app_assoc. split; [done|]. destruct s; by constructor.
    + destruct (IH a log) as (chosen & a' & calls & -> & Hq). exists chosen, a', calls.
      split; [done|]. constructor; [|done]. intros [E1 E2]. rewrite E2 in E.
      by rewrite bool_decide_true in E.
Qed.

Lemma compensate_compensated chosen run code a log :
  exists recs a' calls,
    compensate chosen run code (a, log) =
      (Run.mk (Run.plan_id run) (Run.next run) (Run.effects run)
         (Run.compensations run ++ recs) (Run.events run),
       if forallb verified recs then code else EngineErrorCode.CompensationFailed,
       (a', log ++ calls)) /\
    compensated chosen calls recs.
Proof.
  revert run code a log. induction chosen as [|e es IH]; intros run code a log.
  - exists [], a, []. rewrite !app_nil_r. split; [by destruct run|constructor].
  - cbn [compensate compensate_effect logged]. unfold logging at 1. cbn [fst snd].
    destruct (compensate_effect e a) as [[] a1]; cbn [verify_compensation logged].
    + unfold logging at 1. cbn [fst snd].
      destruct (verify_compensation e a1) as [ok a2]. cbv zeta.
      edestruct (IH (Run.push_compensation
                       (mk_CompensationRecord (Effect.effect_id e) true ok) run))
        as (recs & a' & calls & -> & Hc).
      exists (mk_CompensationRecord (Effect.effect_id e) true ok :: recs), a',
        (CallCompensate e true :: CallVerifyCompensation e ok :: calls). split; [|by constructor].
      cbn. rewrite <- !app_assoc. by destruct ok, (forallb verified recs).
    + cbv zeta.
      edestruct (IH (Run.push_compensation
                       (mk_CompensationRecord (Effect.effect_id e) false false) run))
        as (recs & a' & calls & -> & Hc).
      exists (mk_CompensationRecord (Effect.effect_id e) false false :: recs), a',
        (CallCompensate e false :: calls). split; [|by constructor].
      cbn. rewrite <- !app_assoc. by destruct (forallb verified recs).
Qed.

Lemma fail_protocol run code applied a log replan :
  exists res a' queries chosen comps recs,
    fail_with_compensation_replan run code applied (a, log) replan =
      (res, (a', log ++ queries ++ comps)) /\
    queried (reverse applied) queries chosen /\ compensated chosen comps recs /\
    continues run res
      (mk_report (Some (if forallb verified recs then code
                        else EngineErrorCode.CompensationFailed)) replan [] recs).
Proof.
  unfold fail_with_compensation_replan, compensation_candidates.
  destruct (candidates_queried (reverse applied) a log) as (chosen & a1 & queries & -> & Hq).
  destruct (compensate_compensated chosen run code a1 (log ++ queries))
    as (recs & a2 & comps & -> & Hc).
  eexists _, _, queries, chosen, comps, recs. rewrite <- app_assoc. split_and!; try done.
  split_and!; try done. cbn. by rewrite app_nil_r.
Qed.

Lemma final_protocol plan applied a log run :
  exists res a' calls o,
    final_verify plan (a, log) run = (res, (a', log ++ calls)) /\
    remaining plan applied [] calls o /\ continues run res o.
Proof.
  unfold final_verify. cbn [verify_installation logged]. unfold logging. cbn [fst snd].
  destruct (verify_installation plan a) as [ok a1].
  destruct ok; cbn [negb]; eexists _, _, _, _; (split; [done|]); (split; [constructor|]);
    split_and!; cbn; by rewrite ?app_nil_r.
Qed.

(** The bookkeeping of stages touches neither records nor compensations. *)
Lemma enter_phase_records current stage run :
  Run.effects (enter_phase current stage run).2 = Run.effects run /\
  Run.compensations (enter_phase current stage run).2 = Run.compensations run.
Proof. unfold enter_phase. destruct (_ != _); [by destruct current|done]. Qed.

(** A failure at the next effect, whatever the run was when it was noticed. *)
Lemma fail_remaining plan run run' applied e todo seg rs code replan a log :
  failed_segment e seg rs code replan ->
  Run.effects run' = Run.effects run ++ records_of e rs ->
  Run.compensations run' = Run.compensations run ->
  exists res a' calls o,
    Some (fail_with_compensation_replan run' code applied (a, log ++ seg) replan) =
      Some (res, (a', log ++ calls)) /\
    remaining plan applied (e :: todo) calls o /\ continues run res o.
Proof.
  intros Hseg He Hc.
  destruct (fail_protocol run' code applied a (log ++ seg) replan)
    as (res & a' & queries & chosen & comps & recs & -> & Hq & Hcs & ? & ? & Hef & Hco).
  eexists res, a', _, _. rewrite <- app_assoc. split; [done|].
  split; [by eapply rem_fail|]. cbn in *. rewrite Hc in Hco. rewrite He, app_nil_r in Hef.
  by split_and!.
Qed.

(** Success at the next effect: the steps after it are those of the longer prefix. *)
Lemma next_remaining plan run run' applied e todo seg rs log r :
  verified_segment e seg rs ->
  Run.effects run' = Run.effects run ++ records_of e rs ->
  Run.compensations run' = Run.compensations run ->
  (exists res a' calls o, r = Some (res, (a', (log ++ seg) ++ calls)) /\
     remaining plan (applied ++ [e]) todo calls o /\ continues run' res o) ->
  exists res (a' : A) calls o, r = Some (res, (a', log ++ calls)) /\
    remaining plan applied (e :: todo) calls o /\ continues run res o.
Proof.
  intros Hseg He Hc (res & a' & calls & o & -> & Hr & ? & ? & Hef & Hco).
  eexists res, a', _, _. rewrite <- app_assoc. split; [done|].
  split; [by eapply rem_next|]. rewrite He, <- app_assoc in Hef. rewrite Hc in Hco.
  by split_and!.
Qed.

End Protocol.

(** Opens the next call of a logged adapter. *)
Ltac next_call :=
  cbn [privilege_available inspect_preconditions apply_effect verify_effect reconcile_unknown
       compensate_effect verify_compensation verify_installation logged];
  match goal with
  | |- context [logging ?c ?op (?a, ?log)] =>
      change (logging c op (a, log)) with (let '(r, x) := op a in (r, (x, log ++ [c r])));
      destruct (op a) as [[] ?]
  end; cbn [negb]; cbv zeta.
Ltac adapter_call := next_call; rewrite <- ?app_assoc; cbn [app].

(** Ends a branch of the loop by a failure or by the induction hypothesis. *)
Ltac same_records := cbn -[lit]; rewrite <- ?app_assoc, ?app_nil_r; cbn [app]; congruence.
Ltac protocol_finish IH :=
  first [ eapply fail_remaining; [constructor; by auto|same_records..]
        | eapply next_remaining; [..|apply IH]; [constructor|same_records..] ].

(** Logging changes nothing but the log. *)
Section Erasure.
Context {A : Type} `{InstallationAdapter A}.
Implicit Types s : A * list call.

Definition erase {R} (x : R * (A * list call)) : R * A := (x.1, x.2.1).

Lemma logging_erase {R} (c : R -> call) op s : op s.1 = erase (logging c op s).
Proof. unfold logging, erase. by destruct (op s.1). Qed.

Lemma candidates_erase es s : candidates es s.1 = erase (candidates es s).
Proof.
  revert s. induction es as [|e es IH]; intros s; cbn [candidates]; [done|].
  destruct (_ && _); [|apply IH].
  rewrite (logging_erase (CallSupported e)). cbn [compensation_supported logged].
  destruct (logging _ _ s) as [b s1]. cbn [erase fst snd]. rewrite IH.
  by destruct (candidates es s1).
Qed.

Lemma compensate_erase es run code s :
  compensate es run code s.1 = erase (compensate es run code s).
Proof.
  revert run code s. induction es as [|e es IH]; intros run code s; cbn [compensate]; [done|].
  rewrite (logging_erase (CallCompensate e)). cbn [compensate_effect logged].
  destruct (logging (CallCompensate e) _ s) as [[] s1]; cbn [erase fst snd]; [|apply IH].
  rewrite (logging_erase (CallVerifyCompensation e)). cbn [verify_compensation logged].
  destruct (logging _ _ s1) as [ok s2]. cbn [erase fst snd]. apply IH.
Qed.

Lemma fail_erase run code applied s replan :
  fail_with_compensation_replan run code applied s.1 replan =
  erase (fail_with_compensation_replan run code applied s replan).
Proof.
  unfold fail_with_compensation_replan, compensation_candidates. rewrite candidates_erase.
  destruct (candidates _ s) as [chosen s1]. cbn [erase fst snd]. rewrite compensate_erase.
  by destruct (compensate chosen run code s1) as [[run' code'] s2].
Qed.

Lemma final_erase plan s run : final_verify plan s.1 run = erase (final_verify plan s run).
Proof.
  unfold final_verify. rewrite (logging_erase (CallVerifyInstallation plan)).
  cbn [verify_installation logged]. by destruct (logging _ _ s) as [[] s1].
Qed.

Lemma verify_erase e s run :
  verify_effect_with_event e s.1 run =
  option_map (fun x => (x.1.1, x.1.2.1, x.2)) (verify_effect_with_event e s run).
Proof.
  unfold verify_effect_with_event. destruct (Effect.verification e); [|done].
  rewrite (logging_erase (CallVerify e)). cbn [verify_effect logged].
  by destruct (logging _ _ s) as [ok s1].
Qed.

Lemma execute_effects_erase plan es applied phase s run :
  execute_effects plan es applied phase s.1 run =
  option_map erase (execute_effects plan es applied phase s run).
Proof.
  revert applied phase s run.
  induction es as [|e es IH]; intros applied phase s run; cbn [execute_effects].
  { by rewrite final_erase. }
  destruct (enter_phase _ _ _) as [phase' run']. unfold fail_with_compensation.
  rewrite (logging_erase (CallPrivilege (Effect.privilege e))).
  cbn [privilege_available logged]. destruct (logging _ _ s) as [[] s1];
    cbn [erase fst snd negb]; [|by rewrite fail_erase].
  rewrite (logging_erase (CallInspect e)). cbn [inspect_preconditions logged].
  destruct (logging _ _ s1) as [[] s2]; cbn [erase fst snd negb]; [|by rewrite fail_erase].
  rewrite (logging_erase (CallApply e)). cbn [apply_effect logged].
  destruct (logging _ _ s2) as [out s3]; cbn [erase fst snd].
  destruct out; try by rewrite fail_erase.
  1,2: rewrite verify_erase; destruct (verify_effect_with_event e s3 _) as [[[[] s4] r]|];
    cbn [option_map fst snd]; [apply IH|by rewrite fail_erase|done].
  rewrite (logging_erase (CallReconcile e)). cbn [reconcile_unknown logged].
  destruct (logging _ _ s3) as [rec s4]; cbn [erase fst snd].
  destruct rec; try by rewrite fail_erase.
  rewrite verify_erase. destruct (verify_effect_with_event e s4 _) as [[[[] s5] r]|];
    cbn [option_map fst snd]; [apply IH|by rewrite fail_erase|done].
Qed.

Lemma execute_erase request plan s :
  execute request plan s.1 = option_map erase (execute request plan s).
Proof.
  unfold execute. rewrite (logging_erase CallPreflight). cbn [preflight logged].
  destruct (logging _ _ s) as [fs s1]. cbn [erase fst snd].
  destruct (existsb _ _); [done|]. destruct (validate request plan); [|done].
  destruct (_ == _); [by rewrite final_erase|apply execute_effects_erase].
Qed.

End Erasure.

Section Refinement.
Context {A : Type} `{InstallationAdapter A}.

Lemma execute_effects_protocol plan todo applied phase (a : A) log run :
  Forall (effect_ok plan) todo ->
  exists res a' calls o,
    execute_effects plan todo applied phase (a, log) run = Some (res, (a', log ++ calls)) /\
    remaining plan applied todo calls o /\ continues run res o.
Proof.
  intros Hok. revert applied phase a log run.
  induction Hok as [|e todo He Hok IH]; intros applied phase a log run.
  - cbn [execute_effects].
    set (run' := match phase with Some _ => _ | None => _ end).
    destruct (final_protocol plan applied a log run') as (res & a' & calls & o & -> & Hr & Hc).
    exists res, a', calls, o. split_and!; try done; subst run'; by destruct phase.
  - cbn [execute_effects].
    destruct (enter_phase phase (stage_of e) run) as [phase' run'] eqn:Ep.
    pose proof (enter_phase_records phase (stage_of e) run) as [Hr1 Hr2].
    rewrite Ep in Hr1, Hr2. cbn in Hr1, Hr2.
    pose proof (ok_verification _ _ He) as Hv.
    unfold verify_effect_with_event.
    destruct (Effect.verification e) as [contract|]; [|done]. cbv zeta.
    adapter_call; [adapter_call; [adapter_call|]|]; unfold fail_with_compensation.
    all: first [protocol_finish IH
               |adapter_call; first [protocol_finish IH | adapter_call; protocol_finish IH]].
Qed.

Lemma execute_session request plan (a : A) log :
  exists res a' calls o,
    execute request plan (a, log) = Some (res, (a', log ++ calls)) /\
    session request plan calls o /\ reports res o.
Proof.
  unfold execute. cbn [preflight logged]. unfold logging at 1. cbn [fst snd].
  destruct (preflight a) as [findings a1]. cbv zeta.
  destruct (existsb blocks_planning findings) eqn:Ef.
  { eexists _, _, _, _. split; [done|]. split; [by constructor|done]. }
  destruct (validate request plan) as [[]|code] eqn:Ev.
  2:{ eexists _, _, _, _. split; [done|]. split; [by constructor|done]. }
  pose proof Ev as Hok%validate_plan_ok. set (run := Run.stage_complete StagePlan _).
  assert (exists res a' calls o,
    (if Plan.intent plan == IntentVerify
     then Some (final_verify plan (a1, log ++ [CallPreflight findings]) run)
     else execute_effects plan (Plan.ordered_effects plan) [] None
            (a1, log ++ [CallPreflight findings]) run) =
      Some (res, (a', (log ++ [CallPreflight findings]) ++ calls)) /\
    remaining plan [] (Plan.ordered_effects plan) calls o /\ continues run res o)
    as (res & a' & calls & o & -> & Hr & Hc).
  { case_bool_decide as Hi; [|by apply execute_effects_protocol, Hok].
    rewrite (ok_verify_only _ _ Hok Hi).
    destruct (final_protocol plan [] a1 (log ++ [CallPreflight findings]) run)
      as (res & a' & calls & o & -> & ? & ?). by exists res, a', calls, o. }
  exists res, a', (CallPreflight findings :: calls), o. rewrite <- app_assoc.
  split; [done|]. split; [by apply session_run|done].
Qed.

End Refinement.

(** ** What the protocol guarantees *)

Lemma applies_app l k : applies (l ++ k) = applies l ++ applies k.
Proof. apply omap_app. Qed.
Lemma compensates_app l k : compensates (l ++ k) = compensates l ++ compensates k.
Proof. apply omap_app. Qed.

#[export] Hint Rewrite applies_app compensates_app : synveil.

Lemma verified_segment_calls e seg rs :
  verified_segment e seg rs ->
  applies seg = [e] /\ compensates seg = [] /\ CallVerify e true ∈ seg.
Proof. intros []; cbn; (split; [done|]); (split; [done|]); set_solver. Qed.

Lemma failed_segment_calls e seg rs code replan :
  failed_segment e seg rs code replan ->
  (applies seg = [] \/ applies seg = [e]) /\ compensates seg = [] /\ seg <> [] /\
  Forall (fun c => forall p ok, c <> CallVerifyInstallation p ok) seg.
Proof. intros []; cbn; split_and!; auto; repeat constructor; done. Qed.

Lemma queried_calls es calls chosen :
  queried es calls chosen ->
  applies calls = [] /\ compensates calls = [] /\ chosen `sublist_of` es /\
  Forall invertible chosen /\ Forall (fun c => forall p ok, c <> CallVerifyInstallation p ok) calls.
Proof.
  induction 1; destruct_and?; split_and!; try done; by constructor.
Qed.

Lemma compensated_calls chosen calls recs :
  compensated chosen calls recs ->
  applies calls = [] /\ compensates calls = chosen /\
  map compensated_effect_id recs = map Effect.effect_id chosen /\
  Forall (fun c => forall p ok, c <> CallVerifyInstallation p ok) calls.
Proof.
  induction 1; destruct_and?; split_and!; try done; try (cbn; f_equal; done);
    repeat (apply Forall_cons; split; [done|]); done.
Qed.

(** What every stretch of a session satisfies. *)
Record stretch_safe (plan : Plan.t) (applied todo : list Effect.t) (calls : list call)
  (o : report) : Prop := {
  safe_order : applies calls `prefix_of` todo;
  safe_split : exists done before after, calls = before ++ after /\
    applies before = applies calls /\ compensates before = [] /\
    done `prefix_of` applies calls /\
    Forall (fun e => CallVerify e true ∈ before) done /\
    compensates after `sublist_of` reverse (applied ++ done) /\
    Forall invertible (compensates after);
  safe_records : map compensated_effect_id (report_compensations o) =
                 map Effect.effect_id (compensates calls);
  safe_complete : report_error o = None <-> last calls = Some (CallVerifyInstallation plan true);
  safe_all : report_error o = None ->
    applies calls = todo /\ compensates calls = [] /\
    Forall (fun e => CallVerify e true ∈ calls) todo }.

Lemma remaining_nonempty plan applied todo calls o :
  remaining plan applied todo calls o -> calls <> [].
Proof.
  induction 1 as [|???????? _ IH|??????????? Hf]; [done|by intros [_ ?]%app_eq_nil|].
  apply failed_segment_calls in Hf as (_ & _ & Hne & _). by intros [? _]%app_eq_nil.
Qed.

(** A failing stretch ends before the final verification. *)
Lemma last_not_final (calls : list call) p ok :
  Forall (fun c => forall p ok, c <> CallVerifyInstallation p ok) calls ->
  last calls <> Some (CallVerifyInstallation p ok).
Proof.
  intros Hf (l & ->)%last_Some. apply Forall_app in Hf as [_ Hf].
  inversion Hf as [|?? Hc _]. by apply (Hc p ok).
Qed.

Lemma remaining_safe plan applied todo calls o :
  remaining plan applied todo calls o -> stretch_safe plan applied todo calls o.
Proof.
  induction 1 as [applied ok|applied e todo seg rs calls o Hs Hr IH
                 |applied e todo seg rs code replan queries chosen comps recs Hf Hq Hc].
  - split; cbn; try done.
    + exists [], [CallVerifyInstallation plan ok], [].
      split_and!; try done. apply sublist_nil_l.
    + destruct ok; naive_solver.
  - apply verified_segment_calls in Hs as (Ha & Hcs & Hv). destruct IH as [Ho Hsp Hrec Hcm Hall].
    split; autorewrite with synveil; rewrite ?Ha, ?Hcs; cbn [app]; try done.
    + by apply prefix_cons.
    + destruct Hsp as (dn & before & after & -> & E1 & E2 & Hp & Hd & Hsub & Hinv).
      exists (e :: dn), (seg ++ before), after. rewrite <- E1.
      autorewrite with synveil. rewrite Ha, Hcs, E2. split_and!; try done.
      * by rewrite app_assoc.
      * rewrite <- E1 in Hp. autorewrite with synveil. by apply prefix_cons.
      * constructor; [set_solver|]. eapply Forall_impl; [done|]. set_solver.
      * by rewrite <- app_assoc in Hsub.
    + pose proof (remaining_nonempty _ _ _ _ _ Hr) as Hne.
      rewrite last_app. destruct (last calls) eqn:E; [done|]. by apply last_None in E.
    + intros (E1 & E2 & E3)%Hall. rewrite E1, E2. split_and!; try done.
      constructor; [set_solver|]. eapply Forall_impl; [done|]. set_solver.
  - apply failed_segment_calls in Hf as (Ha & Hcs & _ & Hf1).
    apply queried_calls in Hq as (Ha2 & Hcs2 & Hsub & Hinv & Hf2).
    apply compensated_calls in Hc as (Ha3 & Hcs3 & Hrec & Hf3).
    assert (applies (seg ++ queries ++ comps) = applies seg) as Eapp
      by (autorewrite with synveil; by rewrite Ha2, Ha3, !app_nil_r).
    assert (compensates (seg ++ queries ++ comps) = chosen) as Ecmp
      by (autorewrite with synveil; by rewrite Hcs, Hcs2).
    split; rewrite ?Eapp, ?Ecmp; try done.
    + destruct Ha as [-> | ->]; [by apply prefix_nil|by apply prefix_cons, prefix_nil].
    + exists [], seg, (queries ++ comps). autorewrite with synveil. rewrite Hcs2, Hcs3, app_nil_r.
      split_and!; try done. apply prefix_nil.
    + cbn. split; [done|]. intros Hl. exfalso. revert Hl. apply last_not_final.
      by rewrite !Forall_app.
Qed.

Section Guarantees.
Context {A : Type} `{InstallationAdapter A}.

(** C35: every execution of a plan follows the session protocol. Whatever the adapter
    answers, [execute] returns without panicking; its calls are those of a session: a
    preflight, and then, for an accepted plan, one effect after the other, each carried
    through privilege, preconditions, mutation and verification before the next, until
    the installation is verified or an effect fails and the verified ones that can be
    inverted are compensated, latest first; and the error, the records and the
    compensations it reports are those of that session. *)
Theorem execute_refines_session request plan (a : A) :
  exists res a' calls o,
    execute request plan a = Some (res, a') /\
    execute request plan (a, []) = Some (res, (a', calls)) /\
    session request plan calls o /\ reports res o.
Proof.
  destruct (execute_session request plan a []) as (res & a' & calls & o & E & Hs & Hr).
  exists res, a', calls, o. split_and!; try done.
  by rewrite (execute_erase request plan (a, [])), E.
Qed.

(** An installation touches only what its plan allows, in the plan's order, and
    undoes in reverse. The effects mutated are a prefix of the plan's, each at most
    once, and none unless the plan was accepted; compensation starts only when no
    further effect is applied, concerns only effects that were verified and are
    reversible with an inverse, and goes from the latest to the earliest; and a result
    without error means that the final verification succeeded after every effect of
    the plan was applied and verified and none was undone. *)
Theorem execute_safe request plan (a a' : A) res calls :
  execute request plan (a, []) = Some (res, (a', calls)) ->
  applies calls `prefix_of` Plan.ordered_effects plan /\
  NoDup (map Effect.effect_id (applies calls)) /\
  (applies calls <> [] -> plan_ok request plan) /\
  (exists verified before after, calls = before ++ after /\
     applies after = [] /\ compensates before = [] /\ verified `prefix_of` applies before /\
     Forall (fun e => CallVerify e true ∈ before) verified /\
     compensates after `sublist_of` reverse verified /\ Forall invertible (compensates after)) /\
  (Result.error res = None <-> last calls = Some (CallVerifyInstallation plan true)) /\
  (Result.error res = None ->
     applies calls = Plan.ordered_effects plan /\ compensates calls = [] /\
     Forall (fun e => CallVerify e true ∈ calls) (Plan.ordered_effects plan)).
Proof.
  intros E. destruct (execute_session request plan a []) as (res' & a1 & calls' & o & E' & Hs & Hr).
  rewrite E in E'. simplify_eq/=. destruct Hr as (-> & _).
  destruct Hs as [fs Hb|fs code Hb Hv|fs calls o Hb Hv%validate_plan_ok Hrem].
  1,2: split_and!; try done; [apply prefix_nil|constructor|].
  1,2: exists [], [CallPreflight fs], []; split_and!; try done.
  destruct (remaining_safe _ _ _ _ _ Hrem) as [Ho Hsp _ Hcm Hall].
  destruct Hsp as (dn & before & after & -> & E1 & E2 & Hp & Hd & Hsub & Hinv).
  pose proof (remaining_nonempty _ _ _ _ _ Hrem) as Hne.
  change (applies (CallPreflight fs :: before ++ after)) with (applies (before ++ after)).
  change (compensates (CallPreflight fs :: before ++ after)) with (compensates (before ++ after)).
  split_and!; try done.
  - destruct Ho as [rest Eo]. pose proof (ok_unique _ _ Hv) as Hu. rewrite Eo, map_app in Hu.
    by apply NoDup_app in Hu as [? _].
  - exists dn, (CallPreflight fs :: before), after. split_and!; try done.
    + rewrite applies_app in E1. rewrite <- (app_nil_r (applies before)) in E1 at 1.
      by apply app_inv_head in E1.
    + by rewrite <- E1 in Hp.
    + eapply Forall_impl; [done|]. set_solver.
  - destruct (before ++ after); [done|]. apply Hcm.
  - intros (? & ? & ?)%Hall. split_and!; try done. eapply Forall_impl; [done|]. set_solver.
Qed.

End Guarantees.

(** ** The event stream *)

(** Events are numbered from zero in the order they were emitted, in the width of the
    counter, and carry the plan and schema they belong to. *)
Definition numbered (id : rstring) (events : list EngineEvent) : Prop :=
  forall i ev, events !! i = Some ev ->
    sequence ev = Z.of_nat i mod 2 ^ 64 /\ event_plan_id ev = id /\
    event_schema_version ev = ENGINE_SCHEMA_VERSION.

Definition run_ok (id : rstring) (run : Run.t) : Prop :=
  Run.plan_id run = id /\ numbered id (Run.events run) /\
  Run.next run = len (Run.events run) mod 2 ^ 64.

(** What the flags, the error and the last event of a result say of each other. *)
Definition result_ok (id : rstring) (res : Result.t) : Prop :=
  numbered id (Result.events res) /\ Result.plan_id res = id /\
  Result.schema_version res = ENGINE_SCHEMA_VERSION /\
  Result.completed res = is_none (Result.error res) /\
  Result.installation_verified res = Result.completed res /\
  Result.launch_eligible res = Result.completed res /\
  (Result.first_run_complete res || Result.sync_ready res || Result.server_ready res) = false /\
  option_map kind (last (Result.events res)) =
    Some (match Result.error res with
          | None => InstallationCompleted
          | Some code => InstallationStopped code
          end).

Lemma run_ok_new id : run_ok id (Run.new id).
Proof. by split_and!. Qed.

Lemma run_ok_event id k run : run_ok id run -> run_ok id (Run.event k run).
Proof.
  intros (Hid & Hn & Hx). split_and!; [done| |]; cbn [Run.event Run.events Run.next].
  - intros i ev [Hi|[Hi E]]%lookup_app_Some; [by apply Hn|].
    apply list_lookup_singleton_Some in E as [? <-]. cbn.
    rewrite Hx. unfold len. split_and!; try done. do 2 f_equal. lia.
  - unfold wrapping_add64, len in *. rewrite Hx, length_app. cbn.
    rewrite Z.add_mod_idemp_l by done. f_equal. lia.
Qed.

Lemma run_ok_record id e r run : run_ok id run -> run_ok id (Run.record e r run).
Proof. intros H. by apply run_ok_event. Qed.

Lemma run_ok_push id c run : run_ok id run -> run_ok id (Run.push_compensation c run).
Proof. done. Qed.

Lemma result_ok_stop id code safe run : run_ok id run -> result_ok id (Run.stop code safe run).
Proof.
  intros Hr. pose proof (run_ok_event id (InstallationStopped code) run Hr) as (? & ? & ?).
  split_and!; try done. cbn. by rewrite last_snoc.
Qed.

Create HintDb run_ok.
#[export] Hint Resolve run_ok_new run_ok_event run_ok_record run_ok_push result_ok_stop : run_ok.

Section Events.
Context {A : Type} `{InstallationAdapter A}.

Lemma final_events plan id (a : A) run :
  run_ok id run -> result_ok id (final_verify plan a run).1.
Proof.
  intros Hr. unfold final_verify, Run.stage_enter, Run.stage_complete.
  destruct (verify_installation plan a) as [[] a1]; cbn [negb fst]; [|auto with run_ok].
  match goal with |- result_ok _ (Run.result _ _ _ _ (Run.event ?k ?r)) =>
    assert (run_ok id (Run.event k r)) as (? & ? & ?) by auto 10 with run_ok end.
  split_and!; try done. cbn -[lit]. by rewrite last_snoc.
Qed.

Lemma fail_events id run code applied (a : A) replan :
  run_ok id run -> result_ok id (fail_with_compensation_replan run code applied a replan).1.
Proof.
  intros Hr. unfold fail_with_compensation_replan.
  destruct (compensation_candidates applied a) as [chosen a1].
  assert (forall run code a, run_ok id run -> run_ok id (compensate chosen run code a).1.1) as Hc.
  { clear. induction chosen as [|e es IH]; intros run code a Hr; [done|].
    cbn [compensate]. destruct (compensate_effect e a) as [[] a1].
    - destruct (verify_compensation e a1) as [ok a2]. auto with run_ok.
    - auto with run_ok. }
  specialize (Hc run code a1 Hr). destruct (compensate _ _ _ _) as [[run' code'] a2].
  by apply result_ok_stop.
Qed.

Lemma enter_phase_events id current stage run :
  run_ok id run -> run_ok id (enter_phase current stage run).2.
Proof.
  intros Hr. unfold enter_phase, Run.stage_enter, Run.stage_complete.
  destruct (_ != _); [destruct current|]; cbn [snd]; auto with run_ok.
Qed.

Lemma verify_events id e (a : A) run ok a' run' :
  run_ok id run -> verify_effect_with_event e a run = Some (ok, a', run') -> run_ok id run'.
Proof.
  intros Hr. unfold verify_effect_with_event. destruct (Effect.verification e); [|done].
  destruct (verify_effect e a). intros [= <- <- <-]. auto with run_ok.
Qed.

Lemma execute_effects_events id plan todo applied phase (a : A) run res a' :
  run_ok id run -> execute_effects plan todo applied phase a run = Some (res, a') ->
  result_ok id res.
Proof.
  assert (forall run code applied (a : A) replan,
    Some (fail_with_compensation_replan run code applied a replan) = Some (res, a') ->
    run_ok id run -> result_ok id res) as Hfail.
  { intros ????? [= E] Hr. apply (fail_events _ _ code applied0 a0 replan) in Hr. by rewrite E in Hr. }
  revert applied phase a run. induction todo as [|e todo IH]; intros applied phase a run Hr.
  - cbn [execute_effects]. intros [= E].
    match type of E with final_verify _ _ ?r = _ => pose proof (final_events plan id a r) as Hf end.
    rewrite E in Hf. apply Hf. destruct phase; [by apply run_ok_event|done].
  - cbn [execute_effects].
    pose proof (enter_phase_events id phase (stage_of e) run Hr) as Hr'.
    destruct (enter_phase _ _ _) as [phase' run']. cbn [snd] in Hr'.
    unfold fail_with_compensation.
    destruct (privilege_available _ a) as [[] a1]; cbn [negb]; [|eauto].
    destruct (inspect_preconditions e a1) as [[] a2]; cbn [negb]; [|eauto].
    destruct (apply_effect e a2) as [[] a3].
    1,2: destruct (verify_effect_with_event e a3 _) as [[[[] a4] run'']|] eqn:Ev; [..|done];
      apply (verify_events id) in Ev; eauto with run_ok.
    1,2: eauto with run_ok.
    destruct (reconcile_unknown e a3) as [[] a4]; [|eauto with run_ok..].
    destruct (verify_effect_with_event e a4 _) as [[[[] a5] run'']|] eqn:Ev; [..|done];
      apply (verify_events id) in Ev; eauto with run_ok.
Qed.

(** the result and its event stream agree. Events are numbered without gap in the
    order they happened, under the plan's identity; a result is completed, verified
    and launchable exactly when it carries no error, never claims more than the
    installation itself, and its last event is the completion or the very error it
    reports. *)
Theorem execute_events request plan (a a' : A) res :
  execute request plan a = Some (res, a') -> result_ok (Plan.plan_id plan) res.
Proof.
  unfold execute, Run.stage_enter, Run.stage_complete.
  destruct (preflight a) as [fs a1].
  destruct (existsb _ _); [intros [= <- _]; auto with run_ok|].
  destruct (validate request plan) as [[]|]; [|intros [= <- _]; auto with run_ok].
  destruct (_ == _); [|apply execute_effects_events; auto 10 with run_ok].
  intros [= E]. match type of E with final_verify _ _ ?r = _ =>
    pose proof (final_events plan (Plan.plan_id plan) a1 r) as Hf end.
  rewrite E in Hf. apply Hf. auto 10 with run_ok.
Qed.

End Events.

(** ** An installation that fails at its second effect *)

Module InstallExample.

Definition effect (id : rstring) (phase : EffectPhase) (owner : ResourceClass)
  (authority : EffectAuthority) : Effect.t :=
  Effect.mk id phase owner owner authority ScopeCurrentUser
    [mk_Precondition (lit "absent") (lit "target")] PrivilegeCurrentUser (lit "create")
    (Some (mk_VerificationContract (lit "verify") (lit "present"))) Never
    InspectByEffectId Reversible (Some (lit "remove")) [] None.

Definition files : Effect.t := effect (lit "files") PhaseInstall PackageOwned InstallerAdapter.
Definition menu : Effect.t :=
  effect (lit "menu") PhaseIntegrate PlatformIntegrationOwned PlatformIntegrationAdapter.

Definition plan : Plan.t :=
  Plan.mk 1 (lit "plan-1") IntentInstall ScopeCurrentUser [files; menu] REQUIRED_PRESERVATION
    (mk_VerificationContract (lit "final") (lit "installed")) None.

Definition request : Request.t := Request.mk IntentInstall ScopeCurrentUser None ∅.

(** An adapter whose state is the list of effects in place; it cannot create menus. *)
#[local] Instance adapter : InstallationAdapter (list rstring) := {
  preflight a := ([], a);
  privilege_available _ a := (true, a);
  inspect_preconditions e a := (negb (contains a (Effect.effect_id e)), a);
  apply_effect e a :=
    if Effect.phase e == PhaseIntegrate then (ApplyOutcome.FailureBeforeMutation, a)
    else (ApplyOutcome.Success, Effect.effect_id e :: a);
  verify_effect e a := (contains a (Effect.effect_id e), a);
  reconcile_unknown _ a := (ReconciliationOutcome.StillUnknown, a);
  compensation_supported _ a := (true, a);
  compensate_effect e a := (true, filter (fun x => x <> Effect.effect_id e) a);
  verify_compensation e a := (negb (contains a (Effect.effect_id e)), a);
  verify_installation _ a := (true, a) }.

Definition outcome : option (Result.t * (list rstring * list call)) :=
  execute request plan ([], []).

Definition calls : list call :=
  match outcome with Some (_, (_, calls)) => calls | None => [] end.
Definition res : Result.t :=
  match outcome with Some (res, _) => res | None => Run.stop EngineErrorCode.InvalidPlan false (Run.new []) end.

Lemma execute_safe_witness :
  applies calls `prefix_of` Plan.ordered_effects plan /\ applies calls = [files; menu] /\
  compensates calls = [files].
Proof.
  assert (execute request plan ([], []) = Some (res, ([], calls))) as E
    by (vm_compute; reflexivity).
  split; [exact (proj1 (execute_safe request plan [] [] res calls E))|].
  split; vm_compute; reflexivity.
Defined.

Lemma execute_events_witness :
  result_ok (lit "plan-1") res /\ Result.error res = Some EngineErrorCode.EffectFailed.
Proof.
  assert (execute request plan [] = Some (res, [])) as E by (vm_compute; reflexivity).
  split; [exact (execute_events request plan [] [] res E)|vm_compute; reflexivity].
Defined.

End InstallExample.
