(* ===== verification/InstallJournal.v ===== *)
(** * The durable execution journal ([crates/install-engine/src/journal.rs])

    The append-only journal of one installation transaction: its records and their
    replay, the hash-chained envelopes, the checkpoint files of the transaction
    directory with the steps by which one becomes durable, and the journaled execution
    that resumes from them.

    The operating system is a parameter: before each fallible call it answers with an
    error code or lets it pass.  The path and ownership checks ([reject_symlink],
    [create_directory_durable], the lock) are such answers.  [serde_json] and SHA-256
    are parameters as well. *)

From S2P Require Import Prelude Values Install.

Definition JOURNAL_SCHEMA_VERSION : Z := 1.
Definition MAX_CHECKPOINT_BYTES : Z := 1024 * 1024.
Definition MAX_CHECKPOINT_RECORDS : Z := 16384.
Definition MAX_PLAN_BYTES : Z := 4 * 1024 * 1024.

Inductive JournalMode : Type := StartNew | ResumeExisting.

Inductive JournalVerifiedResult : Type := JournalVerifiedSuccess | JournalVerifiedNoop.

Module JournalRecord.

Inductive t : Type :=
| TransactionOpened (plan_id : rstring) (intent : InstallationIntent) (target_scope : TargetScope)
| StageEntered (stage : Stage)
| EffectMutationStarted (effect_id : rstring)
| EffectOutcome (effect_id : rstring) (outcome : EffectResultState.t)
| EffectVerified (effect_id : rstring) (result_ : JournalVerifiedResult)
| CompensationStarted (effect_id : rstring)
| CompensationVerified (effect_id : rstring)
| FinalVerificationSucceeded
| TransactionCompleted.

End JournalRecord.

Module Envelope.

(** [JournalEnvelope] *)
Record t := mk {
  schema_version : Z; generation : Z; plan_fingerprint_sha256 : rstring;
  previous_record_sha256 : option rstring; record : JournalRecord.t;
  record_sha256 : rstring }.

End Envelope.

Module HashInput.

Record t := mk {
  schema_version : Z; generation : Z; plan_fingerprint_sha256 : rstring;
  previous_record_sha256 : option rstring; record : JournalRecord.t }.

End HashInput.

Module Disposition.

(** [RecoveryDisposition] *)
Inductive t : Type :=
| Fresh | ResumeReady | ReconciledApplied | ReplanRequired | InspectionRequired
| AlreadyCompleted | StillUnknown | JournalBusy | JournalCorrupt.

End Disposition.

Module Code.

(** [JournalErrorCode] *)
Inductive t : Type :=
| JournalMissing | JournalBusy | JournalCorrupt | JournalUnsupportedSchema
| JournalPlanMismatch | JournalIoFailed | JournalDiskFull | JournalLimitExceeded
| ActiveTransactionExists | RecoveryInspectionRequired.

End Code.

Module JournalError.

Record t := mk { code : Code.t; inspection_required : bool }.

Definition new (code : Code.t) : t :=
  mk code (match code with
           | Code.JournalMissing | Code.JournalCorrupt | Code.JournalUnsupportedSchema
           | Code.JournalLimitExceeded | Code.RecoveryInspectionRequired => true
           | _ => false
           end).

End JournalError.

Module FaultPoint.

(** [JournalFaultPoint] *)
Inductive t : Type :=
| Write | AfterWrite | FileSync | AfterFileSync | Commit | AfterCommit | CommittedObjectSync
| AfterCommittedObjectSync | DirectorySync | AfterDirectorySync | DiskFull.

#[global] Instance eq_dec : EqDecision t.
Proof. solve_decision. Defined.

End FaultPoint.

Module RecordClass.

(** [JournalRecordClass] *)
Inductive t : Type :=
| TransactionStart | StageEntry | EffectMutationStart | EffectResult | EffectVerification
| Reconciliation | CompensationStart | CompensationCompletion | FinalVerification
| TransactionCompletion.

#[global] Instance eq_dec : EqDecision t.
Proof. solve_decision. Defined.

End RecordClass.

(** [JournalOptions] *)
Record JournalOptions := mk_JournalOptions {
  fail_at : option (RecordClass.t * FaultPoint.t) }.

Definition default_options : JournalOptions := mk_JournalOptions None.

Module Execution.

(** [JournalExecutionResult] *)
Record t := mk { disposition : Disposition.t; completed : bool; error : option Code.t }.

End Execution.

Definition record_class (record : JournalRecord.t) : RecordClass.t :=
  match record with
  | JournalRecord.TransactionOpened _ _ _ => RecordClass.TransactionStart
  | JournalRecord.StageEntered _ => RecordClass.StageEntry
  | JournalRecord.EffectMutationStarted _ => RecordClass.EffectMutationStart
  | JournalRecord.EffectOutcome _ _ => RecordClass.EffectResult
  | JournalRecord.EffectVerified _ _ => RecordClass.EffectVerification
  | JournalRecord.CompensationStarted _ => RecordClass.CompensationStart
  | JournalRecord.CompensationVerified _ => RecordClass.CompensationCompletion
  | JournalRecord.FinalVerificationSucceeded => RecordClass.FinalVerification
  | JournalRecord.TransactionCompleted => RecordClass.TransactionCompletion
  end.

(** ** Replay *)

Inductive EffectState : Type :=
| MutationStarted | Verified | FailureBeforeMutation | Partial | CompensationStarted
| Compensated.

#[global] Instance EffectState_eq_dec : EqDecision EffectState.
Proof. solve_decision. Defined.

Module Replay.

(** [ReplayState], and the local [opened] of [replay]. *)
Record t := mk {
  opened : bool; effects : gmap rstring EffectState; final_verified : bool; completed : bool }.

Definition init : t := mk false ∅ false false.
Definition corrupt {A} : result A JournalError.t := Err (JournalError.new Code.JournalCorrupt).

(** [effects.insert(id, state)]. *)
Definition set_effect (id : rstring) (st : EffectState) (self : t) : t :=
  mk (opened self) (<[id := st]> (effects self)) (final_verified self) (completed self).

(** [order[id]]: collecting into the map keeps the last position of an identifier. *)
Fixpoint position (id : rstring) (es : list Effect.t) : nat :=
  match es with
  | [] => 0
  | e :: rest =>
      if existsb (fun e => Effect.effect_id e == id) rest then S (position id rest) else 0
  end.

Definition require_opened (opened : bool) : result unit JournalError.t :=
  if opened then Ok tt else corrupt.

Definition ensure_effect (plan : Plan.t) (id : rstring) : result unit JournalError.t :=
  if existsb (fun e => Effect.effect_id e == id) (Plan.ordered_effects plan) then Ok tt
  else corrupt.

(** [plan.ordered_effects[..].iter().any(|e| !matches!(effects.get(..), Some(Verified)))] *)
Definition any_unverified (es : list Effect.t) (self : t) : bool :=
  existsb (fun e => effects self !! Effect.effect_id e != Some Verified) es.

(** One round of the loop of [replay]. *)
Definition step (plan : Plan.t) (self : t) (envelope : Envelope.t) : result t JournalError.t :=
  if completed self then corrupt
  else match Envelope.record envelope with
  | JournalRecord.TransactionOpened plan_id intent target_scope =>
      if (plan_id == Plan.plan_id plan) && (intent == Plan.intent plan)
         && (target_scope == Plan.target_scope plan) && (Envelope.generation envelope =? 0)
         && negb (opened self)
      then Ok (mk true (effects self) (final_verified self) (completed self))
      else Err (JournalError.new
                  (if negb (opened self) && (Envelope.generation envelope =? 0)
                   then Code.JournalPlanMismatch else Code.JournalCorrupt))
  | JournalRecord.EffectMutationStarted effect_id =>
      let? _ := require_opened (opened self) in
      let? _ := ensure_effect plan effect_id in
      if is_some (effects self !! effect_id) then corrupt
      else
        let index := position effect_id (Plan.ordered_effects plan) in
        if any_unverified (take index (Plan.ordered_effects plan)) self then corrupt
        else Ok (set_effect effect_id MutationStarted self)
  | JournalRecord.EffectVerified effect_id _ =>
      let? _ := require_opened (opened self) in
      let? _ := ensure_effect plan effect_id in
      if effects self !! effect_id != Some MutationStarted then corrupt
      else Ok (set_effect effect_id Verified self)
  | JournalRecord.EffectOutcome effect_id outcome =>
      let? _ := require_opened (opened self) in
      let? _ := ensure_effect plan effect_id in
      if effects self !! effect_id != Some MutationStarted then corrupt
      else match outcome with
      | EffectResultState.FailureBeforeMutation =>
          Ok (set_effect effect_id FailureBeforeMutation self)
      | EffectResultState.KnownPartialMutation | EffectResultState.OutcomeUnknown =>
          Ok (set_effect effect_id Partial self)
      | _ => corrupt
      end
  | JournalRecord.CompensationStarted effect_id =>
      let? _ := require_opened (opened self) in
      let? _ := ensure_effect plan effect_id in
      if effects self !! effect_id != Some Verified then corrupt
      else Ok (set_effect effect_id CompensationStarted self)
  | JournalRecord.CompensationVerified effect_id =>
      let? _ := require_opened (opened self) in
      let? _ := ensure_effect plan effect_id in
      if effects self !! effect_id != Some CompensationStarted then corrupt
      else Ok (set_effect effect_id Compensated self)
  | JournalRecord.FinalVerificationSucceeded =>
      let? _ := require_opened (opened self) in
      if final_verified self || any_unverified (Plan.ordered_effects plan) self then corrupt
      else Ok (mk (opened self) (effects self) true (completed self))
  | JournalRecord.TransactionCompleted =>
      let? _ := require_opened (opened self) in
      if negb (final_verified self) then corrupt
      else Ok (mk (opened self) (effects self) (final_verified self) true)
  | JournalRecord.StageEntered _ => let? _ := require_opened (opened self) in Ok self
  end.

Fixpoint run (plan : Plan.t) (self : t) (records : list Envelope.t) : result t JournalError.t :=
  match records with
  | [] => Ok self
  | envelope :: rest => let? self := step plan self envelope in run plan self rest
  end.

(** [replay] *)
Definition replay (plan : Plan.t) (records : list Envelope.t) : result t JournalError.t :=
  let? self := run plan init records in
  if negb (opened self) then corrupt else Ok self.

End Replay.

(** ** The operating system and the libraries *)

(** [serde_json] on the journal's types, and [format!] of a SHA-256 digest. *)
Class JournalCodec := {
  hex_hash : list Z -> rstring;
  plan_to_vec : Plan.t -> option (list Z);
  hash_input_to_vec : HashInput.t -> option (list Z);
  envelope_to_vec : Envelope.t -> option (list Z);
  envelope_from_slice : list Z -> option Envelope.t }.

(** The fallible calls of the journal. *)
Inductive IoPoint : Type :=
| CheckRoot | CheckDirectory | CreateDirectory | OpenLock | ReadDirectory | CheckStale | RemoveStale
| CheckCheckpoint | ReadCheckpoint (generation : Z)
| CheckTemp | CheckFinal | OpenTemp | WriteTemp | SyncTemp | LinkFinal | RemoveTemp
| SyncFinal | SyncDirectory.

(** What the system answers at each call of its [n]-th operation, and what a failed
    write leaves in the file. *)
Class Os := {
  os_answer : nat -> IoPoint -> option Code.t;
  os_torn : nat -> list Z }.

Inductive entry : Type := Regular (content : list Z) | Irregular.

Module Fs.

(** The transaction directory: whether it exists, its entries, the entries known to
    survive a loss of power, and the operations performed on it. *)
Record t := mk {
  present : bool; files : gmap rstring entry; durable : gmap rstring entry; ops : nat }.

Definition tick (self : t) : t := mk (present self) (files self) (durable self) (S (ops self)).
Definition with_files (m : gmap rstring entry) (self : t) : t :=
  mk (present self) m (durable self) (ops self).
Definition create (self : t) : t :=
  mk true (files self) (files self) (ops self).
Definition sync (self : t) : t := mk (present self) (files self) (files self) (ops self).

End Fs.

(** [{generation:016}] *)
Definition padded (n : Z) : rstring :=
  let d := Decimal.fmt n in replicate (16 - length d) 48 ++ d.

Definition CHECKPOINT : rstring := lit "checkpoint-".
Definition LOCK : rstring := lit "lock".
Definition temp_name (generation : Z) : rstring := CHECKPOINT ++ padded generation ++ lit ".tmp".
Definition final_name (generation : Z) : rstring := CHECKPOINT ++ padded generation ++ lit ".json".

(** [str::ends_with] for a string. *)
Definition strip_suffix (p s : rstring) : option rstring :=
  option_map reverse (strip_prefix (reverse p) (reverse s)).

(** The key [sort_by_key] sorts the checkpoints by. *)
Definition generation_le (a b : Z * rstring) : Prop := a.1 <= b.1.

#[global] Instance generation_le_dec : RelDecision generation_le.
Proof. intros a b. unfold generation_le. apply _. Defined.

Section Journal.
Context `{JournalCodec} `{Os}.

Definition io (n : nat) (p : IoPoint) : result unit JournalError.t :=
  match os_answer n p with
  | Some code => Err (JournalError.new code)
  | None => Ok tt
  end.

Definition plan_fingerprint (plan : Plan.t) : result rstring JournalError.t :=
  let? bytes := ok_or (plan_to_vec plan) (JournalError.new Code.JournalCorrupt) in
  if MAX_PLAN_BYTES <? len bytes then Err (JournalError.new Code.JournalLimitExceeded)
  else Ok (hex_hash bytes).

(** [InstallationJournal]; its directory is the file system passed beside it. *)
Record InstallationJournal := mk_InstallationJournal {
  fingerprint : rstring; records : list Envelope.t; options : JournalOptions; plan : Plan.t }.

Definition maybe_fail (self : InstallationJournal) (class : RecordClass.t)
  (point : FaultPoint.t) : result unit JournalError.t :=
  if fail_at (options self) == Some (class, point) then
    Err (JournalError.new (match point with
                           | FaultPoint.DiskFull => Code.JournalDiskFull
                           | _ => Code.JournalIoFailed
                           end))
  else Ok tt.

(** The envelope [append] builds for a record. *)
Definition envelope_for (self : InstallationJournal) (record : JournalRecord.t) :
  result Envelope.t JournalError.t :=
  let generation := len (records self) in
  let previous := option_map Envelope.record_sha256 (last (records self)) in
  let? bytes := ok_or (hash_input_to_vec
                         (HashInput.mk JOURNAL_SCHEMA_VERSION generation (fingerprint self)
                            previous record))
                  (JournalError.new Code.JournalCorrupt) in
  Ok (Envelope.mk JOURNAL_SCHEMA_VERSION generation (fingerprint self) previous record
        (hex_hash bytes)).

(** The part of [append] before the first write. *)
Definition prepare (self : InstallationJournal) (n : nat) (record : JournalRecord.t) :
  result (Envelope.t * list Z) JournalError.t :=
  let? _ := io n CheckDirectory in
  if MAX_CHECKPOINT_RECORDS <=? len (records self)
  then Err (JournalError.new Code.JournalLimitExceeded)
  else
    let? envelope := envelope_for self record in
    let? _ := Replay.replay (plan self) (records self ++ [envelope]) in
    let? bytes := ok_or (envelope_to_vec envelope) (JournalError.new Code.JournalCorrupt) in
    if MAX_CHECKPOINT_BYTES <? len bytes
    then Err (JournalError.new Code.JournalLimitExceeded)
    else
      let? _ := maybe_fail self (record_class record) FaultPoint.Write in
      let? _ := io n CheckTemp in
      let? _ := io n CheckFinal in
      Ok (envelope, bytes).

(** The checkpoint's way to the disk: the temporary file, the link that commits it, and
    the synchronisations. *)
Definition commit (self : InstallationJournal) (n : nat) (class : RecordClass.t) (generation : Z)
  (bytes : list Z) (fs : Fs.t) : Fs.t * result unit JournalError.t :=
  let fault := maybe_fail self class in
  let temp := temp_name generation in
  let final := final_name generation in
  let opened :=
    let? _ := io n OpenTemp in
    if is_some (Fs.files fs !! temp) then Err (JournalError.new Code.JournalIoFailed)
    else Ok tt in
  match opened with
  | Err e => (fs, Err e)
  | Ok _ =>
  let fs := Fs.with_files (<[temp := Regular []]> (Fs.files fs)) fs in
  match fault FaultPoint.DiskFull with
  | Err e => (fs, Err e)
  | Ok _ =>
  match io n WriteTemp with
  | Err e => (Fs.with_files (<[temp := Regular (os_torn n)]> (Fs.files fs)) fs, Err e)
  | Ok _ =>
  let fs := Fs.with_files (<[temp := Regular bytes]> (Fs.files fs)) fs in
  let linked :=
    let? _ := fault FaultPoint.AfterWrite in
    let? _ := fault FaultPoint.FileSync in
    let? _ := io n SyncTemp in
    let? _ := fault FaultPoint.AfterFileSync in
    let? _ := fault FaultPoint.Commit in
    let? _ := io n LinkFinal in
    if is_some (Fs.files fs !! final) then Err (JournalError.new Code.JournalIoFailed)
    else Ok tt in
  match linked with
  | Err e => (fs, Err e)
  | Ok _ =>
  let fs := Fs.with_files (<[final := Regular bytes]> (Fs.files fs)) fs in
  match io n RemoveTemp with
  | Err e => (fs, Err e)
  | Ok _ =>
  let fs := Fs.with_files (delete temp (Fs.files fs)) fs in
  let synced :=
    let? _ := fault FaultPoint.AfterCommit in
    let? _ := fault FaultPoint.CommittedObjectSync in
    let? _ := io n SyncFinal in
    let? _ := fault FaultPoint.AfterCommittedObjectSync in
    let? _ := fault FaultPoint.DirectorySync in
    io n SyncDirectory in
  match synced with
  | Err e => (fs, Err e)
  | Ok _ => (Fs.sync fs, fault FaultPoint.AfterDirectorySync)
  end end end end end end.

(** [InstallationJournal::append] *)
Definition append (self : InstallationJournal) (fs : Fs.t) (record : JournalRecord.t) :
  InstallationJournal * Fs.t * result unit JournalError.t :=
  let n := Fs.ops fs in
  let fs := Fs.tick fs in
  match prepare self n record with
  | Err e => (self, fs, Err e)
  | Ok (envelope, bytes) =>
      let '(fs, committed) :=
        commit self n (record_class record) (Envelope.generation envelope) bytes fs in
      match committed with
      | Err e => (self, fs, Err e)
      | Ok _ =>
          (mk_InstallationJournal (fingerprint self) (records self ++ [envelope]) (options self)
             (plan self), fs, Ok tt)
      end
  end.

(** *** Loading *)

Definition corrupt {A} : result A JournalError.t := Err (JournalError.new Code.JournalCorrupt).

(** The directory loop of [load_records]: stale temporary files are removed, checkpoint
    names are collected with their generation. *)
Fixpoint collect (n : nat) (entries : list (rstring * entry)) (fs : Fs.t)
  (paths : list (Z * rstring)) : Fs.t * result (list (Z * rstring)) JournalError.t :=
  match entries with
  | [] => (fs, Ok paths)
  | (name, item) :: rest =>
      if name == LOCK then collect n rest fs paths
      else
        match strip_prefix CHECKPOINT name with
        | None => (fs, corrupt)
        | Some tail =>
            if is_some (strip_suffix (lit ".tmp") name) then
              match io n CheckStale with
              | Err e => (fs, Err e)
              | Ok _ =>
                  match item with
                  | Irregular => (fs, corrupt)
                  | Regular _ =>
                      match io n RemoveStale with
                      | Err e => (fs, Err e)
                      | Ok _ =>
                          collect n rest (Fs.with_files (delete name (Fs.files fs)) fs) paths
                      end
                  end
              end
            else
              match strip_suffix (lit ".json") tail with
              | None => (fs, corrupt)
              | Some digits =>
                  match io n CheckCheckpoint with
                  | Err e => (fs, Err e)
                  | Ok _ =>
                      match Decimal.u64_from_str digits with
                      | None => (fs, corrupt)
                      | Some generation => collect n rest fs (paths ++ [(generation, name)])
                      end
                  end
              end
        end
  end.

(** The checks of one checkpoint against the records before it. *)
Definition check_envelope (fingerprint : rstring) (records : list Envelope.t) (generation : Z)
  (envelope : Envelope.t) : result unit JournalError.t :=
  if Envelope.schema_version envelope != JOURNAL_SCHEMA_VERSION
  then Err (JournalError.new Code.JournalUnsupportedSchema)
  else if Envelope.generation envelope != generation then corrupt
  else if Envelope.plan_fingerprint_sha256 envelope != fingerprint
  then Err (JournalError.new Code.JournalPlanMismatch)
  else if Envelope.previous_record_sha256 envelope
            != option_map Envelope.record_sha256 (last records) then corrupt
  else
    let? bytes := ok_or (hash_input_to_vec
                           (HashInput.mk (Envelope.schema_version envelope) generation
                              (Envelope.plan_fingerprint_sha256 envelope)
                              (Envelope.previous_record_sha256 envelope)
                              (Envelope.record envelope)))
                    (JournalError.new Code.JournalCorrupt) in
    if Envelope.record_sha256 envelope != hex_hash bytes then corrupt else Ok tt.

(** The loop of [load_records] over the sorted checkpoints. *)
Fixpoint read_checkpoints (n : nat) (files : gmap rstring entry) (fingerprint : rstring)
  (paths : list (Z * rstring)) (records : list Envelope.t) :
  result (list Envelope.t) JournalError.t :=
  match paths with
  | [] => Ok records
  | (generation, name) :: rest =>
      if generation != len records then corrupt
      else
        let? _ := io n (ReadCheckpoint generation) in
        match files !! name with
        | None => Err (JournalError.new Code.JournalIoFailed)
        | Some Irregular => corrupt
        | Some (Regular bytes) =>
            if MAX_CHECKPOINT_BYTES <? len bytes
            then Err (JournalError.new Code.JournalLimitExceeded)
            else
              let? envelope := ok_or (envelope_from_slice bytes)
                                 (JournalError.new Code.JournalCorrupt) in
              let? _ := check_envelope fingerprint records generation envelope in
              read_checkpoints n files fingerprint rest (records ++ [envelope])
        end
  end.

Definition load_records (n : nat) (fs : Fs.t) (fingerprint : rstring) (plan : Plan.t) :
  Fs.t * result (list Envelope.t) JournalError.t :=
  match io n ReadDirectory with
  | Err e => (fs, Err e)
  | Ok _ =>
      let '(fs, collected) := collect n (map_to_list (Fs.files fs)) fs [] in
      (fs,
       let? paths := collected in
       let paths := merge_sort generation_le paths in
       if MAX_CHECKPOINT_RECORDS <? len paths
       then Err (JournalError.new Code.JournalLimitExceeded)
       else
         let? records := read_checkpoints n (Fs.files fs) fingerprint paths [] in
         if negb (is_empty records) then
           let? _ := Replay.replay plan records in Ok records
         else Ok records)
  end.

(** *** Opening *)

(** [validate_id] *)
Definition validate_id (id : rstring) : result unit JournalError.t :=
  if is_empty id || (id == lit ".") || (id == lit "..")
     || negb (forallb (fun b => is_ascii_lowercase b || is_ascii_digit b
                                || (b =? 46) || (b =? 45)) id)
  then corrupt else Ok tt.

(** The directory part of [open_with_options]: it exists afterwards and is locked. *)
Definition enter_directory (n : nat) (mode : JournalMode) (fs : Fs.t) :
  Fs.t * result unit JournalError.t :=
  let checked :=
    let? _ := io n CheckRoot in
    let? _ := io n CheckDirectory in
    match mode, Fs.present fs with
    | ResumeExisting, false => Err (JournalError.new Code.JournalMissing)
    | StartNew, false => io n CreateDirectory
    | _, true => Ok tt
    end in
  match checked with
  | Err e => (fs, Err e)
  | Ok _ =>
      let fs := if Fs.present fs then fs else Fs.create fs in
      match io n OpenLock with
      | Err e => (fs, Err e)
      | Ok _ =>
          (match Fs.files fs !! LOCK with
           | Some _ => fs
           | None => Fs.with_files (<[LOCK := Regular []]> (Fs.files fs)) fs
           end, Ok tt)
      end
  end.

(** [InstallationJournal::open_with_options] *)
Definition open_with_options (fs : Fs.t) (plan : Plan.t) (mode : JournalMode)
  (options : JournalOptions) : Fs.t * result InstallationJournal JournalError.t :=
  let n := Fs.ops fs in
  let fs := Fs.tick fs in
  match validate_id (Plan.plan_id plan) with
  | Err e => (fs, Err e)
  | Ok _ =>
  let '(fs, entered) := enter_directory n mode fs in
  match entered with
  | Err e => (fs, Err e)
  | Ok _ =>
  match plan_fingerprint plan with
  | Err e => (fs, Err e)
  | Ok fingerprint =>
  let '(fs, loaded) := load_records n fs fingerprint plan in
  (fs,
   let? records := loaded in
   match mode with
   | StartNew => if negb (is_empty records)
                 then Err (JournalError.new Code.ActiveTransactionExists)
                 else Ok (mk_InstallationJournal fingerprint records options plan)
   | ResumeExisting => if is_empty records then corrupt
                       else Ok (mk_InstallationJournal fingerprint records options plan)
   end)
  end end end.

(** ** Journaled execution *)

Definition journal_stop (code : Code.t) : Execution.t :=
  Execution.mk (match code with
                | Code.JournalBusy => Disposition.JournalBusy
                | Code.JournalDiskFull => Disposition.ReplanRequired
                | Code.JournalCorrupt | Code.JournalUnsupportedSchema
                | Code.JournalLimitExceeded => Disposition.JournalCorrupt
                | _ => Disposition.InspectionRequired
                end) false (Some code).

Definition journal_recovery_stop (code : Code.t) : Execution.t :=
  Execution.mk Disposition.InspectionRequired false (Some code).

Definition inspection : Execution.t :=
  Execution.mk Disposition.InspectionRequired false (Some Code.RecoveryInspectionRequired).

Definition replan : Execution.t := Execution.mk Disposition.ReplanRequired false None.

Section Executor.
Context {A : Type} `{InstallationAdapter A}.

(** The loop of [journal_fail_with_compensation]. *)
Fixpoint journal_compensate (chosen : list Effect.t) (journal : InstallationJournal) (fs : Fs.t)
  (adapter : A) (disposition : Disposition.t) : Execution.t * A * Fs.t :=
  match chosen with
  | [] => (Execution.mk disposition false None, adapter, fs)
  | effect :: rest =>
      let '(journal, fs, started) :=
        append journal fs (JournalRecord.CompensationStarted (Effect.effect_id effect)) in
      match started with
      | Err error => (journal_recovery_stop (JournalError.code error), adapter, fs)
      | Ok _ =>
          let '(ok, adapter) := compensate_effect effect adapter in
          let '(ok, adapter) := if ok then verify_compensation effect adapter
                                else (false, adapter) in
          if negb ok then (inspection, adapter, fs)
          else
            let '(journal, fs, finished) :=
              append journal fs (JournalRecord.CompensationVerified (Effect.effect_id effect)) in
            match finished with
            | Err error => (journal_recovery_stop (JournalError.code error), adapter, fs)
            | Ok _ => journal_compensate rest journal fs adapter disposition
            end
      end
  end.

Definition journal_fail_with_compensation (journal : InstallationJournal) (fs : Fs.t)
  (applied : list Effect.t) (adapter : A) (disposition : Disposition.t) :
  Execution.t * A * Fs.t :=
  let '(chosen, adapter) := compensation_candidates applied adapter in
  journal_compensate chosen journal fs adapter disposition.

(** Records an outcome, then compensates. *)
Definition record_and_compensate (journal : InstallationJournal) (fs : Fs.t)
  (effect : Effect.t) (outcome : EffectResultState.t) (applied : list Effect.t) (adapter : A)
  (disposition : Disposition.t) : Execution.t * A * Fs.t :=
  let '(journal, fs, recorded) :=
    append journal fs (JournalRecord.EffectOutcome (Effect.effect_id effect) outcome) in
  match recorded with
  | Err e => (journal_recovery_stop (JournalError.code e), adapter, fs)
  | Ok _ => journal_fail_with_compensation journal fs applied adapter disposition
  end.

(** The loop of [execute_journaled_with_options], and what follows it; [state] is the
    state replayed when the journal was opened. *)
Fixpoint journaled_effects (plan : Plan.t) (state : Replay.t) (effects applied : list Effect.t)
  (disposition : Disposition.t) (journal : InstallationJournal) (fs : Fs.t) (adapter : A) :
  Execution.t * A * Fs.t :=
  match effects with
  | [] =>
      let '(ok, adapter) := verify_installation plan adapter in
      if negb ok then (inspection, adapter, fs)
      else
        let '(journal, fs, verified) :=
          if negb (Replay.final_verified state)
          then append journal fs JournalRecord.FinalVerificationSucceeded
          else (journal, fs, Ok tt) in
        match verified with
        | Err e => (journal_recovery_stop (JournalError.code e), adapter, fs)
        | Ok _ =>
            let '(journal, fs, completed) :=
              append journal fs JournalRecord.TransactionCompleted in
            match completed with
            | Err e => (journal_recovery_stop (JournalError.code e), adapter, fs)
            | Ok _ => (Execution.mk disposition true None, adapter, fs)
            end
        end
  | effect :: rest =>
      let id := Effect.effect_id effect in
      match Replay.effects state !! id with
      | Some Verified =>
          let '(ok, adapter) := verify_effect effect adapter in
          if negb ok
          then (Execution.mk Disposition.ReplanRequired false
                  (Some Code.RecoveryInspectionRequired), adapter, fs)
          else journaled_effects plan state rest (applied ++ [effect]) disposition journal fs
                 adapter
      | Some MutationStarted =>
          let '(reconciled, adapter) := reconcile_unknown effect adapter in
          match reconciled with
          | ReconciliationOutcome.VerifiedApplied =>
              let '(ok, adapter) := verify_effect effect adapter in
              if negb ok then (inspection, adapter, fs)
              else
                let '(journal, fs, recorded) :=
                  append journal fs (JournalRecord.EffectVerified id JournalVerifiedSuccess) in
                match recorded with
                | Err e => (journal_recovery_stop (JournalError.code e), adapter, fs)
                | Ok _ =>
                    journaled_effects plan state rest (applied ++ [effect])
                      Disposition.ReconciledApplied journal fs adapter
                end
          | ReconciliationOutcome.VerifiedNotApplied => (replan, adapter, fs)
          | ReconciliationOutcome.StillUnknown =>
              (Execution.mk Disposition.StillUnknown false
                 (Some Code.RecoveryInspectionRequired), adapter, fs)
          end
      | Some Partial | Some CompensationStarted => (inspection, adapter, fs)
      | Some Compensated => (replan, adapter, fs)
      | Some FailureBeforeMutation => (replan, adapter, fs)
      | None =>
          let '(available, adapter) := privilege_available (Effect.privilege effect) adapter in
          let '(ready, adapter) := if available then inspect_preconditions effect adapter
                                   else (false, adapter) in
          if negb ready
          then journal_fail_with_compensation journal fs applied adapter
                 Disposition.ReplanRequired
          else
          let '(journal, fs, started) :=
            append journal fs (JournalRecord.EffectMutationStarted id) in
          match started with
          | Err e => (journal_stop (JournalError.code e), adapter, fs)
          | Ok _ =>
          let '(outcome, adapter) := apply_effect effect adapter in
          match outcome with
          | ApplyOutcome.Success | ApplyOutcome.Noop =>
              let '(ok, adapter) := verify_effect effect adapter in
              if negb ok
              then record_and_compensate journal fs effect
                     EffectResultState.KnownPartialMutation applied adapter
                     Disposition.InspectionRequired
              else
                let verified_result := match outcome with
                                       | ApplyOutcome.Noop => JournalVerifiedNoop
                                       | _ => JournalVerifiedSuccess
                                       end in
                let '(journal, fs, recorded) :=
                  append journal fs (JournalRecord.EffectVerified id verified_result) in
                match recorded with
                | Err e => (journal_recovery_stop (JournalError.code e), adapter, fs)
                | Ok _ =>
                    journaled_effects plan state rest (applied ++ [effect]) disposition journal fs
                      adapter
                end
          | ApplyOutcome.FailureBeforeMutation =>
              record_and_compensate journal fs effect EffectResultState.FailureBeforeMutation
                applied adapter Disposition.ReplanRequired
          | ApplyOutcome.KnownPartialMutation =>
              record_and_compensate journal fs effect EffectResultState.KnownPartialMutation
                applied adapter Disposition.InspectionRequired
          | ApplyOutcome.OutcomeUnknown =>
              let '(reconciled, adapter) := reconcile_unknown effect adapter in
              let '(confirmed, adapter) :=
                match reconciled with
                | ReconciliationOutcome.VerifiedApplied => verify_effect effect adapter
                | _ => (false, adapter)
                end in
              match reconciled, confirmed with
              | ReconciliationOutcome.VerifiedApplied, true =>
                  let '(journal, fs, recorded) :=
                    append journal fs (JournalRecord.EffectVerified id JournalVerifiedSuccess) in
                  match recorded with
                  | Err e => (journal_recovery_stop (JournalError.code e), adapter, fs)
                  | Ok _ =>
                      journaled_effects plan state rest (applied ++ [effect])
                        Disposition.ReconciledApplied journal fs adapter
                  end
              | ReconciliationOutcome.VerifiedNotApplied, _ => (replan, adapter, fs)
              | _, _ =>
                  journal_fail_with_compensation journal fs applied adapter
                    Disposition.InspectionRequired
              end
          end
          end
      end
  end.

(** [InstallerEngine::execute_journaled_with_options] *)
Definition execute_journaled_with_options (request : Request.t) (plan : Plan.t) (adapter : A)
  (fs : Fs.t) (mode : JournalMode) (options : JournalOptions) : Execution.t * A * Fs.t :=
  match validate request plan with
  | Err _ => (journal_stop Code.JournalPlanMismatch, adapter, fs)
  | Ok _ =>
  let '(fs, opened) := open_with_options fs plan mode options in
  match opened with
  | Err e => (journal_stop (JournalError.code e), adapter, fs)
  | Ok journal =>
  let '(journal, fs, started) :=
    match mode with
    | StartNew => append journal fs (JournalRecord.TransactionOpened (Plan.plan_id plan)
                                       (Plan.intent plan) (Plan.target_scope plan))
    | ResumeExisting => (journal, fs, Ok tt)
    end in
  match started with
  | Err e => (journal_stop (JournalError.code e), adapter, fs)
  | Ok _ =>
  match Replay.replay plan (records journal) with
  | Err e => (journal_stop (JournalError.code e), adapter, fs)
  | Ok state =>
      if Replay.completed state
      then (Execution.mk Disposition.AlreadyCompleted true None, adapter, fs)
      else
        let disposition := match mode with
                           | StartNew => Disposition.Fresh
                           | ResumeExisting => Disposition.ResumeReady
                           end in
        journaled_effects plan state (Plan.ordered_effects plan) [] disposition journal fs adapter
  end end end end.

Definition execute_journaled (request : Request.t) (plan : Plan.t) (adapter : A) (fs : Fs.t)
  (mode : JournalMode) : Execution.t * A * Fs.t :=
  execute_journaled_with_options request plan adapter fs mode default_options.

End Executor.
End Journal.
