(* ===== verification/JournalFacts.v ===== *)
(** * What the installation journal guarantees

    The checkpoint files and the records they hold, the effect of one [append] whatever
    the system answers, and the guarantees over whole histories of runs, failures,
    restarts and losses of power: every effect is mutated and compensated at most once,
    a journal is always recoverable, and completion is final. *)

From S2P Require Import Prelude Values Install InstallFacts InstallJournal.

(** ** Names of checkpoints *)

Lemma strip_suffix_Some p s r : strip_suffix p s = Some r <-> s = r ++ p.
Proof.
  unfold strip_suffix. destruct (strip_prefix (reverse p) (reverse s)) as [x|] eqn:E; cbn.
  - apply strip_prefix_Some in E. split.
    + intros [= <-]. rewrite <- (reverse_involutive s), E, reverse_app, reverse_involutive. done.
    + intros ->. rewrite reverse_app in E. apply app_inv_head in E as <-.
      by rewrite reverse_involutive.
  - split; [done|]. intros ->. rewrite reverse_app, strip_prefix_app in E. done.
Qed.

Lemma value_from_zeros n s : Decimal.value_from 0 (replicate n 48 ++ s) = Decimal.value_from 0 s.
Proof. induction n as [|n IH]; [done|exact IH]. Qed.

Lemma padded_digits n : 0 <= n -> forallb is_ascii_digit (padded n) = true.
Proof.
  intros Hn. unfold padded, Decimal.fmt. rewrite forallb_app, Decimal.digits_digit by done.
  rewrite andb_true_r. by induction (16 - _)%nat.
Qed.

Lemma padded_parse n : 0 <= n <= u64_max -> Decimal.u64_from_str (padded n) = Some n.
Proof.
  intros Hn. pose proof (padded_digits n ltac:(lia)) as Hd.
  assert (padded n <> []) as Hne.
  { unfold padded. intros [_ E]%app_eq_nil. unfold Decimal.fmt in E. cbn in E.
    destruct (n <? 10); [done|]. by apply app_eq_nil in E as [_ ?]. }
  rewrite Decimal.u64_from_str_digits by done.
  apply Decimal.parse_digits_spec; [unfold u64_max; lia|]. split; [done|].
  unfold padded. rewrite value_from_zeros. unfold Decimal.fmt.
  rewrite Decimal.digits_value; [lia|]. unfold u64_max in Hn. lia.
Qed.

Lemma final_name_inj j k :
  0 <= j <= u64_max -> 0 <= k <= u64_max -> final_name j = final_name k -> j = k.
Proof.
  intros Hj Hk E. unfold final_name in E. apply app_inv_head, app_inv_tail in E.
  apply (f_equal Decimal.u64_from_str) in E. rewrite !padded_parse in E by done. by simplify_eq.
Qed.

Lemma json_not_tmp x y : x ++ lit ".json" <> y ++ lit ".tmp".
Proof. intros E. apply (f_equal last) in E. by rewrite !last_app in E. Qed.

Lemma final_not_temp j k : final_name j <> temp_name k.
Proof. unfold final_name, temp_name. rewrite !app_assoc. apply json_not_tmp. Qed.

Lemma lock_not_checkpoint s : LOCK <> CHECKPOINT ++ s.
Proof. done. Qed.

Lemma temp_strip k :
  strip_prefix CHECKPOINT (temp_name k) = Some (padded k ++ lit ".tmp") /\
  is_some (strip_suffix (lit ".tmp") (temp_name k)) = true /\
  strip_suffix (lit ".json") (padded k ++ lit ".tmp") = None.
Proof.
  split_and!; [apply strip_prefix_app| |].
  - unfold temp_name. rewrite app_assoc.
    by rewrite (proj2 (strip_suffix_Some (lit ".tmp") (_ ++ lit ".tmp") _) eq_refl).
  - destruct (strip_suffix _ _) as [r|] eqn:E; [|done].
    apply strip_suffix_Some in E. by apply eq_sym, json_not_tmp in E.
Qed.

Lemma final_strip k :
  strip_prefix CHECKPOINT (final_name k) = Some (padded k ++ lit ".json") /\
  is_some (strip_suffix (lit ".tmp") (final_name k)) = false /\
  strip_suffix (lit ".json") (padded k ++ lit ".json") = Some (padded k).
Proof.
  split_and!; [apply strip_prefix_app| |by apply strip_suffix_Some].
  destruct (strip_suffix _ _) as [r|] eqn:E; [|done]. apply strip_suffix_Some in E.
  unfold final_name in E. rewrite app_assoc in E. by apply json_not_tmp in E.
Qed.

#[global] Arguments final_name : simpl never.
#[global] Arguments temp_name : simpl never.

(** Whether the updated key is the one looked up. *)
Ltac lookup_cases id :=
  match goal with |- context [lookup id (insert ?i _ _)] => destruct (decide (i = id)) as [->|?] end;
  repeat first [rewrite lookup_insert_eq | rewrite lookup_insert_ne by done].

(** ** The files of a journal *)

(** The library round trip the journal relies on. *)
Class JournalCodecLaws `{JournalCodec} := {
  envelope_roundtrip e bytes :
    envelope_to_vec e = Some bytes -> envelope_from_slice bytes = Some e }.

Section Facts.
Context `{JournalCodecLaws} `{Os}.

(** [name] is the checkpoint of the [k]-th record and [e] its content. *)
Definition checkpoint (rs : list Envelope.t) (k : nat) (name : rstring) (e : entry) : Prop :=
  exists env bytes, rs !! k = Some env /\ envelope_to_vec env = Some bytes /\
    len bytes <= MAX_CHECKPOINT_BYTES /\ name = final_name (Z.of_nat k) /\ e = Regular bytes.

(** Beside the lock and unfinished files, a directory holds checkpoints of [rs]. *)
Definition stored (files : gmap rstring entry) (rs : list Envelope.t) : Prop :=
  forall name e, files !! name = Some e ->
    name = LOCK \/ (exists k b, name = temp_name k /\ e = Regular b) \/
    (exists k, checkpoint rs k name e).

(** The directory of a transaction: [rs] are the records whose checkpoints may be
    found in it, the first [d] of them durably. *)
Record fs_ok (fs : Fs.t) (rs : list Envelope.t) (d : nat) : Prop := {
  ok_files : stored (Fs.files fs) rs;
  ok_durable : stored (Fs.durable fs) rs;
  ok_kept : forall k : nat, is_Some (Fs.durable fs !! final_name (Z.of_nat k)) ->
    is_Some (Fs.files fs !! final_name (Z.of_nat k));
  ok_has : forall k, (k < d)%nat -> is_Some (Fs.durable fs !! final_name (Z.of_nat k));
  ok_bound : len rs <= MAX_CHECKPOINT_RECORDS;
  ok_prefix : (d <= length rs)%nat }.

(** All checkpoints of [rs] are present. *)
Definition whole (files : gmap rstring entry) (rs : list Envelope.t) : Prop :=
  forall k, (k < length rs)%nat -> is_Some (files !! final_name (Z.of_nat k)).

(** *** Reading the directory *)

(** What [collect] leaves of the files: only unfinished ones are removed. *)
Definition swept (files files' : gmap rstring entry) : Prop :=
  forall name, files' !! name = files !! name \/
    (files' !! name = None /\ exists k, name = temp_name k).

Lemma swept_refl files : swept files files.
Proof. intros name. by left. Qed.

(** The generation a directory entry is the checkpoint of. *)
Definition generation_of (name : rstring) : option Z :=
  let* tail := strip_prefix CHECKPOINT name in
  let* digits := strip_suffix (lit ".json") tail in
  Decimal.u64_from_str digits.

Fixpoint generations (entries : list (rstring * entry)) : list (Z * rstring) :=
  match entries with
  | [] => []
  | (name, _) :: rest =>
      match generation_of name with
      | Some g => (g, name) :: generations rest
      | None => generations rest
      end
  end.

Lemma generation_of_temp k : generation_of (temp_name k) = None.
Proof. unfold generation_of. destruct (temp_strip k) as (-> & _ & ->). done. Qed.

Lemma generation_of_final k : 0 <= k <= u64_max -> generation_of (final_name k) = Some k.
Proof. unfold generation_of. destruct (final_strip k) as (-> & _ & ->). apply padded_parse. Qed.

Lemma collect_spec n entries fs paths fs' r :
  (forall x, x ∈ entries -> x.1 = LOCK \/ (exists k b, x.1 = temp_name k /\ x.2 = Regular b) \/
     exists k : nat, x.1 = final_name (Z.of_nat k) /\ Z.of_nat k <= u64_max) ->
  collect n entries fs paths = (fs', r) ->
  swept (Fs.files fs) (Fs.files fs') /\ Fs.durable fs' = Fs.durable fs /\
  Fs.present fs' = Fs.present fs /\ Fs.ops fs' = Fs.ops fs /\
  (forall ps, r = Ok ps -> ps = paths ++ generations entries) /\
  ((forall p, os_answer n p = None) -> exists ps, r = Ok ps).
Proof.
  revert fs paths. induction entries as [|[name item] entries IH]; intros fs paths Hent E.
  - cbn in E. simplify_eq. split_and!; try done; [apply swept_refl| |by eexists].
    intros ? [= ->]. by rewrite app_nil_r.
  - assert (forall x, x ∈ entries -> x.1 = LOCK \/ (exists k b, x.1 = temp_name k /\ x.2 = Regular b)
      \/ exists k : nat, x.1 = final_name (Z.of_nat k) /\ Z.of_nat k <= u64_max) as Hent'
      by (intros; apply Hent; by right).
    destruct (Hent (name, item) ltac:(by left)) as [E1|[(k & b & E1 & E2)|(k & E1 & Hk)]];
      cbn [fst snd] in *; subst.
    + cbn [collect] in E. rewrite bool_decide_true in E by done. apply (IH fs paths Hent' E).
    + destruct (temp_strip k) as (T1 & T2 & T3). cbn [collect] in E.
      rewrite bool_decide_false in E by (by intros ?%eq_sym%lock_not_checkpoint).
      rewrite T1, T2 in E. cbn [generations]. rewrite generation_of_temp.
      unfold io in E. destruct (os_answer n CheckStale) as [c|] eqn:O1.
      { simplify_eq. split_and!; try done; [apply swept_refl|]. intros Ho. by rewrite Ho in O1. }
      destruct (os_answer n RemoveStale) as [c|] eqn:O2.
      { simplify_eq. split_and!; try done; [apply swept_refl|]. intros Ho. by rewrite Ho in O2. }
      apply IH in E as (Hs & ? & ? & ? & ? & ?); [|done]. split_and!; try done.
      intros name. destruct (Hs name) as [Hn|[Hn ?]]; [|by right]. cbn in Hn.
      destruct (decide (name = temp_name k)) as [->|Hne].
      * right. rewrite lookup_delete_eq in Hn. eauto.
      * left. by rewrite lookup_delete_ne in Hn.
    + destruct (final_strip (Z.of_nat k)) as (T1 & T2 & T3). cbn [collect] in E.
      rewrite bool_decide_false in E by (by intros ?%eq_sym%lock_not_checkpoint).
      rewrite T1, T2, T3, padded_parse in E by lia. cbn [generations].
      rewrite generation_of_final by lia.
      unfold io in E. destruct (os_answer n CheckCheckpoint) as [c|] eqn:O1.
      { simplify_eq. split_and!; try done; [apply swept_refl|]. intros Ho. by rewrite Ho in O1. }
      apply IH in E as (? & ? & ? & ? & Hps & ?); [|done]. split_and!; try done.
      intros ps ->. rewrite (Hps ps eq_refl), <- app_assoc. done.
Qed.

Lemma elem_generations g name entries :
  (g, name) ∈ generations entries <->
  generation_of name = Some g /\ exists e, (name, e) ∈ entries.
Proof.
  induction entries as [|[x e] entries IH]; cbn [generations]; [set_solver|].
  destruct (generation_of x) as [g'|] eqn:E.
  - rewrite elem_of_cons, IH. setoid_rewrite elem_of_cons. naive_solver.
  - rewrite IH. setoid_rewrite elem_of_cons. naive_solver.
Qed.

Lemma checkpoint_bound rs k name e :
  len rs <= MAX_CHECKPOINT_RECORDS -> checkpoint rs k name e -> 0 <= Z.of_nat k <= u64_max.
Proof.
  intros Hb (env & bytes & Hk & _). apply lookup_lt_Some in Hk.
  unfold len, MAX_CHECKPOINT_RECORDS, u64_max in *. lia.
Qed.

(** A stored name with a generation is that record's checkpoint. *)
Lemma stored_generation files rs name e g :
  stored files rs -> len rs <= MAX_CHECKPOINT_RECORDS -> files !! name = Some e ->
  generation_of name = Some g -> exists k, g = Z.of_nat k /\ checkpoint rs k name e.
Proof.
  intros Hs Hb Hn Hg. destruct (Hs name e Hn) as [->|[(k & b & -> & ->)|(k & Hk)]].
  - done.
  - by rewrite generation_of_temp in Hg.
  - exists k. split; [|done]. pose proof (checkpoint_bound _ _ _ _ Hb Hk) as Hkb.
    destruct Hk as (env & bytes & _ & _ & _ & -> & _).
    rewrite generation_of_final in Hg by done. by simplify_eq.
Qed.

Lemma read_spec n files fp paths rs m rs' :
  stored files rs -> len rs <= MAX_CHECKPOINT_RECORDS -> (m <= length rs)%nat ->
  (forall p, p ∈ paths -> generation_of p.2 = Some p.1) ->
  read_checkpoints n files fp paths (take m rs) = Ok rs' ->
  rs' = take (m + length paths) rs /\ (m + length paths <= length rs)%nat /\
  (forall i p, paths !! i = Some p -> p.1 = Z.of_nat (m + i)).
Proof.
  intros Hs Hb. revert m. induction paths as [|[g name] paths IH]; intros m Hm Hg E.
  - cbn in E. simplify_eq. rewrite Nat.add_0_r. by split_and!.
  - cbn [read_checkpoints] in E. destruct (g != _) eqn:Eg; [done|]. rust_bool.
    unfold len in Eg. rewrite length_take, Nat.min_l in Eg by done.
    destruct (io _ _) as [_|]; [|done]. destruct (files !! name) as [[bytes|]|] eqn:Ef; try done.
    destruct (_ <? _); [done|].
    destruct (stored_generation files rs name (Regular bytes) g) as (k & Ek & Hk);
      [done..|by apply (Hg (g, name)); left|].
    assert (k = m) as -> by lia. destruct Hk as (env & bytes' & Hk & Hv & _ & -> & [= <-]).
    rewrite (envelope_roundtrip env bytes Hv) in E. cbn [ok_or] in E.
    destruct (check_envelope _ _ _ _); [|done].
    rewrite <- (take_S_r _ _ _ Hk) in E. apply lookup_lt_Some in Hk.
    apply IH in E as (-> & Hl & Hi); [|lia|by intros; apply Hg; right]. cbn [length].
    rewrite !Nat.add_succ_r. split_and!; [done|lia|].
    intros [|i] p Hp; cbn in Hp; [simplify_eq; cbn; lia|]. rewrite (Hi i p Hp). lia.
Qed.

Lemma sorted_elem (x : Z * rstring) l : x ∈ merge_sort generation_le l <-> x ∈ l.
Proof. by rewrite (merge_sort_Permutation generation_le l). Qed.

Lemma stored_entries files rs x :
  stored files rs -> len rs <= MAX_CHECKPOINT_RECORDS -> x ∈ map_to_list files ->
  x.1 = LOCK \/ (exists k b, x.1 = temp_name k /\ x.2 = Regular b) \/
  exists k : nat, x.1 = final_name (Z.of_nat k) /\ Z.of_nat k <= u64_max.
Proof.
  intros Hf Hb. destruct x as [name e]. intros Hx%elem_of_map_to_list. cbn.
  destruct (Hf name e Hx) as [|[|(k & Hkc)]]; auto.
  right. right. exists k. pose proof (checkpoint_bound _ _ _ _ Hb Hkc) as Hkb.
  destruct Hkc as (? & ? & _ & _ & _ & -> & _). split; [done|lia].
Qed.

Lemma swept_stored files files' rs : swept files files' -> stored files rs -> stored files' rs.
Proof.
  intros Hsw Hs name e Hn. destruct (Hsw name) as [E|[E _]]; [|congruence].
  apply Hs. by rewrite <- E.
Qed.

Lemma swept_final files files' k :
  swept files files' -> files' !! final_name k = files !! final_name k.
Proof.
  intros Hsw. destruct (Hsw (final_name k)) as [|[_ [j E]]]; [done|]. by apply final_not_temp in E.
Qed.

(** The sorted checkpoint list of a stored directory: exactly the generations of its
    checkpoints. *)
Definition listing (files : gmap rstring entry) : list (Z * rstring) :=
  merge_sort generation_le (generations (map_to_list files)).

Lemma elem_listing files rs p :
  stored files rs -> len rs <= MAX_CHECKPOINT_RECORDS ->
  p ∈ listing files <->
  exists k, p = (Z.of_nat k, final_name (Z.of_nat k)) /\ (k < length rs)%nat /\
    is_Some (files !! final_name (Z.of_nat k)).
Proof.
  intros Hs Hb. destruct p as [g name]. unfold listing. rewrite sorted_elem, elem_generations.
  setoid_rewrite elem_of_map_to_list. split.
  - intros (Hg & e & Hn). destruct (stored_generation _ _ _ _ _ Hs Hb Hn Hg) as (k & -> & Hk).
    exists k. destruct Hk as (env & bytes & Hk & _ & _ & -> & _).
    apply lookup_lt_Some in Hk. split_and!; [done|done|by eexists].
  - intros (k & [= -> ->] & Hk & [e He]). split; [|by exists e]. apply generation_of_final.
    unfold len, MAX_CHECKPOINT_RECORDS, u64_max in *. lia.
Qed.

(** Reading a directory succeeds only when its checkpoints are a prefix of the records. *)
Lemma listing_read n files files' fp rs rs1 :
  stored files rs -> len rs <= MAX_CHECKPOINT_RECORDS -> swept files files' ->
  read_checkpoints n files' fp (listing files) [] = Ok rs1 ->
  exists m, rs1 = take m rs /\ (m <= length rs)%nat /\
    forall k, (k < length rs)%nat -> is_Some (files !! final_name (Z.of_nat k)) <-> (k < m)%nat.
Proof.
  intros Hf Hb Hsw Er. pose proof (fun p => elem_listing files rs p Hf Hb) as Hel.
  destruct (read_spec n files' fp (listing files) rs 0 rs1) as (Ers & Hlen & Hidx);
    [by eapply swept_stored|done|apply Nat.le_0_l| |done|].
  { intros p (k & -> & Hkl & _)%Hel. apply generation_of_final. cbn [fst].
    unfold len, MAX_CHECKPOINT_RECORDS, u64_max in *. lia. }
  exists (length (listing files)). split_and!; [done|done|]. intros k Hk. split.
  - intros Hs. assert ((Z.of_nat k, final_name (Z.of_nat k)) ∈ listing files) as Hx
      by (apply Hel; eauto).
    apply list_elem_of_lookup in Hx as [i Hi]. pose proof (Hidx i _ Hi). apply lookup_lt_Some in Hi.
    cbn in *. lia.
  - intros [p Hi]%lookup_lt_is_Some. pose proof (Hidx k p Hi) as E.
    apply list_elem_of_lookup_2, Hel in Hi as (j & -> & _ & Hj). cbn in E.
    by replace (Z.of_nat k) with (Z.of_nat j).
Qed.

(** A shorter list of records stores the same files, if they are within it. *)
Lemma stored_take files rs m :
  stored files rs ->
  (forall k, (k < length rs)%nat -> is_Some (files !! final_name (Z.of_nat k)) -> (k < m)%nat) ->
  stored files (take m rs).
Proof.
  intros Hs Hm name e Hn. destruct (Hs name e Hn) as [|[|(k & env & bytes & Hk & ? & ? & -> & ->)]];
    [auto..|].
  right. right. exists k, env, bytes. split_and!; try done. rewrite lookup_take_lt; [done|].
  apply Hm; [by eapply lookup_lt_Some|by eexists].
Qed.

(** Loading returns a prefix of the records that contains the durable ones, and leaves
    exactly that prefix in the directory. *)
Lemma load_spec n fs fp plan rs d fs' rs' :
  fs_ok fs rs d -> load_records n fs fp plan = (fs', Ok rs') ->
  exists m, rs' = take m rs /\ (d <= m <= length rs)%nat /\ fs_ok fs' rs' d /\
    whole (Fs.files fs') rs' /\ (rs' = [] \/ exists st, Replay.replay plan rs' = Ok st) /\
    (whole (Fs.files fs) rs -> m = length rs).
Proof.
  intros [Hf Hd Hk Hh Hb Hp] E. unfold load_records in E. destruct (io _ _); [|done].
  destruct (collect n (map_to_list (Fs.files fs)) fs []) as [fs1 r] eqn:Ec.
  injection E as <- E. destruct r as [paths|]; [|done].
  apply collect_spec in Ec as (Hsw & Edur & _ & _ & Hps & _); [|by intros x; apply (stored_entries _ rs)].
  specialize (Hps paths eq_refl). cbn in Hps. subst paths.
  fold (listing (Fs.files fs)) in *. destruct (_ <? _); [done|].
  destruct (read_checkpoints _ _ _ _ _) as [rs1|] eqn:Er; [|done].
  assert (rs' = rs1 /\ (rs1 = [] \/ exists st, Replay.replay plan rs1 = Ok st)) as [-> Hre].
  { destruct rs1 as [|env rs1]; cbn [is_empty negb] in E; [injection E as <-; auto|].
    destruct (Replay.replay plan (env :: rs1)) as [st|]; [|done]. injection E as <-. eauto. }
  destruct (listing_read _ _ _ _ _ _ Hf Hb Hsw Er) as (m & -> & Hm & Hin).
  assert (d <= m)%nat as Hdm.
  { destruct d as [|d]; [lia|]. apply Hin; [lia|]. apply Hk, Hh. lia. }
  exists m. split_and!; [done|lia|lia| | |done|].
  - split; rewrite ?Edur; try done.
    + apply stored_take; [by eapply swept_stored|]. intros k Hl Hs. apply Hin; [done|].
      by rewrite (swept_final _ _ _ Hsw) in Hs.
    + apply stored_take; [done|]. intros k Hl Hs. apply Hin; [done|auto].
    + intros k Hs. rewrite (swept_final _ _ _ Hsw). auto.
    + unfold len in *. rewrite length_take. lia.
    + rewrite length_take. lia.
  - intros k Hl. rewrite length_take in Hl. rewrite (swept_final _ _ _ Hsw). apply Hin; lia.
  - intros Hw. destruct (decide (m = length rs)) as [|Hne]; [done|].
    assert (m < m)%nat; [|lia]. apply Hin; [lia|]. apply Hw. lia.
Qed.

(** *** Writing a checkpoint *)

(** A directory that holds all checkpoints of [rs], the first [d] durably. *)
Definition holds (fs : Fs.t) (rs : list Envelope.t) (d : nat) : Prop :=
  fs_ok fs rs d /\ whole (Fs.files fs) rs.

Lemma stored_temp files rs k b :
  stored files rs -> stored (<[temp_name k := Regular b]> files) rs.
Proof.
  intros Hs name e [[<- <-]|[_ Hn]]%lookup_insert_Some; [|by apply Hs]. right. left. eauto.
Qed.

Lemma stored_delete files rs name : stored files rs -> stored (delete name files) rs.
Proof. intros Hs x e [_ Hn]%lookup_delete_Some. by apply Hs. Qed.

Lemma checkpoint_app rs env k name e : checkpoint rs k name e -> checkpoint (rs ++ [env]) k name e.
Proof.
  intros (x & bytes & Hk & ?). exists x, bytes. split; [|done].
  rewrite lookup_app_l; [done|]. by eapply lookup_lt_Some.
Qed.

Lemma stored_app files rs env : stored files rs -> stored files (rs ++ [env]).
Proof.
  intros Hs name e Hn. destruct (Hs name e Hn) as [|[|[k Hk]]]; [auto..|].
  right. right. exists k. by apply checkpoint_app.
Qed.

Lemma stored_final files rs env bytes :
  stored files rs -> envelope_to_vec env = Some bytes -> len bytes <= MAX_CHECKPOINT_BYTES ->
  stored (<[final_name (len rs) := Regular bytes]> files) (rs ++ [env]).
Proof.
  intros Hs Hv Hl name e [[<- <-]|[_ Hn]]%lookup_insert_Some; [|by apply (stored_app files rs env Hs)].
  right. right. exists (length rs), env, bytes. split_and!; try done.
  by rewrite lookup_app_r, Nat.sub_diag.
Qed.

(** Changing unfinished files only. *)
Lemma holds_with fs rs d files :
  holds fs rs d -> stored files rs ->
  (forall k, files !! final_name k = Fs.files fs !! final_name k) ->
  holds (Fs.with_files files fs) rs d.
Proof.
  intros [[Hf Hd Hk Hh Hb Hp] Hw] Hs E. split; [split; try done|]; cbn.
  - intros k Hx. rewrite E. auto.
  - intros k Hx. cbn. rewrite E. auto.
Qed.

Lemma holds_temp fs rs d k b :
  holds fs rs d -> holds (Fs.with_files (<[temp_name k := Regular b]> (Fs.files fs)) fs) rs d.
Proof.
  intros Hh. apply holds_with; [done|by apply stored_temp, Hh|].
  intros j. apply lookup_insert_ne. intros E. by apply eq_sym, final_not_temp in E.
Qed.

Lemma holds_untemp fs rs d k :
  holds fs rs d -> holds (Fs.with_files (delete (temp_name k) (Fs.files fs)) fs) rs d.
Proof.
  intros Hh. apply holds_with; [done|by apply stored_delete, Hh|].
  intros j. apply lookup_delete_ne. intros E. by apply eq_sym, final_not_temp in E.
Qed.

Lemma holds_final fs rs d env bytes :
  holds fs rs d -> envelope_to_vec env = Some bytes -> len bytes <= MAX_CHECKPOINT_BYTES ->
  len rs < MAX_CHECKPOINT_RECORDS ->
  holds (Fs.with_files (<[final_name (len rs) := Regular bytes]> (Fs.files fs)) fs)
    (rs ++ [env]) d.
Proof.
  intros [[Hf Hd Hk Hh Hb Hp] Hw] Hv Hl Hm. split; [split; cbn|].
  - by apply stored_final.
  - by apply stored_app.
  - intros k Hx. destruct (decide (final_name (len rs) = final_name (Z.of_nat k))) as [->|Hne].
    + rewrite lookup_insert_eq. eauto.
    + rewrite lookup_insert_ne by done. auto.
  - done.
  - unfold len in *. rewrite length_app. cbn. lia.
  - rewrite length_app. lia.
  - intros k Hx. rewrite length_app in Hx. cbn in Hx. cbn.
    destruct (decide (k = length rs)) as [->|Hne].
    + unfold len. rewrite lookup_insert_eq. eauto.
    + apply lookup_insert_is_Some'. right. apply Hw. lia.
Qed.

Lemma holds_sync fs rs d : holds fs rs d -> holds (Fs.sync fs) rs (length rs).
Proof. intros [[Hf Hd Hk Hh Hb Hp] Hw]. split; [split|]; done. Qed.

Lemma holds_weaken fs rs d d' : holds fs rs d -> (d' <= d)%nat -> holds fs rs d'.
Proof.
  intros [[Hf Hd Hk Hh Hb Hp] Hw] Hle. split; [split|]; try done; [|lia].
  intros k Hx. apply Hh. lia.
Qed.

Lemma holds_tick fs rs d : holds fs rs d -> holds (Fs.tick fs) rs d.
Proof. intros [[] Hw]. by split. Qed.

(** Whatever the system answers, a failed commit leaves the old records or the new one
    as well; a successful one leaves the new one durably. *)
Lemma commit_spec j n class env bytes fs rs d fs' r :
  holds fs rs d -> envelope_to_vec env = Some bytes -> len bytes <= MAX_CHECKPOINT_BYTES ->
  len rs < MAX_CHECKPOINT_RECORDS ->
  commit j n class (len rs) bytes fs = (fs', r) ->
  match r with
  | Ok _ => holds fs' (rs ++ [env]) (S (length rs))
  | Err _ => holds fs' rs d \/ holds fs' (rs ++ [env]) d
  end.
Proof.
  intros Hh Hv Hl Hm. unfold commit.
  set (g := len rs). set (temp := temp_name g). set (final := final_name g).
  destruct (let? _ := io n OpenTemp in _); [|by intros [= <- <-]; left].
  destruct (maybe_fail j class FaultPoint.DiskFull);
    [|intros [= <- <-]; left; by apply holds_temp].
  destruct (io n WriteTemp).
  2:{ intros [= <- <-]. left. by apply holds_temp, holds_temp. }
  set (fs1 := Fs.with_files _ (Fs.with_files _ _)).
  assert (holds fs1 rs d) as Hh1 by (by apply holds_temp, holds_temp).
  destruct (let? _ := maybe_fail j class FaultPoint.AfterWrite in _);
    [|by intros [= <- <-]; left].
  set (fs2 := Fs.with_files (<[final := _]> _) fs1).
  assert (holds fs2 (rs ++ [env]) d) as Hh2 by (by apply holds_final).
  destruct (io n RemoveTemp); [|by intros [= <- <-]; right].
  set (fs3 := Fs.with_files _ fs2).
  assert (holds fs3 (rs ++ [env]) d) as Hh3 by (by apply holds_untemp).
  destruct (let? _ := maybe_fail j class FaultPoint.AfterCommit in _);
    [|by intros [= <- <-]; right].
  intros [= <- <-]. pose proof (holds_sync _ _ _ Hh3) as Hh4. rewrite length_app in Hh4.
  cbn [length] in Hh4. destruct Hh as [[] _].
  destruct (maybe_fail j class FaultPoint.AfterDirectorySync).
  - eapply holds_weaken; [done|lia].
  - right. eapply holds_weaken; [done|lia].
Qed.

(** *** Appending and opening *)

Definition push (j : InstallationJournal) (env : Envelope.t) : InstallationJournal :=
  mk_InstallationJournal (fingerprint j) (records j ++ [env]) (options j) (plan j).

(** [env] is a legal next envelope of the journal for the record [r]. *)
Definition extends (j : InstallationJournal) (r : JournalRecord.t) (env : Envelope.t) : Prop :=
  Envelope.record env = r /\
  (exists st, Replay.replay (plan j) (records j ++ [env]) = Ok st) /\
  check_envelope (fingerprint j) (records j) (len (records j)) env = Ok tt.

Lemma envelope_for_spec j r env :
  envelope_for j r = Ok env ->
  Envelope.record env = r /\ Envelope.generation env = len (records j) /\
  check_envelope (fingerprint j) (records j) (len (records j)) env = Ok tt.
Proof.
  unfold envelope_for. destruct (hash_input_to_vec _) as [bytes|] eqn:E; cbn [ok_or]; [|done].
  intros [= <-]. split_and!; try done. unfold check_envelope. cbn. rewrite E. cbn [ok_or].
  repeat (rewrite bool_decide_true by done; cbn [negb]). done.
Qed.

Lemma prepare_spec j n r env bytes :
  prepare j n r = Ok (env, bytes) ->
  extends j r env /\ Envelope.generation env = len (records j) /\
  envelope_to_vec env = Some bytes /\ len bytes <= MAX_CHECKPOINT_BYTES /\
  len (records j) < MAX_CHECKPOINT_RECORDS.
Proof.
  unfold prepare. destruct (io n CheckDirectory); [|done].
  destruct (MAX_CHECKPOINT_RECORDS <=? len (records j)) eqn:Eb; [done|].
  destruct (envelope_for j r) as [env'|] eqn:Ee; [|done].
  apply envelope_for_spec in Ee as (? & ? & ?).
  destruct (Replay.replay _ _) as [st|] eqn:Er; [|done].
  destruct (envelope_to_vec env') as [bytes'|] eqn:Ev; cbn [ok_or]; [|done].
  destruct (MAX_CHECKPOINT_BYTES <? len bytes') eqn:El; [done|].
  destruct (maybe_fail _ _ _); [|done]. destruct (io n CheckTemp); [|done].
  destruct (io n CheckFinal); [|done]. intros [= -> ->]. rust_bool.
  split_and!; try done. split_and!; eauto.
Qed.

Lemma append_spec j fs r d j' fs' res :
  holds fs (records j) d -> append j fs r = (j', fs', res) ->
  match res with
  | Ok _ => exists env, extends j r env /\ j' = push j env /\
      holds fs' (records j') (length (records j'))
  | Err _ => j' = j /\ (holds fs' (records j) d \/
      exists env, extends j r env /\ holds fs' (records j ++ [env]) d)
  end.
Proof.
  intros Hh. unfold append.
  destruct (prepare j (Fs.ops fs) r) as [[env bytes]|] eqn:Ep.
  2:{ intros [= <- <- <-]. split; [done|]. left. by apply holds_tick. }
  apply prepare_spec in Ep as (Hx & Eg & Ev & El & Em). rewrite Eg.
  destruct (commit _ _ _ _ _ _) as [fs1 r1] eqn:Ec.
  apply (commit_spec _ _ _ env _ _ _ d) in Ec; [|by apply holds_tick|done..].
  destruct r1; intros [= <- <- <-].
  - exists env. split_and!; try done. cbn. rewrite length_app. cbn.
    by rewrite Nat.add_1_r.
  - split; [done|]. destruct Ec; eauto.
Qed.

Lemma fs_ok_tick fs rs d : fs_ok fs rs d -> fs_ok (Fs.tick fs) rs d.
Proof. by intros []. Qed.

(** Entering the directory changes only the lock. *)
Lemma enter_spec n mode fs rs d fs' r :
  fs_ok fs rs d -> enter_directory n mode fs = (fs', r) ->
  fs_ok fs' rs d /\ (whole (Fs.files fs) rs -> whole (Fs.files fs') rs).
Proof.
  intros Hok. unfold enter_directory.
  destruct (let? _ := io n CheckRoot in _) as [_|e]; [|by intros [= <- <-]].
  assert (fs_ok (if Fs.present fs then fs else Fs.create fs) rs d) as Hok1.
  { destruct (Fs.present fs); [done|].
    destruct Hok as [Hf Hd Hk Hh Hb Hp]. split; cbn; try done.
    intros k Hx. apply Hk. auto. }
  set (fs1 := if Fs.present fs then fs else Fs.create fs) in *.
  assert (Fs.files fs1 = Fs.files fs) as Ef1 by (subst fs1; by destruct (Fs.present fs)).
  destruct (io n OpenLock); [|intros [= <- <-]; by rewrite Ef1].
  intros [= <- <-]. destruct (Fs.files fs1 !! LOCK) eqn:El.
  { by rewrite Ef1. }
  split.
  - destruct Hok1 as [Hf Hd Hk Hh Hb Hp]. split; cbn; try done.
    + intros name e [[<- <-]|[_ Hn]]%lookup_insert_Some; [by left|by apply Hf].
    + intros k Hx. rewrite lookup_insert_ne by apply lock_not_checkpoint. auto.
  - intros Hw k Hx. cbn. rewrite lookup_insert_ne by apply lock_not_checkpoint.
    rewrite Ef1. auto.
Qed.

(** Whatever loading returns, only unfinished files are removed. *)
Lemma load_keeps n fs fp plan rs d fs' r :
  fs_ok fs rs d -> load_records n fs fp plan = (fs', r) ->
  fs_ok fs' rs d /\ swept (Fs.files fs) (Fs.files fs').
Proof.
  intros [Hf Hd Hk Hh Hb Hp] E. unfold load_records in E.
  destruct (io _ _); [|simplify_eq; split; [done|apply swept_refl]].
  destruct (collect n (map_to_list (Fs.files fs)) fs []) as [fs1 r1] eqn:Ec.
  injection E as <- _.
  apply collect_spec in Ec as (Hsw & Edur & _); [|by intros x; apply (stored_entries _ rs)].
  split; [|done]. split; rewrite ?Edur; try done; [by eapply swept_stored|].
  intros k Hx. rewrite (swept_final _ _ _ Hsw). auto.
Qed.

Lemma open_spec fs plan mode opts rs d fs' r :
  fs_ok fs rs d -> open_with_options fs plan mode opts = (fs', r) ->
  match r with
  | Ok j => exists m, records j = take m rs /\ (d <= m <= length rs)%nat /\
      holds fs' (records j) d /\ InstallJournal.plan j = plan /\
      plan_fingerprint plan = Ok (fingerprint j) /\
      (whole (Fs.files fs) rs -> m = length rs) /\
      match mode with
      | StartNew => records j = []
      | ResumeExisting => exists st, Replay.replay plan (records j) = Ok st
      end
  | Err _ => fs_ok fs' rs d /\ (whole (Fs.files fs) rs -> whole (Fs.files fs') rs)
  end.
Proof.
  intros Hok. unfold open_with_options.
  assert (fs_ok (Fs.tick fs) rs d) as Hok1 by (by apply fs_ok_tick).
  destruct (validate_id (Plan.plan_id plan)); [|by intros [= <- <-]].
  destruct (enter_directory _ _ _) as [fs1 r1] eqn:Ee.
  apply (enter_spec _ _ _ rs d) in Ee as (Hok2 & Hw2); [|done].
  destruct r1; [|by intros [= <- <-]].
  destruct (plan_fingerprint plan) as [fp|]; [|by intros [= <- <-]].
  destruct (load_records _ fs1 fp plan) as [fs2 r2] eqn:El. intros [= <- <-].
  destruct (load_keeps _ _ _ _ rs d _ _ Hok2 El) as (Hok3 & Hsw).
  assert (fs_ok fs2 rs d /\ (whole (Fs.files fs) rs -> whole (Fs.files fs2) rs)) as Hkeep.
  { split; [done|]. intros Hw k Hx. rewrite (swept_final _ _ _ Hsw). by apply Hw2. }
  destruct r2 as [rs2|]; [|done].
  apply (load_spec _ _ _ _ rs d) in El as (m & -> & Hm & Hok4 & Hw4 & Hre & Hall); [|done].
  destruct mode, (is_empty (take m rs)) eqn:Ene; cbn [negb]; try done;
    exists m; split_and!; try done; try lia; auto.
  - by destruct (take m rs).
  - destruct Hre as [Hre|]; [by rewrite Hre in Ene|done].
Qed.

(** *** Reading a whole directory back *)

#[local] Instance generation_le_trans : Transitive generation_le.
Proof. intros ???. unfold generation_le. lia. Qed.
#[local] Instance generation_le_total : Total generation_le.
Proof. intros ??. unfold generation_le. lia. Qed.

(** The checkpoints of the records from [m] on, in order. *)
Definition checkpoints (m k : nat) : list (Z * rstring) :=
  map (fun i => (Z.of_nat i, final_name (Z.of_nat i))) (seq m k).

Lemma NoDup_generations (entries : list (rstring * entry)) :
  NoDup entries.*1 -> NoDup (generations entries).
Proof.
  induction entries as [|[name e] entries IH]; cbn; [constructor|].
  intros [Hn Hd]%NoDup_cons. destruct (generation_of name) as [g|]; [|auto].
  apply NoDup_cons. split; [|auto]. intros (_ & x & Hx)%elem_generations. apply Hn.
  apply list_elem_of_fmap. by exists (name, x).
Qed.

Lemma checkpoints_sorted m k : StronglySorted generation_le (checkpoints m k).
Proof.
  revert m. induction k as [|k IH]; intros m; [constructor|].
  apply SSorted_cons; [apply IH|]. apply Forall_forall.
  intros q (i & -> & Hi%elem_of_seq)%list_elem_of_fmap. unfold generation_le. cbn. lia.
Qed.

Lemma listing_whole files rs :
  stored files rs -> whole files rs -> len rs <= MAX_CHECKPOINT_RECORDS ->
  listing files = checkpoints 0 (length rs).
Proof.
  intros Hs Hw Hb.
  assert (forall p, p ∈ listing files <-> p ∈ checkpoints 0 (length rs)) as Hel.
  { intros p. rewrite (elem_listing _ _ _ Hs Hb). unfold checkpoints. rewrite list_elem_of_fmap.
    setoid_rewrite elem_of_seq. split.
    - intros (k & -> & Hk & _). exists k. split; [done|lia].
    - intros (k & -> & Hk). exists k. split_and!; [done|lia|apply Hw; lia]. }
  apply (StronglySorted_unique_strong generation_le).
  - intros p q (k & -> & _)%(elem_listing _ _ _ Hs Hb) Hq%Hel.
    apply (elem_listing _ _ _ Hs Hb) in Hq as (k' & -> & _). unfold generation_le. cbn.
    intros ? ?. by replace k' with k by lia.
  - apply StronglySorted_merge_sort; apply _.
  - apply checkpoints_sorted.
  - apply NoDup_Permutation; [| |done].
    + unfold listing. rewrite (merge_sort_Permutation generation_le).
      apply NoDup_generations, NoDup_fst_map_to_list.
    + unfold checkpoints. apply NoDup_fmap_2_strong; [|apply NoDup_seq].
      intros i k _ _ [= E _]. lia.
Qed.

(** ** Replay and its marks *)

(** A record of the given form is in the journal. *)
Definition marked (r : JournalRecord.t) (rs : list Envelope.t) : Prop :=
  Exists (fun env => Envelope.record env = r) rs.

Lemma marked_app r rs rs' : marked r rs -> marked r (rs ++ rs').
Proof. intros. apply Exists_app. by left. Qed.

Lemma marked_take r d rs : marked r (take d rs) -> marked r rs.
Proof. intros H'. rewrite <- (take_drop d rs). by apply marked_app. Qed.

Lemma marked_last r env rs : Envelope.record env = r -> marked r (rs ++ [env]).
Proof. intros. apply Exists_app. right. by constructor. Qed.

Lemma run_app p st rs rs' :
  Replay.run p st (rs ++ rs') = (let? st' := Replay.run p st rs in Replay.run p st' rs').
Proof.
  revert st. induction rs as [|env rs IH]; intros st; cbn; [done|].
  destruct (Replay.step p st env); [apply IH|done].
Qed.

Lemma replay_run p rs st : Replay.replay p rs = Ok st -> Replay.run p Replay.init rs = Ok st.
Proof.
  unfold Replay.replay. destruct (Replay.run _ _ _) as [st'|]; [|done].
  destruct (negb _); [done|]. by intros [= ->].
Qed.

(** What an effect's state says of its future: the phases of an effect only advance. *)
Definition undoing (s : option EffectState) : Prop :=
  s = Some CompensationStarted \/ s = Some Compensated.

Lemma step_effects p st env st' id :
  Replay.step p st env = Ok st' ->
  (is_Some (Replay.effects st !! id) -> is_Some (Replay.effects st' !! id)) /\
  (undoing (Replay.effects st !! id) -> undoing (Replay.effects st' !! id)) /\
  (Envelope.record env = JournalRecord.EffectMutationStarted id ->
   Replay.effects st !! id = None /\ is_Some (Replay.effects st' !! id)) /\
  (Envelope.record env = JournalRecord.CompensationStarted id ->
   Replay.effects st !! id = Some Verified /\ undoing (Replay.effects st' !! id)).
Proof.
  unfold Replay.step, Replay.require_opened, Replay.corrupt. intros E.
  repeat (case_match; try done); simplify_eq; cbn [Replay.effects Replay.set_effect];
    rust_bool; unfold undoing;
    try (split_and!; [done|done|by intros [= ]|by intros [= ]]).
  all: try match goal with Hn : is_some ?x = false |- _ => destruct x eqn:?; [done|] end.
  all: split_and!; try naive_solver.
  all: lookup_cases id; naive_solver.
Qed.

Lemma run_keeps p st rs st' id :
  Replay.run p st rs = Ok st' ->
  (is_Some (Replay.effects st !! id) -> is_Some (Replay.effects st' !! id)) /\
  (undoing (Replay.effects st !! id) -> undoing (Replay.effects st' !! id)).
Proof.
  revert st. induction rs as [|env rs IH]; intros st; cbn; [by intros [= ->]|].
  destruct (Replay.step p st env) as [st1|] eqn:E; [|done]. intros (Ha & Hb)%IH.
  destruct (step_effects _ _ _ _ id E) as (? & ? & _). auto.
Qed.

Lemma run_marked p st rs st' id :
  Replay.run p st rs = Ok st' ->
  (marked (JournalRecord.EffectMutationStarted id) rs -> is_Some (Replay.effects st' !! id)) /\
  (marked (JournalRecord.CompensationStarted id) rs -> undoing (Replay.effects st' !! id)).
Proof.
  revert st. induction rs as [|env rs IH]; intros st; cbn.
  { intros _. split; by intros ?%Exists_nil. }
  destruct (Replay.step p st env) as [st1|] eqn:E; [|done]. intros Hr.
  destruct (IH st1 Hr) as [Ha Hb]. destruct (step_effects _ _ _ _ id E) as (_ & _ & Hc & Hd).
  destruct (run_keeps _ _ _ _ id Hr) as [He Hf].
  split; (intros [Hm|Hm]%Exists_cons; [|auto]); [apply Hc in Hm|apply Hd in Hm]; naive_solver.
Qed.

(** The write-ahead records are new: replay refuses to start the same mutation or the
    same compensation twice. *)
Lemma extends_fresh j env id :
  (extends j (JournalRecord.EffectMutationStarted id) env ->
   ~ marked (JournalRecord.EffectMutationStarted id) (records j)) /\
  (extends j (JournalRecord.CompensationStarted id) env ->
   ~ marked (JournalRecord.CompensationStarted id) (records j)).
Proof.
  split; intros (Er & [st Hre%replay_run] & _) Hm; rewrite run_app in Hre;
    (destruct (Replay.run _ _ (records j)) as [st1|] eqn:E; [|done]); cbn in Hre;
    (destruct (Replay.step _ st1 env) as [st2|] eqn:Es; [|done]);
    destruct (run_marked _ _ _ _ id E) as [Ha Hb];
    destruct (step_effects _ _ _ _ id Es) as (_ & _ & Hc & Hd).
  - destruct (Hc Er) as [Hn _]. apply Ha in Hm. rewrite Hn in Hm. by destruct Hm.
  - destruct (Hd Er) as [Hn _]. apply Hb in Hm. rewrite Hn in Hm. by destruct Hm as [|].
Qed.

(** ** Mutations and their write-ahead records *)

(** The mutations and compensations of a log happened once each, and their records are
    in the journal. *)
Record sound (rs : list Envelope.t) (log : list call) : Prop := {
  sound_applies : NoDup (map Effect.effect_id (applies log));
  sound_compensates : NoDup (map Effect.effect_id (compensates log));
  sound_started : forall e, e ∈ applies log ->
    marked (JournalRecord.EffectMutationStarted (Effect.effect_id e)) rs;
  sound_undone : forall e, e ∈ compensates log ->
    marked (JournalRecord.CompensationStarted (Effect.effect_id e)) rs }.

Lemma sound_app rs rs' log : sound rs log -> sound (rs ++ rs') log.
Proof. intros []. split; try done; intros; apply marked_app; auto. Qed.

Lemma sound_take rs d log : sound (take d rs) log -> sound rs log.
Proof. intros Hs. rewrite <- (take_drop d rs). by apply sound_app. Qed.

Lemma sound_queries rs log calls :
  applies calls = [] -> compensates calls = [] -> sound rs log -> sound rs (log ++ calls).
Proof.
  intros E1 E2 []. split; autorewrite with synveil; rewrite ?E1, ?E2, ?app_nil_r; done.
Qed.

Lemma NoDup_ids_snoc (l : list Effect.t) e :
  NoDup (map Effect.effect_id l) -> (forall x, x ∈ l -> Effect.effect_id x <> Effect.effect_id e) ->
  NoDup (map Effect.effect_id (l ++ [e])).
Proof.
  intros Hn Hx. rewrite map_app. apply NoDup_app. split_and!; [done| |apply NoDup_singleton].
  intros i (x & -> & Hxl)%list_elem_of_fmap Hi. apply list_elem_of_singleton in Hi. by apply (Hx x).
Qed.

Lemma sound_apply j env log e out :
  sound (records j) log -> extends j (JournalRecord.EffectMutationStarted (Effect.effect_id e)) env ->
  sound (records j ++ [env]) (log ++ [CallApply e out]).
Proof.
  intros [Ha Hc Hs Hu] Hx. pose proof (proj1 (extends_fresh j env _) Hx) as Hf.
  destruct Hx as (Er & _). split; autorewrite with synveil; cbn; rewrite ?app_nil_r; try done.
  - apply NoDup_ids_snoc; [done|]. intros x Hx E. apply Hf. rewrite <- E. auto.
  - intros x [Hx| ->%list_elem_of_singleton]%elem_of_app; [by apply marked_app, Hs|by apply marked_last].
  - intros x Hx. by apply marked_app, Hu.
Qed.

Lemma sound_compensate j env log e ok :
  sound (records j) log -> extends j (JournalRecord.CompensationStarted (Effect.effect_id e)) env ->
  sound (records j ++ [env]) (log ++ [CallCompensate e ok]).
Proof.
  intros [Ha Hc Hs Hu] Hx. pose proof (proj2 (extends_fresh j env _) Hx) as Hf.
  destruct Hx as (Er & _). split; autorewrite with synveil; cbn; rewrite ?app_nil_r; try done.
  - apply NoDup_ids_snoc; [done|]. intros x Hx E. apply Hf. rewrite <- E. auto.
  - intros x Hx. by apply marked_app, Hs.
  - intros x [Hx| ->%list_elem_of_singleton]%elem_of_app; [by apply marked_app, Hu|by apply marked_last].
Qed.

(** ** Invariants of directories and of running transactions *)

(** Every prefix of the records replays, and every record is chained to its prefix. *)
Definition legal (p : Plan.t) (rs : list Envelope.t) : Prop :=
  forall k env, rs !! k = Some env ->
    (exists st, Replay.replay p (take (S k) rs) = Ok st) /\
    (forall fp, plan_fingerprint p = Ok fp ->
       check_envelope fp (take k rs) (Z.of_nat k) env = Ok tt).

Lemma legal_take p rs m : legal p rs -> legal p (take m rs).
Proof.
  intros Hl k env [Hk Hm]%lookup_take_Some. destruct (Hl k env Hk) as [Hr Hc].
  rewrite !take_take, !Nat.min_l by lia. done.
Qed.

Lemma legal_extends j r env :
  legal (plan j) (records j) -> plan_fingerprint (plan j) = Ok (fingerprint j) ->
  extends j r env -> legal (plan j) (records j ++ [env]).
Proof.
  intros Hl Hf (_ & Hr & Hc) k x Hk. apply lookup_app_Some in Hk as [Hk|[Hk Hx]].
  - pose proof (lookup_lt_Some _ _ _ Hk) as Hlt. rewrite !take_app_le by lia. by apply Hl.
  - apply list_lookup_singleton_Some in Hx as [Hx <-].
    assert (k = length (records j)) as -> by lia. split.
    + by rewrite take_ge by (rewrite length_app; cbn; lia).
    + intros fp Hfp. rewrite Hf in Hfp. injection Hfp as <-. by rewrite take_app_length.
Qed.

(** A directory between runs, with the calls made so far; [strict] when no power was
    lost. *)
Definition world_ok (p : Plan.t) (strict : bool) (fs : Fs.t) (log : list call) : Prop :=
  exists rs d, fs_ok fs rs d /\ (strict = true -> whole (Fs.files fs) rs) /\ legal p rs /\
    sound (take d rs) log.

(** An open journal. *)
Definition open_ok (p : Plan.t) (fs : Fs.t) (j : InstallationJournal) (log : list call) : Prop :=
  exists d, holds fs (records j) d /\ legal p (records j) /\ plan j = p /\
    plan_fingerprint p = Ok (fingerprint j) /\ sound (take d (records j)) log.

Lemma open_world p strict fs j log : open_ok p fs j log -> world_ok p strict fs log.
Proof. intros (d & [Hok Hw] & Hl & _ & _ & Hs). exists (records j), d. by split_and!. Qed.

Lemma open_query p fs j log calls :
  applies calls = [] -> compensates calls = [] ->
  open_ok p fs j log -> open_ok p fs j (log ++ calls).
Proof.
  intros E1 E2 (d & Hh & Hl & Hp & Hf & Hs). exists d. split_and!; try done.
  by apply sound_queries.
Qed.

(** After an append, whatever happened. *)
Lemma append_inv p strict fs j log r j' fs' res :
  open_ok p fs j log -> append j fs r = (j', fs', res) ->
  match res with
  | Ok _ => exists env, extends j r env /\ j' = push j env /\ open_ok p fs' j' log /\
      (forall log', sound (records j') log' -> open_ok p fs' j' log') /\ sound (records j) log /\
      holds fs' (records j') (length (records j'))
  | Err _ => world_ok p strict fs' log
  end.
Proof.
  intros (d & Hh & Hl & <- & Hf & Hs) Ha.
  apply (append_spec _ _ _ d) in Ha; [|done]. destruct res as [u|e].
  - destruct Ha as (env & Hx & -> & Hh'). exists env.
    assert (forall log', sound (records (push j env)) log' -> open_ok (plan j) fs' (push j env) log')
      as Hopen.
    { intros log' Hs'. exists (length (records (push j env))). split_and!; try done.
      - by eapply legal_extends.
      - by rewrite firstn_all. }
    split_and!; try done; [|by apply sound_take in Hs].
    apply Hopen. cbn. apply sound_app. by apply sound_take in Hs.
  - destruct Ha as [-> [[Hok Hw]|(env & Hx & Hok & Hw)]].
    + exists (records j), d. by split_and!.
    + exists (records j ++ [env]), d. split_and!; try done; [by eapply legal_extends|].
      destruct Hh as [[] _]. by rewrite take_app_le.
Qed.

End Facts.

(** ** Runs of the executor *)

(** The calls since [Ho] were queries. *)
Ltac queries Ho := first [exact Ho | eapply open_query; [reflexivity|reflexivity|queries Ho]].
Ltac stopped Ho := intros [= <- <- <-]; cbn [snd]; eapply open_world; queries Ho.

(** Performs the next append of a run from the invariant [Ho]; a failure ends the run. *)
Ltac journal_append strict Ho env Hx Ho' Hopen Hs :=
  match type of Ho with open_ok ?p _ _ _ =>
  match goal with |- context [append ?j ?fs ?r] =>
  match goal with |- context [@pair _ (list call) _ ?l] =>
    let Ea := fresh "Ea" in let Hn := fresh "Hn" in
    assert (open_ok p fs j l) as Hn by queries Ho;
    destruct (append j fs r) as [[? ?] [?|?]] eqn:Ea;
    apply (append_inv p strict fs j l _ _ _ _ Hn) in Ea;
    [destruct Ea as (env & Hx & -> & Ho' & Hopen & Hs & ?)|by intros [= <- <- <-]]; clear Hn
  end end end.

Section Runs.
Context `{JournalCodecLaws} `{Os} {A : Type} `{InstallationAdapter A}.

Lemma journal_compensate_inv p strict chosen j fs (a : A) log disp res s' fs' :
  open_ok p fs j log ->
  journal_compensate chosen j fs (a, log) disp = (res, s', fs') ->
  world_ok p strict fs' s'.2.
Proof.
  revert j fs a log. induction chosen as [|e chosen IH]; intros j fs a log Ho;
    cbn [journal_compensate].
  { stopped Ho. }
  journal_append strict Ho env Hx Ho1 Hopen Hs.
  next_call; [|intros [= <- <- <-]; eapply open_world, Hopen; by apply sound_compensate].
  pose proof (Hopen _ (sound_compensate j env log e true Hs Hx)) as Ho2.
  next_call; [|stopped Ho2].
  journal_append strict Ho2 env' Hx' Ho3 Hopen' Hs'. apply (IH _ _ _ _ Ho3).
Qed.

Lemma journal_fail_inv p strict applied j fs (a : A) log disp res s' fs' :
  open_ok p fs j log ->
  journal_fail_with_compensation j fs applied (a, log) disp = (res, s', fs') ->
  world_ok p strict fs' s'.2.
Proof.
  intros Ho. unfold journal_fail_with_compensation, compensation_candidates.
  destruct (candidates_queried (reverse applied) a log) as (chosen & a1 & calls & -> & Hq).
  apply queried_calls in Hq as (Ha & Hc & _).
  apply journal_compensate_inv. by apply open_query.
Qed.

Lemma record_and_compensate_inv p strict applied j fs e out (a : A) log disp res s' fs' :
  open_ok p fs j log ->
  record_and_compensate j fs e out applied (a, log) disp = (res, s', fs') ->
  world_ok p strict fs' s'.2.
Proof.
  intros Ho. unfold record_and_compensate. journal_append strict Ho env Hx Ho1 Hopen Hs.
  by apply journal_fail_inv.
Qed.

Lemma journaled_effects_inv p strict state todo applied disp j fs (a : A) log res s' fs' :
  open_ok p fs j log ->
  journaled_effects p state todo applied disp j fs (a, log) = (res, s', fs') ->
  world_ok p strict fs' s'.2.
Proof.
  revert applied disp j fs a log.
  induction todo as [|e todo IH]; intros applied disp j fs a log Ho; cbn [journaled_effects].
  - next_call; [|stopped Ho].
    destruct (Replay.final_verified state); cbn [negb].
    + journal_append strict Ho env Hx Ho1 Hopen Hs. stopped Ho1.
    + journal_append strict Ho env Hx Ho1 Hopen Hs.
      journal_append strict Ho1 env' Hx' Ho2 Hopen' Hs'. stopped Ho2.
  - destruct (Replay.effects state !! Effect.effect_id e) as [[]|].
    + (* mutation started before *)
      next_call; [|stopped Ho..]. next_call; [|stopped Ho].
      journal_append strict Ho env Hx Ho1 Hopen Hs. apply (IH _ _ _ _ _ _ Ho1).
    + (* verified before *)
      next_call; [|stopped Ho]. apply IH. queries Ho.
    + stopped Ho.
    + stopped Ho.
    + stopped Ho.
    + stopped Ho.
    + (* new *)
      next_call; [|apply journal_fail_inv; queries Ho].
      next_call; [|apply journal_fail_inv; queries Ho].
      journal_append strict Ho env Hx Ho1 Hopen Hs.
      cbn [apply_effect logged]. unfold logging at 1. cbn [fst snd].
      destruct (apply_effect e _) as [out a'].
      pose proof (Hopen _ (sound_apply _ _ _ e out Hs Hx)) as Ho2.
      destruct out.
      1,2: next_call; [|apply record_and_compensate_inv; queries Ho2];
        journal_append strict Ho2 env' Hx' Ho3 Hopen' Hs'; apply (IH _ _ _ _ _ _ Ho3).
      1,2: apply record_and_compensate_inv; queries Ho2.
      next_call; [next_call| |].
      * journal_append strict Ho2 env' Hx' Ho3 Hopen' Hs'. apply (IH _ _ _ _ _ _ Ho3).
      * apply journal_fail_inv. queries Ho2.
      * stopped Ho2.
      * apply journal_fail_inv. queries Ho2.
Qed.

(** One run of the installer keeps the directory and its log in order. *)
Lemma execute_inv request p mode opts strict fs (a : A) log res s' fs' :
  world_ok p strict fs log ->
  execute_journaled_with_options request p (a, log) fs mode opts = (res, s', fs') ->
  world_ok p strict fs' s'.2.
Proof.
  intros Hw. pose proof Hw as (rs & d & Hok & Hwh & Hl & Hs).
  unfold execute_journaled_with_options. destruct (validate request p) as [[]|];
    [|by intros [= <- <- <-]].
  destruct (open_with_options fs p mode opts) as [fs1 r1] eqn:Eo.
  apply (open_spec _ _ _ _ rs d) in Eo; [|done]. destruct r1 as [j|e].
  2:{ destruct Eo as [Hok' Hwh']. intros [= <- <- <-]. exists rs, d. split_and!; auto. }
  destruct Eo as (m & Er & Hm & Hh & Hp & Hf & _ & Hmode).
  assert (open_ok p fs1 j log) as Ho.
  { exists d. split_and!; try done; [rewrite Er; by apply legal_take|].
    by rewrite Er, take_take, Nat.min_l by lia. }
  destruct mode.
  - journal_append strict Ho env Hx Ho1 Hopen Hs1.
    destruct (Replay.replay p _) as [st|]; [|stopped Ho1].
    destruct (Replay.completed st); [stopped Ho1|]. by apply journaled_effects_inv.
  - destruct (Replay.replay p _) as [st|]; [|stopped Ho].
    destruct (Replay.completed st); [stopped Ho|]. by apply journaled_effects_inv.
Qed.

(** ** Histories

    A history is any sequence of runs of the installer on one plan and directory, with
    any requests, modes, fault options and system answers, with the installed system
    changing in between and, where [power] is set, with losses of power.  A run that
    is killed stops, as far as the directory and the mutations are concerned, where one
    of its appends fails: between two appends a run makes at most one mutation, and
    queries. *)

(** After a loss of power each name has its current or its last durable content. *)
Definition survives (fs fs' : Fs.t) : Prop :=
  Fs.durable fs' = Fs.files fs' /\
  forall name, Fs.files fs' !! name = Fs.files fs !! name \/
    Fs.files fs' !! name = Fs.durable fs !! name.

Inductive history (p : Plan.t) (power : bool) : A -> list call -> Fs.t -> Prop :=
| history_start a : history p power a [] (Fs.mk false ∅ ∅ 0)
| history_run request mode opts a log fs res a' log' fs' :
    history p power a log fs ->
    execute_journaled_with_options request p (a, log) fs mode opts = (res, (a', log'), fs') ->
    history p power a' log' fs'
| history_change a a' log fs : history p power a log fs -> history p power a' log fs
| history_power a log fs fs' :
    power = true -> history p power a log fs -> survives fs fs' -> history p power a log fs'.

Lemma survives_ok fs fs' rs d : fs_ok fs rs d -> survives fs fs' -> fs_ok fs' rs d.
Proof.
  intros [Hf Hd Hk Hh Hb Hp] [Ed Hs]. split; rewrite ?Ed; try done.
  1,2: intros name e Hn; destruct (Hs name) as [E|E]; rewrite E in Hn; auto.
  intros k Hx. destruct (Hs (final_name (Z.of_nat k))) as [E|E]; rewrite E; auto.
Qed.

Lemma history_world p power a log fs :
  history p power a log fs -> world_ok p (negb power) fs log.
Proof.
  induction 1 as [a|request mode opts a log fs res a' log' fs' _ IH E| |a log fs fs' Hp _ IH Hs].
  - exists [], 0%nat. split_and!.
    + split; cbn; try done; [intros ?? Hx; by rewrite lookup_empty in Hx..|lia].
    + intros _ k Hk. cbn in Hk. lia.
    + intros k env Hx. by rewrite lookup_nil in Hx.
    + split; cbn; try constructor; intros e He; by apply not_elem_of_nil in He.
  - by apply (execute_inv _ _ _ _ (negb power)) in E.
  - done.
  - destruct IH as (rs & d & Hok & _ & Hl & Hso). exists rs, d. rewrite Hp.
    split_and!; try done. by eapply survives_ok.
Qed.


(** Reading back a whole, legal directory when the system answers. *)
Lemma read_whole n files p fp rs m k :
  (forall pt, os_answer n pt = None) -> stored files rs -> whole files rs ->
  len rs <= MAX_CHECKPOINT_RECORDS -> legal p rs -> plan_fingerprint p = Ok fp ->
  (m + k = length rs)%nat ->
  read_checkpoints n files fp (checkpoints m k) (take m rs) = Ok rs.
Proof.
  intros Hos Hs Hw Hb Hl Hfp. revert m. induction k as [|k IH]; intros m Hm.
  - cbn. by rewrite take_ge by lia.
  - change (checkpoints m (S k)) with
      ((Z.of_nat m, final_name (Z.of_nat m)) :: checkpoints (S m) k).
    cbn [read_checkpoints].
    rewrite bool_decide_true by (unfold len; rewrite length_take; lia). cbn [negb]. unfold io. rewrite Hos.
    destruct (Hw m ltac:(lia)) as [e He]. rewrite He.
    destruct (stored_generation _ _ _ _ (Z.of_nat m) Hs Hb He) as (m' & E & Hck).
    { apply generation_of_final. unfold len, MAX_CHECKPOINT_RECORDS, u64_max in *. lia. }
    assert (m' = m) as -> by lia. destruct Hck as (env & bytes & Hk & Hv & Hsz & _ & ->).
    rewrite (proj2 (Z.ltb_ge _ _) Hsz), (envelope_roundtrip _ _ Hv). cbn [ok_or].
    destruct (Hl m env Hk) as [_ Hck]. rewrite (Hck fp Hfp).
    rewrite <- (take_S_r _ _ _ Hk). apply IH. lia.
Qed.

(** C38: a journal is always recoverable. After any history of runs, failures and kills,
    loading the directory succeeds whenever the system answers its calls: it returns
    a record for every committed checkpoint, the records replay, and they announce
    every mutation made. The journal is never reported corrupt by its own crashes. *)
Theorem journal_recoverable p a log fs n fp :
  history p false a log fs -> plan_fingerprint p = Ok fp ->
  (forall pt, os_answer n pt = None) ->
  exists fs' rs, load_records n fs fp p = (fs', Ok rs) /\
    (forall k, Z.of_nat k <= MAX_CHECKPOINT_RECORDS ->
       is_Some (Fs.files fs !! final_name (Z.of_nat k)) <-> (k < length rs)%nat) /\
    (rs <> [] -> exists st, Replay.replay p rs = Ok st) /\
    (forall e, e ∈ applies log ->
       marked (JournalRecord.EffectMutationStarted (Effect.effect_id e)) rs).
Proof.
  intros (rs & d & Hok & Hw & Hl & Hso)%history_world Hfp Hos.
  specialize (Hw eq_refl). pose proof Hok as [Hf Hd Hk Hh Hb Hp].
  assert (rs <> [] -> exists st, Replay.replay p rs = Ok st) as Hre.
  { intros Hne. destruct (lookup_lt_is_Some_2 rs (length rs - 1)) as [env Hx].
    { destruct rs; [done|cbn; lia]. }
    destruct (Hl _ _ Hx) as [Hr _]. apply lookup_lt_Some in Hx.
    by rewrite take_ge in Hr by lia. }
  destruct (collect n (map_to_list (Fs.files fs)) fs []) as [fs1 r] eqn:Ec.
  pose proof Ec as Hc.
  apply collect_spec in Hc as (Hsw & _ & _ & _ & Hps & Htot);
    [|by intros x; apply (stored_entries _ rs)].
  destruct (Htot Hos) as [ps Eps]. specialize (Hps ps Eps). cbn in Hps.
  exists fs1, rs. split_and!; [|intros k Hkb; split|done|].
  - unfold load_records, io. rewrite Hos, Ec, Eps, Hps. fold (listing (Fs.files fs)).
    rewrite (listing_whole _ rs) by done.
    assert (len (checkpoints 0 (length rs)) = len rs) as ->
      by (unfold len, checkpoints; by rewrite length_map, length_seq).
    rewrite (proj2 (Z.ltb_ge _ _) Hb).
    rewrite (read_whole _ _ p _ rs 0 (length rs) Hos); try done.
    + destruct rs as [|env rs]; [done|]. cbn [is_empty negb].
      destruct (Hre ltac:(done)) as [st ->]. done.
    + by eapply swept_stored.
    + intros k Hx. rewrite (swept_final _ _ _ Hsw). auto.
  - intros [e He]. destruct (stored_generation _ _ _ _ (Z.of_nat k) Hf Hb He) as (k' & E & Hck).
    { apply generation_of_final. unfold MAX_CHECKPOINT_RECORDS, u64_max in *. lia. }
    assert (k' = k) as -> by lia. destruct Hck as (env & ? & Hx & _). by eapply lookup_lt_Some.
  - auto.
  - intros e He. apply (marked_take _ d). by apply (sound_started _ _ Hso).
Qed.

(** ** Completion *)

Lemma step_completed p st env st' :
  Replay.step p st env = Ok st' ->
  Replay.completed st = false /\
  (Replay.completed st' = true <-> Envelope.record env = JournalRecord.TransactionCompleted) /\
  (Replay.opened st = true -> Replay.opened st' = true).
Proof.
  unfold Replay.step, Replay.require_opened, Replay.corrupt. intros E.
  repeat (case_match; try done); simplify_eq; cbn; rust_bool; split_and!; try done;
    split; congruence.
Qed.

(** The records a continuing run appends keep what is verified. *)
Definition forward (r : JournalRecord.t) : Prop :=
  match r with JournalRecord.CompensationStarted _ => False | _ => True end.

Lemma step_verified p st env st' id :
  Replay.step p st env = Ok st' -> forward (Envelope.record env) ->
  (Replay.effects st !! id = Some Verified -> Replay.effects st' !! id = Some Verified) /\
  (forall r, Envelope.record env = JournalRecord.EffectVerified id r ->
   Replay.effects st' !! id = Some Verified).
Proof.
  unfold Replay.step, Replay.require_opened, Replay.corrupt. intros E Hf.
  repeat (case_match; try done); simplify_eq; cbn [Replay.effects Replay.set_effect] in *;
    rust_bool; try (split; [done|by intros ? [= ]]).
  all: try match goal with Hn : is_some ?x = false |- _ => destruct x eqn:?; [done|] end.
  all: split; intros; try (lookup_cases id); try naive_solver.
Qed.

Lemma extends_step j r env st :
  Replay.replay (plan j) (records j) = Ok st -> extends j r env ->
  exists st', Replay.step (plan j) st env = Ok st' /\
    Replay.replay (plan j) (records j ++ [env]) = Ok st' /\ Envelope.record env = r.
Proof.
  intros Hr%replay_run (Er & [st' Hst] & _). exists st'. split_and!; try done.
  apply replay_run in Hst. rewrite run_app, Hr in Hst. cbn in Hst.
  by destruct (Replay.step (plan j) st env).
Qed.

(** What a run knows after some of its steps: the journal replays, the effects behind it
    are verified, and so is what was verified when it started. *)
Definition progress (state : Replay.t) (applied : list Effect.t) (j : InstallationJournal) : Prop :=
  exists st, Replay.replay (plan j) (records j) = Ok st /\
    (forall id, Replay.effects state !! id = Some Verified ->
       Replay.effects st !! id = Some Verified) /\
    (forall e, e ∈ applied -> Replay.effects st !! Effect.effect_id e = Some Verified).

Lemma progress_push state applied j r env :
  progress state applied j -> extends j r env -> forward r -> progress state applied (push j env).
Proof.
  intros (st & Hr & H1' & H2') Hx Hf. destruct (extends_step _ _ _ _ Hr Hx) as (st' & Hs & Hr' & Er).
  exists st'. rewrite <- Er in Hf.
  split_and!; [done|intros id Hid|intros e He]; apply (step_verified _ _ _ _ _ Hs Hf); auto.
Qed.

Lemma progress_verified state applied j e r env :
  progress state applied j -> extends j (JournalRecord.EffectVerified (Effect.effect_id e) r) env ->
  progress state (applied ++ [e]) (push j env).
Proof.
  intros Hpr Hx. pose proof (progress_push _ _ _ _ _ Hpr Hx I) as (st' & Hr' & Ha & Hb).
  destruct Hpr as (st & Hr & _). destruct (extends_step _ _ _ _ Hr Hx) as (st2 & Hs & Hr2 & Er).
  cbn in Hr'. rewrite Hr2 in Hr'. simplify_eq. exists st'. split_and!; try done.
  intros x [Hx'| ->%list_elem_of_singleton]%elem_of_app; [auto|].
  eapply step_verified; [done|by rewrite Er|done].
Qed.

Lemma compensation_incomplete chosen j fs (s : A * list call) disp :
  Execution.completed (journal_compensate chosen j fs s disp).1.1 = false.
Proof.
  revert j fs s. induction chosen as [|e chosen IH]; intros j fs s; [done|].
  cbn [journal_compensate]. destruct (append _ _ _) as [[j1 fs1] [u|]]; [|done].
  destruct (compensate_effect e s) as [[] s1]; [|done].
  destruct (verify_compensation e s1) as [[] s2]; [|done]. cbn [negb].
  destruct (append j1 _ _) as [[j2 fs2] [u'|]]; [apply IH|done].
Qed.

Lemma fail_incomplete applied j fs (s : A * list call) disp res s' fs' :
  journal_fail_with_compensation j fs applied s disp = (res, s', fs') ->
  Execution.completed res = false.
Proof.
  unfold journal_fail_with_compensation. destruct (compensation_candidates _ _) as [chosen s1].
  intros E. pose proof (compensation_incomplete chosen j fs s1 disp) as Hc. by rewrite E in Hc.
Qed.

Lemma record_incomplete applied j fs e out (s : A * list call) disp res s' fs' :
  record_and_compensate j fs e out applied s disp = (res, s', fs') ->
  Execution.completed res = false.
Proof.
  unfold record_and_compensate. destruct (append _ _ _) as [[j1 fs1] [u|]].
  - apply fail_incomplete.
  - by intros [= <- _ _].
Qed.

(** The directory after a completion: everything durable, completed and verified. *)
Definition completed_with (p : Plan.t) (fs : Fs.t) (es : list Effect.t) : Prop :=
  exists rs st, holds fs rs (length rs) /\ Replay.replay p rs = Ok st /\
    Replay.completed st = true /\
    (forall e, e ∈ es -> Replay.effects st !! Effect.effect_id e = Some Verified).

(** The last append of a run. *)
Lemma finish_completed p state applied j fs env :
  holds fs (records (push j env)) (length (records (push j env))) -> plan j = p ->
  progress state applied j -> extends j JournalRecord.TransactionCompleted env ->
  completed_with p fs applied.
Proof.
  intros Hh <- Hpr Hx. destruct (progress_push _ _ _ _ _ Hpr Hx I) as (st & Hr & _ & Hv).
  destruct Hpr as (st0 & Hr0 & _). destruct (extends_step _ _ _ _ Hr0 Hx) as (st' & Hs & Hr' & Er).
  cbn in Hr. rewrite Hr' in Hr. simplify_eq. exists (records (push j env)), st. split_and!; try done.
  by apply step_completed in Hs as (_ & [_ Hc] & _); apply Hc.
Qed.

Lemma journaled_effects_completed p state todo applied disp j fs (a : A) log res a' log' fs' :
  open_ok p fs j log -> progress state applied j ->
  journaled_effects p state todo applied disp j fs (a, log) = (res, (a', log'), fs') ->
  Execution.completed res = true ->
  last log' = Some (CallVerifyInstallation p true) /\ completed_with p fs' (applied ++ todo).
Proof.
  revert applied disp j fs a log.
  induction todo as [|e todo IH]; intros applied disp j fs a log Ho Hpr; cbn [journaled_effects].
  - rewrite app_nil_r. next_call; [|by intros [= <- _ _ _]].
    destruct (Replay.final_verified state); cbn [negb].
    + journal_append true Ho env Hx Ho1 Hopen Hs. intros [= <- <- <- <-] _.
      split; [apply last_snoc|]. destruct Ho as (_ & _ & _ & Hp & _). by eapply finish_completed.
    + journal_append true Ho env Hx Ho1 Hopen Hs.
      journal_append true Ho1 env' Hx' Ho2 Hopen' Hs'. intros [= <- <- <- <-] _.
      split; [apply last_snoc|]. destruct Ho1 as (_ & _ & _ & Hp & _).
      eapply finish_completed; [done..| |done]. by eapply progress_push.
  - replace (applied ++ e :: todo) with ((applied ++ [e]) ++ todo) by (by rewrite <- app_assoc).
    destruct (Replay.effects state !! Effect.effect_id e) as [[]|] eqn:Est;
      try (by intros [= <- _ _ _]).
    + next_call; [|by intros [= <- _ _ _]..]. next_call; [|by intros [= <- _ _ _]].
      journal_append true Ho env Hx Ho1 Hopen Hs.
      apply (IH _ _ _ _ _ _ Ho1). by eapply progress_verified.
    + next_call; [|by intros [= <- _ _ _]]. apply IH; [queries Ho|].
      destruct Hpr as (st & Hr & Ha & Hb). exists st. split_and!; try done.
      intros x [Hx| ->%list_elem_of_singleton]%elem_of_app; auto.
    + next_call; [|by intros Hc%fail_incomplete; rewrite Hc].
      next_call; [|by intros Hc%fail_incomplete; rewrite Hc].
      journal_append true Ho env Hx Ho1 Hopen Hs.
      pose proof (progress_push _ _ _ _ _ Hpr Hx I) as Hpr1.
      cbn [apply_effect logged]. unfold logging at 1. cbn [fst snd].
      destruct (apply_effect e _) as [out x].
      pose proof (Hopen _ (sound_apply _ _ _ e out Hs Hx)) as Ho2.
      destruct out.
      1,2: next_call; [|by intros Hc%record_incomplete; rewrite Hc];
        journal_append true Ho2 env' Hx' Ho3 Hopen' Hs'; apply (IH _ _ _ _ _ _ Ho3);
        by eapply progress_verified.
      1,2: by intros Hc%record_incomplete; rewrite Hc.
      next_call; [next_call| |].
      * journal_append true Ho2 env' Hx' Ho3 Hopen' Hs'. apply (IH _ _ _ _ _ _ Ho3).
        by eapply progress_verified.
      * by intros Hc%fail_incomplete; rewrite Hc.
      * by intros [= <- _ _ _].
      * by intros Hc%fail_incomplete; rewrite Hc.
Qed.

(** A directory whose journal is completed. *)
Definition finished (p : Plan.t) (fs : Fs.t) : Prop :=
  exists rs d st, holds fs rs d /\ Replay.replay p rs = Ok st /\ Replay.completed st = true.

(** How a run comes to report a completion: it found one, or it made one. *)
Lemma execute_completed p strict request mode opts (a : A) log fs res a' log' fs' :
  world_ok p strict fs log ->
  execute_journaled_with_options request p (a, log) fs mode opts = (res, (a', log'), fs') ->
  Execution.completed res = true ->
  Execution.disposition res = Disposition.AlreadyCompleted /\ finished p fs' \/
  last log' = Some (CallVerifyInstallation p true) /\
  completed_with p fs' (Plan.ordered_effects p).
Proof.
  intros (rs & d & Hok & Hwh & Hl & Hs) E Hc. revert E.
  unfold execute_journaled_with_options. destruct (validate request p) as [[]|];
    [|by intros [= <- _ _ _]].
  destruct (open_with_options fs p mode opts) as [fs1 r1] eqn:Eo.
  apply (open_spec _ _ _ _ rs d) in Eo; [|done]. destruct r1 as [j|e]; [|by intros [= <- _ _ _]].
  destruct Eo as (m & Er & Hm & Hh & Hp & Hf & _ & _).
  assert (open_ok p fs1 j log) as Ho.
  { exists d. split_and!; try done; [rewrite Er; by apply legal_take|].
    by rewrite Er, take_take, Nat.min_l by lia. }
  set (started := match mode with StartNew => _ | ResumeExisting => _ end).
  assert (exists j2 fs2 r2, started = (j2, fs2, r2) /\ (r2 = Ok tt -> open_ok p fs2 j2 log))
    as (j2 & fs2 & r2 & -> & Ho2).
  { subst started. destruct mode; [|by eauto].
    destruct (append _ _ _) as [[j2 fs2] [[]|e]] eqn:Ea; [|by eexists _, _, _].
    apply (append_inv _ true _ _ _ _ _ _ _ Ho) in Ea as (env & _ & _ & Ho2 & _). eauto 10. }
  destruct r2 as [[]|e]; [|by intros [= <- _ _ _]]. specialize (Ho2 eq_refl).
  destruct (Replay.replay p (records j2)) as [st|] eqn:Est; [|by intros [= <- _ _ _]].
  destruct Ho2 as (d2 & Hh2 & Hl2 & Hp2 & Hrest). destruct (Replay.completed st) eqn:Ecs.
  - intros [= <- <- <- <-]. left. split; [done|]. by exists (records j2), d2, st.
  - intros E. right. eapply journaled_effects_completed in E; [done|by exists d2| |done].
    exists st. rewrite Hp2. split_and!; try done. intros x Hx. by apply not_elem_of_nil in Hx.
Qed.

(** Completion means verification. When a run completes a transaction, its last call
    was a successful verification of the installation, the directory holds all records
    durably, and they replay to a completed state in which every effect of the plan is
    verified. *)
Theorem completion_verified p power request mode opts a log fs res a' log' fs' :
  history p power a log fs ->
  execute_journaled_with_options request p (a, log) fs mode opts = (res, (a', log'), fs') ->
  Execution.completed res = true -> Execution.disposition res <> Disposition.AlreadyCompleted ->
  last log' = Some (CallVerifyInstallation p true) /\
  completed_with p fs' (Plan.ordered_effects p).
Proof.
  intros Hw%history_world E Hc Hd. by destruct (execute_completed _ _ _ _ _ _ _ _ _ _ _ _ Hw E Hc)
    as [[? _]|].
Qed.

(** One more run of the installer, in any mode. *)
Definition rerun (p : Plan.t) (x y : A * list call * Fs.t) : Prop :=
  exists request mode opts res,
    execute_journaled_with_options request p x.1 x.2 mode opts = (res, y.1, y.2).

Lemma finished_rerun p x y : finished p x.2 -> rerun p x y -> y.1 = x.1 /\ finished p y.2.
Proof.
  destruct x as [s fs], y as [s' fs']. cbn.
  intros (rs & d & st & [Hok Hwh] & Hst & Hc) (request & mode & opts & res & E).
  cbn in E. revert E. unfold execute_journaled_with_options.
  destruct (validate request p) as [[]|]; [|intros [= _ <- <-]; split; [done|by exists rs, d, st]].
  destruct (open_with_options fs p mode opts) as [fs1 r1] eqn:Eo.
  apply (open_spec _ _ _ _ rs d) in Eo; [|done]. destruct r1 as [j|e].
  2:{ intros [= _ <- <-]. destruct Eo as [? ?]. split; [done|]. exists rs, d, st.
      split_and!; try done. split; auto. }
  destruct Eo as (m & Er & _ & Hh & _ & _ & Hall & Hmode).
  rewrite (Hall Hwh), firstn_all in Er. rewrite Er in Hh. destruct mode.
  { rewrite Er in Hmode. by rewrite Hmode in Hst. }
  rewrite Er, Hst, Hc. intros [= _ <- <-]. split; [done|by exists rs, d, st].
Qed.

(** completion is final. Once a run has reported a transaction completed, no later
    run on its directory, in whatever mode, with whatever failures, calls the adapter
    again. *)
Theorem completion_final p request mode opts a log fs res a' log' fs' y :
  history p false a log fs ->
  execute_journaled_with_options request p (a, log) fs mode opts = (res, (a', log'), fs') ->
  Execution.completed res = true ->
  rtc (rerun p) ((a', log'), fs') y -> y.1 = (a', log').
Proof.
  intros Hw%history_world E Hc Hr. assert (finished p fs') as Hf.
  { destruct (execute_completed _ _ _ _ _ _ _ _ _ _ _ _ Hw E Hc) as [[_ ?]|[_ Hcw]]; [done|].
    destruct Hcw as (rs & st & ? & ? & ? & _). by exists rs, (length rs), st. }
  change (a', log') with (((a', log'), fs').1). change fs' with (((a', log'), fs').2) in Hf.
  revert Hf. induction Hr as [|x x' y Hx _ IH]; intros Hf; [done|].
  destruct (finished_rerun _ _ _ Hf Hx) as [E1 Hf1]. rewrite <- E1. auto.
Qed.

End Runs.

(** ** A run killed before its verification was recorded, and its resumption *)

Module JournalExample.

#[local] Instance EffectResultState_eq_dec : EqDecision EffectResultState.t.
Proof. solve_decision. Defined.
#[local] Instance JournalVerifiedResult_eq_dec : EqDecision JournalVerifiedResult.
Proof. solve_decision. Defined.
#[local] Instance JournalRecord_eq_dec : EqDecision JournalRecord.t.
Proof. solve_decision. Defined.
#[local] Instance Envelope_eq_dec : EqDecision Envelope.t.
Proof. solve_decision. Defined.

(** Position in a list of all values of an enumeration. *)
Definition code {T} `{EqDecision T} (all : list T) (x : T) : Z :=
  match list_find (eq x) all with Some (i, _) => Z.of_nat i | None => -1 end.

Definition intents := [IntentInstall; Upgrade; Repair; IntentVerify; Uninstall].
Definition scopes := [ScopeCurrentUser; System; NativePackage; PortableUser].
Definition stages :=
  [StagePreflight; StagePlan; StageInstall; StageIntegrate; StageVerify; StageComplete].
Definition outcomes :=
  [EffectResultState.VerifiedSuccess; EffectResultState.VerifiedNoop;
   EffectResultState.FailureBeforeMutation; EffectResultState.KnownPartialMutation;
   EffectResultState.OutcomeUnknown].
Definition verdicts := [JournalVerifiedSuccess; JournalVerifiedNoop].

Definition record_out (r : JournalRecord.t) : Z * rstring * Z * Z :=
  match r with
  | JournalRecord.TransactionOpened id i s => (0, id, code intents i, code scopes s)
  | JournalRecord.StageEntered s => (1, [], code stages s, 0)
  | JournalRecord.EffectMutationStarted id => (2, id, 0, 0)
  | JournalRecord.EffectOutcome id o => (3, id, code outcomes o, 0)
  | JournalRecord.EffectVerified id r => (4, id, code verdicts r, 0)
  | JournalRecord.CompensationStarted id => (5, id, 0, 0)
  | JournalRecord.CompensationVerified id => (6, id, 0, 0)
  | JournalRecord.FinalVerificationSucceeded => (7, [], 0, 0)
  | JournalRecord.TransactionCompleted => (8, [], 0, 0)
  end.

Definition record_in (x : Z * rstring * Z * Z) : option JournalRecord.t :=
  let '(tag, id, a, b) := x in
  match tag with
  | 0 => let* i := intents !! Z.to_nat a in let* s := scopes !! Z.to_nat b in
         Some (JournalRecord.TransactionOpened id i s)
  | 1 => let* s := stages !! Z.to_nat a in Some (JournalRecord.StageEntered s)
  | 2 => Some (JournalRecord.EffectMutationStarted id)
  | 3 => let* o := outcomes !! Z.to_nat a in Some (JournalRecord.EffectOutcome id o)
  | 4 => let* r := verdicts !! Z.to_nat a in Some (JournalRecord.EffectVerified id r)
  | 5 => Some (JournalRecord.CompensationStarted id)
  | 6 => Some (JournalRecord.CompensationVerified id)
  | 7 => Some JournalRecord.FinalVerificationSucceeded
  | 8 => Some JournalRecord.TransactionCompleted
  | _ => None
  end.

#[local] Program Instance record_countable : Countable JournalRecord.t :=
  inj_countable record_out record_in _.
Next Obligation. intros [? [] []|[]|?|? []|? []|?|?| |]; reflexivity. Qed.

Definition envelope_out (e : Envelope.t) :=
  (Envelope.schema_version e, Envelope.generation e, Envelope.plan_fingerprint_sha256 e,
   Envelope.previous_record_sha256 e, Envelope.record e, Envelope.record_sha256 e).
Definition envelope_in (x : Z * Z * rstring * option rstring * JournalRecord.t * rstring) :=
  let '(v, g, f, p, r, h) := x in Envelope.mk v g f p r h.

#[local] Program Instance envelope_countable : Countable Envelope.t :=
  inj_countable' envelope_out envelope_in _.
Next Obligation. by intros []. Qed.

(** A codec that writes an envelope as one number, and a sum for a digest. *)
#[local] Instance codec : JournalCodec := {
  hex_hash l := [fold_right Z.add 0 l];
  plan_to_vec p := Some (Plan.plan_id p);
  hash_input_to_vec i := Some (HashInput.generation i :: (record_out (HashInput.record i)).1.1.2);
  envelope_to_vec e := Some [Zpos (encode e)];
  envelope_from_slice l := match l with [Zpos x] => decode x | _ => None end }.

#[local] Instance codec_laws : JournalCodecLaws.
Proof. constructor. intros e bytes [= <-]. apply decode_encode. Qed.

(** The system fails the link of its fourth operation, the record of the verification. *)
#[local] Instance os : Os := {
  os_answer n p := match n, p with 3%nat, LinkFinal => Some Code.JournalIoFailed | _, _ => None end;
  os_torn _ := [] }.

#[local] Instance adapter : InstallationAdapter (list rstring) := {
  preflight a := ([], a);
  privilege_available _ a := (true, a);
  inspect_preconditions e a := (negb (contains a (Effect.effect_id e)), a);
  apply_effect e a := (ApplyOutcome.Success, Effect.effect_id e :: a);
  verify_effect e a := (contains a (Effect.effect_id e), a);
  reconcile_unknown e a :=
    (if contains a (Effect.effect_id e) then ReconciliationOutcome.VerifiedApplied
     else ReconciliationOutcome.VerifiedNotApplied, a);
  compensation_supported _ a := (true, a);
  compensate_effect e a := (true, filter (fun x => x <> Effect.effect_id e) a);
  verify_compensation e a := (negb (contains a (Effect.effect_id e)), a);
  verify_installation _ a := (true, a) }.

Definition plan : Plan.t :=
  Plan.mk 1 (lit "p") IntentInstall ScopeCurrentUser [InstallExample.files]
    REQUIRED_PRESERVATION (mk_VerificationContract (lit "final") (lit "installed")) None.

Definition start : Fs.t := Fs.mk false ∅ ∅ 0.
Definition killed : Execution.t * (list rstring * list call) * Fs.t :=
  execute_journaled InstallExample.request plan ([], []) start StartNew.
Definition resumed : Execution.t * (list rstring * list call) * Fs.t :=
  execute_journaled InstallExample.request plan killed.1.2 killed.2 ResumeExisting.

Definition again : Execution.t * (list rstring * list call) * Fs.t :=
  execute_journaled InstallExample.request plan resumed.1.2 resumed.2 ResumeExisting.

(** A run as the histories spell it. *)
Lemma run_shape s fs mode r :
  execute_journaled InstallExample.request plan s fs mode = r ->
  execute_journaled_with_options InstallExample.request plan (s.1, s.2) fs mode default_options =
  (r.1.1, (r.1.2.1, r.1.2.2), r.2).
Proof. intros <-. rewrite <- !surjective_pairing. reflexivity. Qed.

Lemma killed_history : history plan false killed.1.2.1 killed.1.2.2 killed.2.
Proof.
  eapply history_run; [apply history_start|].
  exact (run_shape ([], []) start StartNew killed eq_refl).
Qed.

Lemma resumed_run :
  execute_journaled_with_options InstallExample.request plan (killed.1.2.1, killed.1.2.2) killed.2
    ResumeExisting default_options = (resumed.1.1, (resumed.1.2.1, resumed.1.2.2), resumed.2).
Proof. exact (run_shape killed.1.2 killed.2 ResumeExisting resumed eq_refl). Qed.

Lemma resumed_history : history plan false resumed.1.2.1 resumed.1.2.2 resumed.2.
Proof. eapply history_run; [apply killed_history|apply resumed_run]. Qed.

Lemma rerun_intro s fs res s' fs' :
  execute_journaled_with_options InstallExample.request plan s fs ResumeExisting default_options =
    (res, s', fs') -> rerun plan (s, fs) (s', fs').
Proof. intros E. by exists InstallExample.request, ResumeExisting, default_options, res. Qed.

Lemma again_rerun :
  rerun plan (resumed.1.2.1, resumed.1.2.2, resumed.2) (again.1.2.1, again.1.2.2, again.2).
Proof.
  apply (rerun_intro _ _ again.1.1).
  exact (run_shape resumed.1.2 resumed.2 ResumeExisting again eq_refl).
Qed.


Lemma journal_recoverable_witness :
  exists fs' rs, load_records 9 killed.2 [112] plan = (fs', Ok rs) /\ length rs = 2%nat.
Proof.
  destruct (journal_recoverable plan _ _ _ 9 [112] killed_history ltac:(vm_compute; reflexivity)
              ltac:(done)) as (fs' & rs & E & _).
  exists fs', rs. split; [exact E|].
  assert ((load_records 9 killed.2 [112] plan).2 = Ok rs) as E2 by (by rewrite E).
  revert E2. vm_compute. by intros [= <-].
Defined.

Lemma completion_verified_witness :
  last resumed.1.2.2 = Some (CallVerifyInstallation plan true) /\
  Execution.disposition resumed.1.1 = Disposition.ReconciledApplied.
Proof.
  split; [|vm_compute; reflexivity].
  refine (proj1 (completion_verified plan false InstallExample.request ResumeExisting
            default_options _ _ _ _ _ _ _ killed_history resumed_run _ _)).
  - vm_compute. reflexivity.
  - vm_compute. discriminate.
Defined.

Lemma completion_final_witness :
  (again.1.2.1, again.1.2.2) = (resumed.1.2.1, resumed.1.2.2) /\
  Execution.disposition again.1.1 = Disposition.AlreadyCompleted.
Proof.
  split; [|vm_compute; reflexivity].
  refine (completion_final plan InstallExample.request ResumeExisting default_options
            _ _ _ _ _ _ _ _ killed_history resumed_run _ (rtc_once _ _ again_rerun)).
  vm_compute. reflexivity.
Defined.

End JournalExample.
