(* ===== verification/SyncTypes.v ===== *)
(** * Values exchanged by the desktop synchroniser

    The data of [client-sync/src/contracts.rs] and [error.rs], and the tagged
    values of [state.rs] and [engine.rs]: what the inbound engine receives from
    a server, what it reports, and the errors on every path.  Identifiers,
    sequences, revisions and lengths are [Z]; digests and opaque evidence are
    byte strings. *)

From S2P Require Import Prelude Vocabulary Models Rebaseline.

(** ** Bounds of the crate ([lib.rs], [state.rs]) *)

Definition MAX_PAGE_ITEMS : Z := 1000.
Definition MAX_REBASELINE_ITEMS : Z := 1000000.
Definition MAX_OPAQUE_EVIDENCE_BYTES : Z := 4 * 1024.
Definition MAX_EVENT_EVIDENCE_ROWS : Z := 4096.
Definition MAX_RECOVERY_ROWS : Z := 4096.
Definition MAX_LOCAL_NODE_QUERY_ROWS : Z := 100000.

(** ** Errors *)

Module RemoteErrorKind.

Inductive t : Type :=
| Offline | RebaselineRequired | NotFound | Integrity | Unavailable | Rejected | AuthRequired
| DeviceRevoked | Forbidden | CheckpointConflict | Conflict | InvalidEvidence | RateLimited
| Internal | Protocol | Tls | Timeout | BodyLimit | Redirect.

#[global] Instance t_eq_dec : EqDecision t.
Proof. solve_decision. Defined.

End RemoteErrorKind.

Record RemoteError := mk_RemoteError {
  error_kind : RemoteErrorKind.t; error_current_revision : option Z }.

#[global] Instance RemoteError_eq_dec : EqDecision RemoteError.
Proof. solve_decision. Defined.

(** [RemoteError::retryable]. *)
Definition retryable (self : RemoteError) : bool :=
  match error_kind self with
  | RemoteErrorKind.Offline | RemoteErrorKind.Unavailable | RemoteErrorKind.RateLimited
  | RemoteErrorKind.Timeout | RemoteErrorKind.Internal => true
  | _ => false
  end.

Module LocalIssueKind.

Inductive t : Type :=
| LocalDivergence | LocalPathOccupied | LocalNameUnrepresentable | LocalNameCollision
| LocalParentMissing | LocalTypeMismatch | LocalIoUnavailable | ContentIntegrityMismatch
| LocalRecoveryAmbiguous.

#[global] Instance t_eq_dec : EqDecision t.
Proof. solve_decision. Defined.

Definition as_str (self : t) : rstring :=
  match self with
  | LocalDivergence => lit "LOCAL_DIVERGENCE"
  | LocalPathOccupied => lit "LOCAL_PATH_OCCUPIED"
  | LocalNameUnrepresentable => lit "LOCAL_NAME_UNREPRESENTABLE"
  | LocalNameCollision => lit "LOCAL_NAME_COLLISION"
  | LocalParentMissing => lit "LOCAL_PARENT_MISSING"
  | LocalTypeMismatch => lit "LOCAL_TYPE_MISMATCH"
  | LocalIoUnavailable => lit "LOCAL_IO_UNAVAILABLE"
  | ContentIntegrityMismatch => lit "CONTENT_INTEGRITY_MISMATCH"
  | LocalRecoveryAmbiguous => lit "LOCAL_RECOVERY_AMBIGUOUS"
  end.

End LocalIssueKind.

Module ObservationIssueKind.

Inductive t : Type :=
| WatcherOverflow | ObservationBusy | UnsupportedEntryType | UnrepresentableName | NameCollision
| AmbiguousRename | RootInvalid | BaseStateChanged | HashUnstable.

#[global] Instance t_eq_dec : EqDecision t.
Proof. solve_decision. Defined.

End ObservationIssueKind.

(** [ClientSyncError]: the variants the modelled code raises. *)
Inductive ClientSyncError : Type :=
| Database | LocalIo | InvalidState | InvalidRelativePath | InvalidRoot | RootUnavailable
| WrongRootBinding | WrongServerProfile | AuthenticationRequired | RootRedirected
| InvalidRemoteResponse | RebaselineInProgress | RebaselinePendingHandoff
| HandoffSnapshotUnavailable | HandoffCheckpointConflict | HandoffResponseMismatch
| HandoffTransport | CandidateCorrupt | CandidateIncomplete | ConflictNotFound | ConflictStale
| ConflictAlreadyResolved | ResolutionNotApplicable
| WrongScope | WrongEpoch | SequenceGap | SequenceRegression
| UnsupportedSchemaVersion | ResourceLimit | ContentIntegrityMismatch | ContentUnstable
| InjectedFailure
| LocalIssue (kind : LocalIssueKind.t)
| ObservationIssue (kind : ObservationIssueKind.t)
| Remote (error : RemoteError).

#[global] Instance ClientSyncError_eq_dec : EqDecision ClientSyncError.
Proof. solve_decision. Defined.

(** ** Statuses and outcomes *)

Module EngineStatus.

Inductive t : Type :=
| Idle | Bootstrapping | Applying | AckPending | BlockedLocalIssue | Offline | Error.

#[global] Instance t_eq_dec : EqDecision t.
Proof. solve_decision. Defined.

End EngineStatus.

Module SyncOutcome.

Inductive t : Type :=
| Idle | Progressed | MoreAvailable | BootstrapRequired | RebaselineRequired | Blocked | Offline.

#[global] Instance t_eq_dec : EqDecision t.
Proof. solve_decision. Defined.

End SyncOutcome.

Module FailurePoint.

Inductive t : Type :=
| AfterPageIntentPersisted | BeforeFilesystemAction | AfterContentStagedBeforeExpose
| AfterFilesystemActionBeforeState | AfterLocalCommitBeforeAck | AfterServerAckBeforeLocalState
| AfterBootstrapPagePersisted | AfterBootstrapLocalComplete
| AfterServerBootstrapCompleteBeforeLocalState | AfterServerRebaselineHandoffBeforeLocalState.

#[global] Instance t_eq_dec : EqDecision t.
Proof. solve_decision. Defined.

End FailurePoint.

Module RecoveryClassification.

Inductive t : Type :=
| NotStarted | FilesystemCompletedDatabasePending | DatabaseCompletedAckPending | SafeToRetry
| Ambiguous.

#[global] Instance t_eq_dec : EqDecision t.
Proof. solve_decision. Defined.

End RecoveryClassification.

(** ** Server values ([contracts.rs]) *)

Record ReplicaScope := mk_scope { owner_user_id : Z; device_id : Z; library_id : Z }.

#[global] Instance ReplicaScope_eq_dec : EqDecision ReplicaScope.
Proof. solve_decision. Defined.

Definition OpaqueEvidence_new (bytes : rstring) : result rstring ClientSyncError :=
  if is_empty bytes || (MAX_OPAQUE_EVIDENCE_BYTES <? len bytes) then Err ResourceLimit
  else Ok bytes.

Module Checkpoint.

Record t := mk { scope : ReplicaScope; epoch : Z; acknowledged_sequence : Z }.

End Checkpoint.

Module HandoffConfirmation.

Record t := mk { snapshot_id : Z; library_id : Z; checkpoint : Checkpoint.t }.

End HandoffConfirmation.

(** [synveil_core::ChangeEvent]. *)
Module ChangeEvent.

Record t := mk {
  id : Z; owner_user_id : Z; library_id : Z; journal_epoch : Z; sequence : Z;
  schema_version : Z; resource_kind : ChangeResourceKind.t; resource_id : Z;
  change_kind : ChangeKind.t; occurred_at : Z; resource_revision : Z;
  parent_node_id : option Z; node_kind : option NodeKind.t; node_state : option NodeState.t;
  current_version_id : option Z }.

End ChangeEvent.

Module InboundChange.

Record t := mk { event : ChangeEvent.t; desired_node : option SnapshotNode.t }.

End InboundChange.

Module FeedPage.

Record t := mk {
  scope : ReplicaScope; epoch : Z; from_sequence : Z; through_sequence : Z; high_watermark : Z;
  has_more : bool; changes : list InboundChange.t; ack_evidence : option rstring }.

Definition new (scope : ReplicaScope) (epoch from_sequence through_sequence high_watermark : Z)
  (has_more : bool) (changes : list InboundChange.t) (ack_evidence : option rstring) :
  result t ClientSyncError :=
  if MAX_PAGE_ITEMS <? len changes then Err ResourceLimit
  else Ok (mk scope epoch from_sequence through_sequence high_watermark has_more changes
             ack_evidence).

End FeedPage.

Module BootstrapPage.

Record t := mk {
  bootstrap : SyncBootstrap.t; nodes : list SnapshotNode.t; has_more : bool;
  next_cursor : option rstring; completion_evidence : option rstring }.

Definition new (bootstrap : SyncBootstrap.t) (nodes : list SnapshotNode.t) (has_more : bool)
  (next_cursor completion_evidence : option rstring) : result t ClientSyncError :=
  if MAX_PAGE_ITEMS <? len nodes then Err ResourceLimit
  else Ok (mk bootstrap nodes has_more next_cursor completion_evidence).

End BootstrapPage.

Module BootstrapCompletion.

Record t := mk { bootstrap_id : Z; checkpoint : Checkpoint.t }.

End BootstrapCompletion.

(** [RemoteContent]: the byte stream is the sequence of its items. *)
(** *** Durable snapshots ([rebaseline.rs]) *)

Module Boundary.

Record t := mk { journal_epoch : Z; resume_sequence : Z }.

#[global] Instance t_eq_dec : EqDecision t.
Proof. solve_decision. Defined.

End Boundary.

Module Descriptor.

Record t := mk { snapshot_id : Z; library_id : Z; boundary : Boundary.t; entry_count : Z }.

#[global] Instance t_eq_dec : EqDecision t.
Proof. solve_decision. Defined.

End Descriptor.

Module SnapshotPage.

Record t := mk {
  descriptor : Descriptor.t; entries : list SnapshotNode.t; next_cursor : option rstring }.

Definition new (descriptor : Descriptor.t) (entries : list SnapshotNode.t)
  (next_cursor : option rstring) : result t ClientSyncError :=
  if (MAX_PAGE_ITEMS <? len entries) || (MAX_REBASELINE_ITEMS <? Descriptor.entry_count descriptor)
  then Err ResourceLimit
  else Ok (mk descriptor entries next_cursor).

End SnapshotPage.

Module RemoteContent.

Record t := mk {
  node_id : Z; version_id : Z; length : Z; sha256 : list Z;
  body : list (result rstring RemoteError) }.

End RemoteContent.

(** What an upload creates or replaces. *)
Module UploadTarget.

Inductive t : Type :=
| CreateFile (library_id parent_node_id : Z) (name : rstring)
| ReplaceContent (library_id node_id expected_revision : Z).

#[global] Instance t_eq_dec : EqDecision t.
Proof. solve_decision. Defined.

End UploadTarget.

(** [EngineConfig]. *)
Module EngineConfig.

Record t := mk { feed_page_limit : Z; bootstrap_page_limit : Z }.

Definition new (feed_page_limit bootstrap_page_limit : Z) : result t ClientSyncError :=
  if negb ((1 <=? feed_page_limit) && (feed_page_limit <=? 1000))
     || negb ((1 <=? bootstrap_page_limit) && (bootstrap_page_limit <=? 1000))
  then Err ResourceLimit
  else Ok (mk feed_page_limit bootstrap_page_limit).

Definition default : t := mk 256 256.

End EngineConfig.

(** ** Fingerprints of local objects ([replica.rs]) *)

Module LocalFingerprint.

Inductive LocalObjectKind : Type := File | Directory.

#[global] Instance LocalObjectKind_eq_dec : EqDecision LocalObjectKind.
Proof. solve_decision. Defined.

Record t := mk { kind : LocalObjectKind; length : option Z; sha256 : option (list Z) }.

#[global] Instance t_eq_dec : EqDecision t.
Proof. solve_decision. Defined.

Definition directory : t := mk Directory None None.
Definition file (length : Z) (sha256 : list Z) : t := mk File (Some length) (Some sha256).

End LocalFingerprint.
