(* ===== verification/ClientPaths.v ===== *)
(** * Names and paths of a managed folder

    [client-sync/src/names.rs] (module [Portable]) and [path.rs] (module
    [Path]): which logical names may become a local path segment, and the
    slash-separated paths relative to one managed root.  A
    [ManagedRelativePath] is its string; the theorems say which strings the
    constructors produce. *)

From S2P Require Import Prelude Models SyncTypes.

(** The Unicode data the crate consults: [char::to_uppercase], and the
    composition [nfkc().flat_map(char::to_lowercase)] of the
    [unicode_normalization] crate with [char::to_lowercase]. *)
Class Unicode := {
  to_uppercase : Z -> list Z;
  nfkc_lowercase : rstring -> rstring
}.

Class UnicodeLaws `{U : Unicode} : Prop := {
  to_uppercase_ascii c : 0 <= c < 128 -> to_uppercase c = [to_ascii_uppercase c]
}.

(** ** [names.rs] *)

Module Portable.
Section Portable.

Context `{U : Unicode}.

Inductive NamePortability : Type :=
| Portable | EmptyOrDot | TooLong | ContainsSeparator | ContainsWindowsIllegalCharacter
| ContainsControl | TrailingSpaceOrDot | WindowsReservedDeviceName | SynveilControlName.

#[global] Instance NamePortability_eq_dec : EqDecision NamePortability.
Proof. solve_decision. Defined.

Definition is_portable (self : NamePortability) : bool :=
  match self with Portable => true | _ => false end.

(** [value.contains([..])] for a set of ASCII characters. *)
Definition contains (set : rstring) (value : rstring) : bool :=
  existsb (fun b => existsb (Z.eqb b) set) value.

(** The suffixes ["1"] to ["9"] and the superscripts one, two and three. *)
Definition reserved_suffixes : list (list Z) :=
  [[49]; [50]; [51]; [52]; [53]; [54]; [55]; [56]; [57]; [185]; [178]; [179]].

Definition reserved_numbered (value : list Z) (prefix : rstring) : bool :=
  match strip_prefix prefix value with
  | None => false
  | Some suffix => bool_decide (suffix ∈ reserved_suffixes)
  end.

Definition reserved_names : list rstring :=
  [lit "CON"; lit "PRN"; lit "AUX"; lit "NUL"; lit "CONIN$"; lit "CONOUT$"].

(** The folded stem is kept as its scalar values. *)
Definition is_windows_reserved (value : rstring) : bool :=
  let stem := default value (head (split 46 value)) in
  let folded := flat_map to_uppercase (chars stem) in
  bool_decide (folded ∈ reserved_names)
  || reserved_numbered folded (lit "COM")
  || reserved_numbered folded (lit "LPT").

Definition validate_logical_name (value : rstring) : NamePortability :=
  if is_empty value || (value == lit ".") || (value == lit "..") then EmptyOrDot
  else if eq_ignore_ascii_case value (lit ".synveil") then SynveilControlName
  else if (255 <? len value) || (255 <? utf16_count value) then TooLong
  else if contains [47; 92] value then ContainsSeparator
  else if existsb is_control (chars value) then ContainsControl
  else if contains [60; 62; 58; 34; 124; 63; 42] value then ContainsWindowsIllegalCharacter
  else if ends_with 32 value || ends_with 46 value then TrailingSpaceOrDot
  else if is_windows_reserved value then WindowsReservedDeviceName
  else Portable.

Definition local_collision_key (value : rstring) : rstring := nfkc_lowercase value.

(** What a portable name is. *)
Record portable (value : rstring) : Prop := mk_portable {
  portable_nonempty : value <> [];
  portable_not_dots : value <> lit "." /\ value <> lit "..";
  portable_not_control_name :
    map to_ascii_lowercase value <> map to_ascii_lowercase (lit ".synveil");
  portable_short : len value <= 255 /\ utf16_count value <= 255;
  portable_bytes : forall b, b ∈ value -> b ∉ [47; 92; 60; 62; 58; 34; 124; 63; 42];
  portable_chars : forall c, c ∈ chars value -> is_control c = false;
  portable_end : last value <> Some 32 /\ last value <> Some 46;
  portable_not_device : is_windows_reserved value = false }.

Lemma contains_false set value :
  contains set value = false <-> forall b, b ∈ value -> b ∉ set.
Proof.
  unfold contains. rewrite <- not_true_iff_false, existsb_exists.
  setoid_rewrite existsb_exists. setoid_rewrite list_elem_of_In.
  split.
  - intros H b Hb Hs. apply H. exists b. split; [done|]. exists b. split; [done|]. apply Z.eqb_refl.
  - intros H (b & Hb & b' & Hb' & E). apply Z.eqb_eq in E as ->. by apply (H b').
Qed.

Lemma ends_with_false c value : ends_with c value = false <-> last value <> Some c.
Proof.
  unfold ends_with. destruct (last value) as [b|]; [|split; [intros _; discriminate|done]].
  rewrite Z.eqb_neq. split; congruence.
Qed.

Lemma portable_iff value : validate_logical_name value = Portable <-> portable value.
Proof.
  unfold validate_logical_name, eq_ignore_ascii_case. split.
  - intros H. repeat (case_match; [discriminate|]). rust_bool.
    repeat match goal with
    | H : contains _ _ = false |- _ => rewrite contains_false in H
    | H : ends_with _ _ = false |- _ => apply ends_with_false in H
    end.
    split; try done.
    + by destruct value.
    + set_solver.
    + intros c Hc. apply not_true_is_false. intros E.
      assert (existsb is_control (chars value) = true) as F; [|congruence].
      apply existsb_exists. exists c. by rewrite <- list_elem_of_In.
  - intros [Hne [Hd1 Hd2] Hs [Hl Hu] Hb Hc [He1 He2] Hr].
    destruct value as [|b value]; [done|]. set (v := b :: value) in *.
    assert (existsb is_control (chars v) = false) as ->.
    { apply not_true_is_false. rewrite existsb_exists. intros (c & Hin & E).
      rewrite <- list_elem_of_In in Hin. rewrite (Hc c Hin) in E. done. }
    assert (contains [47; 92] v = false) as -> by (apply contains_false; set_solver).
    assert (contains [60; 62; 58; 34; 124; 63; 42] v = false) as ->
      by (apply contains_false; set_solver).
    rewrite (proj2 (ends_with_false 32 v) He1), (proj2 (ends_with_false 46 v) He2), Hr.
    rewrite !bool_decide_false by done.
    rewrite (proj2 (Z.ltb_ge 255 (len v))), (proj2 (Z.ltb_ge 255 (utf16_count v))) by done.
    done.
Qed.

End Portable.
End Portable.

(** ** [path.rs] *)

Module Path.
Section Path.

Context `{U : Unicode}.
Import Portable.

Definition root : rstring := [].

Definition is_root (self : rstring) : bool := is_empty self.

Definition bad_part (part : rstring) : bool :=
  is_empty part || (part == lit ".") || (part == lit "..").

Definition identity_byte (b : Z) : bool := is_ascii_alphanumeric b || (b =? 45) || (b =? 46).

Definition is_portable_part (part : rstring) : bool := is_portable (validate_logical_name part).

(** The two internal locations below [.synveil]. *)
Definition valid_internal (parts : list rstring) : bool :=
  let valid_identity :=
    (3 <=? len parts)
    && match parts !! 2%nat with
       | Some id => negb (is_empty id) && forallb identity_byte id
       | None => false
       end in
  match parts !! 1%nat with
  | Some area =>
      if area == lit "staging" then valid_identity && (len parts =? 3)
      else if area == lit "quarantine"
      then valid_identity && forallb is_portable_part (drop 3 parts)
      else false
  | None => false
  end.

Definition validate (value : rstring) : result unit ClientSyncError :=
  if is_empty value then Ok tt
  else if (32 * 1024 <? len value) || starts_with 47 value || starts_with 92 value
          || ends_with 47 value || contains [92] value
  then Err InvalidRelativePath
  else
    let parts := split 47 value in
    if existsb bad_part parts then Err InvalidRelativePath
    else if head parts == Some (lit ".synveil")
    then if valid_internal parts then Ok tt else Err InvalidRelativePath
    else if existsb (fun part => negb (is_portable_part part)) parts
    then Err InvalidRelativePath
    else Ok tt.

Definition new (value : rstring) : result rstring ClientSyncError :=
  let? _ := validate value in
  Ok value.

Definition child (self segment : rstring) : result rstring ClientSyncError :=
  if is_empty segment || contains [47; 92] segment || (segment == lit ".") || (segment == lit "..")
  then Err InvalidRelativePath
  else new (if is_root self then segment else self ++ 47 :: segment).

(** [str::rsplit_once]. *)
Definition rsplit_once (c : Z) (s : rstring) : option (rstring * rstring) :=
  match reverse (split c s) with
  | name :: ((_ :: _) as before) => Some (join c (reverse before), name)
  | _ => None
  end.

Definition parent (self : rstring) : option rstring :=
  if is_root self then None
  else Some (match rsplit_once 47 self with Some (before, _) => before | None => [] end).

(** [engine.rs]'s [append_relative]: descend one segment at a time. *)
Fixpoint descend (base : rstring) (segments : list rstring) : result rstring ClientSyncError :=
  match segments with
  | [] => Ok base
  | segment :: rest =>
      let? path := child base segment in
      descend path rest
  end.

Definition append_relative (base suffix : rstring) : result rstring ClientSyncError :=
  descend base (split 47 suffix).

(** [state.rs]'s [collision_path_key]. *)
Definition collision_path_key (path : rstring) : rstring :=
  join 47 (map local_collision_key (split 47 path)).

(** The shapes of a managed path, by its components. *)
Inductive components : list rstring -> Prop :=
| at_root : components []
| visible part parts :
    Forall (fun p => validate_logical_name p = Portable) (part :: parts) ->
    components (part :: parts)
| staged id :
    id <> [] -> id <> lit "." -> id <> lit ".." -> forallb identity_byte id = true ->
    components [lit ".synveil"; lit "staging"; id]
| quarantined id parts :
    id <> [] -> id <> lit "." -> id <> lit ".." -> forallb identity_byte id = true ->
    Forall (fun p => validate_logical_name p = Portable) parts ->
    components (lit ".synveil" :: lit "quarantine" :: id :: parts).

Definition managed (path : rstring) : Prop :=
  len path <= 32 * 1024 /\ exists parts, components parts /\ path = join 47 parts.

Definition visible_path (path : rstring) : Prop :=
  len path <= 32 * 1024
  /\ exists parts, Forall (fun p => validate_logical_name p = Portable) parts
                   /\ path = join 47 parts.

(** *** Shapes and strings *)

Definition clean (p : rstring) : Prop := p <> [] /\ 47 ∉ p /\ 92 ∉ p.

Lemma portable_clean p : validate_logical_name p = Portable -> clean p /\ bad_part p = false.
Proof.
  intros H%portable_iff. destruct H as [Hne [Hd1 Hd2] _ _ Hb _ _ _]. split.
  - split_and!; [done|intros Hin; apply (Hb _ Hin); set_solver..].
  - unfold bad_part. rewrite !bool_decide_false by done. by destruct p.
Qed.

Lemma identity_clean p :
  p <> [] -> p <> lit "." -> p <> lit ".." -> forallb identity_byte p = true ->
  clean p /\ bad_part p = false.
Proof.
  intros Hne H1 H2 Hall. rewrite forallb_forall in Hall. split.
  - split_and!; [done|intros Hin%list_elem_of_In%Hall; vm_compute in Hin; done..].
  - unfold bad_part. rewrite !bool_decide_false by done. by destruct p.
Qed.

Lemma components_clean parts :
  components parts -> Forall (fun p => clean p /\ bad_part p = false) parts.
Proof.
  assert (forall l, Forall (fun p => validate_logical_name p = Portable) l ->
                    Forall (fun p => clean p /\ bad_part p = false) l) as HF.
  { intros l H. eapply Forall_impl; [exact H|]. apply portable_clean. }
  assert (forall s, s ∈ [lit ".synveil"; lit "staging"; lit "quarantine"] ->
                    clean s /\ bad_part s = false) as HL.
  { intros s Hs. unfold clean.
    repeat (apply elem_of_cons in Hs as [->|Hs];
            [split_and!; try done; apply (bool_decide_eq_true_1 _); by vm_compute|]).
    by apply not_elem_of_nil in Hs. }
  intros [|? ? H|id ? ? ? ?|id ps ? ? ? ? H]; auto.
  - constructor; [apply HL; set_solver|]. constructor; [apply HL; set_solver|].
    constructor; [by apply identity_clean|constructor].
  - constructor; [apply HL; set_solver|]. constructor; [apply HL; set_solver|].
    constructor; [by apply identity_clean|auto].
Qed.

Lemma elem_of_join c ps b : b ∈ join c ps -> b = c \/ exists p, p ∈ ps /\ b ∈ p.
Proof.
  induction ps as [|p [|q ps] IH]; [set_solver|set_solver|].
  change (join c (p :: q :: ps)) with (p ++ c :: join c (q :: ps)). intros Hb.
  apply elem_of_app in Hb as [Hb|Hb]; [right; exists p; set_solver|].
  apply elem_of_cons in Hb as [->|Hb]; [by left|].
  destruct (IH Hb) as [->|(r & Hr & Hbr)]; [by left|right; exists r; set_solver].
Qed.

Lemma clean_join p ps :
  Forall clean (p :: ps) ->
  is_empty (join 47 (p :: ps)) = false /\ starts_with 47 (join 47 (p :: ps)) = false
  /\ starts_with 92 (join 47 (p :: ps)) = false /\ ends_with 47 (join 47 (p :: ps)) = false
  /\ contains [92] (join 47 (p :: ps)) = false /\ split 47 (join 47 (p :: ps)) = p :: ps.
Proof.
  intros H. assert (Forall (fun q => 47 ∉ q) (p :: ps)) as Hs.
  { eapply Forall_impl; [exact H|]. by intros q (_ & ? & _). }
  assert (last (join 47 (p :: ps)) <> Some 47) as Hlast.
  { clear Hs. induction ps as [|q ps IH] in p, H |- *.
    - apply Forall_inv in H as (Hne & H47 & _). simpl. intros E.
      apply last_Some_elem_of in E. done.
    - change (join 47 (p :: q :: ps)) with (p ++ 47 :: join 47 (q :: ps)).
      apply Forall_cons in H as [_ H]. specialize (IH q H).
      rewrite last_app_cons, last_cons.
      destruct (last (join 47 (q :: ps))) eqn:E; [done|].
      apply last_None in E. apply Forall_inv in H as (Hne & _).
      destruct ps; simpl in E; [done|by destruct q]. }
  assert (contains [92] (join 47 (p :: ps)) = false) as Hc.
  { apply contains_false. intros b Hb. apply elem_of_join in Hb as [->|(q & Hq & Hb)];
      [set_solver|]. rewrite Forall_forall in H. destruct (H q Hq) as (_ & _ & H92).
    set_solver. }
  assert (exists b s, join 47 (p :: ps) = b :: s /\ b ∈ p) as (b & s & E & Hb).
  { apply Forall_inv in H as (Hne & _). destruct p as [|b p]; [done|].
    destruct ps; simpl; eexists _, _; split; try done; set_solver. }
  apply Forall_inv in H as (_ & H47 & H92).
  split_and!; [by rewrite E|rewrite E; apply Z.eqb_neq; by intros ->
              |rewrite E; apply Z.eqb_neq; by intros ->|by apply ends_with_false|done|].
  by apply split_join.
Qed.

Lemma forallb_Forall_portable ps :
  forallb is_portable_part ps = true
  <-> Forall (fun p => validate_logical_name p = Portable) ps.
Proof.
  rewrite forallb_forall, Forall_forall. setoid_rewrite <- list_elem_of_In.
  unfold is_portable_part.
  split; intros H p Hp; specialize (H p Hp); by destruct (validate_logical_name p).
Qed.

Lemma existsb_portable ps :
  existsb (fun part => negb (is_portable_part part)) ps = negb (forallb is_portable_part ps).
Proof. induction ps as [|p ps IH]; [done|]. simpl. rewrite IH. by destruct (is_portable_part p). Qed.

Lemma identity_parts id :
  bad_part id = false -> negb (is_empty id) && forallb identity_byte id = true ->
  id <> [] /\ id <> lit "." /\ id <> lit ".." /\ forallb identity_byte id = true.
Proof. unfold bad_part. intros H1 H2. rust_bool. by destruct id. Qed.

Lemma valid_internal_components parts :
  existsb bad_part parts = false -> head parts = Some (lit ".synveil") ->
  valid_internal parts = true -> components parts.
Proof.
  intros Hbad Hh Hv. destruct parts as [|c parts]; [done|]. injection Hh as ->.
  unfold valid_internal in Hv. destruct parts as [|area parts]; [done|].
  cbn [lookup list_lookup] in Hv.
  destruct (decide (area = lit "staging")) as [->|Hs].
  - rewrite bool_decide_true in Hv by done.
    destruct parts as [|id parts]; [done|]. cbn [lookup list_lookup] in Hv. rust_bool.
    destruct parts; [|unfold len in *; simpl length in *; lia].
    simpl in Hbad. rust_bool.
    destruct (identity_parts id) as (? & ? & ? & ?); [done| |by apply staged].
    apply andb_true_iff. split; [by apply negb_true_iff|done].
  - rewrite bool_decide_false in Hv by done.
    destruct (decide (area = lit "quarantine")) as [->|Hq].
    + rewrite bool_decide_true in Hv by done.
      destruct parts as [|id parts]; [done|]. cbn [lookup list_lookup drop] in Hv. rust_bool.
      simpl in Hbad. rust_bool.
      destruct (identity_parts id) as (? & ? & ? & ?); [done| |].
      { apply andb_true_iff. split; [by apply negb_true_iff|done]. }
      apply quarantined; try done. by apply forallb_Forall_portable.
    + by rewrite bool_decide_false in Hv by done.
Qed.

Lemma components_valid_internal parts :
  components parts -> head parts = Some (lit ".synveil") -> valid_internal parts = true.
Proof.
  intros [|? ? H|id Hne ? ? Hid|id ps Hne ? ? Hid H] Hh; [done| | |].
  - injection Hh as ->. by apply Forall_inv in H.
  - unfold valid_internal. cbn [lookup list_lookup]. rewrite bool_decide_true by done.
    rewrite Hid. by destruct id.
  - unfold valid_internal. cbn [lookup list_lookup drop].
    rewrite bool_decide_false by done. rewrite bool_decide_true by done.
    rewrite drop_0, Hid, (proj2 (forallb_Forall_portable ps) H).
    destruct id; [done|]. simpl negb. rewrite !andb_true_r. apply Z.leb_le. unfold len. simpl length. lia.
Qed.

Lemma validate_ok value : validate value = Ok tt <-> managed value.
Proof.
  split.
  - unfold validate. intros H. destruct (is_empty value) eqn:Ee.
    { destruct value; [|done]. split; [by vm_compute|]. exists []. split; [constructor|done]. }
    case_match; [done|]. rust_bool.
    split; [lia|]. exists (split 47 value). split; [|by rewrite join_split].
    destruct (existsb bad_part (split 47 value)) eqn:Eb; [done|].
    destruct (decide (head (split 47 value) = Some (lit ".synveil"))) as [Hh|Hh].
    + rewrite bool_decide_true in H by done. case_match; [|done].
      by apply valid_internal_components.
    + rewrite bool_decide_false in H by done. rewrite existsb_portable in H.
      destruct (forallb is_portable_part (split 47 value)) eqn:Ep; [|done].
      apply forallb_Forall_portable in Ep. pose proof (split_nonempty 47 value).
      destruct (split 47 value); [done|]. by constructor.
  - intros (Hl & parts & Hc & ->). destruct parts as [|part parts]; [done|].
    pose proof (components_clean _ Hc) as Hcl. apply Forall_and in Hcl as [Hcl Hbad].
    destruct (clean_join part parts Hcl) as (H1 & H2 & H3 & H4 & H5 & H6).
    unfold validate. rewrite H1, H2, H3, H4, H5, H6, (proj2 (Z.ltb_ge _ _) Hl).
    cbn [orb].
    assert (existsb bad_part (part :: parts) = false) as ->.
    { apply not_true_is_false. rewrite existsb_exists. intros (q & Hq & E).
      rewrite <- list_elem_of_In in Hq. rewrite Forall_forall in Hbad.
      rewrite (Hbad q Hq) in E. done. }
    destruct (decide (head (part :: parts) = Some (lit ".synveil"))) as [Hh|Hh].
    + rewrite bool_decide_true by done. by rewrite components_valid_internal.
    + rewrite bool_decide_false by done. rewrite existsb_portable.
      inversion Hc; subst; try done. by rewrite (proj2 (forallb_Forall_portable _)).
Qed.

Lemma new_managed value path : new value = Ok path <-> path = value /\ managed value.
Proof.
  unfold new. rewrite <- validate_ok. destruct (validate value) as [[]|e].
  - split; [by intros [= ->]|by intros [-> _]].
  - split; [done|by intros [_ ?]].
Qed.

Lemma new_error value e : new value = Err e -> e = InvalidRelativePath.
Proof. unfold new, validate. intros H. rust_case. Qed.

Lemma split_app_last c p s : c ∉ s -> split c (p ++ c :: s) = split c p ++ [s].
Proof.
  intros Hs. induction p as [|b p IH]; simpl.
  - rewrite Z.eqb_refl. by rewrite split_plain.
  - destruct (b =? c); rewrite IH; [done|].
    pose proof (split_nonempty c p). by destruct (split c p).
Qed.

Lemma parent_child p s : 47 ∉ s -> s <> [] ->
  parent (if is_root p then s else p ++ 47 :: s) = Some p.
Proof.
  intros Hs Hne. destruct p as [|b p]; cbn [is_root is_empty].
  - unfold parent, rsplit_once. rewrite split_plain by done. by destruct s.
  - unfold parent, rsplit_once. rewrite split_app_last by done.
    rewrite reverse_app. change (reverse [s]) with [s]. cbn [app is_root is_empty].
    pose proof (split_nonempty 47 (b :: p)) as Hn.
    destruct (reverse (split 47 (b :: p))) eqn:E.
    { apply (f_equal reverse) in E. rewrite reverse_involutive in E. done. }
    by rewrite <- E, reverse_involutive, join_split.
Qed.

Lemma managed_components s : managed s -> s <> [] -> components (split 47 s).
Proof.
  intros (_ & parts & Hc & ->) Hne. destruct parts as [|p ps]; [done|].
  pose proof (components_clean _ Hc) as Hcl. apply Forall_and in Hcl as [Hcl _].
  by destruct (clean_join p ps Hcl) as (_ & _ & _ & _ & _ & ->).
Qed.

Lemma visible_managed p : visible_path p -> managed p.
Proof.
  intros (Hl & parts & H & ->). split; [done|]. exists parts. split; [|done].
  destruct parts; constructor; done.
Qed.

(** A managed path is visible exactly when it does not start in the control
    directory. *)
Lemma managed_visible p :
  managed p -> head (split 47 p) <> Some (lit ".synveil") -> visible_path p.
Proof.
  intros Hm Hh. destruct (decide (p = [])) as [->|Hne].
  { split; [by vm_compute|]. exists []. by split. }
  pose proof (managed_components p Hm Hne) as Hc. destruct Hm as [Hl _].
  split; [done|]. exists (split 47 p). split; [|by rewrite join_split].
  inversion Hc as [E| |? ? ? ? ? E|? ? ? ? ? ? ? E]; try done; by rewrite <- E in Hh.
Qed.

Lemma visible_head p : visible_path p -> p <> [] -> head (split 47 p) <> Some (lit ".synveil").
Proof.
  intros (Hl & parts & H & ->) Hne E. destruct parts as [|q qs]; [done|].
  assert (Forall clean (q :: qs)) as Hcl.
  { eapply Forall_impl; [exact H|]. intros r Hr. by apply portable_clean. }
  destruct (clean_join q qs Hcl) as (_ & _ & _ & _ & _ & Es). rewrite Es in E.
  injection E as ->. by apply Forall_inv in H.
Qed.

Lemma child_ok p s q :
  child p s = Ok q ->
  47 ∉ s /\ s <> [] /\ q = (if is_root p then s else p ++ 47 :: s) /\ managed q.
Proof.
  unfold child. intros H. case_match eqn:E; [done|]. rust_bool.
  apply new_managed in H as [-> Hm].
  match goal with H : contains _ _ = false |- _ => rewrite contains_false in H;
    split_and!; [intros Hin; apply (H _ Hin); set_solver| |done|done] end.
  by destruct s.
Qed.

Lemma child_visible p s q : visible_path p -> child p s = Ok q -> visible_path q.
Proof.
  intros Hv Hc. destruct (child_ok _ _ _ Hc) as (Hs & Hne & -> & Hm).
  apply managed_visible; [done|]. destruct p as [|b p]; cbn [is_root is_empty] in *.
  - rewrite split_plain by done. intros [= ->]. by vm_compute in Hc.
  - rewrite split_app_last by done. pose proof (visible_head _ Hv) as Hh.
    pose proof (split_nonempty 47 (b :: p)). destruct (split 47 (b :: p)); [done|].
    by apply Hh.
Qed.

Lemma child_of_portable p s :
  validate_logical_name s = Portable ->
  managed (if is_root p then s else p ++ 47 :: s) ->
  child p s = Ok (if is_root p then s else p ++ 47 :: s).
Proof.
  intros Hs Hm. destruct (portable_clean s Hs) as [(Hne & H47 & H92) Hb]. unfold child.
  assert (contains [47; 92] s = false) as -> by (apply contains_false; set_solver).
  unfold bad_part in Hb. rust_bool. rewrite !bool_decide_false by done.
  destruct s; [done|]. cbn [is_empty orb]. by apply new_managed.
Qed.

Lemma join_app_last c ps s : ps <> [] -> join c (ps ++ [s]) = join c ps ++ c :: s.
Proof.
  induction ps as [|p [|q ps] IH]; intros H; [done|done|].
  change (join c ((p :: q :: ps) ++ [s])) with (p ++ c :: join c ((q :: ps) ++ [s])).
  rewrite IH by done.
  change (join c (p :: q :: ps)) with (p ++ c :: join c (q :: ps)).
  by rewrite <- app_assoc.
Qed.

(** Every visible path below the root is a visible parent and one portable
    segment. *)
Lemma visible_last q :
  visible_path q -> q <> [] ->
  exists p s, visible_path p /\ validate_logical_name s = Portable
              /\ q = (if is_root p then s else p ++ 47 :: s).
Proof.
  intros (Hl & parts & H & ->) Hne.
  destruct parts as [|s ps] using rev_ind; [done|clear IHps].
  apply Forall_app in H as [Hps Hs%Forall_inv].
  destruct (portable_clean s Hs) as [(Hse & _ & _) _].
  assert (Forall clean ps) as Hcl.
  { eapply Forall_impl; [exact Hps|]. intros r Hr. by apply portable_clean. }
  exists (join 47 ps), s. destruct ps as [|p ps].
  - split_and!; [|done|done]. split; [by vm_compute|]. exists []. by split.
  - destruct (clean_join p ps Hcl) as (He & _).
    unfold is_root. rewrite He, <- join_app_last by done. split_and!; [|done|done].
    split; [|by exists (p :: ps)]. rewrite join_app_last in Hl by done.
    unfold len in *. rewrite length_app in Hl. lia.
Qed.

(** [ManagedRelativePath::new] accepts exactly the managed paths: the root,
    slash-separated portable names, one staging file, or a quarantined object
    and what lies below it, within 32 KiB; every other string is refused with
    [InvalidRelativePath]. *)
Theorem path_new_exact value :
  (managed value /\ new value = Ok value)
  \/ (~ managed value /\ new value = Err InvalidRelativePath).
Proof.
  destruct (new value) as [path|e] eqn:E.
  - apply new_managed in E as [-> Hm]. by left.
  - right. split; [|by rewrite (new_error _ _ E)].
    intros Hm. assert (new value = Ok value) by by apply new_managed. congruence.
Qed.

(** C39: visible paths are closed under navigation: from a visible path,
    [child] produces exactly the visible paths whose [parent] it is, so
    descending and climbing are inverse and never reach the control directory
    or leave the managed root. *)
Theorem path_navigation p q :
  visible_path p ->
  (exists segment, child p segment = Ok q) <-> visible_path q /\ parent q = Some p.
Proof.
  intros Hp. split.
  - intros (s & Hc). split; [by eapply child_visible|].
    destruct (child_ok _ _ _ Hc) as (Hs & Hne & -> & _). by apply parent_child.
  - intros [Hq Hpar]. destruct (decide (q = [])) as [->|Hne]; [done|].
    destruct (visible_last q Hq Hne) as (p' & s & Hp' & Hs & ->).
    destruct (portable_clean s Hs) as [(Hse & H47 & _) _].
    rewrite parent_child in Hpar by done. injection Hpar as ->.
    exists s. apply child_of_portable; [done|]. by apply visible_managed.
Qed.

End Path.
End Path.

(** An instance of the Unicode data on ASCII, for concrete runs. *)
Module UnicodeExample.

#[export] Instance ascii_unicode : Unicode := {
  to_uppercase c := [to_ascii_uppercase c];
  nfkc_lowercase := map to_ascii_lowercase
}.

#[export] Instance ascii_unicode_laws : UnicodeLaws.
Proof. split. done. Qed.

Lemma path_navigation_witness :
  (exists segment, Path.child (lit "docs") segment = Ok (lit "docs/a.txt"))
  <-> Path.visible_path (lit "docs/a.txt") /\ Path.parent (lit "docs/a.txt") = Some (lit "docs").
Proof.
  apply (Path.path_navigation (lit "docs") (lit "docs/a.txt")).
  split; [by vm_compute|]. exists [lit "docs"]. split; [|done]. by repeat constructor.
Defined.

End UnicodeExample.
