(* ===== verification/ClientStore.v ===== *)
(** * The desktop synchroniser's local database

    The tables of [client-sync/migrations] that inbound synchronisation reads
    and writes, and the queries of [client-sync/src/state.rs] on them.  A row is
    the value it encodes; a statement that SQLite refuses (a missing row, a
    [CHECK], [UNIQUE] or foreign-key violation) is [Err Database], and a
    transaction that fails leaves the store as it was.  The clock is read once
    per store call. *)

From S2P Require Import Prelude Vocabulary Models Rebaseline SyncTypes ClientPaths.

(** ** Rows *)

Module LocalNode.

Record t := mk {
  library_id : Z; node_id : Z; parent_node_id : option Z; relative_path : rstring;
  logical_name : rstring; kind : NodeKind.t; state : NodeState.t; revision : Z;
  current_version_id : option Z; content_length : option Z; content_sha256 : option (list Z);
  local_length : option Z; local_sha256 : option (list Z); bootstrap_generation : Z;
  present : bool; quarantine_relative_path : option rstring }.

#[global] Instance t_eq_dec : EqDecision t.
Proof. solve_decision. Defined.

End LocalNode.

(** A row of [local_nodes]: the node and its portable comparison key. *)
Record NodeRow := mk_NodeRow { row_node : LocalNode.t; collision_key : rstring }.

Module Replica.

Record t := mk {
  scope : ReplicaScope; server_profile_id : option Z; root_binding_id : Z;
  root_node_id : option Z; journal_epoch : Z; applied_sequence : Z;
  acknowledged_sequence : Z; status : EngineStatus.t; first_sync_completed : bool }.

Definition with_status (r : t) (s : EngineStatus.t) : t :=
  mk (scope r) (server_profile_id r) (root_binding_id r) (root_node_id r) (journal_epoch r)
    (applied_sequence r) (acknowledged_sequence r) s (first_sync_completed r).

Definition with_cursor (r : t) (epoch applied acknowledged : Z) (s : EngineStatus.t) : t :=
  mk (scope r) (server_profile_id r) (root_binding_id r) (root_node_id r) epoch applied
    acknowledged s (first_sync_completed r).

Definition with_root (r : t) (root : Z) : t :=
  mk (scope r) (server_profile_id r) (root_binding_id r) (Some root) (journal_epoch r)
    (applied_sequence r) (acknowledged_sequence r) (status r) (first_sync_completed r).

End Replica.

(** A row of [pending_events]: the columns [insert_pending_change] binds. *)
Module EventRow.

Record t := mk {
  sequence : Z; event_id : Z; schema_version : Z; resource_id : Z; change_kind : ChangeKind.t;
  resource_revision : Z; parent_node_id : option Z; logical_name : option rstring;
  node_kind : option NodeKind.t; node_state : option NodeState.t;
  current_version_id : option Z; content_length : option Z; content_sha256 : option (list Z) }.

End EventRow.

Module StoredChange.

Record t := mk {
  sequence : Z; event_id : Z; change_kind : ChangeKind.t; resource_id : Z;
  resource_revision : Z; desired_node : option SnapshotNode.t }.

End StoredChange.

Inductive PageState : Type := Received | PageApplying | LocallyCommitted | PageAckPending.

#[global] Instance PageState_eq_dec : EqDecision PageState.
Proof. solve_decision. Defined.

(** A row of [pending_pages]; [StoredPage] adds the decoded events. *)
Module PageRow.

Record t := mk {
  epoch : Z; from_sequence : Z; through_sequence : Z; high_watermark : Z; has_more : bool;
  ack_evidence : option rstring; state : PageState }.

Definition with_state (p : t) (s : PageState) : t :=
  mk (epoch p) (from_sequence p) (through_sequence p) (high_watermark p) (has_more p)
    (ack_evidence p) s.

End PageRow.

Module StoredPage.

Record t := mk {
  epoch : Z; from_sequence : Z; through_sequence : Z; high_watermark : Z; has_more : bool;
  ack_evidence : option rstring; changes : list StoredChange.t }.

End StoredPage.

Module PendingAck.

Record t := mk {
  library_id : Z; epoch : Z; from_sequence : Z; through_sequence : Z; high_watermark : Z;
  evidence : rstring }.

End PendingAck.

(** A row of [applied_events]. *)
Record EventEvidence := mk_EventEvidence {
  evidence_event_id : Z; evidence_resource_id : Z; evidence_revision : Z }.

#[global] Instance EventEvidence_eq_dec : EqDecision EventEvidence.
Proof. solve_decision. Defined.

Inductive BootstrapState : Type :=
| Fetching | ManifestDurable | BootstrapApplying | LocalComplete | CompletionPending.

#[global] Instance BootstrapState_eq_dec : EqDecision BootstrapState.
Proof. solve_decision. Defined.

Module BootstrapRecord.

Record t := mk {
  library_id : Z; bootstrap_id : Z; generation : Z; snapshot_epoch : Z; resume_sequence : Z;
  manifest_item_count : Z; state : BootstrapState; next_cursor : option rstring;
  completion_evidence : option rstring; terminal_fetched : bool }.

Definition with_page (b : t) (cursor evidence : option rstring) (terminal : bool)
  (s : BootstrapState) : t :=
  mk (library_id b) (bootstrap_id b) (generation b) (snapshot_epoch b) (resume_sequence b)
    (manifest_item_count b) s cursor evidence terminal.

Definition with_state (b : t) (s : BootstrapState) : t :=
  with_page b (next_cursor b) (completion_evidence b) (terminal_fetched b) s.

End BootstrapRecord.

Module HandoffRecord.

Record t := mk { snapshot_id : Z; library_id : Z; journal_epoch : Z; resume_sequence : Z }.

#[global] Instance t_eq_dec : EqDecision t.
Proof. solve_decision. Defined.

End HandoffRecord.

Inductive HandoffFinalizeOutcome : Type := Completed | AlreadyComplete.

Module LocalOperationKind.

Inductive t : Type := CreateDirectory | ReplaceFile | Rename | Move | Trash | Restore | Purge.

#[global] Instance t_eq_dec : EqDecision t.
Proof. solve_decision. Defined.

End LocalOperationKind.

Module LocalOperationState.

Inductive t : Type := Prepared | FilesystemApplied | DatabaseCommitted | NeedsAttention.

#[global] Instance t_eq_dec : EqDecision t.
Proof. solve_decision. Defined.

End LocalOperationState.

Module LocalOperation.

Record t := mk {
  operation_id : Z; library_id : Z; node_id : Z; server_sequence : option Z;
  bootstrap_generation : option Z; kind : LocalOperationKind.t; source : option rstring;
  destination : option rstring; staging : option rstring; expected_kind : option NodeKind.t;
  expected_length : option Z; expected_sha256 : option (list Z); desired_revision : Z;
  desired_version_id : option Z; desired_length : option Z; desired_sha256 : option (list Z);
  state : LocalOperationState.t }.

Definition set_staging (o : t) (path : rstring) : t :=
  mk (operation_id o) (library_id o) (node_id o) (server_sequence o) (bootstrap_generation o)
    (kind o) (source o) (destination o) (Some path) (expected_kind o) (expected_length o)
    (expected_sha256 o) (desired_revision o) (desired_version_id o) (desired_length o)
    (desired_sha256 o) (state o).

Definition set_state (o : t) (s : LocalOperationState.t) : t :=
  mk (operation_id o) (library_id o) (node_id o) (server_sequence o) (bootstrap_generation o)
    (kind o) (source o) (destination o) (staging o) (expected_kind o) (expected_length o)
    (expected_sha256 o) (desired_revision o) (desired_version_id o) (desired_length o)
    (desired_sha256 o) s.

End LocalOperation.

(** A row of [local_operations]. *)
Record OperationRow := mk_OperationRow {
  row_operation : LocalOperation.t; created_at_ms : Z; updated_at_ms : Z }.

(** A row of [local_apply_issues] and one of [observation_issues]. *)
Record IssueRow := mk_IssueRow {
  issue_id : Z; issue_library_id : Z; issue_node_id : option Z;
  issue_server_sequence : option Z; issue_bootstrap_generation : option Z;
  issue_kind : LocalIssueKind.t; issue_expected_state : rstring; issue_created_at : Z;
  issue_resolved_at : option Z }.

Record ObservationIssueRow := mk_ObservationIssueRow {
  observation_issue_id : Z; observation_library_id : Z; observation_node_id : option Z;
  observation_path : option rstring; observation_kind : ObservationIssueKind.t;
  observation_created_at : Z; observation_resolved_at : option Z }.

(** A row of [observation_suppressions], keyed by operation and path. *)
Record SuppressionRow := mk_SuppressionRow {
  suppression_library_id : Z; suppression_node_id : Z; suppression_present : bool;
  suppression_fingerprint : option LocalFingerprint.t }.

(** The columns of the outbound tables that inbound synchronisation reads. *)
Inductive IntentState : Type :=
| IntentPending | IntentReady | IntentPreparing | IntentUploading | IntentSubmitting
| IntentServerApplied | IntentConflict | IntentBlocked | IntentSuperseded | IntentCancelled
| IntentNeedsRebaseValidation | IntentReconciled.

#[global] Instance IntentState_eq_dec : EqDecision IntentState.
Proof. solve_decision. Defined.

Module OutboundIntentKind.

Inductive t : Type :=
| CreateDirectory | CreateFile | RenameNode | MoveNode | DeleteOrTrashNode | ModifyFileContent.

#[global] Instance t_eq_dec : EqDecision t.
Proof. solve_decision. Defined.

End OutboundIntentKind.

(** The [dedupe_sha256] column is a digest of the others and not kept. *)
Record IntentRow := mk_IntentRow {
  intent_library_id : Z; intent_node_id : option Z; intent_parent_node_id : option Z;
  intent_kind : OutboundIntentKind.t; intent_state : IntentState; intent_observed_path : rstring;
  intent_old_path : option rstring; intent_fingerprint : option LocalFingerprint.t;
  intent_base_epoch : Z; intent_base_sequence : Z; intent_base_revision : option Z;
  intent_base_version_id : option Z; intent_base_parent_revision : option Z;
  intent_created_at : Z }.

Definition set_intent_state (i : IntentRow) (s : IntentState) : IntentRow :=
  mk_IntentRow (intent_library_id i) (intent_node_id i) (intent_parent_node_id i) (intent_kind i) s
    (intent_observed_path i) (intent_old_path i) (intent_fingerprint i) (intent_base_epoch i)
    (intent_base_sequence i) (intent_base_revision i) (intent_base_version_id i)
    (intent_base_parent_revision i) (intent_created_at i).

Inductive SubmissionOutcome : Type := OutcomeServerApplied | OutcomeConflict | OutcomeBlocked.

#[global] Instance SubmissionOutcome_eq_dec : EqDecision SubmissionOutcome.
Proof. solve_decision. Defined.

Record ResultRow := mk_ResultRow {
  result_outcome : SubmissionOutcome; result_resource_id : option Z;
  result_revision : option Z; result_file_version_id : option Z; result_length : option Z;
  result_sha256 : option (list Z); result_journal_sequence : option Z;
  result_mutation_id : option Z; result_upload_session_id : option Z;
  result_journal_event_id : option Z; result_conflict_id : option Z;
  result_conflict_reason : option rstring; result_replayed : bool }.

(** A row of [outbound_mutation_requests]. *)
Record MutationRow := mk_MutationRow {
  mutation_row_id : Z; mutation_row_kind : ClientMutationKind.t; mutation_row_epoch : Z;
  mutation_row_sequence : Z; mutation_row_json : rstring; mutation_row_version : Z;
  mutation_row_sha256 : rstring }.

Module SyncConflictKind.

Inductive t : Type :=
| RemoteRevisionChanged | RemoteContentChanged | RemoteStateChanged | RemoteMissing
| NameCollision | ParentChangedOrUnavailable.

#[global] Instance t_eq_dec : EqDecision t.
Proof. solve_decision. Defined.

End SyncConflictKind.

Module SyncConflictResolution.

Inductive t : Type := AcceptRemote | RetryLocalAgainstCurrentBase.

#[global] Instance t_eq_dec : EqDecision t.
Proof. solve_decision. Defined.

End SyncConflictResolution.

(** The resolution columns of [sync_conflicts], which a [CHECK] makes null exactly
    while the status is [UNRESOLVED]. *)
Record ResolutionColumns := mk_ResolutionColumns {
  resolution_id : Z; resolution : SyncConflictResolution.t; resolved_at_ms : Z;
  replacement_intent_id : option Z }.

Record ConflictRow := mk_ConflictRow {
  conflict_intent_id : Z; conflict_library_id : Z; conflict_node_id : option Z;
  conflict_kind : SyncConflictKind.t; conflict_local_base_revision : option Z;
  conflict_remote_revision : option Z; conflict_remote_state : option NodeState.t;
  conflict_remote_parent : option Z; conflict_remote_epoch : option Z;
  conflict_remote_sequence : option Z; conflict_detected_at : Z;
  conflict_resolution : option ResolutionColumns }.

Definition conflict_unresolved (c : ConflictRow) : bool := is_none (conflict_resolution c).

Record UploadRow := mk_UploadRow {
  upload_session_id : option Z; upload_operation : rstring; upload_staging_path : rstring;
  upload_expected_length : Z; upload_expected_sha256 : list Z; upload_acknowledged_offset : Z;
  upload_state : rstring }.

Record EnrollmentRow := mk_EnrollmentRow {
  enrollment_owner_user_id : Z; enrollment_device_id : Z; enrollment_credential_id : Z;
  enrollment_forgotten_at_ms : option Z }.

(** A row of [rebaseline_candidates] with the rows of
    [rebaseline_candidate_nodes] and [rebaseline_candidate_cursors] that a
    foreign key ties to it. *)
Inductive CandidateState : Type := CandidateFetching | CandidateComplete | CreateClaim.

#[global] Instance CandidateState_eq_dec : EqDecision CandidateState.
Proof. solve_decision. Defined.

Module Candidate.

Record t := mk {
  snapshot_id : Z; journal_epoch : Z; resume_sequence : Z; expected_count : Z;
  received_count : Z; next_cursor : option rstring; terminal_fetched : bool;
  state : CandidateState; nodes : list SnapshotNode.t; cursors : list rstring }.

End Candidate.

(** *** The tables of the observer *)

(** A row of [observation_state]. *)
Record ObservationState := mk_ObservationState {
  rescan_required : bool; scan_active : bool; scan_generation : Z }.

(** A row of [observation_nodes]: the overlay over a server node.  A [CHECK] ties
    [present] to the fingerprint. *)
Record ObservedRow := mk_ObservedRow {
  overlay_path : rstring; overlay_present : bool; overlay_fingerprint : option LocalFingerprint.t }.

(** The five tables that only the observer uses: its state per library, the
    overlay by library and node, and for each library and generation of a scan
    the directories left with their cursor, and the nodes and intents seen. *)
Record ObservationTables := mk_ObservationTables {
  observation_state : gmap Z ObservationState;
  observation_nodes : gmap (Z * Z) ObservedRow;
  observation_scan_work : gmap (Z * Z * rstring) (option rstring);
  observation_scan_seen : gset (Z * Z * Z);
  observation_scan_seen_intents : gset (Z * Z * Z) }.

Definition set_observation_nodes (o : ObservationTables) v : ObservationTables :=
  mk_ObservationTables (observation_state o) v (observation_scan_work o)
    (observation_scan_seen o) (observation_scan_seen_intents o).

(** ** The store *)

Record Store := mk_Store {
  replicas : gmap Z Replica.t;
  pending_pages : gmap Z PageRow.t;
  pending_events : gmap Z (list EventRow.t);
  pending_acknowledgements : gmap Z PendingAck.t;
  applied_events : gmap (Z * Z * Z) EventEvidence;
  local_nodes : gmap (Z * Z) NodeRow;
  bootstrap_sessions : gmap Z BootstrapRecord.t;
  bootstrap_nodes : gmap (Z * Z * Z) (SnapshotNode.t * bool);
  rebaseline_applied_handoffs : gmap Z HandoffRecord.t;
  rebaseline_candidates : gmap Z Candidate.t;
  local_operations : gmap Z OperationRow;
  local_apply_issues : list IssueRow;
  observation_issues : list ObservationIssueRow;
  observation_suppressions : gmap (Z * rstring) SuppressionRow;
  outbound_intents : gmap Z IntentRow;
  outbound_submission_results : gmap Z ResultRow;
  sync_conflicts : gmap Z ConflictRow;
  outbound_upload_sessions : gmap Z UploadRow;
  profile_enrollments : gmap Z EnrollmentRow;
  outbound_mutation_requests : gmap Z MutationRow;
  observation : ObservationTables }.

Definition empty_store : Store :=
  mk_Store ∅ ∅ ∅ ∅ ∅ ∅ ∅ ∅ ∅ ∅ ∅ [] [] ∅ ∅ ∅ ∅ ∅ ∅ ∅ (mk_ObservationTables ∅ ∅ ∅ ∅ ∅).

(** One setter per table. *)
Section Setters.
Context (s : Store).

Definition set_replicas v 
  := mk_Store v (pending_pages s) (pending_events s)
  (pending_acknowledgements s) (applied_events s) (local_nodes s) (bootstrap_sessions s)
  (bootstrap_nodes s) (rebaseline_applied_handoffs s) (rebaseline_candidates s) (local_operations s)
  (local_apply_issues s) (observation_issues s) (observation_suppressions s)
  (outbound_intents s) (outbound_submission_results s) (sync_conflicts s)
  (outbound_upload_sessions s) (profile_enrollments s) (outbound_mutation_requests s)
  (observation s).
Definition set_pending (pages : gmap Z PageRow.t) (events : gmap Z (list EventRow.t))
  (acks : gmap Z PendingAck.t) :=
  mk_Store (replicas s) pages events acks (applied_events s)
  (local_nodes s) (bootstrap_sessions s)
  (bootstrap_nodes s) (rebaseline_applied_handoffs s) (rebaseline_candidates s) (local_operations s)
  (local_apply_issues s) (observation_issues s) (observation_suppressions s)
  (outbound_intents s) (outbound_submission_results s) (sync_conflicts s)
  (outbound_upload_sessions s) (profile_enrollments s) (outbound_mutation_requests s)
  (observation s).
Definition set_applied_events v :=
  mk_Store (replicas s) (pending_pages s) (pending_events s)
  (pending_acknowledgements s) v (local_nodes s) (bootstrap_sessions s)
  (bootstrap_nodes s) (rebaseline_applied_handoffs s) (rebaseline_candidates s) (local_operations s)
  (local_apply_issues s) (observation_issues s) (observation_suppressions s)
  (outbound_intents s) (outbound_submission_results s) (sync_conflicts s)
  (outbound_upload_sessions s) (profile_enrollments s) (outbound_mutation_requests s)
  (observation s).
Definition set_local_nodes v :=
  mk_Store (replicas s) (pending_pages s) (pending_events s)
  (pending_acknowledgements s) (applied_events s) v (bootstrap_sessions s)
  (bootstrap_nodes s) (rebaseline_applied_handoffs s) (rebaseline_candidates s) (local_operations s)
  (local_apply_issues s) (observation_issues s) (observation_suppressions s)
  (outbound_intents s) (outbound_submission_results s) (sync_conflicts s)
  (outbound_upload_sessions s) (profile_enrollments s) (outbound_mutation_requests s)
  (observation s).
Definition set_bootstrap sessions nodes :=
  mk_Store (replicas s) (pending_pages s) (pending_events s)
  (pending_acknowledgements s) (applied_events s) (local_nodes s) sessions
  nodes (rebaseline_applied_handoffs s) (rebaseline_candidates s) (local_operations s)
  (local_apply_issues s) (observation_issues s) (observation_suppressions s)
  (outbound_intents s) (outbound_submission_results s) (sync_conflicts s)
  (outbound_upload_sessions s) (profile_enrollments s) (outbound_mutation_requests s)
  (observation s).
Definition set_handoffs v :=
  mk_Store (replicas s) (pending_pages s) (pending_events s)
  (pending_acknowledgements s) (applied_events s) (local_nodes s) (bootstrap_sessions s)
  (bootstrap_nodes s) v (rebaseline_candidates s) (local_operations s)
  (local_apply_issues s) (observation_issues s) (observation_suppressions s)
  (outbound_intents s) (outbound_submission_results s) (sync_conflicts s)
  (outbound_upload_sessions s) (profile_enrollments s) (outbound_mutation_requests s)
  (observation s).
Definition set_local_operations v :=
  mk_Store (replicas s) (pending_pages s) (pending_events s)
  (pending_acknowledgements s) (applied_events s) (local_nodes s) (bootstrap_sessions s)
  (bootstrap_nodes s) (rebaseline_applied_handoffs s) (rebaseline_candidates s) v
  (local_apply_issues s) (observation_issues s) (observation_suppressions s)
  (outbound_intents s) (outbound_submission_results s) (sync_conflicts s)
  (outbound_upload_sessions s) (profile_enrollments s) (outbound_mutation_requests s)
  (observation s).
Definition set_issues local observed :=
  mk_Store (replicas s) (pending_pages s) (pending_events s)
  (pending_acknowledgements s) (applied_events s) (local_nodes s) (bootstrap_sessions s)
  (bootstrap_nodes s) (rebaseline_applied_handoffs s) (rebaseline_candidates s) (local_operations s)
  local observed (observation_suppressions s)
  (outbound_intents s) (outbound_submission_results s) (sync_conflicts s)
  (outbound_upload_sessions s) (profile_enrollments s) (outbound_mutation_requests s)
  (observation s).
Definition set_suppressions v :=
  mk_Store (replicas s) (pending_pages s) (pending_events s)
  (pending_acknowledgements s) (applied_events s) (local_nodes s) (bootstrap_sessions s)
  (bootstrap_nodes s) (rebaseline_applied_handoffs s) (rebaseline_candidates s) (local_operations s)
  (local_apply_issues s) (observation_issues s) v
  (outbound_intents s) (outbound_submission_results s) (sync_conflicts s)
  (outbound_upload_sessions s) (profile_enrollments s) (outbound_mutation_requests s)
  (observation s).
Definition set_outbound_intents v :=
  mk_Store (replicas s) (pending_pages s) (pending_events s)
  (pending_acknowledgements s) (applied_events s) (local_nodes s) (bootstrap_sessions s)
  (bootstrap_nodes s) (rebaseline_applied_handoffs s) (rebaseline_candidates s) (local_operations s)
  (local_apply_issues s) (observation_issues s) (observation_suppressions s)
  v (outbound_submission_results s) (sync_conflicts s)
  (outbound_upload_sessions s) (profile_enrollments s) (outbound_mutation_requests s)
  (observation s).
Definition set_candidates v :=
  mk_Store (replicas s) (pending_pages s) (pending_events s)
  (pending_acknowledgements s) (applied_events s) (local_nodes s) (bootstrap_sessions s)
  (bootstrap_nodes s) (rebaseline_applied_handoffs s) v (local_operations s)
  (local_apply_issues s) (observation_issues s) (observation_suppressions s)
  (outbound_intents s) (outbound_submission_results s) (sync_conflicts s)
  (outbound_upload_sessions s) (profile_enrollments s) (outbound_mutation_requests s)
  (observation s).
Definition set_conflicts v :=
  mk_Store (replicas s) (pending_pages s) (pending_events s)
  (pending_acknowledgements s) (applied_events s) (local_nodes s) (bootstrap_sessions s)
  (bootstrap_nodes s) (rebaseline_applied_handoffs s) (rebaseline_candidates s) (local_operations s)
  (local_apply_issues s) (observation_issues s) (observation_suppressions s)
  (outbound_intents s) (outbound_submission_results s) v
  (outbound_upload_sessions s) (profile_enrollments s) (outbound_mutation_requests s)
  (observation s).
Definition set_submission_results v :=
  mk_Store (replicas s) (pending_pages s) (pending_events s)
  (pending_acknowledgements s) (applied_events s) (local_nodes s) (bootstrap_sessions s)
  (bootstrap_nodes s) (rebaseline_applied_handoffs s) (rebaseline_candidates s) (local_operations s)
  (local_apply_issues s) (observation_issues s) (observation_suppressions s)
  (outbound_intents s) v (sync_conflicts s)
  (outbound_upload_sessions s) (profile_enrollments s) (outbound_mutation_requests s)
  (observation s).
Definition set_upload_sessions v :=
  mk_Store (replicas s) (pending_pages s) (pending_events s)
  (pending_acknowledgements s) (applied_events s) (local_nodes s) (bootstrap_sessions s)
  (bootstrap_nodes s) (rebaseline_applied_handoffs s) (rebaseline_candidates s) (local_operations s)
  (local_apply_issues s) (observation_issues s) (observation_suppressions s)
  (outbound_intents s) (outbound_submission_results s) (sync_conflicts s)
  v (profile_enrollments s) (outbound_mutation_requests s)
  (observation s).
Definition set_mutation_requests v :=
  mk_Store (replicas s) (pending_pages s) (pending_events s)
  (pending_acknowledgements s) (applied_events s) (local_nodes s) (bootstrap_sessions s)
  (bootstrap_nodes s) (rebaseline_applied_handoffs s) (rebaseline_candidates s) (local_operations s)
  (local_apply_issues s) (observation_issues s) (observation_suppressions s)
  (outbound_intents s) (outbound_submission_results s) (sync_conflicts s)
  (outbound_upload_sessions s) (profile_enrollments s) v (observation s).
Definition set_observation v :=
  mk_Store (replicas s) (pending_pages s) (pending_events s)
  (pending_acknowledgements s) (applied_events s) (local_nodes s) (bootstrap_sessions s)
  (bootstrap_nodes s) (rebaseline_applied_handoffs s) (rebaseline_candidates s) (local_operations s)
  (local_apply_issues s) (observation_issues s) (observation_suppressions s)
  (outbound_intents s) (outbound_submission_results s) (sync_conflicts s)
  (outbound_upload_sessions s) (profile_enrollments s) (outbound_mutation_requests s) v.
End Setters.

(** [DELETE FROM local_nodes]: the rows of [observation_nodes] go with the nodes
    they refer to ([ON DELETE CASCADE]). *)
Definition keep_local_nodes (s : Store) (nodes : gmap (Z * Z) NodeRow) : Store :=
  let o := observation s in
  set_local_nodes
    (set_observation s (set_observation_nodes o
       (filter (fun p : (Z * Z) * ObservedRow => is_Some (nodes !! p.1)) (observation_nodes o))))
    nodes.

(** ** Statements and transactions *)

(** A store call given the clock reading it makes: the new store and a value,
    or the error that rolls it back. *)
Definition tx (A : Type) : Type :=
  result Z ClientSyncError -> Store -> result (Store * A) ClientSyncError.

Definition tx_ret {A} (a : A) : tx A := fun _ s => Ok (s, a).
Definition tx_bind {A B} (m : tx A) (k : A -> tx B) : tx B := fun now s =>
  match m now s with Ok (s', a) => k a now s' | Err e => Err e end.

Notation "'do!' x ':=' m 'in' k" := (tx_bind m (fun x => k))
  (at level 10, x binder, m at level 200, k at level 200,
   format "'[v' 'do!'  x  ':='  m  'in' '//' k ']'") : rust_scope.

Definition attempt {A} (r : result A ClientSyncError) : tx A := fun _ s =>
  match r with Ok a => Ok (s, a) | Err e => Err e end.
Definition select {A} (f : Store -> A) : tx A := fun _ s => Ok (s, f s).
Definition update (f : Store -> Store) : tx unit := fun _ s => Ok (f s, tt).
Definition now_ms : tx Z := fun now s => match now with Ok t => Ok (s, t) | Err e => Err e end.

(** [if b { return Err(e) }]. *)
Definition ensure (b : bool) (e : ClientSyncError) : tx unit :=
  if b then tx_ret tt else attempt (Err e).

(** [fetch_one]: a missing row is a database error. *)
Definition fetch_one {A} (f : Store -> option A) : tx A := fun _ s =>
  match f s with Some a => Ok (s, a) | None => Err Database end.

Fixpoint tx_each {A} (f : A -> tx unit) (l : list A) : tx unit :=
  match l with
  | [] => tx_ret tt
  | a :: l' => do! _ := f a in tx_each f l'
  end.

(** ** Conversions ([state.rs]) *)

Definition u64_i64 (value : Z) : result Z ClientSyncError :=
  if i64_try_from_is_err value then Err ResourceLimit else Ok value.

Definition sequence_i64 (value : Z) : result Z ClientSyncError := u64_i64 value.
Definition revision_i64 (value : Z) : result Z ClientSyncError := u64_i64 value.

Definition optional_u64_i64 (value : option Z) : result (option Z) ClientSyncError :=
  match value with
  | None => Ok None
  | Some v => let? v := u64_i64 v in Ok (Some v)
  end.

Definition optional_sequence_i64 (value : option Z) : result (option Z) ClientSyncError :=
  optional_u64_i64 value.

(** ** The feed: pages, events and acknowledgements *)

Module Feed.

Definition replica (library : Z) (s : Store) : option Replica.t := replicas s !! library.

Definition put_replica (library : Z) (r : Replica.t) : tx unit :=
  update (fun s => set_replicas s (<[library := r]> (replicas s))).

Definition set_status (library : Z) (status : EngineStatus.t) : tx unit :=
  do! _ := now_ms in
  do! row := select (replica library) in
  match row with
  | Some r => put_replica library (Replica.with_status r status)
  | None => attempt (Err InvalidState)
  end.

(** *** [validate_page] *)

(** The loop's checks on one change, in source order. *)
Definition validate_change (scope : ReplicaScope) (epoch expected : Z) (change : InboundChange.t) :
  result unit ClientSyncError :=
  let event := InboundChange.event change in
  if (ChangeEvent.owner_user_id event != owner_user_id scope)
     || (ChangeEvent.library_id event != library_id scope)
  then Err WrongScope
  else if ChangeEvent.journal_epoch event != epoch then Err WrongEpoch
  else if ChangeEvent.sequence event <? expected then Err SequenceRegression
  else if expected <? ChangeEvent.sequence event then Err SequenceGap
  else if ChangeEvent.schema_version event != 1 then Err UnsupportedSchemaVersion
  else if ChangeEvent.resource_kind event != ChangeResourceKind.Node
  then Err InvalidRemoteResponse
  else
    match ChangeEvent.change_kind event, InboundChange.desired_node change with
    | ChangeKind.NodePurged, None => Ok tt
    | ChangeKind.NodePurged, Some _ | _, None => Err InvalidRemoteResponse
    | kind, Some node =>
        if (SnapshotNode.node_id node != ChangeEvent.resource_id event)
           || (SnapshotNode.revision node != ChangeEvent.resource_revision event)
           || is_some_and (ChangeEvent.parent_node_id event)
                (fun id => Some id != SnapshotNode.parent_node_id node)
           || is_some_and (ChangeEvent.node_kind event)
                (fun kind => kind != SnapshotNode.kind node)
           || is_some_and (ChangeEvent.node_state event)
                (fun state => state != SnapshotNode.state node)
           || is_some_and (ChangeEvent.current_version_id event)
                (fun version => Some version != SnapshotNode.current_version_id node)
        then Err InvalidRemoteResponse
        else
          match kind with
          | ChangeKind.NodeTrashed =>
              if SnapshotNode.state node != NodeState.Trashed
              then Err InvalidRemoteResponse else Ok tt
          | ChangeKind.NodeRestored =>
              if SnapshotNode.state node != NodeState.Active
              then Err InvalidRemoteResponse else Ok tt
          | ChangeKind.FileContentCommitted | ChangeKind.FileVersionRestored =>
              if (SnapshotNode.kind node != NodeKind.File)
                 || (SnapshotNode.state node != NodeState.Active)
                 || is_none (SnapshotNode.current_version_id node)
                 || is_none (SnapshotNode.content_length node)
                 || is_none (SnapshotNode.content_sha256 node)
              then Err InvalidRemoteResponse else Ok tt
          | _ => Ok tt
          end
    end.

(** The loop: the next expected sequence after the changes. *)
Fixpoint validate_changes (scope : ReplicaScope) (epoch expected : Z)
  (changes : list InboundChange.t) : result Z ClientSyncError :=
  match changes with
  | [] => Ok expected
  | change :: rest =>
      let? _ := validate_change scope epoch expected change in
      let? next := ok_or (checked_add64 expected 1) InvalidRemoteResponse in
      validate_changes scope epoch next rest
  end.

Definition validate_page (page : FeedPage.t) : result unit ClientSyncError :=
  if (FeedPage.high_watermark page <? FeedPage.through_sequence page)
     || (FeedPage.through_sequence page <? FeedPage.from_sequence page)
     || (FeedPage.has_more page != (FeedPage.through_sequence page <? FeedPage.high_watermark page))
  then Err InvalidRemoteResponse
  else if is_empty (FeedPage.changes page)
  then if (FeedPage.from_sequence page != FeedPage.through_sequence page)
          || is_some (FeedPage.ack_evidence page)
       then Err InvalidRemoteResponse else Ok tt
  else if is_none (FeedPage.ack_evidence page) then Err InvalidRemoteResponse
  else
    let? expected := ok_or (checked_add64 (FeedPage.from_sequence page) 1) InvalidRemoteResponse in
    let? expected := validate_changes (FeedPage.scope page) (FeedPage.epoch page) expected
                       (FeedPage.changes page) in
    if expected - 1 != FeedPage.through_sequence page then Err SequenceGap else Ok tt.

(** *** [persist_page] and [pending_page] *)

Definition event_row (change : InboundChange.t) : EventRow.t :=
  let event := InboundChange.event change in
  let desired := InboundChange.desired_node change in
  EventRow.mk (ChangeEvent.sequence event) (ChangeEvent.id event)
    (ChangeEvent.schema_version event) (ChangeEvent.resource_id event)
    (ChangeEvent.change_kind event) (ChangeEvent.resource_revision event)
    (desired ≫= SnapshotNode.parent_node_id) (SnapshotNode.name <$> desired)
    (SnapshotNode.kind <$> desired) (SnapshotNode.state <$> desired)
    (desired ≫= SnapshotNode.current_version_id) (desired ≫= SnapshotNode.content_length)
    (desired ≫= SnapshotNode.content_sha256).

(** The [CHECK]s of [pending_events] that the typed columns do not imply. *)
Definition event_row_ok (row : EventRow.t) : bool :=
  (0 <? EventRow.sequence row) && (0 <? EventRow.schema_version row)
  && is_none_or (EventRow.logical_name row) (fun name => (1 <=? len name) && (len name <=? 1024))
  && (EventRow.node_state row != Some NodeState.Purging).

Definition insert_pending_change (library : Z) (change : InboundChange.t) : tx unit :=
  let row := event_row change in
  do! _ := attempt (sequence_i64 (EventRow.sequence row)) in
  do! _ := attempt (revision_i64 (EventRow.resource_revision row)) in
  do! _ := attempt (optional_u64_i64 (EventRow.content_length row)) in
  do! rows := select (fun s => default [] (pending_events s !! library)) in
  do! _ := ensure (event_row_ok row
                   && forallb (fun r => (EventRow.sequence r != EventRow.sequence row)
                                        && (EventRow.event_id r != EventRow.event_id row)) rows)
             Database in
  update (fun s => set_pending s (pending_pages s)
                     (<[library := rows ++ [row]]> (pending_events s))
                     (pending_acknowledgements s)).

Definition persist_page (page : FeedPage.t) : tx unit :=
  do! _ := attempt (validate_page page) in
  let library := library_id (FeedPage.scope page) in
  do! existing := select (fun s => pending_pages s !! library) in
  match existing with
  | Some row =>
      do! epoch := attempt (sequence_i64 (FeedPage.epoch page)) in
      do! from := attempt (sequence_i64 (FeedPage.from_sequence page)) in
      do! through := attempt (sequence_i64 (FeedPage.through_sequence page)) in
      ensure ((PageRow.epoch row == epoch) && (PageRow.from_sequence row == from)
              && (PageRow.through_sequence row == through)) InvalidState
  | None =>
      do! _ := now_ms in
      do! epoch := attempt (sequence_i64 (FeedPage.epoch page)) in
      do! from := attempt (sequence_i64 (FeedPage.from_sequence page)) in
      do! through := attempt (sequence_i64 (FeedPage.through_sequence page)) in
      do! high := attempt (sequence_i64 (FeedPage.high_watermark page)) in
      do! _ := fetch_one (replica library) in
      do! _ := update (fun s => set_pending s
                 (<[library := PageRow.mk epoch from through high (FeedPage.has_more page)
                                 (FeedPage.ack_evidence page) Received]> (pending_pages s))
                 (<[library := []]> (pending_events s)) (pending_acknowledgements s)) in
      tx_each (insert_pending_change library) (FeedPage.changes page)
  end.

Definition decode_stored_change (row : EventRow.t) : result StoredChange.t ClientSyncError :=
  let? desired :=
    match EventRow.logical_name row with
    | None => Ok None
    | Some name =>
        let? name := map_err (fun _ => InvalidState) (Names.LogicalName_new name) in
        let? kind := ok_or (EventRow.node_kind row) Database in
        let? state := ok_or (EventRow.node_state row) Database in
        let? node := map_err (fun _ => InvalidState)
                       (SnapshotNode.new (EventRow.resource_id row) (EventRow.parent_node_id row)
                          name kind state (EventRow.resource_revision row)
                          (EventRow.current_version_id row) (EventRow.content_length row)
                          (EventRow.content_sha256 row)) in
        Ok (Some node)
    end in
  Ok (StoredChange.mk (EventRow.sequence row) (EventRow.event_id row) (EventRow.change_kind row)
        (EventRow.resource_id row) (EventRow.resource_revision row) desired).

Fixpoint decode_all {A B} (decode : A -> result B ClientSyncError) (rows : list A) :
  result (list B) ClientSyncError :=
  match rows with
  | [] => Ok []
  | row :: rest =>
      let? b := decode row in
      let? bs := decode_all decode rest in
      Ok (b :: bs)
  end.

(** Rows are inserted with increasing sequences, the order of the query. *)
Definition pending_changes (library : Z) (s : Store) : result (list StoredChange.t) ClientSyncError :=
  decode_all decode_stored_change (default [] (pending_events s !! library)).

Definition pending_page (library : Z) (s : Store) : result (option StoredPage.t) ClientSyncError :=
  match pending_pages s !! library with
  | None => Ok None
  | Some row =>
      let? changes := pending_changes library s in
      let? evidence := match PageRow.ack_evidence row with
                       | None => Ok None
                       | Some bytes => let? e := OpaqueEvidence_new bytes in Ok (Some e)
                       end in
      Ok (Some (StoredPage.mk (PageRow.epoch row) (PageRow.from_sequence row)
                  (PageRow.through_sequence row) (PageRow.high_watermark row)
                  (PageRow.has_more row) evidence changes))
  end.

(** The [UPDATE] of [mark_page_applying]; its [set_status] is a second call. *)
Definition mark_page_applying (library : Z) : tx unit :=
  do! _ := now_ms in
  do! page := select (fun s => pending_pages s !! library) in
  match page with
  | Some row =>
      if bool_decide (PageRow.state row ∈ [Received; PageApplying])
      then update (fun s => set_pending s
                     (<[library := PageRow.with_state row PageApplying]> (pending_pages s))
                     (pending_events s) (pending_acknowledgements s))
      else attempt (Err InvalidState)
  | None => attempt (Err InvalidState)
  end.

End Feed.

(** ** The node mapping *)

Module Nodes.
Section Nodes.

Context `{U : Unicode}.

(** [format!("{path}/")]. *)
Definition dir_prefix (path : rstring) : rstring := path ++ [47].

(** [column LIKE escape_like(prefix)% ESCAPE '\']: the wildcards of the prefix
    are escaped, and [LIKE] ignores the case of ASCII letters. *)
Definition like_prefix (prefix column : rstring) : bool :=
  is_some (strip_prefix (map to_ascii_lowercase prefix) (map to_ascii_lowercase column)).

(** SQL's [substr(s, n + 1)], counting characters. *)
Definition char_width (b : Z) : nat :=
  if b <? 128 then 1 else if b <? 224 then 2 else if b <? 240 then 3 else 4.

Fixpoint drop_chars (n : nat) (s : rstring) : rstring :=
  match n, s with
  | O, _ | _, [] => s
  | S n', b :: _ => drop_chars n' (drop (char_width b) s)
  end.

Definition replace_prefix (new_prefix old_prefix s : rstring) : rstring :=
  new_prefix ++ drop_chars (length (chars old_prefix)) s.

Definition with_path (n : LocalNode.t) (path : rstring) : LocalNode.t :=
  LocalNode.mk (LocalNode.library_id n) (LocalNode.node_id n) (LocalNode.parent_node_id n) path
    (LocalNode.logical_name n) (LocalNode.kind n) (LocalNode.state n) (LocalNode.revision n)
    (LocalNode.current_version_id n) (LocalNode.content_length n) (LocalNode.content_sha256 n)
    (LocalNode.local_length n) (LocalNode.local_sha256 n) (LocalNode.bootstrap_generation n)
    (LocalNode.present n) (LocalNode.quarantine_relative_path n).

(** The subtree rewrite of [upsert_local_node_tx]. *)
Definition move_row (library : Z) (old_path new_path old_key new_key : rstring)
  (id : Z * Z) (row : NodeRow) : NodeRow :=
  let path := LocalNode.relative_path (row_node row) in
  if (id.1 =? library) && like_prefix (dir_prefix old_path) path
  then mk_NodeRow
         (with_path (row_node row) (replace_prefix (dir_prefix new_path) (dir_prefix old_path) path))
         (replace_prefix (dir_prefix new_key) (dir_prefix old_key) (collision_key row))
  else row.

(** The [CHECK]s of [local_nodes] that the typed columns do not imply. *)
Definition node_row_ok (row : NodeRow) : bool :=
  let n := row_node row in
  let none3 := is_none (LocalNode.current_version_id n) && is_none (LocalNode.content_length n)
               && is_none (LocalNode.content_sha256 n) in
  let some3 := is_some (LocalNode.current_version_id n) && is_some (LocalNode.content_length n)
               && is_some (LocalNode.content_sha256 n) in
  let local_none := is_none (LocalNode.local_length n) && is_none (LocalNode.local_sha256 n) in
  let local_some := is_some (LocalNode.local_length n) && is_some (LocalNode.local_sha256 n) in
  (Z.of_nat (length (chars (LocalNode.relative_path n))) <=? 32768)
  && (Z.of_nat (length (chars (collision_key row))) <=? 32768)
  && (1 <=? len (LocalNode.logical_name n)) && (len (LocalNode.logical_name n) <=? 1024)
  && (LocalNode.state n != NodeState.Purging)
  && ((LocalNode.kind n == NodeKind.File) || (none3 && local_none))
  && (none3 || some3) && (local_none || local_some).

(** [UNIQUE(library_id, collision_key)]. *)
Definition key_free (id : Z * Z) (key : rstring) (nodes : gmap (Z * Z) NodeRow) : bool :=
  forallb (fun p : (Z * Z) * NodeRow =>
             negb ((p.1.1 =? id.1) && (p.1.2 != id.2) && (collision_key p.2 == key)))
    (map_to_list nodes).

Definition keys_unique (nodes : gmap (Z * Z) NodeRow) : bool :=
  forallb (fun p : (Z * Z) * NodeRow => key_free p.1 (collision_key p.2) nodes)
    (map_to_list nodes).

(** The deferred foreign key on [parent_node_id], checked on commit. *)
Definition parents_present (nodes : gmap (Z * Z) NodeRow) : bool :=
  forallb (fun p : (Z * Z) * NodeRow =>
             is_none_or (LocalNode.parent_node_id (row_node p.2))
               (fun parent => is_some (nodes !! (p.1.1, parent))))
    (map_to_list nodes).

Definition local_row (library node : Z) (s : Store) : option NodeRow :=
  local_nodes s !! (library, node).

(** [decode_local_node] re-validates the paths and the name of a row. *)
Definition decode_local_node (row : NodeRow) : result LocalNode.t ClientSyncError :=
  let n := row_node row in
  let? _ := Path.new (LocalNode.relative_path n) in
  let? _ := map_err (fun _ => InvalidState) (Names.LogicalName_new (LocalNode.logical_name n)) in
  let? _ := match LocalNode.quarantine_relative_path n with
            | None => Ok []
            | Some path => Path.new path
            end in
  Ok n.

Definition decode_optional (row : option NodeRow) :
  result (option LocalNode.t) ClientSyncError :=
  match row with
  | None => Ok None
  | Some row => let? n := decode_local_node row in Ok (Some n)
  end.

Definition local_node (library node : Z) (s : Store) :
  result (option LocalNode.t) ClientSyncError :=
  decode_optional (local_row library node s).

(** The rows of one library, in key order. *)
Definition library_rows (library : Z) (s : Store) : list NodeRow :=
  map snd (filter (fun p : (Z * Z) * NodeRow => p.1.1 = library) (map_to_list (local_nodes s))).

Definition local_node_at_collision_key (library : Z) (key : rstring) (s : Store) :
  result (option LocalNode.t) ClientSyncError :=
  decode_optional (List.find (fun row => collision_key row == key) (library_rows library s)).

(** [ORDER BY length(relative_path), relative_path]. *)
Fixpoint bytes_leb (a b : rstring) : bool :=
  match a, b with
  | [], _ => true
  | _, [] => false
  | x :: a', y :: b' => (x <? y) || ((x =? y) && bytes_leb a' b')
  end.

Definition row_leb (a b : NodeRow) : bool :=
  let pa := LocalNode.relative_path (row_node a) in
  let pb := LocalNode.relative_path (row_node b) in
  let la := Z.of_nat (length (chars pa)) in
  let lb := Z.of_nat (length (chars pb)) in
  (la <? lb) || ((la =? lb) && bytes_leb pa pb).

Definition row_le (a b : NodeRow) : Prop := row_leb a b = true.

#[global] Instance row_le_dec : RelDecision row_le.
Proof. intros a b. unfold row_le. apply _. Defined.

Definition sort_rows (rows : list NodeRow) : list NodeRow := merge_sort row_le rows.

Definition local_nodes_of (library : Z) (s : Store) : result (list LocalNode.t) ClientSyncError :=
  let rows := sort_rows (library_rows library s) in
  if MAX_LOCAL_NODE_QUERY_ROWS <? len rows then Err ResourceLimit
  else Feed.decode_all decode_local_node rows.

Definition upsert_local_node_tx (node : LocalNode.t) : tx unit :=
  let library := LocalNode.library_id node in
  let id := (library, LocalNode.node_id node) in
  let path := LocalNode.relative_path node in
  let key := Path.collision_path_key path in
  do! old := select (local_row library (LocalNode.node_id node)) in
  do! _ :=
    match old with
    | Some row =>
        let old_path := LocalNode.relative_path (row_node row) in
        if old_path != path
        then
          do! _ := update (fun s => set_local_nodes s
                     (map_imap (fun i r => Some (move_row library old_path path
                                                   (collision_key row) key i r))
                        (local_nodes s))) in
          do! nodes := select local_nodes in
          ensure (keys_unique nodes && forallb (fun p => node_row_ok p.2) (map_to_list nodes))
            Database
        else tx_ret tt
    | None => tx_ret tt
    end in
  do! _ := attempt (revision_i64 (LocalNode.revision node)) in
  do! _ := attempt (optional_u64_i64 (LocalNode.content_length node)) in
  do! _ := attempt (optional_u64_i64 (LocalNode.local_length node)) in
  do! _ := attempt (sequence_i64 (LocalNode.bootstrap_generation node)) in
  do! _ := fetch_one (Feed.replica library) in
  do! nodes := select local_nodes in
  do! _ := ensure (node_row_ok (mk_NodeRow node key) && key_free id key nodes) Database in
  update (fun s => set_local_nodes s (<[id := mk_NodeRow node key]> (local_nodes s))).

Definition delete_local_node (library node : Z) : tx unit :=
  update (fun s => keep_local_nodes s (delete (library, node) (local_nodes s))).

(** [commit]: the deferred foreign key is checked. *)
Definition commit : tx unit :=
  do! nodes := select local_nodes in
  ensure (parents_present nodes) Database.

(** [remove_local_node]: one autocommitted statement. *)
Definition remove_local_node (library node : Z) : tx unit :=
  do! _ := delete_local_node library node in
  commit.

End Nodes.
End Nodes.

(** ** Recording applied events *)

Module Apply.
Section Apply.

Context `{U : Unicode}.

(** [local_node_fingerprint]. *)
Definition local_node_fingerprint (node : LocalNode.t) : option LocalFingerprint.t :=
  if negb (LocalNode.present node) then None
  else match LocalNode.kind node with
       | NodeKind.Directory => Some LocalFingerprint.directory
       | NodeKind.File =>
           match LocalNode.local_length node, LocalNode.local_sha256 node with
           | Some length, Some sha256 => Some (LocalFingerprint.file length sha256)
           | _, _ =>
               match LocalNode.content_length node, LocalNode.content_sha256 node with
               | Some length, Some sha256 => Some (LocalFingerprint.file length sha256)
               | _, _ => None
               end
           end
       end.

Definition operation_row (operation_id : Z) (s : Store) : option OperationRow :=
  local_operations s !! operation_id.

(** The proofs [insert_observation_suppression_tx] records. *)
Definition suppression_proofs (operation : LocalOperation.t) (node : option LocalNode.t) :
  result (list (rstring * bool * option LocalFingerprint.t)) ClientSyncError :=
  let vanished :=
    let? source := ok_or (LocalOperation.source operation) InvalidState in
    Ok [(source, false, None)] in
  match node with
  | Some node =>
      if LocalNode.present node
      then
        let? fingerprint := ok_or (local_node_fingerprint node) InvalidState in
        let here := (LocalNode.relative_path node, true, Some fingerprint) in
        match LocalOperation.kind operation, LocalOperation.source operation with
        | (LocalOperationKind.Rename | LocalOperationKind.Move), Some source =>
            if source != LocalNode.relative_path node
            then Ok [here; (source, false, None)] else Ok [here]
        | _, _ => Ok [here]
        end
      else vanished
  | None => vanished
  end.

Definition insert_suppression (operation : LocalOperation.t)
  (proof : rstring * bool * option LocalFingerprint.t) : tx unit :=
  let '(path, present, fingerprint) := proof in
  let id := (LocalOperation.operation_id operation, path) in
  do! _ := attempt (optional_u64_i64 (fingerprint ≫= LocalFingerprint.length)) in
  do! _ := now_ms in
  do! existing := select (fun s => observation_suppressions s !! id) in
  match existing with
  | Some _ => tx_ret tt
  | None =>
      update (fun s => set_suppressions s
        (<[id := mk_SuppressionRow (LocalOperation.library_id operation)
                   (LocalOperation.node_id operation) present fingerprint]>
           (observation_suppressions s)))
  end.

Definition insert_observation_suppression_tx (operation_id : Z) (node : option LocalNode.t) :
  tx unit :=
  do! row := fetch_one (operation_row operation_id) in
  let operation := row_operation row in
  do! _ := ensure (LocalOperation.state operation == LocalOperationState.FilesystemApplied)
             InvalidState in
  do! proofs := attempt (suppression_proofs operation node) in
  tx_each (insert_suppression operation) proofs.

Definition put_operation_state (operation_id : Z) (row : OperationRow)
  (state : LocalOperationState.t) : tx unit :=
  do! now := now_ms in
  update (fun s => set_local_operations s
    (<[operation_id := mk_OperationRow (LocalOperation.set_state (row_operation row) state)
                         (created_at_ms row) now]> (local_operations s))).

(** [UPDATE .. 'DATABASE_COMMITTED' WHERE state = 'FILESYSTEM_APPLIED']. *)
Definition commit_operation (operation_id : Z) : tx unit :=
  do! row := select (operation_row operation_id) in
  match row with
  | Some row =>
      if LocalOperation.state (row_operation row) == LocalOperationState.FilesystemApplied
      then put_operation_state operation_id row LocalOperationState.DatabaseCommitted
      else attempt (Err InvalidState)
  | None => attempt (Err InvalidState)
  end.

(** [trim_event_evidence]: the newest [MAX_EVENT_EVIDENCE_ROWS] rows stay. *)
Definition newest_first (a b : Z) : Prop := b <= a.

#[global] Instance newest_first_dec : RelDecision newest_first.
Proof. intros a b. unfold newest_first. apply _. Defined.

Definition evidence_sequences (library epoch : Z) (s : Store) : list Z :=
  merge_sort newest_first
    (map (fun p : (Z * Z * Z) * EventEvidence => p.1.2)
       (filter (fun p : (Z * Z * Z) * EventEvidence => p.1.1 = (library, epoch))
          (map_to_list (applied_events s)))).

Definition trim_event_evidence (library epoch : Z) : tx unit :=
  do! sequences := select (evidence_sequences library epoch) in
  let cutoff := default (-1) (sequences !! Z.to_nat MAX_EVENT_EVIDENCE_ROWS) in
  update (fun s => set_applied_events s
    (filter (fun p : (Z * Z * Z) * EventEvidence =>
               ~ (p.1.1 = (library, epoch) /\ p.1.2 <= cutoff)) (applied_events s))).

(** [INSERT INTO applied_events]: primary key and [UNIQUE(library_id, event_id)]. *)
Definition insert_evidence (library epoch sequence : Z) (evidence : EventEvidence) : tx unit :=
  do! rows := select applied_events in
  do! _ := ensure (is_none (rows !! (library, epoch, sequence))
                   && forallb (fun p : (Z * Z * Z) * EventEvidence =>
                                 negb ((p.1.1.1 =? library)
                                       && (evidence_event_id p.2 =? evidence_event_id evidence)))
                        (map_to_list rows)) Database in
  update (fun s => set_applied_events s
    (<[(library, epoch, sequence) := evidence]> (applied_events s))).

Definition change_evidence (change : StoredChange.t) : EventEvidence :=
  mk_EventEvidence (StoredChange.event_id change) (StoredChange.resource_id change)
    (StoredChange.resource_revision change).

Definition record_event_applied (scope : ReplicaScope) (epoch : Z) (change : StoredChange.t)
  (node : option LocalNode.t) (operation_id : option Z) : tx unit :=
  let library := library_id scope in
  do! replica := fetch_one (Feed.replica library) in
  let applied := Replica.applied_sequence replica in
  do! expected := attempt (if applied =? i64_max then Err InvalidState else Ok (applied + 1)) in
  do! sequence := attempt (sequence_i64 (StoredChange.sequence change)) in
  if sequence <? expected
  then
    do! epoch := attempt (sequence_i64 epoch) in
    do! evidence := select (fun s => applied_events s !! (library, epoch, sequence)) in
    do! _ := attempt (revision_i64 (StoredChange.resource_revision change)) in
    ensure (evidence == Some (change_evidence change)) SequenceRegression
  else
    do! _ := ensure (sequence =? expected) SequenceGap in
    do! _ := match node with
             | Some node => Nodes.upsert_local_node_tx node
             | None => Nodes.delete_local_node library (StoredChange.resource_id change)
             end in
    do! epoch := attempt (sequence_i64 epoch) in
    do! _ := attempt (revision_i64 (StoredChange.resource_revision change)) in
    do! _ := insert_evidence library epoch sequence (change_evidence change) in
    do! _ := now_ms in
    do! _ := ensure (Replica.acknowledged_sequence replica <=? sequence) InvalidState in
    do! _ := Feed.put_replica library
               (Replica.with_cursor replica (Replica.journal_epoch replica) sequence
                  (Replica.acknowledged_sequence replica) (Replica.status replica)) in
    do! _ := match operation_id with
             | Some id =>
                 do! _ := insert_observation_suppression_tx id node in
                 commit_operation id
             | None => tx_ret tt
             end in
    do! _ := trim_event_evidence library epoch in
    Nodes.commit.

(** [mark_page_locally_committed]: [true] when there is nothing to acknowledge;
    the pending acknowledgement is then read back by a second call. *)
Definition mark_page_locally_committed (library : Z) : tx bool :=
  do! page := fetch_one (fun s => pending_pages s !! library) in
  do! replica := fetch_one (Feed.replica library) in
  let through := PageRow.through_sequence page in
  do! _ := ensure (Replica.applied_sequence replica =? through) InvalidState in
  if through =? PageRow.from_sequence page
  then
    do! _ := update (fun s => set_pending s (delete library (pending_pages s))
                                (delete library (pending_events s)) (pending_acknowledgements s)) in
    tx_ret true
  else
    do! evidence := attempt (ok_or (PageRow.ack_evidence page) InvalidState) in
    do! _ := now_ms in
    do! _ := update (fun s => set_pending s
               (<[library := PageRow.with_state page PageAckPending]> (pending_pages s))
               (pending_events s)
               (<[library := PendingAck.mk library (PageRow.epoch page)
                               (PageRow.from_sequence page) through
                               (PageRow.high_watermark page) evidence]>
                  (pending_acknowledgements s))) in
    do! _ := Feed.put_replica library (Replica.with_status replica EngineStatus.AckPending) in
    tx_ret false.

Definition pending_ack (library : Z) (s : Store) : result (option PendingAck.t) ClientSyncError :=
  match pending_acknowledgements s !! library with
  | None => Ok None
  | Some ack =>
      let? _ := OpaqueEvidence_new (PendingAck.evidence ack) in
      Ok (Some ack)
  end.

Definition confirm_ack (scope : ReplicaScope) (epoch acknowledged : Z) : tx unit :=
  let library := library_id scope in
  do! pending := fetch_one (fun s => pending_acknowledgements s !! library) in
  do! replica := fetch_one (Feed.replica library) in
  let applied := Replica.applied_sequence replica in
  do! acknowledged := attempt (sequence_i64 acknowledged) in
  do! epoch := attempt (sequence_i64 epoch) in
  do! _ := ensure ((PendingAck.epoch pending =? epoch)
                   && (PendingAck.through_sequence pending <=? acknowledged)
                   && (acknowledged <=? applied)) InvalidRemoteResponse in
  do! _ := now_ms in
  do! _ := ensure ((Replica.acknowledged_sequence replica <=? acknowledged)
                   && (acknowledged <=? applied)) InvalidState in
  do! _ := Feed.put_replica library
             (Replica.with_cursor replica epoch applied acknowledged EngineStatus.Idle) in
  do! _ := update (fun s => set_pending s (pending_pages s) (pending_events s)
                              (delete library (pending_acknowledgements s))) in
  do! page := select (fun s => pending_pages s !! library) in
  do! _ := ensure (is_some page) InvalidState in
  update (fun s => set_pending s (delete library (pending_pages s))
                     (delete library (pending_events s)) (pending_acknowledgements s)).

End Apply.
End Apply.

(** ** Bootstrap sessions *)

Module Bootstrap.
Section Bootstrap.

Context `{U : Unicode}.

Definition bootstrap (library : Z) (s : Store) : option BootstrapRecord.t :=
  bootstrap_sessions s !! library.

(** The rows of one manifest: the node and whether it is applied. *)
Definition manifest (library bootstrap_id : Z) (s : Store) : list (SnapshotNode.t * bool) :=
  map snd (filter (fun p : (Z * Z * Z) * (SnapshotNode.t * bool) => p.1.1 = (library, bootstrap_id))
             (map_to_list (bootstrap_nodes s))).

(** The [INSERT] of [begin_bootstrap]; the checks around it are calls of their
    own ([begin_bootstrap] of the engine). *)
Definition insert_session (scope : ReplicaScope) (b : SyncBootstrap.t) : tx unit :=
  let library := library_id scope in
  do! _ := now_ms in
  do! generation := attempt (sequence_i64 (SyncBootstrap.generation b)) in
  do! epoch := attempt (sequence_i64 (SyncBootstrap.snapshot_epoch b)) in
  do! resume := attempt (sequence_i64 (SyncBootstrap.snapshot_resume_sequence b)) in
  do! count := attempt (u64_i64 (SyncBootstrap.manifest_item_count b)) in
  do! _ := fetch_one (Feed.replica library) in
  do! existing := select (bootstrap library) in
  do! _ := ensure (is_none existing) Database in
  update (fun s => set_bootstrap s
    (<[library := BootstrapRecord.mk library (SyncBootstrap.id b) generation epoch resume count
                    Fetching None None false]> (bootstrap_sessions s))
    (bootstrap_nodes s)).

(** The [CHECK]s of [bootstrap_nodes] that the typed columns do not imply. *)
Definition manifest_row_ok (node : SnapshotNode.t) : bool :=
  let none3 := is_none (SnapshotNode.current_version_id node)
               && is_none (SnapshotNode.content_length node)
               && is_none (SnapshotNode.content_sha256 node) in
  let some3 := is_some (SnapshotNode.current_version_id node)
               && is_some (SnapshotNode.content_length node)
               && is_some (SnapshotNode.content_sha256 node) in
  (1 <=? len (SnapshotNode.name node)) && (len (SnapshotNode.name node) <=? 1024)
  && (SnapshotNode.state node != NodeState.Purging) && (none3 || some3).

(** A node fetched again must be the one already durable. *)
Definition insert_bootstrap_node (library bootstrap_id : Z) (node : SnapshotNode.t) : tx unit :=
  let id := (library, bootstrap_id, SnapshotNode.node_id node) in
  do! _ := attempt (revision_i64 (SnapshotNode.revision node)) in
  do! _ := attempt (optional_u64_i64 (SnapshotNode.content_length node)) in
  do! _ := ensure (manifest_row_ok node) Database in
  do! existing := select (fun s => bootstrap_nodes s !! id) in
  match existing with
  | None => update (fun s => set_bootstrap s (bootstrap_sessions s)
                               (<[id := (node, false)]> (bootstrap_nodes s)))
  | Some (durable, _) => ensure (durable == node) InvalidRemoteResponse
  end.

(** [WITH RECURSIVE reachable]: the layers of the tree below the roots. *)
Fixpoint layers (fuel : nat) (nodes frontier : list SnapshotNode.t) : list (list SnapshotNode.t) :=
  match fuel, frontier with
  | O, _ | _, [] => []
  | S fuel', _ =>
      frontier :: layers fuel' nodes
        (filter (fun child => SnapshotNode.parent_node_id child
                              ∈ map (fun parent => Some (SnapshotNode.node_id parent)) frontier)
           nodes)
  end.

Definition roots (nodes : list SnapshotNode.t) : list SnapshotNode.t :=
  filter (fun n => SnapshotNode.parent_node_id n = None) nodes.

Definition tree_layers (nodes : list SnapshotNode.t) : list (list SnapshotNode.t) :=
  layers (length nodes) nodes (roots nodes).

Definition valid_parent (nodes : list SnapshotNode.t) (child : SnapshotNode.t) : bool :=
  is_none_or (SnapshotNode.parent_node_id child)
    (fun parent => existsb (fun n => (SnapshotNode.node_id n =? parent)
                                     && (SnapshotNode.kind n == NodeKind.Directory)) nodes).

Definition validate_terminal_manifest (nodes : list SnapshotNode.t) (expected_count : Z) :
  result unit ClientSyncError :=
  if len (roots nodes) != 1 then Err InvalidRemoteResponse
  else if negb (forallb (valid_parent nodes) nodes) then Err InvalidRemoteResponse
  else if len (concat (tree_layers nodes)) != expected_count then Err InvalidRemoteResponse
  else Ok tt.

Definition persist_bootstrap_page (scope : ReplicaScope) (page : BootstrapPage.t) : tx unit :=
  let b := BootstrapPage.bootstrap page in
  let library := library_id scope in
  do! _ := ensure ((SyncBootstrap.owner_user_id b == owner_user_id scope)
                   && (SyncBootstrap.device_id b == device_id scope)
                   && (SyncBootstrap.library_id b == library)) WrongScope in
  do! _ := ensure (negb (eqb (BootstrapPage.has_more page) (is_none (BootstrapPage.next_cursor page))
                         || eqb (BootstrapPage.has_more page)
                              (is_some (BootstrapPage.completion_evidence page))))
             InvalidRemoteResponse in
  do! session := fetch_one (fun s => match bootstrap library s with
                                     | Some r => if BootstrapRecord.state r == Fetching
                                                 then Some r else None
                                     | None => None
                                     end) in
  do! generation := attempt (sequence_i64 (SyncBootstrap.generation b)) in
  do! _ := ensure ((BootstrapRecord.bootstrap_id session == SyncBootstrap.id b)
                   && (BootstrapRecord.generation session == generation)) InvalidState in
  do! _ := tx_each (insert_bootstrap_node library (SyncBootstrap.id b)) (BootstrapPage.nodes page) in
  do! durable := select (manifest library (SyncBootstrap.id b)) in
  let expected := BootstrapRecord.manifest_item_count session in
  do! _ := ensure (len durable <=? expected) InvalidRemoteResponse in
  do! _ :=
    if BootstrapPage.has_more page then tx_ret tt
    else
      do! _ := ensure (len durable =? expected) InvalidRemoteResponse in
      attempt (validate_terminal_manifest (map fst durable) (len durable)) in
  do! _ := now_ms in
  update (fun s => set_bootstrap s
    (<[library := BootstrapRecord.with_page session (BootstrapPage.next_cursor page)
                    (BootstrapPage.completion_evidence page) (negb (BootstrapPage.has_more page))
                    (if BootstrapPage.has_more page then Fetching else ManifestDurable)]>
       (bootstrap_sessions s))
    (bootstrap_nodes s)).

(** [ORDER BY t.depth, b.node_id LIMIT 1000]. *)
Definition unapplied_bootstrap_nodes (library bootstrap_id : Z) (s : Store) : list SnapshotNode.t :=
  let rows := manifest library bootstrap_id s in
  take 1000
    (filter (fun n => (n, false) ∈ rows)
       (concat (map (merge_sort Snapshot.le) (tree_layers (map fst rows))))).

Definition record_bootstrap_node_applied (node : LocalNode.t) (bootstrap_id : Z)
  (operation_id : option Z) : tx unit :=
  let id := (LocalNode.library_id node, bootstrap_id, LocalNode.node_id node) in
  do! _ := Nodes.upsert_local_node_tx node in
  do! row := select (fun s => bootstrap_nodes s !! id) in
  do! _ := match row with
           | Some (n, _) => update (fun s => set_bootstrap s (bootstrap_sessions s)
                                               (<[id := (n, true)]> (bootstrap_nodes s)))
           | None => attempt (Err InvalidState)
           end in
  do! _ := match operation_id with
           | Some op =>
               do! _ := Apply.insert_observation_suppression_tx op (Some node) in
               Apply.commit_operation op
           | None => tx_ret tt
           end in
  Nodes.commit.

(** [ORDER BY length(relative_path) DESC LIMIT 1000]: the deepest paths first. *)
Definition longer (a b : NodeRow) : Prop :=
  (length (chars (LocalNode.relative_path (row_node b)))
   <= length (chars (LocalNode.relative_path (row_node a))))%nat.

#[global] Instance longer_dec : RelDecision longer.
Proof. intros a b. unfold longer. apply _. Defined.

Definition bootstrap_sweep_candidates (library generation : Z) (s : Store) :
  result (list LocalNode.t) ClientSyncError :=
  let? generation := sequence_i64 generation in
  Feed.decode_all Nodes.decode_local_node
    (take 1000
       (merge_sort longer
          (filter (fun row => LocalNode.bootstrap_generation (row_node row) <> generation)
             (Nodes.library_rows library s)))).

Definition mark_bootstrap_local_complete (library bootstrap_id : Z) : tx unit :=
  do! session := fetch_one (fun s =>
    match bootstrap library s with
    | Some r => if (BootstrapRecord.bootstrap_id r == bootstrap_id)
                   && BootstrapRecord.terminal_fetched r then Some r else None
    | None => None
    end) in
  do! rows := select (manifest library bootstrap_id) in
  do! _ := ensure ((BootstrapRecord.manifest_item_count session =? len rows)
                   && (len rows =? len (filter (fun row => row.2 = true) rows))) InvalidState in
  do! _ := now_ms in
  do! _ := ensure (is_some (BootstrapRecord.completion_evidence session)) InvalidState in
  update (fun s => set_bootstrap s
    (<[library := BootstrapRecord.with_state session CompletionPending]> (bootstrap_sessions s))
    (bootstrap_nodes s)).

(** Deleting a session cascades to its manifest. *)
Definition complete_bootstrap (scope : ReplicaScope) (bootstrap_id epoch acknowledged : Z) :
  tx unit :=
  let library := library_id scope in
  do! session := fetch_one (fun s =>
    match bootstrap library s with
    | Some r => if (BootstrapRecord.bootstrap_id r == bootstrap_id)
                   && (BootstrapRecord.state r == CompletionPending) then Some r else None
    | None => None
    end) in
  do! acknowledged := attempt (sequence_i64 acknowledged) in
  do! epoch := attempt (sequence_i64 epoch) in
  do! _ := ensure ((BootstrapRecord.snapshot_epoch session =? epoch)
                   && (BootstrapRecord.resume_sequence session =? acknowledged))
             InvalidRemoteResponse in
  do! rows := select (Nodes.library_rows library) in
  do! root := attempt (ok_or (List.find (fun row => is_none (LocalNode.parent_node_id (row_node row)))
                                rows) InvalidState) in
  do! _ := now_ms in
  do! replica := select (Feed.replica library) in
  do! replica := attempt (ok_or replica InvalidState) in
  do! _ := ensure (Replica.acknowledged_sequence replica <=? acknowledged) InvalidState in
  do! _ := Feed.put_replica library
             (Replica.with_root
                (Replica.with_cursor replica epoch acknowledged acknowledged EngineStatus.Idle)
                (LocalNode.node_id (row_node root))) in
  update (fun s => set_bootstrap s (delete library (bootstrap_sessions s))
    (filter (fun p : (Z * Z * Z) * (SnapshotNode.t * bool) => p.1.1.1 <> library)
       (bootstrap_nodes s))).

(** *** Durable snapshot handoff *)

Definition pending_rebaseline_handoff (library : Z) (s : Store) : option HandoffRecord.t :=
  rebaseline_applied_handoffs s !! library.

Definition finalize_rebaseline_handoff (scope : ReplicaScope) (expected : HandoffRecord.t) :
  tx HandoffFinalizeOutcome :=
  let library := library_id scope in
  do! _ := ensure (HandoffRecord.library_id expected == library) WrongScope in
  do! marker := select (pending_rebaseline_handoff library) in
  do! row := select (Feed.replica library) in
  match marker with
  | None =>
      do! _ := ensure
        (is_some_and row (fun r =>
           (owner_user_id (Replica.scope r) == owner_user_id scope)
           && (device_id (Replica.scope r) == device_id scope)
           && (Ok (Replica.journal_epoch r) == sequence_i64 (HandoffRecord.journal_epoch expected))
           && (Ok (Replica.applied_sequence r)
               == sequence_i64 (HandoffRecord.resume_sequence expected))
           && (Ok (Replica.acknowledged_sequence r)
               == sequence_i64 (HandoffRecord.resume_sequence expected)))) InvalidState in
      tx_ret AlreadyComplete
  | Some actual =>
      do! _ := ensure (actual == expected) RebaselinePendingHandoff in
      do! epoch := attempt (sequence_i64 (HandoffRecord.journal_epoch expected)) in
      do! resume := attempt (sequence_i64 (HandoffRecord.resume_sequence expected)) in
      do! _ := now_ms in
      do! replica := attempt (ok_or row InvalidState) in
      do! _ := ensure ((owner_user_id (Replica.scope replica) == owner_user_id scope)
                       && (device_id (Replica.scope replica) == device_id scope)) InvalidState in
      do! _ := Feed.put_replica library
                 (Replica.with_cursor replica epoch resume resume EngineStatus.Idle) in
      do! _ := update (fun s => set_handoffs s (delete library (rebaseline_applied_handoffs s))) in
      tx_ret Completed
  end.

End Bootstrap.
End Bootstrap.

(** ** Filesystem operations and blockers *)

Module Ops.
Section Ops.

Context `{U : Unicode}.

Definition optional_path (path : option rstring) : result (option rstring) ClientSyncError :=
  match path with
  | None => Ok None
  | Some p => let? p := Path.new p in Ok (Some p)
  end.

(** [decode_operation] re-validates the three paths. *)
Definition decode_operation (row : OperationRow) : result LocalOperation.t ClientSyncError :=
  let o := row_operation row in
  let? _ := optional_path (LocalOperation.source o) in
  let? _ := optional_path (LocalOperation.destination o) in
  let? _ := optional_path (LocalOperation.staging o) in
  Ok o.

Definition prepare_operation (o : LocalOperation.t) : tx unit :=
  let id := LocalOperation.operation_id o in
  do! _ := attempt (optional_sequence_i64 (LocalOperation.server_sequence o)) in
  do! _ := attempt (optional_sequence_i64 (LocalOperation.bootstrap_generation o)) in
  do! _ := attempt (optional_u64_i64 (LocalOperation.expected_length o)) in
  do! _ := attempt (revision_i64 (LocalOperation.desired_revision o)) in
  do! _ := attempt (optional_u64_i64 (LocalOperation.desired_length o)) in
  do! now := now_ms in
  do! _ := fetch_one (Feed.replica (LocalOperation.library_id o)) in
  do! existing := select (Apply.operation_row id) in
  do! _ := ensure (is_none existing
                   && negb (eqb (is_none (LocalOperation.server_sequence o))
                              (is_none (LocalOperation.bootstrap_generation o)))) Database in
  update (fun s => set_local_operations s
                     (<[id := mk_OperationRow o now now]> (local_operations s))).

Definition set_operation_state (id : Z) (state : LocalOperationState.t) : tx unit :=
  do! row := select (Apply.operation_row id) in
  match row with
  | Some row => Apply.put_operation_state id row state
  | None => do! _ := now_ms in attempt (Err InvalidState)
  end.

(** [ORDER BY <instant>, operation_id]. *)
Definition earlier (instant : OperationRow -> Z) (a b : OperationRow) : Prop :=
  instant a < instant b
  \/ (instant a = instant b
      /\ LocalOperation.operation_id (row_operation a)
         <= LocalOperation.operation_id (row_operation b)).

#[global] Instance earlier_dec instant : RelDecision (earlier instant).
Proof. intros a b. unfold earlier. apply _. Defined.

Definition operation_rows (s : Store) : list OperationRow := map snd (map_to_list (local_operations s)).

Definition bounded_operations (rows : list OperationRow) :
  result (list LocalOperation.t) ClientSyncError :=
  if MAX_RECOVERY_ROWS <? len rows then Err ResourceLimit
  else Feed.decode_all decode_operation rows.

Definition unfinished_operations (library : Z) (s : Store) :
  result (list LocalOperation.t) ClientSyncError :=
  bounded_operations
    (take 4097 (merge_sort (earlier created_at_ms)
       (filter (fun row => LocalOperation.library_id (row_operation row) = library
                           /\ LocalOperation.state (row_operation row)
                              <> LocalOperationState.DatabaseCommitted) (operation_rows s)))).

Definition completed_operations (library : Z) (s : Store) :
  result (list LocalOperation.t) ClientSyncError :=
  bounded_operations
    (take 4097 (merge_sort (earlier updated_at_ms)
       (filter (fun row => LocalOperation.library_id (row_operation row) = library
                           /\ LocalOperation.state (row_operation row)
                              = LocalOperationState.DatabaseCommitted) (operation_rows s)))).

Definition operation_for_fact (library node : Z) (server_sequence generation : option Z)
  (s : Store) : result (option LocalOperation.t) ClientSyncError :=
  let? server_sequence := optional_sequence_i64 server_sequence in
  let? generation := optional_sequence_i64 generation in
  let rows := merge_sort (earlier created_at_ms)
    (filter (fun row =>
               let o := row_operation row in
               LocalOperation.library_id o = library /\ LocalOperation.node_id o = node
               /\ LocalOperation.server_sequence o = server_sequence
               /\ LocalOperation.bootstrap_generation o = generation
               /\ LocalOperation.state o <> LocalOperationState.DatabaseCommitted)
       (operation_rows s)) in
  match rows with
  | [] => Ok None
  | row :: _ => let? o := decode_operation row in Ok (Some o)
  end.

Definition commit_removed_node_operation (library node operation_id : Z) : tx unit :=
  do! _ := Apply.insert_observation_suppression_tx operation_id None in
  do! row := select (Nodes.local_row library node) in
  do! _ := ensure (is_some row) InvalidState in
  do! _ := Nodes.delete_local_node library node in
  do! _ := Apply.commit_operation operation_id in
  Nodes.commit.

Definition delete_completed_operation (id : Z) : tx unit :=
  do! row := select (Apply.operation_row id) in
  do! _ := ensure (is_some_and row (fun row =>
             LocalOperation.state (row_operation row) == LocalOperationState.DatabaseCommitted))
             InvalidState in
  update (fun s => set_local_operations s (delete id (local_operations s))).

(** *** Issues *)

Definition same_fact (library : Z) (node server_sequence generation : option Z)
  (kind : LocalIssueKind.t) (row : IssueRow) : bool :=
  (issue_library_id row =? library) && (issue_node_id row == node)
  && (issue_server_sequence row == server_sequence)
  && (issue_bootstrap_generation row == generation) && (issue_kind row == kind)
  && is_none (issue_resolved_at row).

(** The [INSERT .. ON CONFLICT DO NOTHING] of [persist_issue]. *)
Definition insert_issue (id library : Z) (node server_sequence generation : option Z)
  (kind : LocalIssueKind.t) (expected_state : rstring) : tx unit :=
  do! _ := ensure ((1 <=? len expected_state) && (len expected_state <=? 1024)) ResourceLimit in
  do! server_sequence := attempt (optional_sequence_i64 server_sequence) in
  do! generation := attempt (optional_sequence_i64 generation) in
  do! now := now_ms in
  do! _ := fetch_one (Feed.replica library) in
  do! rows := select local_apply_issues in
  if existsb (fun row => (issue_id row =? id)
                         || same_fact library node server_sequence generation kind row) rows
  then tx_ret tt
  else update (fun s => set_issues s
         (local_apply_issues s ++ [mk_IssueRow id library node server_sequence generation kind
                                     expected_state now None]) (observation_issues s)).

Definition unresolved_rows (library : Z) (s : Store) : list IssueRow :=
  filter (fun row => issue_library_id row = library /\ issue_resolved_at row = None)
    (local_apply_issues s).

Definition unresolved_issues (library : Z) (s : Store) : result (list IssueRow) ClientSyncError :=
  let rows := unresolved_rows library s in
  if MAX_RECOVERY_ROWS <? len rows then Err ResourceLimit else Ok rows.

Definition resolve (now : Z) (row : IssueRow) : IssueRow :=
  mk_IssueRow (issue_id row) (issue_library_id row) (issue_node_id row)
    (issue_server_sequence row) (issue_bootstrap_generation row) (issue_kind row)
    (issue_expected_state row) (issue_created_at row) (Some now).

Definition resolve_issue (library id : Z) : tx unit :=
  do! now := now_ms in
  do! rows := select (unresolved_rows library) in
  do! _ := ensure (existsb (fun row => issue_id row =? id) rows) InvalidState in
  do! _ := update (fun s => set_issues s
             (map (fun row => if (issue_library_id row =? library) && (issue_id row =? id)
                                 && is_none (issue_resolved_at row)
                              then resolve now row else row) (local_apply_issues s))
             (observation_issues s)) in
  do! remaining := select (unresolved_rows library) in
  do! replica := select (Feed.replica library) in
  match replica with
  | Some r =>
      if is_empty remaining && (Replica.status r == EngineStatus.BlockedLocalIssue)
      then Feed.put_replica library (Replica.with_status r EngineStatus.Idle)
      else tx_ret tt
  | None => tx_ret tt
  end.

(** The [INSERT .. ON CONFLICT DO NOTHING] of [persist_observation_issue]. *)
Definition insert_observation_issue (id library : Z) (node : option Z) (path : option rstring)
  (kind : ObservationIssueKind.t) : tx unit :=
  do! now := now_ms in
  do! _ := fetch_one (Feed.replica library) in
  do! rows := select observation_issues in
  if existsb (fun row => (observation_issue_id row =? id)
                || ((observation_library_id row =? library) && (observation_node_id row == node)
                    && (default [] (observation_path row) == default [] path)
                    && (observation_kind row == kind)
                    && is_none (observation_resolved_at row))) rows
  then tx_ret tt
  else update (fun s => set_issues s (local_apply_issues s)
         (observation_issues s ++ [mk_ObservationIssueRow id library node path kind now None])).

End Ops.
End Ops.

(** ** What inbound work reads of the outbound tables *)

Module Outbound.
Section Outbound.

Context `{U : Unicode}.

Definition unresolved_conflict (intent_id : Z) (s : Store) : bool :=
  existsb (fun c : Z * ConflictRow => (conflict_intent_id c.2 =? intent_id)
                                      && conflict_unresolved c.2)
    (map_to_list (sync_conflicts s)).

Definition active_states : list IntentState :=
  [IntentPending; IntentReady; IntentPreparing; IntentUploading; IntentSubmitting; IntentBlocked].

(** The [WHERE] of [mark_outbound_intents_needing_rebase]. *)
Definition touches (library : Z) (node : option Z) (target : option LocalNode.t) (s : Store)
  (row : IntentRow) : bool :=
  match node with
  | None => true
  | Some id =>
      match target with
      | None => intent_node_id row == Some id
      | Some target =>
          let path := LocalNode.relative_path target in
          let prefix := Nodes.dir_prefix path in
          (intent_node_id row == Some id)
          || existsb (fun r => Nodes.like_prefix prefix (LocalNode.relative_path (row_node r))
                               && (intent_node_id row == Some (LocalNode.node_id (row_node r))))
               (Nodes.library_rows library s)
          || (intent_observed_path row == path)
          || Nodes.like_prefix prefix (intent_observed_path row)
      end
  end.

Definition affects (states : list IntentState) (library : Z) (node : option Z)
  (target : option LocalNode.t) (s : Store) (id : Z) (row : IntentRow) : bool :=
  (intent_library_id row =? library) && bool_decide (intent_state row ∈ states)
  && negb (unresolved_conflict id s) && touches library node target s row.

Definition affected_intents (library : Z) (node : option Z) (target : option LocalNode.t)
  (s : Store) : bool :=
  existsb (fun p : Z * IntentRow =>
             affects (IntentNeedsRebaseValidation :: active_states) library node target s p.1 p.2)
    (map_to_list (outbound_intents s)).

Definition require_rebase (library : Z) (node : option Z) (target : option LocalNode.t) : tx unit :=
  do! _ := now_ms in
  update (fun s => set_outbound_intents s
    (map_imap (fun id row => Some (if affects active_states library node target s id row
                                   then set_intent_state row IntentNeedsRebaseValidation else row))
       (outbound_intents s))).

Definition reconcile_server_applied_intents (library : Z) : tx unit :=
  do! _ := now_ms in
  update (fun s => set_outbound_intents s
    (map_imap (fun id row => Some (
       if (intent_library_id row =? library) && (intent_state row == IntentServerApplied)
          && is_some_and (outbound_submission_results s !! id) (fun r =>
               match result_resource_id r, result_revision r with
               | Some node, Some revision =>
                   is_some_and (local_nodes s !! (library, node))
                     (fun n => revision <=? LocalNode.revision (row_node n))
               | _, _ => false
               end)
       then set_intent_state row IntentReconciled else row)) (outbound_intents s))).

Record SubmissionResult := mk_SubmissionResult {
  submission_resource_id : Z; submission_revision : Z; submission_file_version_id : option Z;
  submission_length : option Z; submission_sha256 : option (list Z) }.

Definition matches_desired (self : SubmissionResult) (desired : SnapshotNode.t) : bool :=
  if (submission_resource_id self != SnapshotNode.node_id desired)
     || (submission_revision self != SnapshotNode.revision desired)
  then false
  else if is_none (submission_file_version_id self) && is_none (submission_length self)
          && is_none (submission_sha256 self)
  then true
  else (submission_file_version_id self == SnapshotNode.current_version_id desired)
       && (submission_length self == SnapshotNode.content_length desired)
       && (submission_sha256 self == SnapshotNode.content_sha256 desired).

Definition outbound_result_for_sequence (library sequence : Z) (s : Store) :
  result (option SubmissionResult) ClientSyncError :=
  let? sequence := sequence_i64 sequence in
  match List.find (fun p : Z * ResultRow =>
          is_some_and (outbound_intents s !! p.1) (fun i => intent_library_id i =? library)
          && (result_outcome p.2 == OutcomeServerApplied)
          && (result_journal_sequence p.2 == Some sequence))
          (map_to_list (outbound_submission_results s)) with
  | None => Ok None
  | Some (_, r) =>
      let? node := ok_or (result_resource_id r) Database in
      let? revision := ok_or (result_revision r) Database in
      Ok (Some (mk_SubmissionResult node revision (result_file_version_id r) (result_length r)
                  (result_sha256 r)))
  end.

Definition has_pending_file_content_submission (node : Z) (s : Store) : bool :=
  existsb (fun p : Z * ResultRow => (result_resource_id p.2 == Some node)
                                    && (result_outcome p.2 == OutcomeServerApplied)
                                    && is_some (result_file_version_id p.2))
    (map_to_list (outbound_submission_results s)).

Definition detected_first (a b : Z * ConflictRow) : Prop :=
  conflict_detected_at a.2 < conflict_detected_at b.2
  \/ (conflict_detected_at a.2 = conflict_detected_at b.2 /\ a.1 <= b.1).

#[global] Instance detected_first_dec : RelDecision detected_first.
Proof. intros a b. unfold detected_first. apply _. Defined.

Definition durable_unresolved_content_conflict_source (library node : Z) (s : Store) :
  result (option UploadRow) ClientSyncError :=
  let rows := merge_sort detected_first
    (filter (fun c : Z * ConflictRow =>
               conflict_library_id c.2 = library /\ conflict_node_id c.2 = Some node
               /\ conflict_unresolved c.2 = true
               /\ conflict_kind c.2 = SyncConflictKind.RemoteContentChanged
               /\ is_Some (outbound_upload_sessions s !! conflict_intent_id c.2))
       (map_to_list (sync_conflicts s))) in
  match rows with
  | [] => Ok None
  | c :: _ =>
      match outbound_upload_sessions s !! conflict_intent_id c.2 with
      | None => Ok None
      | Some u => let? _ := Path.new (upload_staging_path u) in Ok (Some u)
      end
  end.

End Outbound.
End Outbound.
