(* ===== verification/FeedProtocol.v ===== *)
(** * The feed protocol

    The contract between one client and the change feed, without files, faults
    or error paths: a cursor, at most one page being applied, at most one
    acknowledgement in flight.  [abs] reads it off the local database; the
    engine refines it ([InboundFacts]), so what rule induction shows here holds
    of every history of the engine. *)

From S2P Require Import Prelude Vocabulary Models Rebaseline SyncTypes ClientPaths ClientStore.

(** ** States *)

(** A page being applied, with its events. *)
Record page := mk_page {
  page_epoch : Z; page_from : Z; page_through : Z; page_more : bool;
  page_evidence : option rstring; page_events : list EventRow.t }.

(** The cursor of one library.  [boot] and [handoff] hold the epoch and the
    resume sequence of a bootstrap session and of an activated snapshot;
    [rooted] says that a bootstrap has completed. *)
Record feed := mk_feed {
  epoch : Z; applied : Z; acked : Z; paging : option page; acking : option PendingAck.t;
  boot : option (Z * Z); handoff : option (Z * Z); rooted : bool }.

Definition abs_page (library : Z) (s : Store) : option page :=
  match pending_pages s !! library with
  | None => None
  | Some p => Some (mk_page (PageRow.epoch p) (PageRow.from_sequence p)
                      (PageRow.through_sequence p) (PageRow.has_more p) (PageRow.ack_evidence p)
                      (default [] (pending_events s !! library)))
  end.

Definition abs (library : Z) (s : Store) : option feed :=
  match replicas s !! library with
  | None => None
  | Some r =>
      Some (mk_feed (Replica.journal_epoch r) (Replica.applied_sequence r)
              (Replica.acknowledged_sequence r) (abs_page library s)
              (pending_acknowledgements s !! library)
              ((fun b => (BootstrapRecord.snapshot_epoch b, BootstrapRecord.resume_sequence b))
                 <$> bootstrap_sessions s !! library)
              ((fun h => (HandoffRecord.journal_epoch h, HandoffRecord.resume_sequence h))
                 <$> rebaseline_applied_handoffs s !! library)
              (is_some (Replica.root_node_id r)))
  end.

(** ** Steps *)

(** The sequences of a page's events, in order. *)
Definition event_sequences (p : page) : list Z := map EventRow.sequence (page_events p).

(** A page the client accepts: consecutive events after [from], evidence exactly
    when there is something to acknowledge. *)
Record page_ok (p : page) : Prop := mk_page_ok {
  page_bounds : page_from p <= page_through p <= i64_max;
  page_consecutive :
    event_sequences p = seqZ (page_from p + 1) (page_through p - page_from p);
  page_has_evidence : page_evidence p = None <-> page_events p = [] }.

Definition with_cursor (f : feed) (e a k : Z) : feed :=
  mk_feed e a k (paging f) (acking f) (boot f) (handoff f) (rooted f).
Definition with_page (f : feed) (p : option page) (k : option PendingAck.t) : feed :=
  mk_feed (epoch f) (applied f) (acked f) p k (boot f) (handoff f) (rooted f).
Definition with_boot (f : feed) (b : option (Z * Z)) : feed :=
  mk_feed (epoch f) (applied f) (acked f) (paging f) (acking f) b (handoff f) (rooted f).

(** The acknowledgement of a completed page. *)
Definition ack_of (library : Z) (p : page) (high : Z) (evidence : rstring) : PendingAck.t :=
  PendingAck.mk library (page_epoch p) (page_from p) (page_through p) high evidence.

(** [served] is what is known of the server's pages. *)
Inductive step (served : page -> Prop) (library : Z) : feed -> feed -> Prop :=
| receive f p :
    paging f = None -> acking f = None -> boot f = None -> handoff f = None -> rooted f = true ->
    applied f = acked f -> served p -> page_ok p -> page_from p = acked f -> page_epoch p = epoch f ->
    step served library f (with_page f (Some p) None)
| apply f p e :
    paging f = Some p -> e ∈ page_events p -> EventRow.sequence e = applied f + 1 ->
    step served library f (with_cursor f (epoch f) (applied f + 1) (acked f))
| drop_empty f p :
    paging f = Some p -> applied f = page_through p -> page_through p = page_from p ->
    step served library f (with_page f None (acking f))
| commit f p high evidence :
    paging f = Some p -> applied f = page_through p -> page_through p <> page_from p ->
    page_evidence p = Some evidence ->
    step served library f (with_page f (Some p) (Some (ack_of library p high evidence)))
| acknowledge f p k n :
    paging f = Some p -> acking f = Some k -> PendingAck.through_sequence k <= n <= applied f ->
    step served library f (with_page (with_cursor f (PendingAck.epoch k) (applied f) n) None None)
| begin_bootstrap f e r :
    rooted f = false \/ (paging f = None /\ acking f = None) ->
    boot f = None -> handoff f = None -> r <= i64_max ->
    step served library f (with_boot f (Some (e, r)))
| finish_bootstrap f e r :
    boot f = Some (e, r) -> acked f <= r ->
    step served library f
      (mk_feed e r r (paging f) (acking f) None (handoff f) true)
| finish_handoff f e r :
    handoff f = Some (e, r) ->
    step served library f (mk_feed e r r (paging f) (acking f) (boot f) None (rooted f)).

(** Steps of the optional state: a library without a replica row has none. *)
Inductive ostep (served : page -> Prop) (library : Z) : option feed -> option feed -> Prop :=
| some_step f g : step served library f g -> ostep served library (Some f) (Some g).

(** ** The invariant *)

Record wf (library : Z) (f : feed) : Prop := mk_wf {
  wf_cursor : acked f <= applied f <= i64_max;
  wf_quiet : paging f = None -> applied f = acked f /\ acking f = None;
  wf_page : forall p, paging f = Some p ->
    page_ok p /\ page_epoch p = epoch f /\ page_from p = acked f
    /\ applied f <= page_through p /\ boot f = None /\ handoff f = None;
  wf_acking : forall p k, paging f = Some p -> acking f = Some k ->
    applied f = page_through p
    /\ exists high evidence, page_evidence p = Some evidence /\ k = ack_of library p high evidence;
  wf_rooted : rooted f = false -> paging f = None;
  wf_boot : forall e r, boot f = Some (e, r) -> r <= i64_max;
  wf_handoff : forall e r, handoff f = Some (e, r) -> r <= i64_max }.

Lemma event_bound p e :
  page_ok p -> e ∈ page_events p -> page_from p < EventRow.sequence e <= page_through p.
Proof.
  intros [_ Hc _] He. assert (EventRow.sequence e ∈ event_sequences p) as Hin.
  { unfold event_sequences. rewrite list_elem_of_fmap. by exists e. }
  rewrite Hc, elem_of_seqZ in Hin. lia.
Qed.

(** A page that moves the cursor nowhere carries no event. *)
Lemma empty_page p : page_ok p -> page_through p = page_from p -> page_events p = [].
Proof.
  intros [_ Hc _] He. unfold event_sequences in Hc. rewrite He, Z.sub_diag in Hc.
  by destruct (page_events p).
Qed.

(** Every step keeps the invariant. *)
Lemma step_wf served library f g : wf library f -> step served library f g -> wf library g.
Proof.
  intros W Hs. destruct W as [Wc Wq Wp Wa Wr Wb Wh].
  destruct Hs as [f p Hp Ha Hb Hh Hr He Hsv Hok Hf Hep|f p e Hp Hin Hs|f p Hp He Hf
                 |f p high ev Hp He Hlt Hev|f p k n Hp Ha Hn|f e r Hp Hb Hh Hr|f e r Hb Hr|f e r Hh].
  - pose proof (page_bounds p Hok). split; cbn; try done; [|by rewrite Hr].
    intros q [= <-]. split_and!; try done; lia.
  - destruct (Wp p Hp) as (Hok & ? & ? & ? & ? & ?).
    pose proof (event_bound p e Hok Hin) as Hb. pose proof (page_bounds p Hok).
    split; cbn; try done; [lia|by rewrite Hp| |].
    + intros q Hq. simplify_eq. split_and!; try done; lia.
    + intros q k Hq Hk. simplify_eq. destruct (Wa _ _ Hp Hk) as [? _]. lia.
  - destruct (Wp p Hp) as (Hok & ? & ? & ? & ? & ?).
    split; cbn; try done. intros _. split; [lia|].
    destruct (acking f) as [k|] eqn:Hk; [|done].
    destruct (Wa p k Hp eq_refl) as (_ & high & ev & Hev & _).
    pose proof (empty_page p Hok Hf) as Hn. apply (page_has_evidence p Hok) in Hn. congruence.
  - destruct (Wp p Hp) as (Hok & ? & ? & ? & ? & ?).
    split; cbn; try done.
    + intros q [= <-]. done.
    + intros q k [= <-] [= <-]. split; [done|]. by exists high, ev.
    + intros Hr. rewrite Hp in Wr. by apply Wr.
  - destruct (Wp p Hp) as (Hok & ? & ? & ? & Hb & Hh).
    destruct (Wa p k Hp Ha) as (? & high & ev & Hev & ->).
    pose proof (page_bounds p Hok). cbn in Hn.
    split; cbn; try done; [lia|intros _; split; [lia|done]].
  - assert (paging f = None) as Hp' by (destruct Hp as [Hp|[Hp _]]; [by apply Wr|done]).
    split; cbn; try done; [by rewrite Hp'|by intros ? ? [= <- <-]].
  - assert (paging f = None) as Hp.
    { destruct (paging f) as [p|] eqn:Hp; [|done].
      destruct (Wp p eq_refl) as (_ & _ & _ & _ & Hb' & _). congruence. }
    pose proof (Wb e r Hb). destruct (Wq Hp) as [_ Ha].
    split; cbn; try done; by rewrite Hp.
  - assert (paging f = None) as Hp.
    { destruct (paging f) as [p|] eqn:Hp; [|done].
      destruct (Wp p eq_refl) as (_ & _ & _ & _ & _ & Hh'). congruence. }
    pose proof (Wh e r Hh). destruct (Wq Hp) as [_ Ha].
    split; cbn; try done; by rewrite Hp.
Qed.

(** The invariant of an optional state. *)
Definition owf (library : Z) (o : option feed) : Prop :=
  match o with Some f => wf library f | None => True end.

Lemma rtc_wf served library o o' : rtc (ostep served library) o o' -> owf library o -> owf library o'.
Proof.
  induction 1 as [|o o1 o2 Hs _ IH]; [done|]. intros W. apply IH.
  destruct Hs as [f g Hs]. simpl in *. by eapply step_wf.
Qed.

(** A page in hand is one the server served. *)
Lemma rtc_served served library f g p :
  rtc (ostep served library) (Some f) (Some g) ->
  (forall q, paging f = Some q -> served q) -> paging g = Some p -> served p.
Proof.
  intros H. remember (Some f) as o eqn:Ho. remember (Some g) as o' eqn:Ho'.
  revert f Ho. induction H as [|o o1 o2 Hs _ IH]; intros f ->.
  - injection Ho' as ->. intros Hf Hp. by apply Hf.
  - inversion Hs as [f1 g1 Hs' E1 E2]; subst. intros Hf. apply (IH eq_refl _ eq_refl).
    destruct Hs'; cbn; intros q Hq; simplify_eq; auto.
Qed.

(** Away from a handoff the cursor never goes back. *)
Definition monotone (f g : feed) : Prop :=
  handoff g = None /\ acked f <= acked g /\ applied f <= applied g.

Lemma step_monotone served library f g :
  wf library f -> handoff f = None -> step served library f g -> monotone f g.
Proof.
  intros W Hh Hs. unfold monotone.
  destruct Hs as [f p Hp Ha Hb Hh' Hr He Hsv Hok Hf Hep|f p e Hp Hin Hs|f p Hp He Hf
                 |f p high ev Hp He Hne Hev|f p k n Hp Ha Hn|f e r Hp Hb Hh' Hr|f e r Hb Hr|f e r Hh'];
    cbn; try (split_and!; [done|lia..]).
  - destruct (wf_acking _ _ W p k Hp Ha) as (He & high & ev & _ & ->).
    pose proof (wf_cursor _ _ W). cbn in Hn. split_and!; [done|lia..].
  - split_and!; [done|lia|].
    destruct (paging f) as [p|] eqn:Hp; [|destruct (wf_quiet _ _ W Hp); lia].
    destruct (wf_page _ _ W p Hp) as (_ & _ & _ & _ & Hb' & _). congruence.
  - congruence.
Qed.

Lemma rtc_monotone served library f g :
  rtc (ostep served library) (Some f) (Some g) -> wf library f -> handoff f = None -> monotone f g.
Proof.
  intros H. remember (Some f) as o eqn:Ho. remember (Some g) as o' eqn:Ho'.
  revert f Ho. induction H as [|o o1 o2 Hs _ IH]; intros f -> W Hh.
  - injection Ho' as ->. unfold monotone. split_and!; [done|lia..].
  - inversion Hs as [f1 g1 Hs' E1 E2]; subst. pose proof (step_wf _ _ _ _ W Hs') as W1.
    destruct (step_monotone _ _ _ _ W Hh Hs') as (Hh1 & ? & ?).
    destruct (IH eq_refl g1 eq_refl W1 Hh1) as (? & ? & ?). unfold monotone. split_and!; [done|lia..].
Qed.
