(* ===== verification/StoreFacts.v ===== *)
(** * The store calls against the feed protocol

    What each transaction of [ClientStore] does to the protocol state [abs]:
    most leave it alone, and seven perform exactly one step of [FeedProtocol].
    Also the exact meaning of page validation, and that a page read back is the
    page persisted. *)

From S2P Require Import Prelude Vocabulary Models Rebaseline SyncTypes ClientPaths ClientStore.
From S2P Require Import FeedProtocol.

(** ** Taking a successful transaction apart *)

Section Inversion.

Context {A B : Type} (now : result Z ClientSyncError) (s : Store).

Lemma tx_bind_ok (m : tx A) (k : A -> tx B) x :
  tx_bind m k now s = Ok x -> exists s1 a, m now s = Ok (s1, a) /\ k a now s1 = Ok x.
Proof. unfold tx_bind. destruct (m now s) as [[s1 a]|]; [eauto|done]. Qed.

Lemma bind_attempt (r : result A ClientSyncError) (k : A -> tx B) x :
  tx_bind (attempt r) k now s = Ok x -> exists a, r = Ok a /\ k a now s = Ok x.
Proof. unfold tx_bind, attempt. destruct r; [eauto|done]. Qed.

Lemma bind_ensure (b : bool) e (k : unit -> tx B) x :
  tx_bind (ensure b e) k now s = Ok x -> b = true /\ k tt now s = Ok x.
Proof. unfold tx_bind, ensure. by destruct b. Qed.

Lemma bind_fetch (f : Store -> option A) (k : A -> tx B) x :
  tx_bind (fetch_one f) k now s = Ok x -> exists a, f s = Some a /\ k a now s = Ok x.
Proof. unfold tx_bind, fetch_one. destruct (f s); [eauto|done]. Qed.

Lemma bind_now (k : Z -> tx B) x :
  tx_bind now_ms k now s = Ok x -> exists t, now = Ok t /\ k t now s = Ok x.
Proof. unfold tx_bind, now_ms. destruct now; [eauto|done]. Qed.

Lemma ensure_ok (b : bool) e (s' : Store) (u : unit) :
  ensure b e now s = Ok (s', u) -> b = true /\ s' = s.
Proof. unfold ensure. destruct b; [by intros [= -> _]|done]. Qed.

Lemma update_ok (f : Store -> Store) (s' : Store) (u : unit) :
  update f now s = Ok (s', u) -> s' = f s.
Proof. unfold update. intros H. by simplify_eq. Qed.

End Inversion.

(** One statement of a transaction known to succeed. *)
Ltac tx_step H :=
  lazymatch type of H with
  | tx_bind (select _) _ _ _ = Ok _ => cbn [tx_bind select] in H
  | tx_bind (update _) _ _ _ = Ok _ => cbn [tx_bind update] in H
  | tx_bind (Feed.put_replica _ _) _ _ _ = Ok _ => cbn [tx_bind Feed.put_replica update] in H
  | tx_bind (tx_ret _) _ _ _ = Ok _ => cbn [tx_bind tx_ret] in H
  | tx_bind (attempt _) _ _ _ = Ok _ =>
      let a := fresh "a" in let Ha := fresh "Ha" in
      apply bind_attempt in H as (a & Ha & H)
  | tx_bind (ensure _ _) _ _ _ = Ok _ => let Hb := fresh "Hb" in apply bind_ensure in H as [Hb H]
  | tx_bind (fetch_one _) _ _ _ = Ok _ =>
      let a := fresh "row" in let Ha := fresh "Hrow" in
      apply bind_fetch in H as (a & Ha & H)
  | tx_bind now_ms _ _ _ = Ok _ =>
      let t := fresh "t" in apply bind_now in H as (t & _ & H)
  | tx_bind _ _ _ _ = Ok _ =>
      let s1 := fresh "s" in let a := fresh "a" in let Ha := fresh "Hm" in
      apply tx_bind_ok in H as (s1 & a & Ha & H)
  end.

Lemma u64_i64_ok v z : u64_i64 v = Ok z -> z = v /\ v <= i64_max.
Proof. unfold u64_i64, i64_try_from_is_err. case_match eqn:E; [done|]. intros [= <-]. lia. Qed.

(** ** Transactions that leave the protocol alone *)

(** [t] does not change what [g] reads. *)
Definition keeps {A V} (g : Store -> V) (t : tx A) : Prop :=
  forall now s s' a, t now s = Ok (s', a) -> g s' = g s.

Notation framed library := (keeps (abs library)).

Section Frames.

Context {V : Type} (g : Store -> V).

Lemma keeps_bind {A B} (m : tx A) (k : A -> tx B) :
  keeps g m -> (forall a, keeps g (k a)) -> keeps g (tx_bind m k).
Proof.
  intros Hm Hk now s s' b H. apply tx_bind_ok in H as (s1 & a & H1 & H2).
  rewrite (Hk a _ _ _ _ H2). by eapply Hm.
Qed.

Lemma keeps_ret {A} (a : A) : keeps g (tx_ret a).
Proof. by intros now s s' b [= <- _]. Qed.

Lemma keeps_select {A} (f : Store -> A) : keeps g (select f).
Proof. by intros now s s' b [= <- _]. Qed.

Lemma keeps_attempt {A} (r : result A ClientSyncError) : keeps g (attempt r).
Proof. intros now s s' b. unfold attempt. destruct r; [by intros [= <- _]|done]. Qed.

Lemma keeps_ensure b e : keeps g (ensure b e).
Proof. unfold ensure. destruct b; [apply keeps_ret|apply keeps_attempt]. Qed.

Lemma keeps_fetch {A} (f : Store -> option A) : keeps g (fetch_one f).
Proof. intros now s s' b. unfold fetch_one. destruct (f s); [by intros [= <- _]|done]. Qed.

Lemma keeps_now : keeps g now_ms.
Proof. intros now s s' b. unfold now_ms. destruct now; [by intros [= <- _]|done]. Qed.

Lemma keeps_update (f : Store -> Store) :
  (forall s, g (f s) = g s) -> keeps g (update f).
Proof. intros Hf now s s' b [= <- _]. apply Hf. Qed.

Lemma keeps_each {A} (f : A -> tx unit) l :
  (forall a, keeps g (f a)) -> keeps g (tx_each f l).
Proof.
  intros Hf. induction l as [|a l IH]; cbn [tx_each]; [apply keeps_ret|].
  by apply keeps_bind.
Qed.

End Frames.

Create HintDb frames.
#[export] Hint Resolve keeps_ret keeps_select keeps_attempt keeps_ensure keeps_fetch
  keeps_now : frames.

(** Goes through a transaction whose updates are of other tables. *)
Ltac frame :=
  repeat first
    [ progress (auto with frames)
    | apply keeps_bind; [|intros ?]
    | apply keeps_each; intros ?
    | apply keeps_update; by intros
    | progress case_match ].

Section OtherTables.

Context `{U : Unicode} (library : Z).

(** A status is not part of the protocol. *)
Lemma abs_with_status library' r st s :
  replicas s !! library' = Some r ->
  abs library (set_replicas s (<[library' := Replica.with_status r st]> (replicas s)))
  = abs library s.
Proof.
  intros Hr. unfold abs, abs_page. cbn. destruct (decide (library' = library)) as [->|Hne].
  - by rewrite lookup_insert_eq, Hr.
  - by rewrite lookup_insert_ne.
Qed.

Lemma framed_set_status library' st : framed library (Feed.set_status library' st).
Proof.
  intros now s s' a H. unfold Feed.set_status in H. repeat tx_step H.
  unfold Feed.replica in H. destruct (replicas s !! library') as [r|] eqn:Hr; [|done].
  injection H as <- _. by apply abs_with_status.
Qed.

Lemma framed_upsert node : framed library (Nodes.upsert_local_node_tx node).
Proof. unfold Nodes.upsert_local_node_tx. frame. Qed.

Lemma framed_delete_node l n : framed library (Nodes.delete_local_node l n).
Proof. unfold Nodes.delete_local_node. frame. Qed.

Lemma framed_commit : framed library Nodes.commit.
Proof. unfold Nodes.commit. frame. Qed.

Lemma framed_suppressions id node : framed library (Apply.insert_observation_suppression_tx id node).
Proof.
  unfold Apply.insert_observation_suppression_tx, Apply.insert_suppression. frame.
Qed.

Lemma framed_put_operation id row st : framed library (Apply.put_operation_state id row st).
Proof. unfold Apply.put_operation_state. frame. Qed.

Lemma framed_commit_operation id : framed library (Apply.commit_operation id).
Proof. pose proof framed_put_operation. unfold Apply.commit_operation. frame. Qed.

End OtherTables.

#[export] Hint Resolve framed_set_status framed_upsert framed_delete_node framed_commit
  framed_suppressions framed_put_operation framed_commit_operation : frames.

Section Operations.

Context `{U : Unicode} (library : Z).

Lemma framed_trim l e : framed library (Apply.trim_event_evidence l e).
Proof. unfold Apply.trim_event_evidence. frame. Qed.

Lemma framed_evidence l e q v : framed library (Apply.insert_evidence l e q v).
Proof. unfold Apply.insert_evidence. frame. Qed.

Lemma framed_prepare o : framed library (Ops.prepare_operation o).
Proof. unfold Ops.prepare_operation. frame. Qed.

Lemma framed_operation_state id st : framed library (Ops.set_operation_state id st).
Proof. unfold Ops.set_operation_state. frame. Qed.

Lemma framed_removed_node l n id : framed library (Ops.commit_removed_node_operation l n id).
Proof. unfold Ops.commit_removed_node_operation. frame. Qed.

Lemma framed_delete_completed id : framed library (Ops.delete_completed_operation id).
Proof. unfold Ops.delete_completed_operation. frame. Qed.

Lemma framed_issue id l n q g k e : framed library (Ops.insert_issue id l n q g k e).
Proof. unfold Ops.insert_issue. frame. Qed.

Lemma framed_observation_issue id l n p k : framed library (Ops.insert_observation_issue id l n p k).
Proof. unfold Ops.insert_observation_issue. frame. Qed.

Lemma framed_remove_node l n : framed library (Nodes.remove_local_node l n).
Proof. unfold Nodes.remove_local_node. frame. Qed.

Lemma framed_require_rebase l n t : framed library (Outbound.require_rebase l n t).
Proof. unfold Outbound.require_rebase. frame. Qed.

Lemma framed_reconcile l : framed library (Outbound.reconcile_server_applied_intents l).
Proof. unfold Outbound.reconcile_server_applied_intents. frame. Qed.

Lemma framed_bootstrap_applied n id op :
  framed library (Bootstrap.record_bootstrap_node_applied n id op).
Proof. unfold Bootstrap.record_bootstrap_node_applied. frame. Qed.

Lemma framed_applying l : framed library (Feed.mark_page_applying l).
Proof.
  intros now s s' a H. unfold Feed.mark_page_applying in H. repeat tx_step H.
  destruct (pending_pages s !! l) as [row|] eqn:Hp; [|done].
  case_bool_decide; [|done]. injection H as <- _. unfold abs, abs_page. cbn.
  destruct (decide (l = library)) as [->|Hne].
  - by rewrite lookup_insert_eq, Hp.
  - by rewrite lookup_insert_ne.
Qed.

End Operations.

#[export] Hint Resolve framed_trim framed_evidence framed_prepare framed_operation_state
  framed_removed_node framed_delete_completed framed_issue framed_observation_issue
  framed_remove_node framed_require_rebase framed_reconcile framed_bootstrap_applied
  framed_applying : frames.

(** ** Bootstrap sessions *)

Section Sessions.

Context `{U : Unicode}.

(** The [WHERE] clause of a query for one row. *)
Lemma fetch_guard {A} (b : bool) (r row : A) :
  (if b then Some r else None) = Some row -> row = r /\ b = true.
Proof. destruct b; [by intros [= ->]|done]. Qed.

(** The fetch state of a session is not part of the protocol. *)
Lemma abs_session library r r' nodes s :
  bootstrap_sessions s !! library = Some r ->
  BootstrapRecord.snapshot_epoch r' = BootstrapRecord.snapshot_epoch r ->
  BootstrapRecord.resume_sequence r' = BootstrapRecord.resume_sequence r ->
  abs library (set_bootstrap s (<[library := r']> (bootstrap_sessions s)) nodes) = abs library s.
Proof.
  intros Hr He Hs. unfold abs, abs_page. cbn. by rewrite lookup_insert_eq, Hr; cbn; rewrite He, Hs.
Qed.

Lemma keeps_manifest_insert library id node :
  framed library (Bootstrap.insert_bootstrap_node library id node)
  /\ keeps bootstrap_sessions (Bootstrap.insert_bootstrap_node library id node).
Proof. unfold Bootstrap.insert_bootstrap_node. split; frame. Qed.

Lemma framed_bootstrap_page scope page :
  framed (library_id scope) (Bootstrap.persist_bootstrap_page scope page).
Proof.
  intros now s s' a H. unfold Bootstrap.persist_bootstrap_page in H. repeat tx_step H.
  injection H as <- _. set (l := library_id scope) in *.
  assert (abs l s0 = abs l s) as <-.
  { eapply keeps_each; [|exact Hm]. intros n. by apply keeps_manifest_insert. }
  assert (bootstrap_sessions s0 = bootstrap_sessions s) as Hk.
  { eapply keeps_each; [|exact Hm]. intros n. by apply keeps_manifest_insert. }
  assert (s1 = s0) as ->.
  { destruct (BootstrapPage.has_more page); [by injection Hm0|].
    repeat tx_step Hm0. unfold attempt in Hm0. by case_match; simplify_eq. }
  unfold Bootstrap.bootstrap in Hrow. rewrite <- Hk in Hrow.
  destruct (bootstrap_sessions s0 !! l) as [r|] eqn:Hr; [|done].
  apply fetch_guard in Hrow as [-> _]. by eapply abs_session.
Qed.

Lemma framed_local_complete library id : framed library (Bootstrap.mark_bootstrap_local_complete library id).
Proof.
  intros now s s' a H. unfold Bootstrap.mark_bootstrap_local_complete in H. repeat tx_step H.
  injection H as <- _. unfold Bootstrap.bootstrap in Hrow.
  destruct (bootstrap_sessions s !! library) as [r|] eqn:Hr; [|done].
  apply fetch_guard in Hrow as [-> _]. by eapply abs_session.
Qed.

(** [INSERT INTO bootstrap_sessions]. *)
Lemma insert_session_step scope b now s s' a :
  let library := library_id scope in
  Bootstrap.insert_session scope b now s = Ok (s', a) ->
  exists f, abs library s = Some f /\ boot f = None
    /\ SyncBootstrap.snapshot_resume_sequence b <= i64_max
    /\ abs library s'
       = Some (with_boot f (Some (SyncBootstrap.snapshot_epoch b,
                                  SyncBootstrap.snapshot_resume_sequence b))).
Proof.
  intros library H. subst library. unfold Bootstrap.insert_session in H. repeat tx_step H. injection H as <- _.
  unfold abs, abs_page, Feed.replica, Bootstrap.bootstrap in *. cbn. rewrite Hrow.
  destruct (bootstrap_sessions s !! library_id scope) eqn:Hs; [done|].
  apply u64_i64_ok in Ha0 as [-> _], Ha1 as [-> ?].
  eexists. split; [done|]. split; [done|]. split; [done|]. by rewrite lookup_insert_eq.
Qed.

Lemma complete_bootstrap_step scope id e r now s s' a :
  let library := library_id scope in
  Bootstrap.complete_bootstrap scope id e r now s = Ok (s', a) ->
  exists f, abs library s = Some f /\ boot f = Some (e, r) /\ acked f <= r
    /\ abs library s' = Some (mk_feed e r r (paging f) (acking f) None (handoff f) true).
Proof.
  intros library H. subst library. unfold Bootstrap.complete_bootstrap in H. repeat tx_step H. injection H as <- _.
  unfold abs, abs_page, Feed.replica, Bootstrap.bootstrap in *. cbn.
  destruct (bootstrap_sessions s !! library_id scope) as [record|] eqn:Hs; [|done].
  apply fetch_guard in Hrow as [-> _]. rust_bool.
  destruct (replicas s !! library_id scope) as [replica|] eqn:Hr; [|done].
  injection Ha2 as <-. apply u64_i64_ok in Ha as [-> _], Ha0 as [-> _].
  eexists. split; [done|]. rewrite lookup_insert_eq, lookup_delete_eq. cbn.
  split_and!; [|lia|done]. f_equal. by f_equal.
Qed.

Lemma finalize_step scope h now s s' o :
  let library := library_id scope in
  Bootstrap.finalize_rebaseline_handoff scope h now s = Ok (s', o) ->
  (abs library s' = abs library s /\ rebaseline_applied_handoffs s !! library = None)
  \/ exists f e r, abs library s = Some f /\ handoff f = Some (e, r)
     /\ abs library s' = Some (mk_feed e r r (paging f) (acking f) (boot f) None (rooted f)).
Proof.
  intros library H. subst library. unfold Bootstrap.finalize_rebaseline_handoff in H. repeat tx_step H.
  unfold Bootstrap.pending_rebaseline_handoff, Feed.replica in *.
  destruct (rebaseline_applied_handoffs s !! library_id scope) as [actual|] eqn:Hh.
  - repeat tx_step H. injection H as <- _. right. rust_bool. subst actual.
    destruct (replicas s !! library_id scope) as [replica|] eqn:Hr; [|done].
    injection Ha1 as <-. apply u64_i64_ok in Ha as [-> _], Ha0 as [-> _].
    unfold abs, abs_page. cbn. rewrite Hr, Hh, lookup_insert_eq, lookup_delete_eq. cbn.
    by do 3 eexists.
  - repeat tx_step H. injection H as <- _. by left.
Qed.

End Sessions.

(** ** Page validation *)

(** The desired node of a change says what its event says. *)
Record describes (e : ChangeEvent.t) (n : SnapshotNode.t) : Prop := mk_describes {
  same_id : SnapshotNode.node_id n = ChangeEvent.resource_id e;
  same_revision : SnapshotNode.revision n = ChangeEvent.resource_revision e;
  same_parent : forall p, ChangeEvent.parent_node_id e = Some p -> SnapshotNode.parent_node_id n = Some p;
  same_kind : forall k, ChangeEvent.node_kind e = Some k -> SnapshotNode.kind n = k;
  same_state : forall q, ChangeEvent.node_state e = Some q -> SnapshotNode.state n = q;
  same_version : forall v, ChangeEvent.current_version_id e = Some v ->
    SnapshotNode.current_version_id n = Some v;
  state_of_kind :
    match ChangeEvent.change_kind e with
    | ChangeKind.NodeTrashed => SnapshotNode.state n = NodeState.Trashed
    | ChangeKind.NodeRestored => SnapshotNode.state n = NodeState.Active
    | ChangeKind.FileContentCommitted | ChangeKind.FileVersionRestored =>
        SnapshotNode.kind n = NodeKind.File /\ SnapshotNode.state n = NodeState.Active
        /\ is_Some (SnapshotNode.current_version_id n) /\ is_Some (SnapshotNode.content_length n)
        /\ is_Some (SnapshotNode.content_sha256 n)
    | _ => True
    end }.

(** A change the client accepts at position [expected] of the journal. *)
Record change_valid (scope : ReplicaScope) (epoch expected : Z) (c : InboundChange.t) : Prop :=
  mk_change_valid {
  valid_owner : ChangeEvent.owner_user_id (InboundChange.event c) = owner_user_id scope;
  valid_library : ChangeEvent.library_id (InboundChange.event c) = library_id scope;
  valid_epoch : ChangeEvent.journal_epoch (InboundChange.event c) = epoch;
  valid_sequence : ChangeEvent.sequence (InboundChange.event c) = expected;
  valid_schema : ChangeEvent.schema_version (InboundChange.event c) = 1;
  valid_resource : ChangeEvent.resource_kind (InboundChange.event c) = ChangeResourceKind.Node;
  valid_desired :
    match InboundChange.desired_node c with
    | None => ChangeEvent.change_kind (InboundChange.event c) = ChangeKind.NodePurged
    | Some n => ChangeEvent.change_kind (InboundChange.event c) <> ChangeKind.NodePurged
                /\ describes (InboundChange.event c) n
    end }.

Record page_valid (p : FeedPage.t) : Prop := mk_page_valid {
  valid_bounds :
    FeedPage.from_sequence p <= FeedPage.through_sequence p <= FeedPage.high_watermark p;
  valid_more : FeedPage.has_more p = true <-> FeedPage.through_sequence p < FeedPage.high_watermark p;
  valid_evidence : FeedPage.ack_evidence p = None <-> FeedPage.changes p = [];
  valid_through :
    FeedPage.through_sequence p = FeedPage.from_sequence p + len (FeedPage.changes p);
  valid_width : FeedPage.changes p <> [] -> FeedPage.through_sequence p < u64_max;
  valid_changes : forall i c, FeedPage.changes p !! i = Some c ->
    change_valid (FeedPage.scope p) (FeedPage.epoch p) (FeedPage.from_sequence p + 1 + Z.of_nat i) c }.

Section Validation.

Lemma is_some_and_differs {A B} `{EqDecision B} (o : option A) (f : A -> B) (b : B) :
  is_some_and o (fun a => f a != b) = false <-> forall a, o = Some a -> b = f a.
Proof.
  destruct o as [a|]; cbn; [|naive_solver].
  rewrite negb_false_iff, bool_decide_eq_true. naive_solver.
Qed.

Lemma is_none_false {A} (o : option A) : is_none o = false <-> is_Some o.
Proof. destruct o; cbn; naive_solver. Qed.

Lemma neq_false {A} `{EqDecision A} (a b : A) : (a != b) = false <-> a = b.
Proof. by rewrite negb_false_iff, bool_decide_eq_true. Qed.

Lemma if_err_ok {A} (b : bool) (e : ClientSyncError) (r : result A ClientSyncError) a :
  (if b then Err e else r) = Ok a <-> b = false /\ r = Ok a.
Proof. destruct b; naive_solver. Qed.

(** The checks on the node, for a change that is not a purge. *)
Lemma describes_exact e n (rest : result unit ClientSyncError) (P : Prop) :
  (rest = Ok tt <-> P) ->
  (P <-> match ChangeEvent.change_kind e with
         | ChangeKind.NodeTrashed => SnapshotNode.state n = NodeState.Trashed
         | ChangeKind.NodeRestored => SnapshotNode.state n = NodeState.Active
         | ChangeKind.FileContentCommitted | ChangeKind.FileVersionRestored =>
             SnapshotNode.kind n = NodeKind.File /\ SnapshotNode.state n = NodeState.Active
             /\ is_Some (SnapshotNode.current_version_id n)
             /\ is_Some (SnapshotNode.content_length n)
             /\ is_Some (SnapshotNode.content_sha256 n)
         | _ => True
         end) ->
  (if (SnapshotNode.node_id n != ChangeEvent.resource_id e)
      || (SnapshotNode.revision n != ChangeEvent.resource_revision e)
      || is_some_and (ChangeEvent.parent_node_id e)
           (fun id => Some id != SnapshotNode.parent_node_id n)
      || is_some_and (ChangeEvent.node_kind e) (fun kind => kind != SnapshotNode.kind n)
      || is_some_and (ChangeEvent.node_state e) (fun state => state != SnapshotNode.state n)
      || is_some_and (ChangeEvent.current_version_id e)
           (fun version => Some version != SnapshotNode.current_version_id n)
   then Err InvalidRemoteResponse else rest) = Ok tt
  <-> describes e n.
Proof.
  intros Hrest HP. rewrite if_err_ok, Hrest, HP, !orb_false_iff, !neq_false.
  rewrite !is_some_and_differs. split; [|intros []; tauto].
  intros [[[[[[] ] ] ] ] ]. by constructor.
Qed.

Lemma validate_change_exact scope epoch expected c :
  Feed.validate_change scope epoch expected c = Ok tt <-> change_valid scope epoch expected c.
Proof.
  unfold Feed.validate_change. destruct c as [e d]; cbn.
  rewrite !if_err_ok, !orb_false_iff, !neq_false, !Z.ltb_ge.
  assert (match ChangeEvent.change_kind e, d with
          | ChangeKind.NodePurged, None => Ok tt
          | ChangeKind.NodePurged, Some _ | _, None => Err InvalidRemoteResponse
          | kind, Some node => _
          end = Ok tt
          <-> match d with
              | None => ChangeEvent.change_kind e = ChangeKind.NodePurged
              | Some n => ChangeEvent.change_kind e <> ChangeKind.NodePurged /\ describes e n
              end) as ->; [|split; [intros; destruct_and!; constructor; cbn; try done; lia
                                   |intros []; cbn in *; split_and!; try done; lia]].
  destruct d as [n|]; [|by destruct (ChangeEvent.change_kind e)].
  destruct (ChangeEvent.change_kind e) eqn:Hk;
    try (rewrite (describes_exact e n _ True);
         [naive_solver|done|by rewrite Hk]); [..|naive_solver].
  all: rewrite describes_exact; [naive_solver| |rewrite Hk; reflexivity].
  all: rewrite if_err_ok, ?orb_false_iff, ?neq_false, ?is_none_false; naive_solver.
Qed.

Lemma validate_changes_exact scope epoch cs : forall expected n,
  Feed.validate_changes scope epoch expected cs = Ok n
  <-> n = expected + len cs /\ (cs <> [] -> n <= u64_max)
      /\ forall i c, cs !! i = Some c -> change_valid scope epoch (expected + Z.of_nat i) c.
Proof.
  induction cs as [|c cs IH]; intros expected n; cbn [Feed.validate_changes].
  - unfold len. cbn. split; [intros [= <-]; split_and!; [lia|done|done]|].
    intros (-> & _). by rewrite Z.add_0_r.
  - unfold len in *. rewrite length_cons. split.
    + destruct (Feed.validate_change scope epoch expected c) as [[]|] eqn:Hc; [|done].
      apply validate_change_exact in Hc. unfold checked_add64.
      destruct (Z.leb_spec (expected + 1) u64_max); cbn [ok_or]; [|done].
      intros Hv. apply IH in Hv as (-> & Hw & Hall). split_and!; [lia|..].
      * intros _. destruct cs; [cbn; lia|]. by apply Hw.
      * intros [|i] d Hi; cbn in Hi; [simplify_eq; by rewrite Z.add_0_r|].
        apply Hall in Hi. by replace (expected + Z.of_nat (S i)) with (expected + 1 + Z.of_nat i) by lia.
    + intros (-> & Hw & Hall). pose proof (Hall 0%nat c eq_refl) as Hc.
      rewrite Z.add_0_r in Hc. apply validate_change_exact in Hc as ->.
      unfold checked_add64. specialize (Hw ltac:(done)).
      rewrite (proj2 (Z.leb_le _ _)) by lia. cbn [ok_or]. apply IH. split_and!; [lia|lia|].
      intros i d Hi. specialize (Hall (S i) d Hi).
      by replace (expected + 1 + Z.of_nat i) with (expected + Z.of_nat (S i)) by lia.
Qed.

Lemma more_exact (b : bool) (x y : Z) : (b != (x <? y)) = false <-> (b = true <-> x < y).
Proof. rewrite neq_false. destruct (Z.ltb_spec x y), b; naive_solver lia. Qed.

(** What [validate_page] accepts, declaratively. *)
Lemma validate_page_iff page : Feed.validate_page page = Ok tt <-> page_valid page.
Proof.
  unfold Feed.validate_page.
  rewrite if_err_ok, !orb_false_iff, !Z.ltb_ge, more_exact.
  destruct (FeedPage.changes page) as [|c cs] eqn:Hcs; cbn [is_empty].
  - rewrite if_err_ok, orb_false_iff, neq_false. split.
    + intros ([[] ] & [Hf He] & _). constructor; rewrite ?Hcs; unfold len; cbn; try done; try lia.
      by destruct (FeedPage.ack_evidence page).
    + intros [? ? He Ht ? ?]. rewrite Hcs in He, Ht. unfold len in Ht. cbn in Ht.
      split_and!; try done; try lia. by rewrite (proj2 He eq_refl).
  - rewrite if_err_ok, is_none_false. split.
    + intros ([[] ] & [ev He] & Hok). unfold checked_add64 in Hok.
      destruct (Z.leb_spec (FeedPage.from_sequence page + 1) u64_max); cbn [ok_or] in Hok; [|done].
      destruct (Feed.validate_changes _ _ _ _) as [n|] eqn:Hv; [|done].
      apply validate_changes_exact in Hv as (-> & Hw & Hall). specialize (Hw ltac:(done)).
      rewrite if_err_ok, neq_false in Hok. destruct Hok as [Hok _].
      constructor; rewrite ?Hcs; try done; try lia; by rewrite He.
    + intros [? ? He Ht Hw Hall]. rewrite Hcs in *. specialize (Hw ltac:(done)).
      assert (0 < len (c :: cs)) by (unfold len; cbn; lia).
      split_and!; try done; try lia.
      { destruct (FeedPage.ack_evidence page); [done|]. by pose proof (proj1 He eq_refl). }
      unfold checked_add64. rewrite (proj2 (Z.leb_le _ _)) by lia. cbn [ok_or].
      rewrite (proj2 (validate_changes_exact _ _ _ _ (FeedPage.through_sequence page + 1))).
      * rewrite if_err_ok, neq_false. split; [lia|done].
      * split_and!; [lia|lia|done].
Qed.

End Validation.

(** ** Pages *)

Section Pages.

Context (library : Z).

(** The row [persist_page] inserts. *)
Definition page_row (page : FeedPage.t) : PageRow.t :=
  PageRow.mk (FeedPage.epoch page) (FeedPage.from_sequence page) (FeedPage.through_sequence page)
    (FeedPage.high_watermark page) (FeedPage.has_more page) (FeedPage.ack_evidence page) Received.

Definition page_of (page : FeedPage.t) : FeedProtocol.page :=
  mk_page (FeedPage.epoch page) (FeedPage.from_sequence page) (FeedPage.through_sequence page)
    (FeedPage.has_more page) (FeedPage.ack_evidence page) (map Feed.event_row (FeedPage.changes page)).

Lemma insert_changes cs : forall rows now s s' u,
  pending_events s !! library = Some rows ->
  tx_each (Feed.insert_pending_change library) cs now s = Ok (s', u) ->
  s' = set_pending s (pending_pages s)
         (<[library := rows ++ map Feed.event_row cs]> (pending_events s))
         (pending_acknowledgements s).
Proof.
  induction cs as [|c cs IH]; intros rows now s s' u Hr H; cbn [tx_each] in H.
  - injection H as <- _. rewrite app_nil_r, insert_id by done. by destruct s.
  - apply tx_bind_ok in H as (s1 & [] & Hc & H). unfold Feed.insert_pending_change in Hc.
    repeat tx_step Hc. injection Hc as <-. rewrite Hr in H.
    eapply IH in H as ->; [|apply lookup_insert_eq].
    cbn. by rewrite insert_insert_eq, <- app_assoc.
Qed.

Lemma persist_fresh page now s s' u :
  library = library_id (FeedPage.scope page) -> pending_pages s !! library = None ->
  Feed.persist_page page now s = Ok (s', u) ->
  page_valid page /\ FeedPage.high_watermark page <= i64_max /\ is_Some (replicas s !! library)
  /\ s' = set_pending s (<[library := page_row page]> (pending_pages s))
            (<[library := map Feed.event_row (FeedPage.changes page)]> (pending_events s))
            (pending_acknowledgements s).
Proof.
  intros Hl Hp H. unfold Feed.persist_page in H. rewrite <- Hl in H. repeat tx_step H.
  rewrite Hp in H.
  repeat tx_step H. destruct a. apply validate_page_iff in Ha.
  apply u64_i64_ok in Ha0 as [-> _], Ha1 as [-> _], Ha2 as [-> _], Ha3 as [-> ?].
  split_and!; [done|done|by eexists|].
  eapply insert_changes in H as ->; [|apply lookup_insert_eq].
  cbn. by rewrite insert_insert_eq.
Qed.

(** A valid page is an acceptable page of the protocol. *)
Lemma page_valid_ok page :
  page_valid page -> FeedPage.high_watermark page <= i64_max -> page_ok (page_of page).
Proof.
  intros [Hb _ He Ht _ Hc] Hh. split; cbn; [lia| |].
  - rewrite Ht. replace (_ + _ - _) with (len (FeedPage.changes page)) by lia.
    unfold event_sequences, len. cbn. apply list_eq. intros i. rewrite map_map, list_lookup_fmap.
    destruct (FeedPage.changes page !! i) as [c|] eqn:Hi; cbn.
    + apply lookup_lt_Some in Hi as Hlt. rewrite lookup_seqZ_lt by lia. f_equal.
      apply (Hc i c Hi).
    + apply lookup_ge_None in Hi. rewrite lookup_seqZ_ge by lia. done.
  - rewrite He. by destruct (FeedPage.changes page).
Qed.

Lemma abs_set_page f row rows ack s :
  abs library s = Some f ->
  abs library (set_pending s (<[library := row]> (pending_pages s)) rows ack)
  = Some (with_page f
      (Some (mk_page (PageRow.epoch row) (PageRow.from_sequence row) (PageRow.through_sequence row)
               (PageRow.has_more row) (PageRow.ack_evidence row) (default [] (rows !! library)))) (ack !! library)).
Proof.
  unfold abs, abs_page. cbn. intros H. destruct (replicas s !! library); [|done].
  injection H as <-. cbn. by rewrite lookup_insert_eq.
Qed.

Lemma paging_none f s :
  abs library s = Some f -> paging f = None -> pending_pages s !! library = None.
Proof.
  unfold abs, abs_page. intros H Hp. destruct (replicas s !! library); [|done].
  injection H as <-. cbn in Hp. by destruct (pending_pages s !! library).
Qed.

Lemma acking_is f s : abs library s = Some f -> acking f = pending_acknowledgements s !! library.
Proof. unfold abs. intros H. destruct (replicas s !! library); [|done]. by injection H as <-. Qed.

Lemma persist_step page f now s s' u :
  library = library_id (FeedPage.scope page) -> abs library s = Some f -> paging f = None ->
  Feed.persist_page page now s = Ok (s', u) ->
  page_ok (page_of page) /\ abs library s' = Some (with_page f (Some (page_of page)) (acking f)).
Proof.
  intros Hl Hf Hp H.
  eapply persist_fresh in H as (Hv & Hh & _ & ->); [|done|by eapply paging_none].
  split; [by apply page_valid_ok|]. rewrite (abs_set_page f) by done.
  by rewrite lookup_insert_eq, <- (acking_is f).
Qed.

(** A node the core types admit ([LogicalSnapshotNode] can only be built by
    [new], from a [LogicalName]). *)
Definition node_sound (n : SnapshotNode.t) : Prop :=
  Names.LogicalName_new (SnapshotNode.name n) = Ok (SnapshotNode.name n)
  /\ SnapshotNode.new (SnapshotNode.node_id n) (SnapshotNode.parent_node_id n)
       (SnapshotNode.name n) (SnapshotNode.kind n) (SnapshotNode.state n)
       (SnapshotNode.revision n) (SnapshotNode.current_version_id n)
       (SnapshotNode.content_length n) (SnapshotNode.content_sha256 n) = Ok n.

(** The change the engine reads back. *)
Definition stored_change (c : InboundChange.t) : StoredChange.t :=
  let e := InboundChange.event c in
  StoredChange.mk (ChangeEvent.sequence e) (ChangeEvent.id e) (ChangeEvent.change_kind e)
    (ChangeEvent.resource_id e) (ChangeEvent.resource_revision e) (InboundChange.desired_node c).

Definition stored_page (page : FeedPage.t) : StoredPage.t :=
  StoredPage.mk (FeedPage.epoch page) (FeedPage.from_sequence page)
    (FeedPage.through_sequence page) (FeedPage.high_watermark page) (FeedPage.has_more page)
    (FeedPage.ack_evidence page) (map stored_change (FeedPage.changes page)).

(** What the core types guarantee of a page. *)
Definition page_sound (page : FeedPage.t) : Prop :=
  Forall (fun c => forall n, InboundChange.desired_node c = Some n -> node_sound n)
    (FeedPage.changes page)
  /\ forall e, FeedPage.ack_evidence page = Some e -> OpaqueEvidence_new e = Ok e.

Lemma decode_event_row sc epoch expected c :
  change_valid sc epoch expected c ->
  (forall n, InboundChange.desired_node c = Some n -> node_sound n) ->
  Feed.decode_stored_change (Feed.event_row c) = Ok (stored_change c).
Proof.
  intros [_ _ _ _ _ _ Hd] Hs. unfold Feed.decode_stored_change, stored_change.
  destruct c as [e [n|]]; cbn in *; [|done].
  destruct Hd as [_ [Hid Hrev _ _ _ _ _]]. destruct (Hs n eq_refl) as [Hn Hnew].
  rewrite Hn; cbn. by rewrite <- Hid, <- Hrev, Hnew.
Qed.

Lemma decode_all_map {A B C} (decode : A -> result B ClientSyncError) (f : C -> A) (g : C -> B) l :
  (forall i c, l !! i = Some c -> decode (f c) = Ok (g c)) ->
  Feed.decode_all decode (map f l) = Ok (map g l).
Proof.
  induction l as [|c l IH]; [done|]. intros H. cbn.
  rewrite (H 0%nat c eq_refl), IH; [done|]. intros i d Hi. exact (H (S i) d Hi).
Qed.

(** A page that [persist_page] stores is valid, and [pending_page] reads the
    same page back: every event, in order, with its desired node, and the
    evidence to acknowledge it with. *)
Theorem persist_page_roundtrip page now s s' u :
  library = library_id (FeedPage.scope page) -> pending_pages s !! library = None ->
  page_sound page -> Feed.persist_page page now s = Ok (s', u) ->
  page_valid page /\ Feed.pending_page library s' = Ok (Some (stored_page page)).
Proof.
  intros Hl Hp [Hs He] H.
  eapply persist_fresh in H as (Hv & Hh & _ & ->); [|done|done]. split; [done|].
  unfold Feed.pending_page, Feed.pending_changes. cbn. rewrite !lookup_insert_eq. cbn.
  rewrite (decode_all_map _ _ stored_change).
  - destruct (FeedPage.ack_evidence page) as [e|] eqn:Hev; cbn.
    + rewrite (He e eq_refl). unfold stored_page. by rewrite Hev.
    + unfold stored_page. by rewrite Hev.
  - intros i c Hi. eapply decode_event_row; [by apply (valid_changes page Hv i)|].
    by eapply Forall_lookup_1 in Hs.
Qed.

End Pages.

(** [validate_page] accepts exactly the pages of consecutive, well-scoped
    events whose desired nodes agree with them, and whose bounds, evidence and
    [has_more] flag are consistent. *)
Theorem validate_page_exact page : Feed.validate_page page = Ok tt <-> page_valid page.
Proof. apply validate_page_iff. Qed.

(** ** Applying, committing and acknowledging *)

Section Cursor.

Context `{U : Unicode} (scope : ReplicaScope).

Notation lib := (library_id scope).

(** What rewriting the cursor does, whatever else happened to other tables. *)
Lemma abs_put_cursor r f s0 s e a k st :
  replicas s0 !! lib = Some r -> abs lib s0 = Some f -> abs lib s = Some f ->
  abs lib (set_replicas s (<[lib := Replica.with_cursor r e a k st]> (replicas s)))
  = Some (with_cursor f e a k).
Proof.
  unfold abs, abs_page. intros Hr Hf Hs. rewrite Hr in Hf. injection Hf as <-.
  destruct (replicas s !! lib) as [r'|]; [|done]. injection Hs as _ _ _ <- <- <- <- Hroot. cbn.
  by rewrite lookup_insert_eq.
Qed.

Definition advanced (sequence : Z) (o o' : option feed) : Prop :=
  o' = o
  \/ exists f, o = Some f /\ sequence = applied f + 1
       /\ o' = Some (with_cursor f (epoch f) (applied f + 1) (acked f)).

Lemma record_step epoch change node op now s s' u :
  Apply.record_event_applied scope epoch change node op now s = Ok (s', u) ->
  advanced (StoredChange.sequence change) (abs lib s) (abs lib s').
Proof.
  unfold Apply.record_event_applied, advanced. intros H. do 3 tx_step H.
  apply u64_i64_ok in Ha0 as [-> _].
  destruct (_ =? i64_max); [done|]. injection Ha as <-.
  destruct (_ <? _); [left; repeat tx_step H; by apply ensure_ok in H as [_ ->]|]. right.
  repeat tx_step H. rust_bool. unfold Feed.replica in Hrow.
  assert (exists f, abs lib s = Some f) as [f Hf] by (unfold abs; rewrite Hrow; eauto).
  assert (applied f = Replica.applied_sequence row /\ acked f = Replica.acknowledged_sequence row
          /\ FeedProtocol.epoch f = Replica.journal_epoch row) as (Ea & Ek & Ee).
  { unfold abs in Hf. rewrite Hrow in Hf. by injection Hf as <-. }
  exists f. split; [done|]. split; [lia|].
  rewrite (framed_commit lib _ _ _ _ H), (framed_trim lib _ _ _ _ _ _ Hm2).
  assert (framed lib (match op with
                      | Some id =>
                          do! _ := Apply.insert_observation_suppression_tx id node in
                          Apply.commit_operation id
                      | None => tx_ret tt
                      end)) as Ho by frame.
  rewrite (Ho _ _ _ _ Hm1), Ea, Ek, Ee, <- Hb.
  eapply abs_put_cursor; [done|done|]. rewrite (framed_evidence lib _ _ _ _ _ _ _ _ Hm0), <- Hf.
  destruct node; [by eapply framed_upsert|by eapply framed_delete_node].
Qed.

Lemma mark_committed_step now s s' b :
  Apply.mark_page_locally_committed lib now s = Ok (s', b) ->
  exists f p, abs lib s = Some f /\ paging f = Some p /\ applied f = page_through p
    /\ ((b = true /\ page_through p = page_from p
         /\ abs lib s' = Some (with_page f None (acking f)))
        \/ b = false /\ exists high evidence, page_evidence p = Some evidence /\ page_through p <> page_from p
           /\ abs lib s' = Some (with_page f (Some p) (Some (ack_of lib p high evidence)))).
Proof.
  unfold Apply.mark_page_locally_committed. intros H. do 3 tx_step H.
  unfold Feed.replica in Hrow0. unfold abs at 1, abs_page. rewrite Hrow, Hrow0.
  do 2 eexists. split; [done|]. split; [done|]. cbn. rust_bool. split; [done|].
  destruct (Z.eqb_spec (PageRow.through_sequence row) (PageRow.from_sequence row)) as [He|He].
  - left. repeat tx_step H. injection H as <- <-. do 2 (split; [done|]).
    unfold abs, abs_page. cbn. by rewrite Hrow0, lookup_delete_eq.
  - right. repeat tx_step H. injection H as <- <-. split; [done|].
    destruct (PageRow.ack_evidence row) as [ev|] eqn:Hev; [|done]. injection Ha as <-.
    exists (PageRow.high_watermark row), ev. split; [done|]. split; [done|].
    unfold abs, abs_page. cbn. by rewrite !lookup_insert_eq; cbn; rewrite Hev.
Qed.

Lemma confirm_step epoch acknowledged now s s' u :
  Apply.confirm_ack scope epoch acknowledged now s = Ok (s', u) ->
  exists f p k, abs lib s = Some f /\ paging f = Some p /\ acking f = Some k
    /\ PendingAck.through_sequence k <= acknowledged <= applied f
    /\ abs lib s'
       = Some (with_page (with_cursor f (PendingAck.epoch k) (applied f) acknowledged) None None).
Proof.
  unfold Apply.confirm_ack. intros H. repeat tx_step H. injection H as <- _. rust_bool.
  apply u64_i64_ok in Ha as [-> _], Ha0 as [-> _]. unfold Feed.replica in Hrow0.
  unfold abs at 1, abs_page. rewrite Hrow, Hrow0. cbn in Hb1.
  destruct (pending_pages s !! lib) as [p|] eqn:Hp; [|done].
  do 3 eexists. do 3 (split; [done|]). cbn. split; [lia|].
  unfold abs, abs_page. cbn. rewrite lookup_insert_eq, !lookup_delete_eq. cbn.
  unfold with_page, with_cursor. cbn. f_equal. f_equal. done.
Qed.

End Cursor.
