(* ===== verification/SyncWorld.v ===== *)
(** * The world of the synchroniser: database, files, server, faults

    The effects of [client-sync/src/engine.rs] as a state-and-error monad.  The
    world holds the local database, the managed folder and the requests sent
    so far.  Everything the engine does not control is an argument: the clock,
    fresh identifiers, the faults of the database and of the injected crash
    points ([Env]), and the server ([SyncRemote]) may answer differently at
    every step, which is why each takes the number of the step.  [LocalReplica]
    is the trait of [replica.rs]. *)

From S2P Require Import Prelude Vocabulary Models Requests Rebaseline SyncTypes ClientPaths.
From S2P Require Import ClientStore.

(** ** What the engine does not control *)

(** A store call succeeds, is refused without effect, or takes effect but is
    reported as failed (a commit whose answer is lost). *)
Inductive Fault : Type := Fine | Refused | Unreported.

Class Env := {
  clock : nat -> result Z ClientSyncError;
  db_fault : nat -> Fault;
  fresh_uuid : nat -> Z;
  injected : nat -> FailurePoint.t -> bool
}.

(** [SyncRemote], the operations inbound synchronisation uses. *)
Class SyncRemote := {
  remote_profile_id : option Z;
  device_credential_id : option Z;
  get_checkpoint : nat -> ReplicaScope -> result Checkpoint.t RemoteError;
  fetch_changes : nat -> ReplicaScope -> Z -> result FeedPage.t RemoteError;
  acknowledge_changes : nat -> ReplicaScope -> rstring -> result Checkpoint.t RemoteError;
  remote_rebaseline_handoff : nat -> ReplicaScope -> Z -> result HandoffConfirmation.t RemoteError;
  start_rebaseline : nat -> ReplicaScope -> result SyncBootstrap.t RemoteError;
  fetch_rebaseline_page :
    nat -> ReplicaScope -> Z -> option rstring -> Z -> result BootstrapPage.t RemoteError;
  complete_rebaseline :
    nat -> ReplicaScope -> Z -> rstring -> result BootstrapCompletion.t RemoteError;
  download_current_content : nat -> ReplicaScope -> Z -> Z -> result RemoteContent.t RemoteError
}.

(** The requests that reach the server. *)
Inductive request : Type :=
| SentGetCheckpoint
| SentFetchChanges (limit : Z)
| SentAcknowledge (evidence : rstring)
| SentHandoff (snapshot_id : Z)
| SentStartRebaseline
| SentFetchRebaselinePage (bootstrap_id : Z) (cursor : option rstring) (limit : Z)
| SentCompleteRebaseline (bootstrap_id : Z) (evidence : rstring)
| SentDownload (node_id version_id : Z)
| SentCreateSnapshot
| SentReadPage (snapshot_id : Z) (cursor : option rstring) (limit : Z)
| SentMutation (request : Mutation.Request)
| SentCreateUpload (idempotency_key : Z) (target : UploadTarget.t) (length : Z) (digest : list Z)
| SentGetUpload (session_id : Z)
| SentAppendChunk (session_id offset : Z) (chunk : rstring)
| SentCompleteUpload (session_id : Z).

(** [LocalReplica] ([replica.rs]), the operations of the engine, over a type
    [F] of folder states. *)
Class LocalReplica (F : Type) := {
  replica_scope : ReplicaScope;
  replica_profile_id : option Z;
  binding_id : Z;
  validate_root : F -> F * result unit ClientSyncError;
  inspect : rstring -> F -> F * result (option LocalFingerprint.t) ClientSyncError;
  ensure_directory : rstring -> F -> F * result unit ClientSyncError;
  has_portable_name_collision : rstring -> F -> F * result bool ClientSyncError;
  stage_directory : Z -> F -> F * result rstring ClientSyncError;
  directory_staging_location : Z -> result rstring ClientSyncError;
  stage_content :
    Z -> Z -> list Z -> list (result rstring RemoteError) -> F -> F * result rstring ClientSyncError;
  staging_location : Z -> result rstring ClientSyncError;
  quarantine_location : Z -> Z -> result rstring ClientSyncError;
  expose_staged_file : rstring -> rstring -> Z -> F -> F * result unit ClientSyncError;
  rename_path : rstring -> rstring -> F -> F * result unit ClientSyncError;
  quarantine_path : rstring -> Z -> Z -> F -> F * result rstring ClientSyncError;
  restore_quarantined : rstring -> rstring -> F -> F * result unit ClientSyncError;
  list_descendants : rstring -> F -> F * result (list rstring) ClientSyncError;
  remove_owned_staging : rstring -> F -> F * result unit ClientSyncError;
  write_operation_receipt : Z -> F -> F * result unit ClientSyncError;
  has_operation_receipt : Z -> F -> F * result bool ClientSyncError;
  remove_operation_receipt : Z -> F -> F * result unit ClientSyncError
}.

(** The operations of [LocalReplica] that only outbound submission uses: the
    content of a visible file, and at most [max] bytes of a staged one. *)
Class ContentReader (F : Type) := {
  open_visible_file : rstring -> F -> F * result rstring ClientSyncError;
  read_staged_chunk : rstring -> Z -> Z -> F -> F * result rstring ClientSyncError
}.

(** ** The monad *)

(** [sent] pairs each request with the store at the moment it was sent. *)
Record World (F : Type) := mk_World {
  store : Store; files : F; tick : nat; sent : list (Store * request) }.
Arguments mk_World {F} store files tick sent.
Arguments store {F} w : rename.
Arguments files {F} w : rename.
Arguments tick {F} w : rename.
Arguments sent {F} w : rename.

Definition M (F A : Type) : Type := World F -> World F * result A ClientSyncError.

Section Monad.

Context {F : Type}.

Definition ret {A} (a : A) : M F A := fun w => (w, Ok a).
Definition raise {A} (e : ClientSyncError) : M F A := fun w => (w, Err e).

Definition bind {A B} (m : M F A) (k : A -> M F B) : M F B := fun w =>
  match m w with
  | (w', Ok a) => k a w'
  | (w', Err e) => (w', Err e)
  end.

(** [match m.await { .. }]: the continuation sees the error as well. *)
Definition inspecting {A B} (m : M F A) (k : result A ClientSyncError -> M F B) : M F B := fun w =>
  let '(w', r) := m w in k r w'.

Definition lift {A} (r : result A ClientSyncError) : M F A := fun w => (w, r).

(** [if b { return Err(e) }]. *)
Definition reject (b : bool) (e : ClientSyncError) : M F unit := if b then raise e else ret tt.

Definition next (w : World F) : World F :=
  mk_World (store w) (files w) (S (tick w)) (sent w).

Context `{E : Env}.

(** A store call: one transaction or one autocommitted statement. *)
Definition call {A} (t : tx A) : M F A := fun w =>
  match db_fault (tick w) with
  | Refused => (next w, Err Database)
  | fault =>
      match t (clock (tick w)) (store w) with
      | Err e => (next w, Err e)
      | Ok (s, a) =>
          (mk_World s (files w) (S (tick w)) (sent w),
           match fault with Unreported => Err Database | _ => Ok a end)
      end
  end.

(** A query. *)
Definition read {A} (q : Store -> result A ClientSyncError) : M F A := fun w =>
  (next w, match db_fault (tick w) with Fine => q (store w) | _ => Err Database end).

Definition fs {A} (op : F -> F * result A ClientSyncError) : M F A := fun w =>
  let '(f, r) := op (files w) in (mk_World (store w) f (tick w) (sent w), r).

Definition send {A} (q : request) (answer : nat -> result A RemoteError) : M F (result A RemoteError) :=
  fun w => (mk_World (store w) (files w) (S (tick w)) (sent w ++ [(store w, q)]),
            Ok (answer (tick w))).

Definition send_or_fail {A} (q : request) (answer : nat -> result A RemoteError) : M F A := fun w =>
  (mk_World (store w) (files w) (S (tick w)) (sent w ++ [(store w, q)]),
   map_err Remote (answer (tick w))).

Definition uuid : M F Z := fun w => (next w, Ok (fresh_uuid (tick w))).

Definition check (point : FailurePoint.t) : M F unit := fun w =>
  (next w, if injected (tick w) point then Err InjectedFailure else Ok tt).

Fixpoint each {A} (f : A -> M F unit) (l : list A) : M F unit :=
  match l with
  | [] => ret tt
  | a :: l' => bind (f a) (fun _ => each f l')
  end.

End Monad.

Notation "'let!' x ':=' m 'in' k" := (bind m (fun x => k))
  (at level 10, x binder, m at level 200, k at level 200,
   format "'[v' 'let!'  x  ':='  m  'in' '//' k ']'") : rust_scope.

(** ** Store methods made of several statements ([state.rs]) *)

Module Calls.
Section Calls.

Context {F : Type} `{U : Unicode} `{E : Env}.

Definition set_status (library : Z) (status : EngineStatus.t) : M F unit :=
  call (Feed.set_status library status).

Definition mark_page_applying (library : Z) : M F unit :=
  let! _ := call (Feed.mark_page_applying library) in
  set_status library EngineStatus.Applying.

Definition mark_page_locally_committed (library : Z) : M F (option PendingAck.t) :=
  let! empty := call (Apply.mark_page_locally_committed library) in
  if (empty : bool) then ret None else read (Apply.pending_ack library).

Definition persist_issue (library : Z) (node server_sequence generation : option Z)
  (kind : LocalIssueKind.t) (expected_state : rstring) : M F unit :=
  let! id := uuid in
  let! _ := call (Ops.insert_issue id library node server_sequence generation kind
                    expected_state) in
  let! _ := set_status library EngineStatus.BlockedLocalIssue in
  read (fun s => if existsb (Ops.same_fact library node server_sequence generation kind)
                      (local_apply_issues s) then Ok tt else Err Database).

Definition persist_observation_issue (library : Z) (node : option Z) (path : option rstring)
  (kind : ObservationIssueKind.t) : M F unit :=
  let! id := uuid in
  let! _ := call (Ops.insert_observation_issue id library node path kind) in
  read (fun s => if existsb (fun row =>
                      (observation_library_id row =? library) && (observation_node_id row == node)
                      && (default [] (observation_path row) == default [] path)
                      && (observation_kind row == kind) && is_none (observation_resolved_at row))
                      (observation_issues s) then Ok tt else Err Database).

(** [self.local_node(..)] on the optional node of the intents query. *)
Definition intent_target (library : Z) (node : option Z) : M F (option LocalNode.t) :=
  match node with
  | None => ret None
  | Some id => read (Nodes.local_node library id)
  end.

Definition mark_outbound_intents_needing_rebase (library : Z) (node : option Z) : M F bool :=
  let! target := intent_target library node in
  let! affected := read (fun s => Ok (Outbound.affected_intents library node target s)) in
  if negb affected then ret false
  else
    let! target := intent_target library node in
    let! _ := call (Outbound.require_rebase library node target) in
    let! _ := persist_observation_issue library node None ObservationIssueKind.BaseStateChanged in
    let! _ := set_status library EngineStatus.BlockedLocalIssue in
    ret true.

Definition begin_bootstrap (scope : ReplicaScope) (b : SyncBootstrap.t) : M F unit :=
  let library := library_id scope in
  let! _ := reject ((SyncBootstrap.owner_user_id b != owner_user_id scope)
                    || (SyncBootstrap.device_id b != device_id scope)
                    || (SyncBootstrap.library_id b != library)) WrongScope in
  let! _ := mark_outbound_intents_needing_rebase library None in
  let! existing := read (fun s => Ok (Bootstrap.bootstrap library s)) in
  match existing with
  | Some existing =>
      reject ((BootstrapRecord.bootstrap_id existing != SyncBootstrap.id b)
              || (BootstrapRecord.generation existing != SyncBootstrap.generation b)) InvalidState
  | None =>
      let! _ := call (Bootstrap.insert_session scope b) in
      set_status library EngineStatus.Bootstrapping
  end.

End Calls.
End Calls.
