(* ===== verification/Candidates.v ===== *)
(** * Durable snapshots

    [client-sync/src/rebaseline.rs] and the methods of [state.rs] it uses: a
    snapshot of the server is fetched page by page into a candidate, validated,
    and then replaces the mirror of the library in one transaction that also
    writes the handoff marker.  [Candidates] holds the store methods, [Applier]
    the loop over the pages. *)

From S2P Require Import Prelude Vocabulary Models Rebaseline SyncTypes ClientPaths ClientStore.
From S2P Require Import SyncWorld.

(** ** Store methods *)

Module Candidates.
Section Candidates.

Context `{U : Unicode}.

(** [decode_rebaseline_candidate]: the only [FAILED] row is a bare claim. *)
Definition decode_rebaseline_candidate (row : Candidate.t) : result Candidate.t ClientSyncError :=
  let? _ := match Candidate.next_cursor row with
            | None => Ok []
            | Some cursor => map_err (fun _ => CandidateCorrupt) (OpaqueEvidence_new cursor)
            end in
  if (Candidate.state row == CreateClaim)
     && ((Candidate.journal_epoch row != 1) || (Candidate.resume_sequence row != 0)
         || (Candidate.expected_count row != 0) || (Candidate.received_count row != 0)
         || is_some (Candidate.next_cursor row) || Candidate.terminal_fetched row)
  then Err CandidateCorrupt
  else Ok row.

Definition decode_optional (row : option Candidate.t) :
  result (option Candidate.t) ClientSyncError :=
  match row with
  | None => Ok None
  | Some row => let? c := decode_rebaseline_candidate row in Ok (Some c)
  end.

Definition rebaseline_candidate (library : Z) (s : Store) :
  result (option Candidate.t) ClientSyncError :=
  decode_optional (rebaseline_candidates s !! library).

Definition rebaseline_is_applied (library : Z) (d : Descriptor.t) (s : Store) :
  result bool ClientSyncError :=
  let boundary := Descriptor.boundary d in
  match rebaseline_applied_handoffs s !! library with
  | None => Ok false
  | Some marker =>
      if HandoffRecord.snapshot_id marker != Descriptor.snapshot_id d
      then Err RebaselinePendingHandoff
      else
        let? epoch := sequence_i64 (Boundary.journal_epoch boundary) in
        if HandoffRecord.journal_epoch marker != epoch then Err RebaselinePendingHandoff
        else
          let? resume := sequence_i64 (Boundary.resume_sequence boundary) in
          if HandoffRecord.resume_sequence marker != resume then Err RebaselinePendingHandoff
          else Ok true
  end.

(** The guards shared by [begin_rebaseline_candidate] and
    [promote_rebaseline_snapshot_creation_claim]. *)
Definition check_descriptor (scope : ReplicaScope) (d : Descriptor.t) :
  result unit ClientSyncError :=
  if (Descriptor.library_id d != library_id scope)
     || (Boundary.journal_epoch (Descriptor.boundary d) =? 0)
  then Err InvalidRemoteResponse
  else if (Descriptor.entry_count d =? 0) || (MAX_REBASELINE_ITEMS <? Descriptor.entry_count d)
  then Err ResourceLimit
  else Ok tt.

Definition fetching (d : Descriptor.t) : Candidate.t :=
  Candidate.mk (Descriptor.snapshot_id d) (Boundary.journal_epoch (Descriptor.boundary d))
    (Boundary.resume_sequence (Descriptor.boundary d)) (Descriptor.entry_count d) 0 None false
    CandidateFetching [] [].

(** The bound parameters of the [INSERT] and the [UPDATE]. *)
Definition bind_descriptor (d : Descriptor.t) : result unit ClientSyncError :=
  let? _ := sequence_i64 (Boundary.journal_epoch (Descriptor.boundary d)) in
  let? _ := sequence_i64 (Boundary.resume_sequence (Descriptor.boundary d)) in
  let? _ := u64_i64 (Descriptor.entry_count d) in
  Ok tt.

(** The comparison of [begin_rebaseline_candidate], left to right. *)
Definition same_descriptor (row : Candidate.t) (d : Descriptor.t) : result bool ClientSyncError :=
  if Candidate.snapshot_id row != Descriptor.snapshot_id d then Ok false
  else
    let? epoch := sequence_i64 (Boundary.journal_epoch (Descriptor.boundary d)) in
    if Candidate.journal_epoch row != epoch then Ok false
    else
      let? resume := sequence_i64 (Boundary.resume_sequence (Descriptor.boundary d)) in
      if Candidate.resume_sequence row != resume then Ok false
      else
        let? count := u64_i64 (Descriptor.entry_count d) in
        Ok (Candidate.expected_count row == count).

Definition put_candidate (library : Z) (c : Candidate.t) : tx unit :=
  update (fun s => set_candidates s (<[library := c]> (rebaseline_candidates s))).

Definition delete_candidate (library : Z) : tx unit :=
  update (fun s => set_candidates s (delete library (rebaseline_candidates s))).

Definition begin_rebaseline_candidate (scope : ReplicaScope) (d : Descriptor.t) : tx unit :=
  let library := library_id scope in
  do! _ := attempt (check_descriptor scope d) in
  do! existing := select (fun s => rebaseline_candidates s !! library) in
  match existing with
  | Some row =>
      do! same := attempt (same_descriptor row d) in
      ensure same RebaselineInProgress
  | None =>
      do! _ := now_ms in
      do! _ := attempt (bind_descriptor d) in
      do! _ := fetch_one (Feed.replica library) in
      put_candidate library (fetching d)
  end.

Definition claim_rebaseline_snapshot_creation (scope : ReplicaScope) (claim_id : Z) : tx Z :=
  let library := library_id scope in
  do! row := select (fun s => rebaseline_candidates s !! library) in
  do! existing := attempt (decode_optional row) in
  do! _ := ensure (is_none_or existing (fun c => Candidate.state c == CreateClaim))
             RebaselineInProgress in
  do! _ := now_ms in
  do! _ := fetch_one (Feed.replica library) in
  do! _ := put_candidate library (Candidate.mk claim_id 1 0 0 0 None false CreateClaim [] []) in
  tx_ret claim_id.

(** [WHERE library_id = ? AND snapshot_id = ? AND state = 'FAILED']. *)
Definition is_claim (claim_id : Z) (row : option Candidate.t) : bool :=
  is_some_and row (fun c => (Candidate.snapshot_id c == claim_id)
                            && (Candidate.state c == CreateClaim)).

(** A claim has neither nodes nor cursors, so the updated row is a fresh one. *)
Definition promote_rebaseline_snapshot_creation_claim (scope : ReplicaScope) (claim_id : Z)
  (d : Descriptor.t) : tx unit :=
  let library := library_id scope in
  do! _ := attempt (check_descriptor scope d) in
  do! _ := attempt (bind_descriptor d) in
  do! _ := now_ms in
  do! row := select (fun s => rebaseline_candidates s !! library) in
  do! _ := ensure (is_claim claim_id row) RebaselineInProgress in
  put_candidate library (fetching d).

Definition release_rebaseline_snapshot_creation_claim (library claim_id : Z) : tx unit :=
  do! row := select (fun s => rebaseline_candidates s !! library) in
  if is_claim claim_id row then delete_candidate library else tx_ret tt.

Definition abort_rebaseline_candidate (library : Z) : tx unit := delete_candidate library.

(** *** [persist_rebaseline_page] *)

(** No pair of neighbours out of order. *)
Fixpoint ascending (entries : list SnapshotNode.t) : bool :=
  match entries with
  | a :: (b :: _) as rest => (SnapshotNode.node_id a <? SnapshotNode.node_id b) && ascending rest
  | _ => true
  end.

(** [SELECT node_id .. ORDER BY node_id DESC LIMIT 1]. *)
Definition greatest (nodes : list SnapshotNode.t) : option Z :=
  foldr (fun n m => Some (match m with
                          | Some v => Z.max (SnapshotNode.node_id n) v
                          | None => SnapshotNode.node_id n
                          end)) None nodes.

Definition validate_terminal_candidate (nodes : list SnapshotNode.t) (expected_count : Z) :
  result unit ClientSyncError :=
  let? expected := u64_i64 expected_count in
  if len nodes != expected then Err CandidateIncomplete
  else Bootstrap.validate_terminal_manifest nodes (len nodes).

Fixpoint insert_candidate_nodes (durable entries : list SnapshotNode.t) :
  result (list SnapshotNode.t) ClientSyncError :=
  match entries with
  | [] => Ok durable
  | node :: rest =>
      if existsb (fun n => SnapshotNode.node_id n =? SnapshotNode.node_id node) durable
      then Err InvalidRemoteResponse
      else
        let? _ := revision_i64 (SnapshotNode.revision node) in
        let? _ := optional_u64_i64 (SnapshotNode.content_length node) in
        if negb (Bootstrap.manifest_row_ok node) then Err Database
        else insert_candidate_nodes (durable ++ [node]) rest
  end.

(** What the page leaves of the candidate. *)
Definition next_candidate (candidate : Candidate.t) (page : SnapshotPage.t) :
  result Candidate.t ClientSyncError :=
  let entries := SnapshotPage.entries page in
  if is_some_and (greatest (Candidate.nodes candidate))
       (fun last => is_some_and (head entries) (fun n => SnapshotNode.node_id n <=? last))
  then Err InvalidRemoteResponse
  else
    let? received := ok_or (checked_add64 (Candidate.received_count candidate) (len entries))
                       ResourceLimit in
    if Candidate.expected_count candidate <? received then Err InvalidRemoteResponse
    else
      let? nodes := insert_candidate_nodes (Candidate.nodes candidate) entries in
      let? cursors :=
        match SnapshotPage.next_cursor page with
        | Some cursor =>
            if (Candidate.next_cursor candidate == Some cursor)
               || bool_decide (cursor ∈ Candidate.cursors candidate)
            then Err InvalidRemoteResponse
            else Ok (Candidate.cursors candidate ++ [cursor])
        | None =>
            if received != Candidate.expected_count candidate then Err CandidateIncomplete
            else
              let? _ := validate_terminal_candidate nodes received in
              Ok (Candidate.cursors candidate)
        end in
      let? received := u64_i64 received in
      let terminal := is_none (SnapshotPage.next_cursor page) in
      Ok (Candidate.mk (Candidate.snapshot_id candidate) (Candidate.journal_epoch candidate)
            (Candidate.resume_sequence candidate) (Candidate.expected_count candidate) received
            (SnapshotPage.next_cursor page) terminal
            (if terminal then CandidateComplete else CandidateFetching) nodes cursors).

Definition describes (candidate : Candidate.t) (d : Descriptor.t) : bool :=
  (Candidate.snapshot_id candidate == Descriptor.snapshot_id d)
  && (Candidate.journal_epoch candidate == Boundary.journal_epoch (Descriptor.boundary d))
  && (Candidate.resume_sequence candidate == Boundary.resume_sequence (Descriptor.boundary d))
  && (Candidate.expected_count candidate == Descriptor.entry_count d).

Definition persist_rebaseline_page (scope : ReplicaScope) (expected : Descriptor.t)
  (page : SnapshotPage.t) : tx unit :=
  let library := library_id scope in
  do! _ := ensure ((SnapshotPage.descriptor page == expected)
                   && (Descriptor.library_id (SnapshotPage.descriptor page) == library)
                   && negb (is_empty (SnapshotPage.entries page)
                            && is_some (SnapshotPage.next_cursor page))
                   && ascending (SnapshotPage.entries page)) InvalidRemoteResponse in
  do! row := select (fun s => match rebaseline_candidates s !! library with
                              | Some c => if Candidate.state c == CandidateFetching
                                          then Some c else None
                              | None => None
                              end) in
  do! row := attempt (ok_or row CandidateCorrupt) in
  do! candidate := attempt (decode_rebaseline_candidate row) in
  do! _ := ensure (describes candidate expected) CandidateCorrupt in
  do! next := attempt (next_candidate candidate page) in
  do! _ := now_ms in
  put_candidate library next.

(** *** [rebaseline_local_nodes] *)

(** [resolve_rebaseline_path]; the paths found on the way are kept by the source
    and recomputed here.  A chain that outlives the fuel visits a node twice. *)
Fixpoint resolve_rebaseline_path (fuel : nat) (by_id : gmap Z SnapshotNode.t) (visiting : list Z)
  (node_id : Z) : result rstring ClientSyncError :=
  match fuel with
  | O => Err InvalidRemoteResponse
  | S fuel' =>
      if bool_decide (node_id ∈ visiting) then Err InvalidRemoteResponse
      else
        let? node := ok_or (by_id !! node_id) InvalidRemoteResponse in
        match SnapshotNode.parent_node_id node with
        | None => Ok Path.root
        | Some parent =>
            let? path := resolve_rebaseline_path fuel' by_id (node_id :: visiting) parent in
            Path.child path (SnapshotNode.name node)
        end
  end.

Definition index (desired : list SnapshotNode.t) : gmap Z SnapshotNode.t :=
  list_to_map (map (fun n => (SnapshotNode.node_id n, n)) desired).

Definition path_of (desired : list SnapshotNode.t) (node : SnapshotNode.t) :
  result rstring ClientSyncError :=
  resolve_rebaseline_path (S (length desired)) (index desired) [] (SnapshotNode.node_id node).

(** The row of a node: the server's facts, and what was known of the local copy. *)
Definition mirror_node (library : Z) (previous : option LocalNode.t) (path : rstring)
  (node : SnapshotNode.t) : LocalNode.t :=
  LocalNode.mk library (SnapshotNode.node_id node) (SnapshotNode.parent_node_id node) path
    (SnapshotNode.name node) (SnapshotNode.kind node) (SnapshotNode.state node)
    (SnapshotNode.revision node) (SnapshotNode.current_version_id node)
    (SnapshotNode.content_length node) (SnapshotNode.content_sha256 node)
    (previous ≫= LocalNode.local_length) (previous ≫= LocalNode.local_sha256)
    (from_option LocalNode.bootstrap_generation 0 previous)
    (is_some_and previous LocalNode.present)
    (previous ≫= LocalNode.quarantine_relative_path).

(** The second pass: distinct collision keys. *)
Fixpoint mirror_nodes (library : Z) (old : gmap Z LocalNode.t) (keys : list rstring)
  (located : list (SnapshotNode.t * rstring)) : result (list LocalNode.t) ClientSyncError :=
  match located with
  | [] => Ok []
  | (node, path) :: rest =>
      let key := Portable.local_collision_key path in
      if bool_decide (key ∈ keys) then Err InvalidRemoteResponse
      else
        let? more := mirror_nodes library old (key :: keys) rest in
        Ok (mirror_node library (old !! SnapshotNode.node_id node) path node :: more)
  end.

Fixpoint locate (desired nodes : list SnapshotNode.t) :
  result (list (SnapshotNode.t * rstring)) ClientSyncError :=
  match nodes with
  | [] => Ok []
  | node :: rest =>
      let? path := path_of desired node in
      let? more := locate desired rest in
      Ok ((node, path) :: more)
  end.

Definition rebaseline_local_nodes (library : Z) (desired : list SnapshotNode.t)
  (old : gmap Z LocalNode.t) : result (list LocalNode.t) ClientSyncError :=
  if negb (bool_decide (NoDup (map SnapshotNode.node_id desired))) then Err CandidateCorrupt
  else
    let? located := locate desired desired in
    mirror_nodes library old [] located.

(** *** Conflicts of pending intents with the new mirror *)

Definition validate_intent_shape (row : IntentRow) : result unit ClientSyncError :=
  let node := intent_node_id row in
  let old := intent_old_path row in
  let fingerprint := intent_fingerprint row in
  if Path.is_root (intent_observed_path row) then Err InvalidRelativePath
  else
    let bad :=
      match intent_kind row with
      | OutboundIntentKind.CreateDirectory =>
          is_some node || (fingerprint != Some LocalFingerprint.directory) || is_some old
      | OutboundIntentKind.CreateFile | OutboundIntentKind.ModifyFileContent =>
          is_none_or fingerprint (fun f => LocalFingerprint.kind f != LocalFingerprint.File)
          || ((intent_kind row == OutboundIntentKind.CreateFile) && is_some node)
          || ((intent_kind row == OutboundIntentKind.ModifyFileContent) && is_none node)
          || is_some old
      | OutboundIntentKind.RenameNode | OutboundIntentKind.MoveNode =>
          is_none node || is_none old || (old == Some (intent_observed_path row))
          || is_none fingerprint
      | OutboundIntentKind.DeleteOrTrashNode => is_none node || is_some fingerprint || is_some old
      end in
    if bad then Err InvalidState else Ok tt.

(** [OutboundIntent::rehydrate].  The stored hash of the immutable columns, which
    the insertion computes from those same columns, is not a column of the
    model. *)
Definition decode_outbound_intent (row : IntentRow) : result IntentRow ClientSyncError :=
  let? _ := Path.new (intent_observed_path row) in
  let? _ := match intent_old_path row with
            | None => Ok []
            | Some path => Path.new path
            end in
  let? _ := validate_intent_shape row in
  Ok row.

Definition target_conflict (intent : IntentRow) (target : option LocalNode.t) :
  option (SyncConflictKind.t * option Z * option NodeState.t * option Z) :=
  match intent_node_id intent, target with
  | Some _, None => Some (SyncConflictKind.RemoteMissing, None, None, None)
  | Some _, Some node =>
      let seen kind := Some (kind, Some (LocalNode.revision node), Some (LocalNode.state node),
                             LocalNode.parent_node_id node) in
      if LocalNode.state node != NodeState.Active then seen SyncConflictKind.RemoteStateChanged
      else if is_some_and (intent_base_revision intent) (fun base => base != LocalNode.revision node)
      then seen (if (intent_kind intent == OutboundIntentKind.ModifyFileContent)
                    && (intent_base_version_id intent != LocalNode.current_version_id node)
                 then SyncConflictKind.RemoteContentChanged
                 else SyncConflictKind.RemoteRevisionChanged)
      else None
  | None, _ => None
  end.

Definition parent_conflict (intent : IntentRow) (parent : option LocalNode.t) : bool :=
  match intent_parent_node_id intent, parent with
  | Some _, None => true
  | Some _, Some parent =>
      (LocalNode.state parent != NodeState.Active)
      || (LocalNode.kind parent != NodeKind.Directory)
      || is_some_and (intent_base_parent_revision intent)
           (fun base => base != LocalNode.revision parent)
  | None, _ => false
  end.

(** The evidence of a conflict, if there is one. *)
Definition conflict_evidence (library epoch sequence now : Z) (intent_id : Z) (intent : IntentRow)
  (target parent : option LocalNode.t) : option ConflictRow :=
  match target_conflict intent target with
  | Some (kind, revision, state, remote_parent) =>
      Some (mk_ConflictRow intent_id library (intent_node_id intent) kind
              (intent_base_revision intent) revision state remote_parent (Some epoch)
              (Some sequence) now None)
  | None =>
      if parent_conflict intent parent
      then Some (mk_ConflictRow intent_id library
                   (match intent_node_id intent with
                    | Some node => Some node
                    | None => intent_parent_node_id intent
                    end)
                   SyncConflictKind.ParentChangedOrUnavailable
                   (intent_base_parent_revision intent) (LocalNode.revision <$> parent)
                   (LocalNode.state <$> parent) (intent_parent_node_id intent) (Some epoch)
                   (Some sequence) now None)
      else None
  end.

(** [record_conflict_tx] without the transition of the intent: the [CHECK] of the
    observed state comes before [ON CONFLICT(intent_id) DO NOTHING]. *)
Definition record_conflict_tx (conflict_id : Z) (evidence : ConflictRow) : tx unit :=
  do! _ := attempt (optional_u64_i64 (conflict_local_base_revision evidence)) in
  do! _ := attempt (optional_u64_i64 (conflict_remote_revision evidence)) in
  do! _ := attempt (optional_sequence_i64 (conflict_remote_epoch evidence)) in
  do! _ := attempt (optional_sequence_i64 (conflict_remote_sequence evidence)) in
  do! _ := ensure (conflict_remote_state evidence != Some NodeState.Purging) Database in
  do! conflicts := select sync_conflicts in
  let same := List.find (fun p : Z * ConflictRow =>
                conflict_intent_id p.2 =? conflict_intent_id evidence) (map_to_list conflicts) in
  match same with
  | Some (_, existing) => ensure (conflict_unresolved existing) ConflictAlreadyResolved
  | None =>
      do! _ := ensure (is_none (conflicts !! conflict_id)) Database in
      update (fun s => set_conflicts s (<[conflict_id := evidence]> (sync_conflicts s)))
  end.

(** [ORDER BY created_at_ms, intent_id]. *)
Definition intent_first (a b : Z * IntentRow) : Prop :=
  intent_created_at a.2 < intent_created_at b.2
  \/ (intent_created_at a.2 = intent_created_at b.2 /\ a.1 <= b.1).

#[global] Instance intent_first_dec : RelDecision intent_first.
Proof. intros a b. unfold intent_first. apply _. Defined.

Definition pending_intents (library : Z) (s : Store) : list (Z * IntentRow) :=
  take 4097 (merge_sort intent_first
    (filter (fun p : Z * IntentRow =>
               intent_library_id p.2 = library
               /\ intent_state p.2 ∈ IntentNeedsRebaseValidation :: Outbound.active_states)
       (map_to_list (outbound_intents s)))).

(** One intent of the loop. *)
Definition classify_intent (library epoch sequence now conflict_id : Z) (p : Z * IntentRow) :
  tx unit :=
  do! intent := attempt (decode_outbound_intent p.2) in
  let lookup id := fun s => match id with
                            | None => Ok None
                            | Some id => Nodes.local_node library id s
                            end in
  do! target := select (lookup (intent_node_id intent)) in
  do! target := attempt target in
  do! parent := select (lookup (intent_parent_node_id intent)) in
  do! parent := attempt parent in
  match conflict_evidence library epoch sequence now p.1 intent target parent with
  | None => tx_ret tt
  | Some evidence => record_conflict_tx conflict_id evidence
  end.

(** The loop; [fresh] gives the identifiers it draws. *)
Fixpoint classify_intents (library epoch sequence now : Z) (fresh : nat -> Z)
  (intents : list (Z * IntentRow)) : tx unit :=
  match intents with
  | [] => tx_ret tt
  | p :: rest =>
      do! _ := classify_intent library epoch sequence now (fresh 0%nat) p in
      classify_intents library epoch sequence now (fun k => fresh (S k)) rest
  end.

Definition classify_rebaseline_conflicts_tx (library epoch sequence now : Z) (fresh : nat -> Z) :
  tx unit :=
  do! intents := select (pending_intents library) in
  do! _ := ensure (len intents <=? MAX_RECOVERY_ROWS) ResourceLimit in
  classify_intents library epoch sequence now fresh intents.

(** *** [activate_rebaseline_candidate] *)

Definition delete_library_nodes (library : Z) : tx unit :=
  update (fun s => keep_local_nodes s
    (filter (fun p : (Z * Z) * NodeRow => p.1.1 <> library) (local_nodes s))).

(** The transaction, given the rows computed before it. *)
Definition activate_tx (scope : ReplicaScope) (d : Descriptor.t) (candidate : Candidate.t)
  (nodes : list LocalNode.t) (fresh : nat -> Z) : tx unit :=
  let library := library_id scope in
  let boundary := Descriptor.boundary d in
  do! durable := select (fun s => from_option Candidate.nodes [] (rebaseline_candidates s !! library)) in
  do! _ := attempt (validate_terminal_candidate durable (Candidate.received_count candidate)) in
  do! _ := delete_library_nodes library in
  do! _ := tx_each Nodes.upsert_local_node_tx nodes in
  do! now := now_ms in
  do! _ := classify_rebaseline_conflicts_tx library (Boundary.journal_epoch boundary)
             (Boundary.resume_sequence boundary) now fresh in
  do! root := attempt (ok_or (List.find (fun n => is_none (LocalNode.parent_node_id n)) nodes)
                         CandidateCorrupt) in
  do! replica := select (Feed.replica library) in
  do! _ := match replica with
           | Some r => Feed.put_replica library (Replica.with_root r (LocalNode.node_id root))
           | None => tx_ret tt
           end in
  do! epoch := attempt (sequence_i64 (Boundary.journal_epoch boundary)) in
  do! resume := attempt (sequence_i64 (Boundary.resume_sequence boundary)) in
  do! _ := fetch_one (Feed.replica library) in
  do! _ := update (fun s => set_handoffs s
             (<[library := HandoffRecord.mk (Descriptor.snapshot_id d) library epoch resume]>
                (rebaseline_applied_handoffs s))) in
  do! _ := delete_candidate library in
  Nodes.commit.

(** The checks and the computation before the transaction. *)
Definition candidate_complete (candidate : Candidate.t) (d : Descriptor.t) : bool :=
  Candidate.terminal_fetched candidate && (Candidate.state candidate == CandidateComplete)
  && describes candidate d && (Candidate.received_count candidate == Descriptor.entry_count d).

(** [SELECT * FROM local_nodes]. *)
Definition old_nodes (library : Z) (s : Store) : result (gmap Z LocalNode.t) ClientSyncError :=
  let rows := Nodes.library_rows library s in
  if MAX_LOCAL_NODE_QUERY_ROWS <? len rows then Err ResourceLimit
  else
    let? nodes := Feed.decode_all Nodes.decode_local_node rows in
    Ok (list_to_map (map (fun n => (LocalNode.node_id n, n)) nodes)).

(** [ORDER BY node_id]. *)
Definition node_id_le (a b : SnapshotNode.t) : Prop :=
  SnapshotNode.node_id a <= SnapshotNode.node_id b.

#[global] Instance node_id_le_dec : RelDecision node_id_le.
Proof. intros a b. unfold node_id_le. apply _. Defined.

Definition candidate_nodes (library : Z) (s : Store) : list SnapshotNode.t :=
  merge_sort node_id_le (from_option Candidate.nodes [] (rebaseline_candidates s !! library)).

Context {F : Type} `{E : Env}.

(** The identifiers drawn during a transaction. *)
Definition uuids : M F (nat -> Z) := fun w => (w, Ok (fun k => fresh_uuid (tick w + k))).

Definition activate_rebaseline_candidate (scope : ReplicaScope) (d : Descriptor.t) : M F unit :=
  let library := library_id scope in
  let! found := read (rebaseline_candidate library) in
  let! candidate := lift (ok_or found CandidateIncomplete) in
  let! _ := reject (negb (candidate_complete candidate d)) CandidateIncomplete in
  let! desired := read (fun s => Ok (candidate_nodes library s)) in
  let! old := read (old_nodes library) in
  let! nodes := lift (rebaseline_local_nodes library desired old) in
  let! fresh := uuids in
  call (activate_tx scope d candidate nodes fresh).

End Candidates.
End Candidates.

(** ** Fetching and applying a snapshot *)

(** [RebaselineSnapshotSource] and [RebaselineSnapshotRemote]. *)
Class SnapshotRemote := {
  create_snapshot : nat -> ReplicaScope -> result Descriptor.t RemoteError;
  read_page : nat -> ReplicaScope -> Z -> option rstring -> Z -> result SnapshotPage.t RemoteError
}.

Inductive ApplyOutcome : Type := Applied | AlreadyApplied.

Module Applier.
Section Applier.

Context {F : Type} `{U : Unicode} `{E : Env} `{S : SnapshotRemote}.
Context (scope : ReplicaScope) (page_limit : Z).

Notation lib := (library_id scope).

(** The loop; [false] when the fuel runs out. *)
Fixpoint fetch_pages (fuel : nat) (d : Descriptor.t) : M F bool :=
  match fuel with
  | O => ret false
  | Datatypes.S fuel' =>
      let! found := read (Candidates.rebaseline_candidate lib) in
      let! candidate := lift (ok_or found CandidateCorrupt) in
      if Candidate.terminal_fetched candidate then ret true
      else
        let cursor := Candidate.next_cursor candidate in
        let! page := send_or_fail (SentReadPage (Descriptor.snapshot_id d) cursor page_limit)
                       (fun t => read_page t scope (Descriptor.snapshot_id d) cursor page_limit) in
        let! _ := call (Candidates.persist_rebaseline_page scope d page) in
        fetch_pages fuel' d
  end.

(** Every page but the last brings an entry: one turn per entry, one for the
    last page and one that sees it. *)
Definition page_fuel (d : Descriptor.t) : nat := Z.to_nat (Descriptor.entry_count d) + 2.

Definition apply (d : Descriptor.t) : M F ApplyOutcome :=
  let! _ := reject (Descriptor.library_id d != lib) WrongScope in
  let! _ := reject ((Descriptor.entry_count d =? 0)
                    || (MAX_REBASELINE_ITEMS <? Descriptor.entry_count d)) ResourceLimit in
  inspecting (read (Candidates.rebaseline_is_applied lib d)) (fun r =>
    match r with
    | Ok true => ret AlreadyApplied
    | Ok false | Err RebaselinePendingHandoff =>
        let! _ := call (Candidates.begin_rebaseline_candidate scope d) in
        let! _ := fetch_pages (page_fuel d) d in
        let! _ := Candidates.activate_rebaseline_candidate scope d in
        ret Applied
    | Err error => raise error
    end).

Definition abort_candidate : M F unit := call (Candidates.abort_rebaseline_candidate lib).

End Applier.
End Applier.
