(* ===== verification/SnapshotFacts.v ===== *)
(** * A snapshot is fetched whole and replaces the mirror whole

    The page loop of the applier ends within its fuel; the candidate it leaves is
    the rooted tree the server described; activation makes the mirror of the
    library exactly that tree, under the paths of its names. *)

From S2P Require Import Prelude Vocabulary Models Rebaseline SyncTypes ClientPaths ClientStore.
From S2P Require Import StoreFacts SyncWorld Candidates.

(** ** Successful steps *)

(** A successful call took effect. *)
Lemma call_ok {F A} `{E : Env} (t : tx A) (w w' : World F) a :
  call t w = (w', Ok a) ->
  exists s, t (clock (tick w)) (store w) = Ok (s, a)
    /\ w' = mk_World s (files w) (S (tick w)) (sent w).
Proof.
  unfold call. destruct (db_fault (tick w)); try done.
  all: destruct (t (clock (tick w)) (store w)) as [[s b]|e]; [|done]; intros H; simplify_eq; eauto.
Qed.

(** A successful query answered from the store. *)
Lemma read_ok {F A} `{E : Env} (q : Store -> result A ClientSyncError) (w w' : World F) a :
  read q w = (w', Ok a) -> q (store w) = Ok a /\ w' = next w.
Proof. unfold read. destruct (db_fault (tick w)); [|done..]. intros H. by simplify_eq. Qed.

Lemma bind_ok {F A B} (m : M F A) (k : A -> M F B) (w w' : World F) b :
  bind m k w = (w', Ok b) -> exists w1 a, m w = (w1, Ok a) /\ k a w1 = (w', Ok b).
Proof. unfold bind. destruct (m w) as [w1 [a|e]]; [eauto|done]. Qed.

Lemma decode_candidate_ok c c' : Candidates.decode_rebaseline_candidate c = Ok c' -> c' = c.
Proof.
  unfold Candidates.decode_rebaseline_candidate. intros H. by rust_case.
Qed.

Lemma decode_optional_ok row c : Candidates.decode_optional row = Ok c -> c = row.
Proof.
  destruct row as [r|]; cbn; [|by intros [= <-]].
  destruct (Candidates.decode_rebaseline_candidate r) eqn:Hd; [|done]. intros [= <-].
  by rewrite (decode_candidate_ok _ _ Hd).
Qed.

(** ** The page loop *)

Section Pages.

Context {F : Type} `{U : Unicode} `{E : Env} `{Sn : SnapshotRemote}.
Context (scope : ReplicaScope) (page_limit : Z) (d : Descriptor.t).

Notation lib := (library_id scope).

(** What a page leaves of the candidate: it is the next in a growing sequence. *)
Record grows (c : Candidate.t) (page : SnapshotPage.t) (c' : Candidate.t) : Prop := mk_grows {
  grows_count : Candidate.received_count c'
                = Candidate.received_count c + len (SnapshotPage.entries page);
  grows_bound : Candidate.received_count c' <= Candidate.expected_count c;
  grows_terminal : Candidate.terminal_fetched c' = is_none (SnapshotPage.next_cursor page);
  grows_expected : Candidate.expected_count c' = Candidate.expected_count c }.

Lemma next_candidate_grows c page c' :
  Candidates.next_candidate c page = Ok c' -> grows c page c'.
Proof.
  unfold Candidates.next_candidate. intros H. destruct (is_some_and _ _); [done|].
  destruct (checked_add64 _ _) as [received|] eqn:Hr; [|done]. cbn in H.
  destruct (_ <? received) eqn:Hb; [done|].
  destruct (Candidates.insert_candidate_nodes _ _) as [nodes|]; [|done]. cbn in H.
  destruct (match SnapshotPage.next_cursor page with Some _ => _ | None => _ end); [|done].
  cbn in H. destruct (u64_i64 received) eqn:Hu; [|done]. cbn in H. injection H as <-.
  apply u64_i64_ok in Hu as [-> _]. unfold checked_add64 in Hr. case_match; simplify_eq.
  split; cbn; try done. lia.
Qed.

Lemma persist_page_ok page now s s' u :
  Candidates.persist_rebaseline_page scope d page now s = Ok (s', u) ->
  exists c c', rebaseline_candidates s !! lib = Some c /\ Candidates.describes c d = true
    /\ Candidates.next_candidate c page = Ok c'
    /\ (SnapshotPage.entries page = [] -> SnapshotPage.next_cursor page = None)
    /\ s' = set_candidates s (<[lib := c']> (rebaseline_candidates s)).
Proof.
  intros H. unfold Candidates.persist_rebaseline_page, Candidates.put_candidate in H.
  repeat tx_step H. injection H as <- _. apply decode_candidate_ok in Ha0 as ->.
  destruct (rebaseline_candidates s !! lib) as [c|] eqn:Hc; [|done]. cbn in Ha.
  case_match; simplify_eq/=. exists a, a1. split_and!; try done.
  rust_bool. intros He. rewrite He in *. cbn in *. by destruct (SnapshotPage.next_cursor page).
Qed.

(** A turn of the loop brings an entry or ends it. *)
Lemma persist_page_progress page now s s' u :
  Candidates.persist_rebaseline_page scope d page now s = Ok (s', u) ->
  exists c c', rebaseline_candidates s !! lib = Some c
    /\ rebaseline_candidates s' !! lib = Some c'
    /\ Candidate.received_count c <= Candidate.received_count c' <= Descriptor.entry_count d
    /\ (Candidate.terminal_fetched c' = true
        \/ Candidate.received_count c < Candidate.received_count c').
Proof.
  intros H. apply persist_page_ok in H as (c & c' & Hc & Hd & Hn & He & ->).
  apply next_candidate_grows in Hn as [Hcount Hbound Hterm Hexp].
  exists c, c'. cbn. rewrite lookup_insert_eq. unfold Candidates.describes in Hd. rust_bool.
  split_and!; try done; [unfold len in *; lia|lia|].
  rewrite Hterm, Hcount. destruct (SnapshotPage.entries page) eqn:Hl.
  - left. by rewrite He.
  - right. unfold len. cbn [length]. lia.
Qed.

Lemma fetch_pages_stable fuel : forall w : World F,
  (1 <= fuel)%nat ->
  (forall c, rebaseline_candidates (store w) !! lib = Some c ->
     Candidate.terminal_fetched c = true
     \/ Descriptor.entry_count d - Candidate.received_count c + 2 <= Z.of_nat fuel) ->
  (Applier.fetch_pages scope page_limit fuel d w).2 <> Ok false
  /\ forall more, Applier.fetch_pages scope page_limit (fuel + more) d w
                  = Applier.fetch_pages scope page_limit fuel d w.
Proof.
  induction fuel as [|fuel IH]; intros w Hf Hc; [lia|].
  cbn [Nat.add Applier.fetch_pages]. unfold bind.
  destruct (read (Candidates.rebaseline_candidate lib) w) as [w1 [found|e]] eqn:Hr; [|done].
  apply read_ok in Hr as [Hr ->]. apply decode_optional_ok in Hr as ->.
  destruct (rebaseline_candidates (store w) !! lib) as [c|] eqn:Hl; [|done]. cbn [lift ok_or].
  specialize (Hc c eq_refl). destruct (Candidate.terminal_fetched c) eqn:Ht; [done|].
  destruct Hc as [|Hc]; [done|].
  destruct (send_or_fail _ _ (next w)) as [w2 [page|e]] eqn:Hs; [|done].
  injection Hs as <- Hs.
  destruct (call _ _) as [w3 [u|e]] eqn:Hp; [|done].
  apply call_ok in Hp as (s' & Hp & ->).
  apply persist_page_progress in Hp as (c0 & c' & Hc0 & Hc' & Hb & Hprog). cbn in Hc0.
  rewrite Hl in Hc0. injection Hc0 as <-.
  apply IH; [lia|]. cbn. intros c1 Hc1. rewrite Hc' in Hc1. injection Hc1 as <-.
  destruct Hprog as [|Hlt]; [by left|right; lia].
Qed.

(** The loop that fetches a snapshot ends: with one turn per entry and two
    more it has either met an error or seen the last page, and more turns change
    nothing.  The server may answer anything; the argument is that every page
    accepted before the last brings an entry of a bounded number. *)
Theorem page_loop_terminates (w : World F) fuel :
  0 <= Descriptor.entry_count d ->
  (forall c, rebaseline_candidates (store w) !! lib = Some c -> 0 <= Candidate.received_count c) ->
  (Applier.page_fuel d <= fuel)%nat ->
  (Applier.fetch_pages scope page_limit fuel d w).2 <> Ok false
  /\ Applier.fetch_pages scope page_limit fuel d w
     = Applier.fetch_pages scope page_limit (Applier.page_fuel d) d w.
Proof.
  intros Hd Hc Hf. unfold Applier.page_fuel in *.
  destruct (fetch_pages_stable (Z.to_nat (Descriptor.entry_count d) + 2) w) as [Hne Hst].
  - lia.
  - intros c Hl. right. specialize (Hc c Hl). lia.
  - specialize (Hst (fuel - (Z.to_nat (Descriptor.entry_count d) + 2))%nat).
    replace (_ + (fuel - _))%nat with fuel in Hst by lia. by rewrite Hst.
Qed.

End Pages.

(** ** Paths of a snapshot *)

Section Paths.

Context `{U : Unicode} (desired : list SnapshotNode.t).

(** A path once found is found with more fuel and fewer nodes on the way. *)
Lemma resolve_mono by_id fuel : forall fuel' visiting visiting' id path,
  Candidates.resolve_rebaseline_path fuel by_id visiting id = Ok path ->
  (fuel <= fuel')%nat -> visiting' ⊆ visiting ->
  Candidates.resolve_rebaseline_path fuel' by_id visiting' id = Ok path.
Proof.
  induction fuel as [|fuel IH]; intros fuel' visiting visiting' id path H Hf Hv; [done|].
  destruct fuel' as [|fuel']; [lia|]. cbn in *.
  case_bool_decide as Hin; [done|]. rewrite bool_decide_false by set_solver.
  destruct (by_id !! id) as [node|]; [|done]. cbn in *.
  destruct (SnapshotNode.parent_node_id node) as [parent|]; [|done].
  destruct (Candidates.resolve_rebaseline_path fuel by_id _ parent) as [p|] eqn:Hp; [|done].
  rewrite (IH fuel' _ (id :: visiting') _ _ Hp) by (lia || set_solver). done.
Qed.

(** The path of a node of the snapshot. *)
Definition snapshot_path (id : Z) : rstring :=
  match Candidates.resolve_rebaseline_path (S (length desired)) (Candidates.index desired) [] id with
  | Ok path => path
  | Err _ => []
  end.

(** The root has the root path, any other node its parent's path and its name. *)
Definition path_step (path : Z -> rstring) (n : SnapshotNode.t) : Prop :=
  match SnapshotNode.parent_node_id n with
  | None => path (SnapshotNode.node_id n) = Path.root
  | Some parent => Path.child (path parent) (SnapshotNode.name n)
                   = Ok (path (SnapshotNode.node_id n))
  end.

Hypothesis distinct : NoDup (map SnapshotNode.node_id desired).

Lemma index_lookup n :
  n ∈ desired -> Candidates.index desired !! SnapshotNode.node_id n = Some n.
Proof.
  intros Hn. unfold Candidates.index. apply elem_of_list_to_map_1.
  - change (NoDup (map fst (map (fun n => (SnapshotNode.node_id n, n)) desired))). by rewrite map_map.
  - apply list_elem_of_fmap. by exists n.
Qed.

Lemma snapshot_path_step n path :
  n ∈ desired -> Candidates.path_of desired n = Ok path ->
  path = snapshot_path (SnapshotNode.node_id n) /\ path_step snapshot_path n.
Proof.
  intros Hn Hp. unfold Candidates.path_of in Hp.
  assert (snapshot_path (SnapshotNode.node_id n) = path) as Hs by (unfold snapshot_path; by rewrite Hp).
  split; [done|]. unfold path_step. rewrite Hs. cbn in Hp.
  rewrite index_lookup in Hp by done. cbn in Hp.
  destruct (SnapshotNode.parent_node_id n) as [parent|]; [|by injection Hp].
  destruct (Candidates.resolve_rebaseline_path (length desired) _ _ parent) as [p|] eqn:Hq; [|done].
  unfold snapshot_path.
  by rewrite (resolve_mono _ _ (S (length desired)) _ [] _ _ Hq) by (lia || set_solver).
Qed.

Lemma locate_ok l : forall located, Candidates.locate desired l = Ok located ->
  map fst located = l /\ Forall (fun p => Candidates.path_of desired p.1 = Ok p.2) located.
Proof.
  induction l as [|n l IH]; cbn [Candidates.locate]; intros located H; [by injection H as <-|].
  destruct (Candidates.path_of desired n) as [path|] eqn:Hp; [|done]. cbn in H.
  destruct (Candidates.locate desired l) as [more|]; [|done]. cbn in H. injection H as <-.
  destruct (IH more eq_refl) as [<- Hall]. split; [done|]. by constructor.
Qed.

Lemma mirror_nodes_ok library old located : forall keys nodes,
  Candidates.mirror_nodes library old keys located = Ok nodes ->
  nodes = map (fun p => Candidates.mirror_node library (old !! SnapshotNode.node_id p.1) p.2 p.1) located.
Proof.
  induction located as [|[n path] located IH]; cbn; intros keys nodes H; [by injection H as <-|].
  case_bool_decide; [done|].
  destruct (Candidates.mirror_nodes _ _ _ located) as [more|] eqn:Hm; [|done]. cbn in H.
  injection H as <-. by rewrite (IH _ _ Hm).
Qed.

End Paths.

(** The rows of the new mirror. *)
Definition mirrored `{U : Unicode} (library : Z) (old : gmap Z LocalNode.t)
  (path : Z -> rstring) (n : SnapshotNode.t) : LocalNode.t :=
  Candidates.mirror_node library (old !! SnapshotNode.node_id n) (path (SnapshotNode.node_id n)) n.

Lemma rebaseline_local_nodes_ok `{U : Unicode} library desired old nodes :
  Candidates.rebaseline_local_nodes library desired old = Ok nodes ->
  NoDup (map SnapshotNode.node_id desired)
  /\ nodes = map (mirrored library old (snapshot_path desired)) desired
  /\ Forall (path_step (snapshot_path desired)) desired.
Proof.
  unfold Candidates.rebaseline_local_nodes. intros H. case_bool_decide as Hd; [|done]. cbn in H.
  destruct (Candidates.locate desired desired) as [located|] eqn:Hl; [|done]. cbn in H.
  apply mirror_nodes_ok in H as ->. apply locate_ok in Hl as [Hf Hall].
  assert (forall p, p ∈ located -> p.1 ∈ desired) as Hin.
  { intros p Hp. rewrite <- Hf. apply list_elem_of_fmap. eauto. }
  rewrite Forall_forall in Hall.
  split_and!; [done| |].
  - rewrite <- Hf at 2. rewrite map_map. apply map_ext_in. intros p Hp. apply list_elem_of_In in Hp.
    unfold mirrored. by destruct (snapshot_path_step desired Hd p.1 p.2) as [<- _]; auto.
  - rewrite Forall_forall. intros n Hn. rewrite <- Hf in Hn. apply list_elem_of_fmap in Hn as (p & -> & Hp).
    eapply snapshot_path_step; eauto.
Qed.

(** ** Activation *)

Section Activation.

Context `{U : Unicode}.

Definition row_of (node : LocalNode.t) : NodeRow :=
  mk_NodeRow node (Path.collision_path_key (LocalNode.relative_path node)).

(** Inserting a node that has no row adds its row and nothing else. *)
Lemma upsert_fresh node now s s' u :
  Nodes.upsert_local_node_tx node now s = Ok (s', u) ->
  local_nodes s !! (LocalNode.library_id node, LocalNode.node_id node) = None ->
  s' = set_local_nodes s (<[(LocalNode.library_id node, LocalNode.node_id node) := row_of node]>
                            (local_nodes s)).
Proof.
  intros H Hn. unfold Nodes.upsert_local_node_tx in H. tx_step H.
  unfold Nodes.local_row in H. rewrite Hn in H. repeat tx_step H. by injection H as <- _.
Qed.

(** Inserting distinct new nodes adds exactly their rows. *)
Lemma upserts library nodes : forall now s s' u,
  tx_each Nodes.upsert_local_node_tx nodes now s = Ok (s', u) ->
  Forall (fun n => LocalNode.library_id n = library) nodes ->
  NoDup (map LocalNode.node_id nodes) ->
  (forall id, local_nodes s !! (library, id) <> None -> id ∉ map LocalNode.node_id nodes) ->
  exists m, s' = set_local_nodes s m
    /\ (forall n, n ∈ nodes -> m !! (library, LocalNode.node_id n) = Some (row_of n))
    /\ forall l id, l <> library \/ id ∉ map LocalNode.node_id nodes ->
         m !! (l, id) = local_nodes s !! (l, id).
Proof.
  induction nodes as [|n nodes IH]; intros now s s' u H Hl Hd Hs.
  { injection H as <- _. exists (local_nodes s). split_and!; [by destruct s|by intros ? ?%not_elem_of_nil|done]. }
  cbn [tx_each] in H. tx_step H. cbn [map] in Hd, Hs.
  apply Forall_cons in Hl as [Hn Hl]. apply NoDup_cons in Hd as [Hnin Hd].
  apply upsert_fresh in Hm; [|rewrite Hn]. 2: {
    destruct (local_nodes s !! _) eqn:Hrow; [|done]. exfalso.
    eapply (Hs (LocalNode.node_id n)); [by rewrite Hrow|left]. }
  rewrite Hn in Hm. subst s0. apply IH in H as (m & -> & Hin & Hout); [|done..|].
  2: { intros id Hid Hin. cbn in Hid. destruct (decide (id = LocalNode.node_id n)) as [->|Hne]; [done|].
       rewrite lookup_insert_ne in Hid by congruence. apply (Hs id Hid). by right. }
  exists m. split; [done|]. cbn [local_nodes set_local_nodes] in Hout. split.
  - intros n' [->|Hn']%elem_of_cons; [|by apply Hin].
    rewrite Hout by (by right). by rewrite lookup_insert_eq.
  - intros l id Hid. rewrite Hout.
    + apply lookup_insert_ne. intros [= -> <-]. destruct Hid as [|Hid]; [done|]. apply Hid. by left.
    + destruct Hid as [|Hid]; [by left|right]. intros Hin'. apply Hid. by right.
Qed.

(** What classifying conflicts leaves alone. *)
Definition besides_conflicts (s : Store) : Store := set_conflicts s ∅.

Lemma keeps_record id ev : keeps besides_conflicts (Candidates.record_conflict_tx id ev).
Proof. unfold Candidates.record_conflict_tx. frame. Qed.

#[local] Hint Resolve keeps_record : frames.

Lemma keeps_intents library epoch sequence now l : forall fresh,
  keeps besides_conflicts (Candidates.classify_intents library epoch sequence now fresh l).
Proof.
  induction l as [|p l IH]; intros fresh; cbn [Candidates.classify_intents]; [auto with frames|].
  apply keeps_bind; [|done]. unfold Candidates.classify_intent. frame.
Qed.

#[local] Hint Resolve keeps_intents : frames.

Lemma keeps_classify library epoch sequence now fresh :
  keeps besides_conflicts (Candidates.classify_rebaseline_conflicts_tx library epoch sequence now fresh).
Proof. unfold Candidates.classify_rebaseline_conflicts_tx. frame. Qed.

(** What activating the candidate [c] of descriptor [d] makes of the store. *)
Record activated (scope : ReplicaScope) (d : Descriptor.t) (c : Candidate.t) (s s' : Store) : Prop :=
mk_activated {
  activated_complete : Candidates.candidate_complete c d = true;
  activated_tree :
    Bootstrap.validate_terminal_manifest (Candidate.nodes c) (Descriptor.entry_count d) = Ok tt;
  activated_ids : NoDup (map SnapshotNode.node_id (Candidate.nodes c));
  activated_mirror : exists old path,
    Candidates.old_nodes (library_id scope) s = Ok old
    /\ Forall (path_step path) (Candidate.nodes c)
    /\ forall n, n ∈ Candidate.nodes c ->
         local_nodes s' !! (library_id scope, SnapshotNode.node_id n)
         = Some (row_of (mirrored (library_id scope) old path n));
  activated_only : forall id, id ∉ map SnapshotNode.node_id (Candidate.nodes c) ->
    local_nodes s' !! (library_id scope, id) = None;
  activated_others : forall l id, l <> library_id scope ->
    local_nodes s' !! (l, id) = local_nodes s !! (l, id);
  activated_root : exists r n, replicas s !! library_id scope = Some r /\ n ∈ Candidate.nodes c
    /\ SnapshotNode.parent_node_id n = None
    /\ replicas s' = <[library_id scope := Replica.with_root r (SnapshotNode.node_id n)]> (replicas s);
  activated_marker : rebaseline_applied_handoffs s'
    = <[library_id scope :=
          HandoffRecord.mk (Descriptor.snapshot_id d) (library_id scope)
            (Boundary.journal_epoch (Descriptor.boundary d))
            (Boundary.resume_sequence (Descriptor.boundary d))]> (rebaseline_applied_handoffs s);
  activated_candidate : rebaseline_candidates s' = delete (library_id scope) (rebaseline_candidates s);
  activated_outbound : outbound_intents s' = outbound_intents s
    /\ outbound_upload_sessions s' = outbound_upload_sessions s
    /\ pending_pages s' = pending_pages s /\ pending_events s' = pending_events s
    /\ pending_acknowledgements s' = pending_acknowledgements s
    /\ bootstrap_sessions s' = bootstrap_sessions s }.

Lemma keep_local_nodes_eq s nodes :
  exists o, keep_local_nodes s nodes = set_local_nodes (set_observation s o) nodes.
Proof. by eexists. Qed.

Lemma set_local_nodes_twice s m m' : set_local_nodes (set_local_nodes s m) m' = set_local_nodes s m'.
Proof. done. Qed.

Lemma delete_library_lookup library s t l id :
  local_nodes (set_local_nodes t (filter (fun p : (Z * Z) * NodeRow => p.1.1 <> library)
                                    (local_nodes s))) !! (l, id)
  = if decide (l = library) then None else local_nodes s !! (l, id).
Proof.
  cbn. destruct (decide (l = library)) as [->|Hne].
  - apply map_lookup_filter_None. right. intros x _ H. by apply H.
  - destruct (local_nodes s !! (l, id)) as [row|] eqn:Hr.
    + by apply map_lookup_filter_Some.
    + apply map_lookup_filter_None. by left.
Qed.

Lemma besides_eq s s' : besides_conflicts s' = besides_conflicts s -> s' = set_conflicts s (sync_conflicts s').
Proof. destruct s, s'. unfold besides_conflicts, set_conflicts. cbn. intros [=]; subst. done. Qed.

(** The store after the transaction, given the rows to insert. *)
Lemma activate_tx_ok scope d c nodes fresh now s s' u :
  Candidates.activate_tx scope d c nodes fresh now s = Ok (s', u) ->
  rebaseline_candidates s !! library_id scope = Some c ->
  Forall (fun n => LocalNode.library_id n = library_id scope) nodes ->
  NoDup (map LocalNode.node_id nodes) ->
  exists m o conflicts r root,
    Candidates.validate_terminal_candidate (Candidate.nodes c) (Candidate.received_count c) = Ok tt
    /\ (forall n, n ∈ nodes -> m !! (library_id scope, LocalNode.node_id n) = Some (row_of n))
    /\ (forall id, id ∉ map LocalNode.node_id nodes -> m !! (library_id scope, id) = None)
    /\ (forall l id, l <> library_id scope -> m !! (l, id) = local_nodes s !! (l, id))
    /\ replicas s !! library_id scope = Some r
    /\ root ∈ nodes /\ LocalNode.parent_node_id root = None
    /\ Boundary.resume_sequence (Descriptor.boundary d) <= i64_max
    /\ s' = set_candidates (set_handoffs (set_replicas (set_conflicts
               (set_local_nodes (set_observation s o) m) conflicts)
               (<[library_id scope := Replica.with_root r (LocalNode.node_id root)]> (replicas s)))
               (<[library_id scope :=
                    HandoffRecord.mk (Descriptor.snapshot_id d) (library_id scope)
                      (Boundary.journal_epoch (Descriptor.boundary d))
                      (Boundary.resume_sequence (Descriptor.boundary d))]>
                  (rebaseline_applied_handoffs s)))
               (delete (library_id scope) (rebaseline_candidates s)).
Proof.
  intros H Hc Hl Hd. unfold Candidates.activate_tx in H. repeat tx_step H.
  rewrite Hc in Ha. destruct a. unfold Candidates.delete_library_nodes in Hm. injection Hm as <- _.
  destruct (keep_local_nodes_eq s (filter (fun p : (Z * Z) * NodeRow => p.1.1 <> library_id scope)
                                     (local_nodes s))) as [o Ho]. rewrite Ho in Hm0. clear Ho.
  eapply upserts in Hm0 as (m & -> & Hin & Hout); [|done..|].
  2: { intros id Hid. rewrite delete_library_lookup, decide_True in Hid; done. }
  rewrite set_local_nodes_twice in Hm1.
  apply keeps_classify, besides_eq in Hm1. revert Hm1. generalize (sync_conflicts s2). intros conflicts ->.
  unfold Feed.replica in *. cbn in Hm2.
  destruct (replicas s !! library_id scope) as [r|] eqn:Hr.
  2: { injection Hm2 as <- _. cbn in Hrow. congruence. }
  unfold Feed.put_replica in Hm2. injection Hm2 as <- _.
  unfold Candidates.delete_candidate in Hm3. apply update_ok in Hm3 as ->.
  unfold Nodes.commit in H. repeat tx_step H. apply ensure_ok in H as [_ ->].
  apply u64_i64_ok in Ha1 as [-> _], Ha2 as [-> Hmax].
  destruct (find _ nodes) as [root|] eqn:Hroot; [|done]. injection Ha0 as <-.
  apply find_some in Hroot as [Hri Hrp]. apply list_elem_of_In in Hri.
  exists m, o, conflicts, r, root. split_and!; try done.
  - intros id Hid. rewrite Hout by (by right). by rewrite delete_library_lookup, decide_True.
  - intros l id Hne. rewrite Hout by (by left). by rewrite delete_library_lookup, decide_False.
  - by destruct (LocalNode.parent_node_id root).
Qed.

Context {F : Type} `{E : Env}.

Lemma reject_ok b e (w w' : World F) u : reject b e w = (w', Ok u) -> b = false /\ w' = w.
Proof. unfold reject. destruct b; [done|]. by intros [= <- _]. Qed.

Lemma lift_ok {A} (r : result A ClientSyncError) (w w' : World F) a :
  lift r w = (w', Ok a) -> r = Ok a /\ w' = w.
Proof. intros H. unfold lift in H. by simplify_eq. Qed.

Lemma mirrored_ids library old path nodes :
  map LocalNode.node_id (map (mirrored library old path) nodes) = map SnapshotNode.node_id nodes.
Proof. by rewrite map_map. Qed.

#[local] Ltac stopped := cbn; split_and!; [done..|left; split; [done|by intros]].

(** An activation either leaves the store or runs its transaction; it succeeds
    only in the second case. *)
Lemma activate_cases scope d (w : World F) :
  let library := library_id scope in
  let '(w', r) := Candidates.activate_rebaseline_candidate scope d w in
  files w' = files w /\ sent w' = sent w
  /\ ((store w' = store w /\ forall u, r <> Ok u)
      \/ exists c old nodes fresh now,
           rebaseline_candidates (store w) !! library = Some c
           /\ Candidates.candidate_complete c d = true
           /\ Candidates.old_nodes library (store w) = Ok old
           /\ Candidates.rebaseline_local_nodes library
                (merge_sort Candidates.node_id_le (Candidate.nodes c)) old = Ok nodes
           /\ Candidates.activate_tx scope d c nodes fresh now (store w) = Ok (store w', tt)).
Proof.
  intros library. unfold Candidates.activate_rebaseline_candidate, bind, read, lift, reject.
  fold library. destruct (db_fault (tick w)); [|by stopped..].
  destruct (Candidates.rebaseline_candidate library (store w)) as [found|] eqn:Hf; [|by stopped].
  apply decode_optional_ok in Hf as ->.
  destruct (rebaseline_candidates (store w) !! library) as [c|] eqn:Hc; [|by stopped]. cbn [ok_or].
  destruct (Candidates.candidate_complete c d) eqn:Hcomp; [|by stopped]. cbn [negb ret].
  destruct (db_fault (tick (next w))); [|by stopped..].
  destruct (db_fault (tick (next (next w)))); [|by stopped..]. cbn [store next].
  destruct (Candidates.old_nodes library (store w)) as [old|] eqn:Hold; [|by stopped].
  unfold Candidates.candidate_nodes. rewrite Hc. cbn [from_option].
  destruct (Candidates.rebaseline_local_nodes _ _ old) as [nodes|] eqn:Hn; [|by stopped].
  unfold Candidates.uuids, call. cbn [store files sent next].
  destruct (db_fault _); try by stopped.
  all: destruct (Candidates.activate_tx _ _ _ _ _ _ _) as [[s' []]|e] eqn:Ht; [|by stopped].
  all: split_and!; try done; right; exists c, old, nodes; do 2 eexists; split_and!; done.
Qed.

Lemma activate_activated scope d (w w' : World F) :
  Candidates.activate_rebaseline_candidate scope d w = (w', Ok tt) ->
  files w' = files w /\ sent w' = sent w
  /\ exists c, rebaseline_candidates (store w) !! library_id scope = Some c
       /\ activated scope d c (store w) (store w').
Proof.
  intros Ha. pose proof (activate_cases scope d w) as H. cbn zeta in H. rewrite Ha in H.
  destruct H as (Hf & Hs & [[_ H]|(c & old & nodes & fresh & now & Hc & Hcomp & Hold & Hnodes & H)]);
    [by destruct (H tt)|].
  split; [done|]. split; [done|]. exists c. split; [done|].
  apply rebaseline_local_nodes_ok in Hnodes as (Hd & -> & Hpaths).
  set (desired := merge_sort _ _) in *. set (path := snapshot_path desired) in *.
  assert (desired ≡ₚ Candidate.nodes c) as Hperm by apply merge_sort_Permutation.
  assert (map SnapshotNode.node_id desired ≡ₚ map SnapshotNode.node_id (Candidate.nodes c)) as Hids
    by by apply Permutation_map.
  apply activate_tx_ok in H as (m & o & conflicts & r & root & Hv & Hin & Hnone & Hother & Hr & Hroot & Hrp & _ & ->);
    [|done| |by rewrite mirrored_ids].
  2: { apply Forall_forall. intros n Hn. by apply list_elem_of_fmap in Hn as (n' & -> & _). }
  rewrite mirrored_ids in Hnone. apply list_elem_of_fmap in Hroot as (n & -> & Hn).
  unfold Candidates.validate_terminal_candidate in Hv.
  destruct (u64_i64 (Candidate.received_count c)) as [count|] eqn:Hcount; [|done]. cbn in Hv.
  case_bool_decide as Hlen; [|done]. cbn in Hv. apply u64_i64_ok in Hcount as [-> _].
  assert (Candidate.received_count c = Descriptor.entry_count d) as Heq.
  { unfold Candidates.candidate_complete in Hcomp. by rust_bool. }
  split; try done.
  - by rewrite Hlen, Heq in Hv.
  - by rewrite <- Hids.
  - exists old, path. split_and!; [done|by rewrite <- Hperm|]. intros n' Hn'. cbn.
    rewrite <- Hin; [done|]. apply list_elem_of_fmap. exists n'. split; [done|]. by rewrite Hperm.
  - intros id Hid. cbn. apply Hnone. by rewrite Hids.
  - exists r, n. split_and!; try done. by rewrite <- Hperm.
Qed.


End Activation.
