(* ===== verification/Inbound.v ===== *)
(** * The inbound engine: feed, acknowledgement and bootstrap

    [client-sync/src/engine.rs] from [synchronize_once] down to the store: page
    fetch, page application, acknowledgement, bootstrap, and the durable
    snapshot handoff.  What writes one node into the managed folder is the
    interface [Materializer]; [Materialize] implements it. *)

From S2P Require Import Prelude Vocabulary Models Rebaseline SyncTypes ClientPaths ClientStore.
From S2P Require Import SyncWorld.

(** ** [ApplyFact] and [AppliedNode] *)

Inductive ApplyFact : Type := Feed (sequence : Z) | Bootstrap (generation : Z).

Definition fact_sequence (fact : ApplyFact) : option Z :=
  match fact with Feed sequence => Some sequence | Bootstrap _ => None end.

Definition fact_generation (fact : ApplyFact) : option Z :=
  match fact with Feed _ => None | Bootstrap generation => Some generation end.

Definition fact_from_operation (operation : LocalOperation.t) : result ApplyFact ClientSyncError :=
  match LocalOperation.server_sequence operation, LocalOperation.bootstrap_generation operation with
  | Some sequence, None => Ok (Feed sequence)
  | None, Some generation => Ok (Bootstrap generation)
  | _, _ => Err InvalidState
  end.

Record AppliedNode := mk_AppliedNode { applied_node : LocalNode.t; applied_operation : option Z }.

(** ** The materialiser: what the feed needs of the folder *)

Class Materializer (F : Type) := {
  apply_desired_node : SnapshotNode.t -> ApplyFact -> option ChangeKind.t -> M F AppliedNode;
  apply_purge : StoredChange.t -> Z -> M F unit;
  sweep_absent_bootstrap_node : LocalNode.t -> Z -> M F unit;
  recover_startup_inner : M F unit
}.

(** ** The engine *)

Module Engine.
Section Engine.

Context {F : Type} `{U : Unicode} `{E : Env} `{R : SyncRemote} `{L : LocalReplica F}.
Context (scope : ReplicaScope) (server_profile_id : option Z) (config : EngineConfig.t).

(** [self.scope.library_id()]. *)
Definition lib : Z := library_id scope.

Definition validate_checkpoint (checkpoint : Checkpoint.t) : result unit ClientSyncError :=
  if Checkpoint.scope checkpoint != scope then Err WrongScope
  else if (i64_max <? Checkpoint.epoch checkpoint)
          || (i64_max <? Checkpoint.acknowledged_sequence checkpoint)
  then Err InvalidRemoteResponse
  else Ok tt.

Definition validate_binding : M F unit :=
  let! _ := fs validate_root in
  let! record := read (fun s => ok_or (Feed.replica lib s) InvalidState) in
  let! _ := reject ((Replica.scope record != scope)
                    || (Replica.root_binding_id record != binding_id)) WrongRootBinding in
  let! _ := reject ((Replica.server_profile_id record != server_profile_id)
                    || (replica_profile_id != server_profile_id)
                    || (remote_profile_id != server_profile_id)) WrongServerProfile in
  match server_profile_id with
  | None => ret tt
  | Some profile =>
      let! enrollment := read (fun s => ok_or (profile_enrollments s !! profile)
                                          AuthenticationRequired) in
      let! _ := reject (is_some (enrollment_forgotten_at_ms enrollment)
                        || (device_credential_id != Some (enrollment_credential_id enrollment)))
                  AuthenticationRequired in
      reject ((enrollment_owner_user_id enrollment != owner_user_id scope)
              || (enrollment_device_id enrollment != device_id scope)) WrongScope
  end.

Definition begin_bootstrap : M F unit :=
  let! b := send_or_fail SentStartRebaseline (fun t => start_rebaseline t scope) in
  let! _ := reject ((SyncBootstrap.owner_user_id b != owner_user_id scope)
                    || (SyncBootstrap.device_id b != device_id scope)
                    || (SyncBootstrap.library_id b != lib)
                    || (SyncBootstrap.state b != SyncBootstrapState.Open)
                    || (SyncBootstrap.manifest_item_count b =? 0)
                    || (MAX_REBASELINE_ITEMS <? SyncBootstrap.manifest_item_count b))
              InvalidRemoteResponse in
  Calls.begin_bootstrap scope b.

Definition complete_bootstrap (record : BootstrapRecord.t) : M F SyncOutcome.t :=
  let! evidence := lift (ok_or (BootstrapRecord.completion_evidence record) InvalidState) in
  let! completion :=
    send_or_fail (SentCompleteRebaseline (BootstrapRecord.bootstrap_id record) evidence)
      (fun t => complete_rebaseline t scope (BootstrapRecord.bootstrap_id record) evidence) in
  let! _ := reject (BootstrapCompletion.bootstrap_id completion
                    != BootstrapRecord.bootstrap_id record) InvalidRemoteResponse in
  let checkpoint := BootstrapCompletion.checkpoint completion in
  let! _ := lift (validate_checkpoint checkpoint) in
  let! _ := reject ((Checkpoint.epoch checkpoint != BootstrapRecord.snapshot_epoch record)
                    || (Checkpoint.acknowledged_sequence checkpoint
                        != BootstrapRecord.resume_sequence record)) InvalidRemoteResponse in
  let! _ := check FailurePoint.AfterServerBootstrapCompleteBeforeLocalState in
  let! _ := call (Bootstrap.complete_bootstrap scope (BootstrapRecord.bootstrap_id record)
                    (Checkpoint.epoch checkpoint)
                    (Checkpoint.acknowledged_sequence checkpoint)) in
  ret SyncOutcome.Progressed.

Definition cleanup_completed_operations : M F unit :=
  let! operations := read (Ops.completed_operations lib) in
  each (fun operation =>
          let id := LocalOperation.operation_id operation in
          let! _ := fs (remove_operation_receipt id) in
          call (Ops.delete_completed_operation id)) operations.

Definition retry_pending_ack : M F SyncOutcome.t :=
  let! pending := read (fun s => let? ack := Apply.pending_ack lib s in
                                 ok_or ack InvalidState) in
  let! _ := reject (PendingAck.library_id pending != lib) WrongScope in
  let! _ := Calls.set_status lib EngineStatus.AckPending in
  let! checkpoint := send_or_fail (SentAcknowledge (PendingAck.evidence pending))
                       (fun t => acknowledge_changes t scope (PendingAck.evidence pending)) in
  let! _ := lift (validate_checkpoint checkpoint) in
  let! _ := reject (Checkpoint.epoch checkpoint != PendingAck.epoch pending) WrongEpoch in
  let! _ := check FailurePoint.AfterServerAckBeforeLocalState in
  let! _ := call (Apply.confirm_ack scope (Checkpoint.epoch checkpoint)
                    (Checkpoint.acknowledged_sequence checkpoint)) in
  let! _ := cleanup_completed_operations in
  ret SyncOutcome.Progressed.

Context `{Mat : Materializer F}.

Definition advance_bootstrap (record : BootstrapRecord.t) : M F SyncOutcome.t :=
  match BootstrapRecord.state record with
  | Fetching =>
      let! page :=
        send_or_fail (SentFetchRebaselinePage (BootstrapRecord.bootstrap_id record)
                        (BootstrapRecord.next_cursor record)
                        (EngineConfig.bootstrap_page_limit config))
          (fun t => fetch_rebaseline_page t scope (BootstrapRecord.bootstrap_id record)
                      (BootstrapRecord.next_cursor record)
                      (EngineConfig.bootstrap_page_limit config)) in
      let returned := BootstrapPage.bootstrap page in
      let! _ := reject
        ((SyncBootstrap.id returned != BootstrapRecord.bootstrap_id record)
         || (SyncBootstrap.owner_user_id returned != owner_user_id scope)
         || (SyncBootstrap.device_id returned != device_id scope)
         || (SyncBootstrap.library_id returned != lib)
         || (SyncBootstrap.generation returned != BootstrapRecord.generation record)
         || (SyncBootstrap.snapshot_epoch returned != BootstrapRecord.snapshot_epoch record)
         || (SyncBootstrap.snapshot_resume_sequence returned
             != BootstrapRecord.resume_sequence record)
         || (SyncBootstrap.manifest_item_count returned
             != BootstrapRecord.manifest_item_count record)
         || (SyncBootstrap.state returned != SyncBootstrapState.Open)) InvalidRemoteResponse in
      let! _ := call (Bootstrap.persist_bootstrap_page scope page) in
      let! _ := check FailurePoint.AfterBootstrapPagePersisted in
      ret SyncOutcome.MoreAvailable
  | ManifestDurable | BootstrapApplying =>
      let id := BootstrapRecord.bootstrap_id record in
      let generation := BootstrapRecord.generation record in
      let! desired := read (fun s => Ok (Bootstrap.unapplied_bootstrap_nodes lib id s)) in
      if negb (is_empty desired)
      then
        let! _ := each (fun node =>
                          let! applied := apply_desired_node node (Bootstrap generation) None in
                          call (Bootstrap.record_bootstrap_node_applied (applied_node applied) id
                                  (applied_operation applied))) desired in
        ret SyncOutcome.MoreAvailable
      else
        let! sweep := read (Bootstrap.bootstrap_sweep_candidates lib generation) in
        if negb (is_empty sweep)
        then
          let! _ := each (fun node => sweep_absent_bootstrap_node node generation) sweep in
          ret SyncOutcome.MoreAvailable
        else
          let! _ := call (Bootstrap.mark_bootstrap_local_complete lib id) in
          let! _ := check FailurePoint.AfterBootstrapLocalComplete in
          let! current := read (fun s => ok_or (Bootstrap.bootstrap lib s) InvalidState) in
          complete_bootstrap current
  | CompletionPending | LocalComplete => complete_bootstrap record
  end.

(** The body of the loop of [apply_pending_page]; [applied] is the cursor read
    before the loop. *)
Definition apply_change (epoch applied : Z) (change : StoredChange.t) : M F unit :=
  if StoredChange.sequence change <=? applied
  then call (Apply.record_event_applied scope epoch change None None)
  else
    match StoredChange.change_kind change with
    | ChangeKind.NodePurged => apply_purge change epoch
    | kind =>
        let! desired := lift (ok_or (StoredChange.desired_node change) InvalidRemoteResponse) in
        let! applied := apply_desired_node desired (Feed (StoredChange.sequence change))
                          (Some kind) in
        call (Apply.record_event_applied scope epoch change (Some (applied_node applied))
                (applied_operation applied))
    end.

Definition apply_pending_page : M F SyncOutcome.t :=
  let! page := read (fun s => let? page := Feed.pending_page lib s in ok_or page InvalidState) in
  let! replica := read (fun s => ok_or (Feed.replica lib s) InvalidState) in
  let! _ := reject (StoredPage.epoch page != Replica.journal_epoch replica) WrongEpoch in
  let! _ := reject ((StoredPage.from_sequence page != Replica.acknowledged_sequence replica)
                    || (StoredPage.high_watermark page <? StoredPage.through_sequence page)
                    || (is_empty (StoredPage.changes page)
                        != is_none (StoredPage.ack_evidence page))) InvalidRemoteResponse in
  let! _ := Calls.mark_page_applying lib in
  let! _ := each (apply_change (StoredPage.epoch page) (Replica.applied_sequence replica))
              (StoredPage.changes page) in
  let! _ := check FailurePoint.AfterLocalCommitBeforeAck in
  let! _ := call (Outbound.reconcile_server_applied_intents lib) in
  let! pending := Calls.mark_page_locally_committed lib in
  if is_none pending
  then
    let! _ := Calls.set_status lib EngineStatus.Idle in
    ret (if StoredPage.has_more page then SyncOutcome.MoreAvailable else SyncOutcome.Idle)
  else
    let! _ := retry_pending_ack in
    ret (if StoredPage.has_more page then SyncOutcome.MoreAvailable else SyncOutcome.Progressed).

(** The branch taken when the server requires a rebaseline. *)
Definition rebaseline_required (surface : bool) : M F SyncOutcome.t :=
  if surface then ret SyncOutcome.RebaselineRequired
  else
    let! _ := begin_bootstrap in
    ret SyncOutcome.BootstrapRequired.

(** [match .. { Ok(a) => .., Err(RebaselineRequired) => .., Err(e) => return Err(e) }]. *)
Definition or_rebaseline {A} (surface : bool) (answer : result A RemoteError)
  (k : A -> M F SyncOutcome.t) : M F SyncOutcome.t :=
  match answer with
  | Ok a => k a
  | Err error =>
      if error_kind error == RemoteErrorKind.RebaselineRequired then rebaseline_required surface
      else raise (Remote error)
  end.

(** The incremental tail of [synchronize_once_inner]. *)
Definition fetch_and_apply (surface : bool) (replica : Replica.t) : M F SyncOutcome.t :=
  let! answer := send SentGetCheckpoint (fun t => get_checkpoint t scope) in
  or_rebaseline surface answer (fun checkpoint =>
    let! _ := lift (validate_checkpoint checkpoint) in
    if Checkpoint.epoch checkpoint != Replica.journal_epoch replica
    then rebaseline_required surface
    else
      let! _ := reject ((Checkpoint.acknowledged_sequence checkpoint
                         != Replica.acknowledged_sequence replica)
                        || (Replica.applied_sequence replica
                            != Replica.acknowledged_sequence replica)) InvalidRemoteResponse in
      let limit := EngineConfig.feed_page_limit config in
      let! answer := send (SentFetchChanges limit) (fun t => fetch_changes t scope limit) in
      or_rebaseline surface answer (fun page =>
        let! _ := reject (FeedPage.scope page != scope) WrongScope in
        let! _ := reject (FeedPage.epoch page != Replica.journal_epoch replica) WrongEpoch in
        let! _ := reject (FeedPage.from_sequence page <? Replica.acknowledged_sequence replica)
                    SequenceRegression in
        let! _ := reject (Replica.acknowledged_sequence replica <? FeedPage.from_sequence page)
                    SequenceGap in
        let! _ := call (Feed.persist_page page) in
        let! _ := check FailurePoint.AfterPageIntentPersisted in
        apply_pending_page)).

Definition synchronize_once_inner (surface : bool) : M F SyncOutcome.t :=
  let! _ := validate_binding in
  let! handoff := read (fun s => Ok (is_some (Bootstrap.pending_rebaseline_handoff lib s))) in
  let! _ := reject handoff RebaselinePendingHandoff in
  let! issues := read (Ops.unresolved_issues lib) in
  if negb (is_empty issues) then ret SyncOutcome.Blocked
  else
    let! _ := recover_startup_inner in
    let! _ := cleanup_completed_operations in
    let! session := read (fun s => Ok (Bootstrap.bootstrap lib s)) in
    match session with
    | Some record => advance_bootstrap record
    | None =>
        let! replica := read (fun s => ok_or (Feed.replica lib s) InvalidState) in
        if is_none (Replica.root_node_id replica)
        then
          let start :=
            let! _ := begin_bootstrap in
            ret SyncOutcome.BootstrapRequired in
          if surface
          then
            let! answer := send SentGetCheckpoint (fun t => get_checkpoint t scope) in
            match answer with
            | Ok checkpoint =>
                let! _ := lift (validate_checkpoint checkpoint) in
                start
            | Err error =>
                if error_kind error == RemoteErrorKind.RebaselineRequired
                then ret SyncOutcome.RebaselineRequired
                else raise (Remote error)
            end
          else start
        else
          let! ack := read (Apply.pending_ack lib) in
          if is_some ack then retry_pending_ack
          else
            let! page := read (Feed.pending_page lib) in
            if is_some page then apply_pending_page
            else fetch_and_apply surface replica
    end.

(** [synchronize_once_with_rebaseline_policy]; the writer lock serialises the
    calls, so a history of the engine is a sequence of them. *)
Definition synchronize (surface : bool) : M F SyncOutcome.t :=
  inspecting (synchronize_once_inner surface) (fun r =>
    match r with
    | Ok outcome => ret outcome
    | Err (Remote error) =>
        if bool_decide (error_kind error ∈ [RemoteErrorKind.Offline; RemoteErrorKind.Unavailable])
        then
          let! _ := Calls.set_status lib EngineStatus.Offline in
          ret SyncOutcome.Offline
        else inspecting (Calls.set_status lib EngineStatus.Error) (fun _ => raise (Remote error))
    | Err (LocalIssue _) | Err (ObservationIssue _) => ret SyncOutcome.Blocked
    | Err InjectedFailure => raise InjectedFailure
    | Err error => inspecting (Calls.set_status lib EngineStatus.Error) (fun _ => raise error)
    end).

(** [map_handoff_remote_error]. *)
Definition map_handoff_remote_error (error : RemoteError) : ClientSyncError :=
  match error_kind error with
  | RemoteErrorKind.NotFound => HandoffSnapshotUnavailable
  | RemoteErrorKind.CheckpointConflict => HandoffCheckpointConflict
  | RemoteErrorKind.AuthRequired | RemoteErrorKind.DeviceRevoked | RemoteErrorKind.Forbidden =>
      Remote error
  | _ => HandoffTransport
  end.

Definition complete_rebaseline_handoff (snapshot_id : Z) : M F HandoffFinalizeOutcome :=
  let! _ := validate_binding in
  let! pending := read (fun s => Ok (Bootstrap.pending_rebaseline_handoff lib s)) in
  match pending with
  | None => ret AlreadyComplete
  | Some pending =>
      let! _ := reject ((HandoffRecord.snapshot_id pending != snapshot_id)
                        || (HandoffRecord.library_id pending != lib)) HandoffResponseMismatch in
      let! answer := send (SentHandoff snapshot_id)
                       (fun t => remote_rebaseline_handoff t scope snapshot_id) in
      let! confirmation := lift (map_err map_handoff_remote_error answer) in
      let! _ := reject ((HandoffConfirmation.snapshot_id confirmation
                         != HandoffRecord.snapshot_id pending)
                        || (HandoffConfirmation.library_id confirmation != lib))
                  HandoffResponseMismatch in
      let checkpoint := HandoffConfirmation.checkpoint confirmation in
      let! _ := reject ((Checkpoint.scope checkpoint != scope)
                        || (i64_max <? Checkpoint.epoch checkpoint)
                        || (i64_max <? Checkpoint.acknowledged_sequence checkpoint))
                  HandoffResponseMismatch in
      let! _ := reject ((Checkpoint.epoch checkpoint != HandoffRecord.journal_epoch pending)
                        || (Checkpoint.acknowledged_sequence checkpoint
                            != HandoffRecord.resume_sequence pending)) HandoffResponseMismatch in
      let! _ := check FailurePoint.AfterServerRebaselineHandoffBeforeLocalState in
      call (Bootstrap.finalize_rebaseline_handoff scope pending)
  end.

End Engine.
End Engine.
