(* ===== verification/Cycle.v ===== *)
(** * One synchronisation cycle

    [client-sync/src/rebaseline_convergence.rs] and [sync_cycle.rs].  [Coordinator]
    runs one inbound step: it resumes a durable snapshot, completes a pending
    handoff, or synchronises incrementally, and creates at most one snapshot.
    [Runner] runs the coordinator and then, if the local state allows it, one step
    of the outbound engine, which is a parameter. *)

From S2P Require Import Prelude Vocabulary Models Rebaseline SyncTypes ClientPaths ClientStore.
From S2P Require Import SyncWorld Candidates Inbound.

(** ** Convergence *)

Module BlockedReason.

Inductive t : Type := RateLimited | DidNotConverge.

#[global] Instance t_eq_dec : EqDecision t.
Proof. solve_decision. Defined.

End BlockedReason.

Module ConvergenceOutcome.

Inductive t : Type :=
| IncrementalReady
| IncrementalProgress (outcome : SyncOutcome.t)
| RebaselineConverged (snapshot_id : Z) (boundary : Boundary.t)
| RecoveryBlocked (reason : BlockedReason.t).

#[global] Instance t_eq_dec : EqDecision t.
Proof. solve_decision. Defined.

End ConvergenceOutcome.

Module Coordinator.
Section Coordinator.

Context {F : Type} `{U : Unicode} `{E : Env} `{R : SyncRemote} `{S : SnapshotRemote}
  `{L : LocalReplica F} `{Mat : Materializer F}.
Context (scope : ReplicaScope) (server_profile_id : option Z) (config : EngineConfig.t)
  (page_limit : Z).

Notation lib := (library_id scope).

Definition descriptor_from_candidate (candidate : Candidate.t) : Descriptor.t :=
  Descriptor.mk (Candidate.snapshot_id candidate) lib
    (Boundary.mk (Candidate.journal_epoch candidate) (Candidate.resume_sequence candidate))
    (Candidate.expected_count candidate).

Definition is_recovery_handoff_trigger (error : ClientSyncError) : bool :=
  match error with
  | HandoffSnapshotUnavailable | HandoffCheckpointConflict => true
  | _ => false
  end.

Definition complete_handoff (snapshot_id journal_epoch resume_sequence : Z) :
  M F ConvergenceOutcome.t :=
  let! _ := Engine.complete_rebaseline_handoff scope server_profile_id snapshot_id in
  ret (ConvergenceOutcome.RebaselineConverged snapshot_id
         (Boundary.mk journal_epoch resume_sequence)).

(** [RebaselineApplier::new] checks the page limit. *)
Definition apply_and_handoff (d : Descriptor.t) : M F ConvergenceOutcome.t :=
  let! _ := reject ((page_limit <? 1) || (MAX_PAGE_ITEMS <? page_limit)) ResourceLimit in
  let! _ := Applier.apply scope page_limit d in
  inspecting (complete_handoff (Descriptor.snapshot_id d)
                (Boundary.journal_epoch (Descriptor.boundary d))
                (Boundary.resume_sequence (Descriptor.boundary d))) (fun r =>
    match r with
    | Ok outcome => ret outcome
    | Err error =>
        if is_recovery_handoff_trigger error
        then ret (ConvergenceOutcome.RecoveryBlocked BlockedReason.DidNotConverge)
        else raise error
    end).

Definition resume_candidate (candidate : Candidate.t) : M F ConvergenceOutcome.t :=
  apply_and_handoff (descriptor_from_candidate candidate).

Definition release_claim (claim_id : Z) : M F unit :=
  call (Candidates.release_rebaseline_snapshot_creation_claim lib claim_id).

Definition create_apply_and_handoff : M F ConvergenceOutcome.t :=
  let! fresh := uuid in
  let! claim_id := call (Candidates.claim_rebaseline_snapshot_creation scope fresh) in
  let! answer := send SentCreateSnapshot (fun t => create_snapshot t scope) in
  match answer with
  | Err error =>
      let! _ := release_claim claim_id in
      if error_kind error == RemoteErrorKind.RateLimited
      then ret (ConvergenceOutcome.RecoveryBlocked BlockedReason.RateLimited)
      else raise (Remote error)
  | Ok d =>
      if (Descriptor.library_id d != lib) || (Boundary.journal_epoch (Descriptor.boundary d) =? 0)
      then
        let! _ := release_claim claim_id in
        raise InvalidRemoteResponse
      else if (Descriptor.entry_count d =? 0) || (MAX_REBASELINE_ITEMS <? Descriptor.entry_count d)
      then
        let! _ := release_claim claim_id in
        raise ResourceLimit
      else
        let! _ := call (Candidates.promote_rebaseline_snapshot_creation_claim scope claim_id d) in
        apply_and_handoff d
  end.

(** The library guard serialises the calls, so a history of a library is a
    sequence of them. *)
Definition run_convergence_once : M F ConvergenceOutcome.t :=
  let! candidate := read (Candidates.rebaseline_candidate lib) in
  match candidate with
  | Some candidate =>
      match Candidate.state candidate with
      | CandidateFetching | CandidateComplete => resume_candidate candidate
      | CreateClaim => create_apply_and_handoff
      end
  | None =>
      let! pending := read (fun s => Ok (Bootstrap.pending_rebaseline_handoff lib s)) in
      match pending with
      | Some pending =>
          inspecting (complete_handoff (HandoffRecord.snapshot_id pending)
                        (HandoffRecord.journal_epoch pending)
                        (HandoffRecord.resume_sequence pending)) (fun r =>
            match r with
            | Ok outcome => ret outcome
            | Err error =>
                if is_recovery_handoff_trigger error then create_apply_and_handoff
                else raise error
            end)
      | None =>
          let! outcome := Engine.synchronize scope server_profile_id config true in
          match outcome with
          | SyncOutcome.RebaselineRequired => create_apply_and_handoff
          | SyncOutcome.Idle => ret ConvergenceOutcome.IncrementalReady
          | outcome => ret (ConvergenceOutcome.IncrementalProgress outcome)
          end
      end
  end.

End Coordinator.
End Coordinator.

(** ** The cycle *)

Module InboundCycleOutcome.

Inductive t : Type :=
| Converged (outcome : ConvergenceOutcome.t)
| AuthRequired
| Offline
| RateLimited
| RemoteFailure (kind : RemoteErrorKind.t).

Definition sync_outcome_is_safe_for_outbound (outcome : SyncOutcome.t) : bool :=
  match outcome with
  | SyncOutcome.Idle | SyncOutcome.Progressed | SyncOutcome.MoreAvailable => true
  | _ => false
  end.

Definition outcome_is_safe_for_outbound (outcome : ConvergenceOutcome.t) : bool :=
  match outcome with
  | ConvergenceOutcome.IncrementalReady | ConvergenceOutcome.RebaselineConverged _ _ => true
  | ConvergenceOutcome.IncrementalProgress outcome => sync_outcome_is_safe_for_outbound outcome
  | ConvergenceOutcome.RecoveryBlocked _ => false
  end.

Definition is_safe_for_outbound (self : t) : bool :=
  match self with
  | Converged outcome => outcome_is_safe_for_outbound outcome
  | _ => false
  end.

Definition is_auth_required (self : t) : bool :=
  match self with AuthRequired => true | _ => false end.

Definition convergence_made_progress (outcome : ConvergenceOutcome.t) : bool :=
  match outcome with
  | ConvergenceOutcome.IncrementalReady => false
  | ConvergenceOutcome.IncrementalProgress outcome =>
      match outcome with
      | SyncOutcome.Progressed | SyncOutcome.MoreAvailable | SyncOutcome.BootstrapRequired => true
      | _ => false
      end
  | ConvergenceOutcome.RebaselineConverged _ _ => true
  | ConvergenceOutcome.RecoveryBlocked reason => reason == BlockedReason.DidNotConverge
  end.

Definition made_durable_progress (self : t) : bool :=
  match self with
  | Converged outcome => convergence_made_progress outcome
  | _ => false
  end.

Definition convergence_more_work_likely (outcome : ConvergenceOutcome.t) : bool :=
  match outcome with
  | ConvergenceOutcome.IncrementalReady => false
  | ConvergenceOutcome.IncrementalProgress outcome =>
      match outcome with
      | SyncOutcome.MoreAvailable | SyncOutcome.BootstrapRequired | SyncOutcome.Blocked
      | SyncOutcome.Offline | SyncOutcome.RebaselineRequired => true
      | _ => false
      end
  | ConvergenceOutcome.RebaselineConverged _ _ => false
  | ConvergenceOutcome.RecoveryBlocked _ => true
  end.

Definition more_work_likely (self : t) : bool :=
  match self with
  | Converged outcome => convergence_more_work_likely outcome
  | _ => true
  end.

End InboundCycleOutcome.

Module SkipReason.

Inductive t : Type :=
| InboundAuthenticationRequired
| InboundOffline
| InboundRateLimited
| InboundRemoteFailure (kind : RemoteErrorKind.t)
| RecoveryBlocked (reason : BlockedReason.t)
| IncrementalNotReady (outcome : SyncOutcome.t)
| CandidatePending
| HandoffPending
| BootstrapPending
| InboundWorkPending
| LocalIssue
| ReplicaNotReady.

#[global] Instance t_eq_dec : EqDecision t.
Proof. solve_decision. Defined.

End SkipReason.

(** [OutboundSubmissionOutcome] ([outbound.rs]). *)
Module SubmissionOutcome.

Inductive t : Type :=
| NoReadyIntent
| Submitted (intent_id : Z)
| Conflict (intent_id conflict_id : Z)
| BlockedByConflict (conflict_id : Z)
| Blocked (intent_id : Z)
| Offline
| AuthRequired.

End SubmissionOutcome.

Module OutboundCycleOutcome.

Inductive t : Type :=
| NotAttempted (reason : SkipReason.t)
| Attempted (outcome : SubmissionOutcome.t).

Definition is_idle (self : t) : bool :=
  match self with Attempted SubmissionOutcome.NoReadyIntent => true | _ => false end.

Definition made_durable_progress (self : t) : bool :=
  match self with
  | NotAttempted _ => false
  | Attempted outcome =>
      match outcome with
      | SubmissionOutcome.Submitted _ | SubmissionOutcome.Conflict _ _
      | SubmissionOutcome.Blocked _ => true
      | _ => false
      end
  end.

Definition more_work_likely (self : t) : bool :=
  match self with
  | NotAttempted _ => true
  | Attempted outcome => negb (is_idle (Attempted outcome))
  end.

Definition requires_conflict_resolution (self : t) : bool :=
  match self with
  | Attempted (SubmissionOutcome.Conflict _ _) | Attempted (SubmissionOutcome.BlockedByConflict _) =>
      true
  | _ => false
  end.

Definition requires_authentication (self : t) : bool :=
  match self with
  | Attempted SubmissionOutcome.AuthRequired
  | NotAttempted SkipReason.InboundAuthenticationRequired => true
  | _ => false
  end.

End OutboundCycleOutcome.

Module SyncCycleResult.

Record t := mk {
  observed_at : Z; inbound : InboundCycleOutcome.t; outbound : OutboundCycleOutcome.t }.

Definition is_idle (self : t) : bool :=
  match inbound self with
  | InboundCycleOutcome.Converged ConvergenceOutcome.IncrementalReady =>
      OutboundCycleOutcome.is_idle (outbound self)
  | _ => false
  end.

Definition made_durable_progress (self : t) : bool :=
  InboundCycleOutcome.made_durable_progress (inbound self)
  || OutboundCycleOutcome.made_durable_progress (outbound self).

Definition more_work_likely (self : t) : bool :=
  InboundCycleOutcome.more_work_likely (inbound self)
  || OutboundCycleOutcome.more_work_likely (outbound self).

Definition requires_conflict_resolution (self : t) : bool :=
  OutboundCycleOutcome.requires_conflict_resolution (outbound self).

Definition requires_authentication (self : t) : bool :=
  InboundCycleOutcome.is_auth_required (inbound self)
  || OutboundCycleOutcome.requires_authentication (outbound self).

End SyncCycleResult.

(** ** Decisions *)

Module Policy.

Definition normalize_inbound_outcome (outcome : ConvergenceOutcome.t) : InboundCycleOutcome.t :=
  match outcome with
  | ConvergenceOutcome.IncrementalProgress SyncOutcome.Offline => InboundCycleOutcome.Offline
  | other => InboundCycleOutcome.Converged other
  end.

Definition map_inbound_error (error : ClientSyncError) :
  result InboundCycleOutcome.t ClientSyncError :=
  match error with
  | AuthenticationRequired => Ok InboundCycleOutcome.AuthRequired
  | HandoffTransport => Ok InboundCycleOutcome.Offline
  | Remote remote =>
      Ok (match error_kind remote with
          | RemoteErrorKind.AuthRequired | RemoteErrorKind.DeviceRevoked
          | RemoteErrorKind.Forbidden => InboundCycleOutcome.AuthRequired
          | RemoteErrorKind.RateLimited => InboundCycleOutcome.RateLimited
          | RemoteErrorKind.Offline | RemoteErrorKind.Unavailable | RemoteErrorKind.Timeout
          | RemoteErrorKind.Tls => InboundCycleOutcome.Offline
          | kind => InboundCycleOutcome.RemoteFailure kind
          end)
  | other => Err other
  end.

Definition skip_for_inbound (inbound : InboundCycleOutcome.t) : option SkipReason.t :=
  match inbound with
  | InboundCycleOutcome.AuthRequired => Some SkipReason.InboundAuthenticationRequired
  | InboundCycleOutcome.Offline => Some SkipReason.InboundOffline
  | InboundCycleOutcome.RateLimited => Some SkipReason.InboundRateLimited
  | InboundCycleOutcome.RemoteFailure kind => Some (SkipReason.InboundRemoteFailure kind)
  | InboundCycleOutcome.Converged outcome =>
      match outcome with
      | ConvergenceOutcome.RecoveryBlocked reason => Some (SkipReason.RecoveryBlocked reason)
      | ConvergenceOutcome.IncrementalProgress outcome =>
          if negb (InboundCycleOutcome.sync_outcome_is_safe_for_outbound outcome)
          then Some (SkipReason.IncrementalNotReady outcome) else None
      | ConvergenceOutcome.IncrementalReady | ConvergenceOutcome.RebaselineConverged _ _ => None
      end
  end.

Record LocalStateInspection := mk_LocalStateInspection {
  has_candidate : bool; has_pending_handoff : bool; has_bootstrap : bool; has_pending_page : bool;
  has_pending_ack : bool; has_local_issue : bool; root_present : bool }.

Definition skip_for_inspection (state : LocalStateInspection) : option SkipReason.t :=
  if has_candidate state then Some SkipReason.CandidatePending
  else if has_pending_handoff state then Some SkipReason.HandoffPending
  else if has_bootstrap state then Some SkipReason.BootstrapPending
  else if has_pending_page state || has_pending_ack state then Some SkipReason.InboundWorkPending
  else if has_local_issue state then Some SkipReason.LocalIssue
  else if negb (root_present state) then Some SkipReason.ReplicaNotReady
  else None.

End Policy.

(** ** The runner *)

Module Runner.
Section Runner.

Context {F : Type} `{U : Unicode} `{E : Env} `{R : SyncRemote} `{S : SnapshotRemote}
  `{L : LocalReplica F} `{Mat : Materializer F}.
Context (scope : ReplicaScope) (server_profile_id : option Z) (config : EngineConfig.t)
  (page_limit : Z).

(** [OutboundSubmissionEngine::process_next_ready_intent]. *)
Context (process_next_ready_intent : M F SubmissionOutcome.t).

Notation lib := (library_id scope).

(** [observation_issues] ([state.rs]). *)
Definition unresolved_observation_issues (s : Store) :
  result (list ObservationIssueRow) ClientSyncError :=
  let rows := filter (fun row => observation_library_id row = lib
                                 /\ observation_resolved_at row = None) (observation_issues s) in
  if MAX_RECOVERY_ROWS <? len rows then Err ResourceLimit
  else
    let? _ := Feed.decode_all Ops.optional_path (map observation_path rows) in
    Ok rows.

(** [first_unresolved_conflict] ([state.rs]). *)
Definition first_unresolved_conflict (s : Store) : option (Z * ConflictRow) :=
  head (merge_sort Outbound.detected_first
    (filter (fun c : Z * ConflictRow => conflict_library_id c.2 = lib
                                        /\ conflict_unresolved c.2 = true)
       (map_to_list (sync_conflicts s)))).

Definition inspect_local_state : M F Policy.LocalStateInspection :=
  let! replica := read (fun s => ok_or (Feed.replica lib s) InvalidState) in
  let! _ := reject (Replica.scope replica != scope) WrongScope in
  let! candidate := read (Candidates.rebaseline_candidate lib) in
  let! handoff := read (fun s => Ok (Bootstrap.pending_rebaseline_handoff lib s)) in
  let! session := read (fun s => Ok (Bootstrap.bootstrap lib s)) in
  let! page := read (Feed.pending_page lib) in
  let! ack := read (Apply.pending_ack lib) in
  let! issues := read (Ops.unresolved_issues lib) in
  let! issue :=
    if negb (is_empty issues) then ret true
    else
      let! observed := read unresolved_observation_issues in
      ret (negb (is_empty observed)) in
  let! _ := read (fun s => Ok (first_unresolved_conflict s)) in
  ret (Policy.mk_LocalStateInspection (is_some candidate) (is_some handoff) (is_some session)
         (is_some page) (is_some ack) issue (is_some (Replica.root_node_id replica))).

Definition skip_for_local_state : M F (option SkipReason.t) :=
  let! state := inspect_local_state in
  ret (Policy.skip_for_inspection state).

Definition outbound_step (inbound : InboundCycleOutcome.t) : M F OutboundCycleOutcome.t :=
  match Policy.skip_for_inbound inbound with
  | Some reason => ret (OutboundCycleOutcome.NotAttempted reason)
  | None =>
      let! skip := skip_for_local_state in
      match skip with
      | Some reason => ret (OutboundCycleOutcome.NotAttempted reason)
      | None =>
          let! outcome := process_next_ready_intent in
          ret (OutboundCycleOutcome.Attempted outcome)
      end
  end.

Definition run_once (observed_at : Z) : M F SyncCycleResult.t :=
  let! _ := inspect_local_state in
  let! inbound :=
    inspecting (Coordinator.run_convergence_once scope server_profile_id config page_limit)
      (fun r => match r with
                | Ok outcome => ret (Policy.normalize_inbound_outcome outcome)
                | Err error => lift (Policy.map_inbound_error error)
                end) in
  let! outbound := outbound_step inbound in
  ret (SyncCycleResult.mk observed_at inbound outbound).

End Runner.
End Runner.
