(* ===== verification/InboundFacts.v ===== *)
(** * The engine refines the feed protocol

    A small Hoare logic over the world monad, in which a computation started in
    a protocol state may only take protocol steps, and may only send an
    acknowledgement for the page it has fully applied.  [synchronize] and
    [complete_rebaseline_handoff] satisfy it for any clock, any database and
    injected fault, any server and any folder, given a materialiser that
    leaves the feed tables to the engine. *)

From S2P Require Import Prelude Vocabulary Models Rebaseline SyncTypes ClientPaths ClientStore.
From S2P Require Import FeedProtocol StoreFacts SyncWorld Inbound.

(** ** Triples *)

Section Logic.

Context {F : Type} (served : page -> Prop) (library : Z).

Definition view (w : World F) : option feed := abs library (store w).

(** What must hold when a request leaves: an acknowledgement carries the
    evidence of the acknowledgement in flight. *)
Definition request_ok (o : option feed) (q : request) : Prop :=
  match q with
  | SentAcknowledge evidence =>
      exists f k, o = Some f /\ acking f = Some k /\ PendingAck.evidence k = evidence
  | _ => True
  end.

(** [w'] is reached from [w] by protocol steps, and each request in between left
    in a state reached the same way. *)
Definition reach (w w' : World F) : Prop :=
  rtc (ostep served library) (view w) (view w')
  /\ exists l, sent w' = sent w ++ l
       /\ Forall (fun p : Store * request =>
                    rtc (ostep served library) (view w) (abs library p.1)
                    /\ request_ok (abs library p.1) p.2) l.

Lemma reach_refl w : reach w w.
Proof. split; [done|]. exists []. by rewrite app_nil_r. Qed.

Lemma reach_trans w1 w2 w3 : reach w1 w2 -> reach w2 w3 -> reach w1 w3.
Proof.
  intros [S1 (l1 & H1 & F1)] [S2 (l2 & H2 & F2)]. split; [by etrans|].
  exists (l1 ++ l2). split; [by rewrite H2, H1, app_assoc|].
  apply Forall_app. split; [done|]. eapply Forall_impl; [exact F2|].
  intros p [? ?]. split; [by etrans|done].
Qed.

Lemma reach_quiet w w' : view w' = view w -> sent w' = sent w -> reach w w'.
Proof. intros Hv Hs. split; [by rewrite Hv|]. exists []. by rewrite app_nil_r. Qed.

(** [triple o m Q]: from state [o], [m] stays within the protocol, and when it
    succeeds its value and the state reached satisfy [Q]. *)
Definition triple {A} (o : option feed) (m : M F A) (Q : A -> option feed -> Prop) : Prop :=
  forall w, view w = o ->
    reach w (m w).1 /\ forall a, (m w).2 = Ok a -> Q a (view (m w).1).

(** [m] does not move the protocol, whether it succeeds or fails. *)
Definition quiet {A} (m : M F A) : Prop :=
  forall w, reach w (m w).1 /\ view (m w).1 = view w.

Lemma triple_weaken {A} o (m : M F A) (P Q : A -> option feed -> Prop) :
  triple o m P -> (forall a o', P a o' -> Q a o') -> triple o m Q.
Proof. intros H HPQ w Hw. destruct (H w Hw) as [Hr HP]. split; [done|]. eauto. Qed.

Lemma triple_bind {A B} o (m : M F A) (k : A -> M F B) P Q :
  triple o m P -> (forall a o', P a o' -> triple o' (k a) Q) -> triple o (bind m k) Q.
Proof.
  intros Hm Hk w Hw. destruct (Hm w Hw) as [Hr HP]. unfold bind.
  destruct (m w) as [w1 [a|e]]; cbn in *; [|by split].
  destruct (Hk a (view w1) (HP a eq_refl) w1 eq_refl) as [Hr' HQ].
  split; [by eapply reach_trans|done].
Qed.

Lemma triple_quiet {A} o (m : M F A) (Q : A -> option feed -> Prop) :
  quiet m -> (forall a, Q a o) -> triple o m Q.
Proof. intros Hm HQ w <-. destruct (Hm w) as [Hr Hv]. split; [done|]. intros a _. rewrite Hv. done. Qed.

Lemma triple_seq {A B} o (m : M F A) (k : A -> M F B) Q :
  quiet m -> (forall a, triple o (k a) Q) -> triple o (bind m k) Q.
Proof.
  intros Hm Hk. apply (triple_bind o m k (fun _ o' => o' = o)); [by apply triple_quiet|].
  by intros a o' ->.
Qed.

Lemma triple_inspecting {A B} o (m : M F A) (k : result A ClientSyncError -> M F B) P Q :
  triple o m P -> (forall a o', P a o' -> triple o' (k (Ok a)) Q) ->
  (forall e o', triple o' (k (Err e)) Q) -> triple o (inspecting m k) Q.
Proof.
  intros Hm Hok Herr w Hw. destruct (Hm w Hw) as [Hr HP]. unfold inspecting.
  destruct (m w) as [w1 [a|e] ]; cbn in *.
  - destruct (Hok a (view w1) (HP a eq_refl) w1 eq_refl) as [Hr' HQ].
    split; [by eapply reach_trans|done].
  - destruct (Herr e (view w1) w1 eq_refl) as [Hr' HQ]. split; [by eapply reach_trans|done].
Qed.

Lemma triple_ret {A} o (a : A) (Q : A -> option feed -> Prop) : Q a o -> triple o (ret a) Q.
Proof. intros HQ w <-. split; [apply reach_refl|]. by intros b [= <-]. Qed.

Lemma triple_raise {A} o e (Q : A -> option feed -> Prop) : triple o (raise e) Q.
Proof. intros w _. split; [apply reach_refl|done]. Qed.

Lemma triple_lift {A} o (r : result A ClientSyncError) (Q : A -> option feed -> Prop) :
  (forall a, r = Ok a -> Q a o) -> triple o (lift r) Q.
Proof. intros HQ w <-. split; [apply reach_refl|]. by apply HQ. Qed.

Lemma triple_reject o b e (Q : unit -> option feed -> Prop) :
  (b = false -> Q tt o) -> triple o (reject b e) Q.
Proof. intros HQ. unfold reject. destruct b; [apply triple_raise|by apply triple_ret, HQ]. Qed.

Lemma triple_fs {A} o (op : F -> F * result A ClientSyncError) (Q : A -> option feed -> Prop) :
  (forall a, Q a o) -> triple o (fs op) Q.
Proof.
  intros HQ w <-. unfold fs. destruct (op (files w)) as [f r].
  split; [by apply reach_quiet|]. intros a _. apply HQ.
Qed.

Lemma triple_send {A} o q (answer : nat -> result A RemoteError) Q :
  request_ok o q -> (forall t, Q (answer t) o) -> triple o (send q answer) Q.
Proof.
  intros Hq HQ w <-. split; [|intros a [= <-]; apply HQ]. split; [done|].
  exists [(store w, q)]. by repeat constructor.
Qed.

Lemma triple_send_or_fail {A} o q (answer : nat -> result A RemoteError) Q :
  request_ok o q -> (forall a, Q a o) -> triple o (send_or_fail q answer) Q.
Proof.
  intros Hq HQ w <-. split; [|intros a _; apply HQ]. split; [done|].
  exists [(store w, q)]. by repeat constructor.
Qed.

Context `{E : Env}.

Lemma triple_read {A} o (q : Store -> result A ClientSyncError) (Q : A -> option feed -> Prop) :
  (forall s a, abs library s = o -> q s = Ok a -> Q a o) -> triple o (read q) Q.
Proof.
  intros HQ w <-. split; [by apply reach_quiet|]. cbn. intros a.
  destruct (db_fault (tick w)); [|done..]. by apply HQ.
Qed.

(** The rule for store calls: whatever the fault, the transaction either takes
    effect or does not. *)
Lemma triple_call {A} o (t : tx A) (Q : A -> option feed -> Prop) :
  (forall now s s' a, abs library s = o -> t now s = Ok (s', a) ->
     rtc (ostep served library) o (abs library s') /\ Q a (abs library s')) ->
  triple o (call t) Q.
Proof.
  intros HQ w <-. unfold call.
  destruct (db_fault (tick w)); try (by split; [apply reach_quiet|]).
  all: destruct (t (clock (tick w)) (store w)) as [[s' a]|e] eqn:Ht;
    try (by split; [apply reach_quiet|]).
  all: destruct (HQ _ _ _ _ eq_refl Ht) as [Hr Ha]; cbn; split; try done.
  all: try (split; [done|]; exists []; by rewrite app_nil_r).
  by intros b [= <-].
Qed.

(** A quiet step leaves the state and at most sends an unconstrained request. *)
Lemma quiet_same {A} (m : M F A) :
  (forall w, view (m w).1 = view w /\ sent (m w).1 = sent w) -> quiet m.
Proof. intros H w. destruct (H w). split; [by apply reach_quiet|done]. Qed.

Lemma quiet_call {A} (t : tx A) : framed library t -> quiet (call t).
Proof.
  intros Ht. apply quiet_same. intros w. unfold call.
  destruct (db_fault (tick w)); try done.
  all: destruct (t (clock (tick w)) (store w)) as [[s' a]|e] eqn:H; [|done].
  all: unfold view; cbn; by rewrite (Ht _ _ _ _ H).
Qed.

Lemma quiet_read {A} (q : Store -> result A ClientSyncError) : quiet (read q).
Proof. by apply quiet_same. Qed.

Lemma quiet_check point : quiet (check (F:=F) point).
Proof. by apply quiet_same. Qed.

Lemma quiet_uuid : quiet (uuid (F:=F)).
Proof. by apply quiet_same. Qed.

Lemma quiet_fs {A} (op : F -> F * result A ClientSyncError) : quiet (fs op).
Proof. apply quiet_same. intros w. unfold fs. by destruct (op (files w)). Qed.

Lemma quiet_ret {A} (a : A) : quiet (ret a).
Proof. by apply quiet_same. Qed.

Lemma quiet_raise {A} e : quiet (raise (A:=A) e).
Proof. by apply quiet_same. Qed.

Lemma quiet_lift {A} (r : result A ClientSyncError) : quiet (lift r).
Proof. by apply quiet_same. Qed.

Lemma quiet_reject b e : quiet (reject b e).
Proof. by destruct b; apply quiet_same. Qed.

Lemma quiet_bind {A B} (m : M F A) (k : A -> M F B) :
  quiet m -> (forall a, quiet (k a)) -> quiet (bind m k).
Proof.
  intros Hm Hk w. destruct (Hm w) as [Hr Hv]. unfold bind.
  destruct (m w) as [w1 [a|e] ]; cbn in *; [|done].
  destruct (Hk a w1) as [Hr' Hv']. split; [by eapply reach_trans|congruence].
Qed.

Lemma quiet_inspecting {A B} (m : M F A) (k : result A ClientSyncError -> M F B) :
  quiet m -> (forall r, quiet (k r)) -> quiet (inspecting m k).
Proof.
  intros Hm Hk w. destruct (Hm w) as [Hr Hv]. unfold inspecting.
  destruct (m w) as [w1 r]; cbn in *.
  destruct (Hk r w1) as [Hr' Hv']. split; [by eapply reach_trans|congruence].
Qed.

Lemma quiet_each {A} (f : A -> M F unit) l : (forall a, quiet (f a)) -> quiet (each f l).
Proof.
  intros Hf. induction l as [|a l IH]; cbn [each]; [apply quiet_ret|]. by apply quiet_bind.
Qed.

Lemma quiet_send_or_fail {A} q (answer : nat -> result A RemoteError) :
  (forall evidence, q <> SentAcknowledge evidence) -> quiet (send_or_fail q answer).
Proof.
  intros Hq w. split; [|done]. split; [done|]. exists [(store w, q)].
  repeat constructor. by destruct q; try done; edestruct Hq.
Qed.

End Logic.

Create HintDb quiets.
#[export] Hint Resolve quiet_read quiet_check quiet_uuid quiet_fs quiet_ret quiet_raise quiet_lift
  quiet_reject : quiets.
#[export] Hint Extern 1 (quiet _ _ (call _)) => apply quiet_call; solve [auto with frames] : quiets.
#[export] Hint Extern 1 (quiet _ _ (send_or_fail _ _)) => by apply quiet_send_or_fail : quiets.

(** Goes through a computation that only touches other tables. *)
Ltac quiet :=
  repeat first
    [ progress (auto with quiets)
    | apply quiet_bind; [|intros ?]
    | apply quiet_inspecting; [|intros ?]
    | apply quiet_each; intros ?
    | progress case_match ].

Section Quiet.

Context {F : Type} `{U : Unicode} `{E : Env} (served : page -> Prop) (library : Z).

Lemma quiet_set_status l st : quiet (F:=F) served library (Calls.set_status l st).
Proof. unfold Calls.set_status. quiet. Qed.

Lemma quiet_mark_applying l : quiet (F:=F) served library (Calls.mark_page_applying l).
Proof. pose proof quiet_set_status. unfold Calls.mark_page_applying. quiet. Qed.

Lemma quiet_rebase l n : quiet (F:=F) served library (Calls.mark_outbound_intents_needing_rebase l n).
Proof.
  pose proof quiet_set_status.
  unfold Calls.mark_outbound_intents_needing_rebase, Calls.persist_observation_issue,
    Calls.intent_target. quiet.
Qed.

Lemma quiet_issue l n q g k e : quiet (F:=F) served library (Calls.persist_issue l n q g k e).
Proof. pose proof quiet_set_status. unfold Calls.persist_issue. quiet. Qed.

End Quiet.

#[export] Hint Resolve quiet_set_status quiet_mark_applying quiet_rebase quiet_issue : quiets.

(** ** What the engine needs of the materialiser *)

(** The event of [change] is one of the page being applied. *)
Definition present (sequence : Z) (o : option feed) : Prop :=
  forall f, o = Some f ->
    exists p row, paging f = Some p /\ row ∈ page_events p /\ EventRow.sequence row = sequence.

Class MaterializerLaws {F : Type} (Mat : Materializer F) (served : page -> Prop)
  (library : Z) : Prop := {
  desired_quiet : forall node fact kind, quiet served library (apply_desired_node node fact kind);
  sweep_quiet : forall node generation, quiet served library (sweep_absent_bootstrap_node node generation);
  recover_quiet : quiet served library recover_startup_inner;
  purge_records : forall o change epoch, present (StoredChange.sequence change) o ->
    triple served library o (apply_purge change epoch)
      (fun _ o' => advanced (StoredChange.sequence change) o o')
}.

#[export] Hint Resolve desired_quiet sweep_quiet recover_quiet : quiets.

(** ** The engine *)

Section Refinement.

Context {F : Type} `{U : Unicode} `{E : Env} `{R : SyncRemote} `{L : LocalReplica F}
  `{Mat : Materializer F}.
Context (scope : ReplicaScope) (profile : option Z) (config : EngineConfig.t).

Notation lib := (library_id scope).

Context (served : page -> Prop) `{Laws : !MaterializerLaws Mat served lib}.
Hypothesis server : forall t limit page,
  fetch_changes t scope limit = Ok page -> served (page_of page).

(** What a row of [replicas] says about the protocol state. *)
Lemma replica_view s r :
  replicas s !! lib = Some r ->
  exists f, abs lib s = Some f /\ epoch f = Replica.journal_epoch r
    /\ applied f = Replica.applied_sequence r /\ acked f = Replica.acknowledged_sequence r
    /\ rooted f = is_some (Replica.root_node_id r).
Proof. intros Hr. unfold abs. rewrite Hr. by eexists. Qed.

Lemma pending_page_view s page f :
  Feed.pending_page lib s = Ok (Some page) -> abs lib s = Some f ->
  exists p, paging f = Some p /\ page_more p = StoredPage.has_more page
    /\ Forall (fun c => exists row, row ∈ page_events p
                 /\ EventRow.sequence row = StoredChange.sequence c) (StoredPage.changes page).
Proof.
  unfold Feed.pending_page, Feed.pending_changes, abs, abs_page. intros Hp Hf.
  destruct (replicas s !! lib); [|done]. injection Hf as <-. cbn.
  destruct (pending_pages s !! lib) as [row|]; [|done]. eexists. split; [done|]. cbn.
  destruct (Feed.decode_all _ _) as [cs|] eqn:Hd; [|done]. split; [by rust_case|].
  assert (StoredPage.changes page = cs) as -> by rust_case.
  clear Hp. revert cs Hd. generalize (default [] (pending_events s !! lib)) as rows.
  induction rows as [|r rows IH]; intros cs Hd; cbn in Hd; [by injection Hd as <-|].
  destruct (Feed.decode_stored_change r) as [c|] eqn:Hc; [|done].
  destruct (Feed.decode_all Feed.decode_stored_change rows) as [cs'|]; [|done].
  injection Hd as <-. constructor.
  - exists r. split; [apply list_elem_of_here|].
    unfold Feed.decode_stored_change in Hc. by rust_case.
  - eapply Forall_impl; [exact (IH cs' eq_refl)|]. intros c' (row' & Hin & Hs).
    exists row'. split; [by apply list_elem_of_further|done].
Qed.

Lemma triple_set_status o st :
  triple (F:=F) served lib o (Calls.set_status lib st) (fun _ o' => o' = o /\ is_Some o).
Proof.
  apply triple_call. intros now s s' a <- H. rewrite (framed_set_status lib _ _ _ _ _ _ H).
  split; [done|]. split; [done|]. unfold Feed.set_status in H. repeat tx_step H.
  unfold abs, Feed.replica in *. by destruct (replicas s !! lib).
Qed.

(** *** Events *)

Lemma triple_record o epoch change node op :
  present (StoredChange.sequence change) o ->
  triple (F:=F) served lib o (call (Apply.record_event_applied scope epoch change node op))
    (fun _ o' => advanced (StoredChange.sequence change) o o').
Proof.
  intros Hp. apply triple_call. intros now s s' u Ho H.
  apply record_step in H as Ha. rewrite Ho in Ha. split; [|done].
  destruct Ha as [->|(f & -> & Hs & ->)]; [done|].
  destruct (Hp f eq_refl) as (p & row & Hpage & Hin & Hrow).
  apply rtc_once. constructor. eapply apply; [done|done|]. by rewrite Hrow.
Qed.

Lemma triple_apply_change o epoch applied change :
  present (StoredChange.sequence change) o ->
  triple (F:=F) served lib o (Engine.apply_change scope epoch applied change)
    (fun _ o' => advanced (StoredChange.sequence change) o o').
Proof.
  intros Hp. unfold Engine.apply_change. case_match; [by apply triple_record|].
  destruct (StoredChange.change_kind change); try (by apply purge_records).
  all: apply triple_seq; [auto with quiets|intros desired].
  all: apply triple_seq; [auto with quiets|intros node].
  all: by apply triple_record.
Qed.

(** A page's loop moves the cursor and nothing else. *)
Lemma triple_apply_changes epoch applied cs f p :
  paging f = Some p ->
  Forall (fun c => exists row, row ∈ page_events p
            /\ EventRow.sequence row = StoredChange.sequence c) cs ->
  triple (F:=F) served lib (Some f) (each (Engine.apply_change scope epoch applied) cs)
    (fun _ o' => exists a, o' = Some (with_cursor f (FeedProtocol.epoch f) a (acked f))).
Proof.
  intros Hp Hcs.
  assert (forall a, triple (F:=F) served lib (Some (with_cursor f (FeedProtocol.epoch f) a (acked f)))
            (each (Engine.apply_change scope epoch applied) cs)
            (fun _ o' => exists a, o' = Some (with_cursor f (FeedProtocol.epoch f) a (acked f))))
    as Hall; [|destruct f; apply (Hall _)].
  induction Hcs as [|c cs (row & Hin & Hrow) _ IH]; intros a; cbn [each].
  - apply triple_ret. by exists a.
  - eapply triple_bind.
    + apply triple_apply_change. intros g [= <-]. by exists p, row.
    + intros u o' [->|(g & [= <-] & _ & ->)]; [apply IH|]. cbn. apply (IH (a + 1)).
Qed.

(** *** Acknowledgement *)

Lemma quiet_cleanup : quiet (F:=F) served lib (Engine.cleanup_completed_operations scope).
Proof. unfold Engine.cleanup_completed_operations, Engine.lib. quiet. Qed.

(** A confirmed acknowledgement ends the page. *)
Lemma triple_retry_ack o :
  triple (F:=F) served lib o (Engine.retry_pending_ack scope) (fun out o' =>
    out = SyncOutcome.Progressed /\ exists f k n, o = Some f /\ acking f = Some k
      /\ PendingAck.through_sequence k <= n <= applied f
      /\ o' = Some (with_page (with_cursor f (PendingAck.epoch k) (applied f) n) None None)).
Proof.
  unfold Engine.retry_pending_ack, Engine.lib.
  eapply (triple_bind served lib o _ _ (fun k o' => o' = o
            /\ forall f, o = Some f -> acking f = Some k)).
  { apply triple_read. intros s k Hs Hk. split; [done|]. intros f ->.
    rewrite (acking_is _ _ _ Hs). unfold Apply.pending_ack in Hk.
    destruct (pending_acknowledgements s !! lib); cbn in Hk; [|done]. by rust_case. }
  intros k o' [-> Hk]. apply triple_seq; [auto with quiets|intros _].
  eapply triple_bind; [apply triple_set_status|]. intros _ o' [-> [f ->] ].
  eapply (triple_bind served lib _ _ _ (fun _ o' => o' = Some f)).
  { apply triple_send_or_fail; [|done]. exists f, k. by rewrite (Hk f eq_refl). }
  intros checkpoint o' ->. do 3 (apply triple_seq; [auto with quiets|intros _]).
  eapply (triple_bind served lib _ _ _ (fun _ o' => exists k n, acking f = Some k
      /\ PendingAck.through_sequence k <= n <= applied f
      /\ o' = Some (with_page (with_cursor f (PendingAck.epoch k) (applied f) n) None None))).
  { apply triple_call. intros now s s' u Hs H.
    apply confirm_step in H as (f' & p & k' & Hf & Hp & Hk' & Hb & ->).
    rewrite Hs in Hf. injection Hf as <-. split; [|by eauto].
    apply rtc_once. constructor. by eapply acknowledge. }
  intros _ o' (k' & n & Hk' & Hn & ->). apply triple_seq; [apply quiet_cleanup|intros _].
  apply triple_ret. split; [done|]. by exists f, k', n.
Qed.

Lemma triple_mark_committed o :
  triple (F:=F) served lib o (Calls.mark_page_locally_committed lib) (fun pending o' =>
    exists f p, o = Some f /\ paging f = Some p /\ applied f = page_through p
      /\ if is_none pending
         then page_through p = page_from p /\ o' = Some (with_page f None (acking f))
         else exists high evidence,
                o' = Some (with_page f (Some p) (Some (ack_of lib p high evidence)))).
Proof.
  unfold Calls.mark_page_locally_committed.
  eapply (triple_bind served lib o _ _ (fun empty o' =>
    exists f p, o = Some f /\ paging f = Some p /\ applied f = page_through p
      /\ if (empty : bool)
         then page_through p = page_from p /\ o' = Some (with_page f None (acking f))
         else exists high evidence,
                o' = Some (with_page f (Some p) (Some (ack_of lib p high evidence))))).
  - apply triple_call. intros now s s' b Hs H.
    apply mark_committed_step in H as (f & p & Hf & Hp & Ha & Hcase). rewrite Hs in Hf.
    split; [rewrite Hf; apply rtc_once|by exists f, p; destruct b; naive_solver].
    destruct Hcase as [(_ & He & ->)|(_ & high & ev & Hev & Hne & ->)]; constructor;
      [by eapply drop_empty|by eapply commit].
  - intros empty o' (f & p & -> & Hp & Ha & H). destruct empty.
    + apply triple_ret. by exists f, p.
    + destruct H as (high & ev & ->). apply triple_read. intros s k Hs Hk.
      exists f, p. split_and!; [done..|]. unfold Apply.pending_ack in Hk.
      rewrite <- (acking_is _ _ _ Hs) in Hk. cbn in Hk. by rust_case; eauto.
Qed.

(** The outcomes after which a page has been processed. *)
Definition settled (out : SyncOutcome.t) : bool :=
  match out with
  | SyncOutcome.Idle | SyncOutcome.Progressed | SyncOutcome.MoreAvailable => true
  | _ => false
  end.

(** They mean that exactly one page was processed.  A retried acknowledgement
    reports [Progressed] whether or not more pages follow. *)
Definition one_page (o : option feed) (out : SyncOutcome.t) (o' : option feed) : Prop :=
  settled out = true ->
  forall f, o = Some f -> boot f = None -> wf lib f -> (forall p, paging f = Some p -> served p) ->
  exists p f', o' = Some f' /\ served p /\ page_ok p
    /\ (page_more p = bool_decide (out = SyncOutcome.MoreAvailable)
        \/ out = SyncOutcome.Progressed /\ is_Some (acking f))
    /\ acked f = page_from p /\ acked f' = page_through p
    /\ boot f' = None /\ paging f' = None /\ epoch f' = epoch f.

(** A required rebaseline is surfaced with no page and no bootstrap in hand. *)
Definition surfaced (out : SyncOutcome.t) (o' : option feed) : Prop :=
  out = SyncOutcome.RebaselineRequired ->
  forall f, o' = Some f -> boot f = None /\ (rooted f = false \/ paging f = None).

(** What a call promises. *)
Definition synced (o : option feed) (out : SyncOutcome.t) (o' : option feed) : Prop :=
  one_page o out o' /\ surfaced out o'.

(** Other outcomes promise nothing. *)
Lemma synced_other o out o' :
  settled out = false -> out <> SyncOutcome.RebaselineRequired -> synced o out o'.
Proof. unfold synced, one_page, surfaced. intros -> ?. done. Qed.

Lemma synced_page o out o' :
  out <> SyncOutcome.RebaselineRequired -> one_page o out o' -> synced o out o'.
Proof. by unfold synced, surfaced. Qed.

Lemma synced_surface f :
  boot f = None -> rooted f = false \/ paging f = None ->
  synced (Some f) SyncOutcome.RebaselineRequired (Some f).
Proof. intros Hb Hp. split; [done|]. by intros _ g [= <-]. Qed.

(** Receiving a page and processing it. *)
Lemma synced_receive f p out o' :
  step served lib f (with_page f (Some p) None) -> served p ->
  synced (Some (with_page f (Some p) None)) out o' -> synced (Some f) out o'.
Proof.
  intros Hs Hp [H Hsurf]. split; [|done]. intros Hout g [= <-] Hb W _.
  destruct (H Hout _ eq_refl Hb (step_wf _ _ _ _ W Hs)) as (q & f' & -> & Hq & Hok & Hm & Hrest);
    [by intros q [= <-]|].
  exists q, f'. split_and!; try done; try apply Hrest.
  destruct Hm as [Hm|[_ [k Hk]]]; [by left|done].
Qed.

(** Retrying an acknowledgement processes the page in hand. *)
Lemma synced_retry f k n out :
  acking f = Some k -> PendingAck.through_sequence k <= n <= applied f -> out = SyncOutcome.Progressed ->
  synced (Some f) out
    (Some (with_page (with_cursor f (PendingAck.epoch k) (applied f) n) None None)).
Proof.
  intros Hk Hn ->. apply synced_page; [done|]. intros _ g [= <-] Hb W Hs. destruct (paging f) as [p|] eqn:Hp.
  - destruct (wf_acking _ _ W p k Hp Hk) as (Ha & high & ev & _ & ->).
    destruct (wf_page _ _ W p Hp) as (Hok & He & Hfrom & _).
    exists p. eexists. cbn in *. split_and!; eauto. cbn. lia.
  - destruct (wf_quiet _ _ W Hp) as [_ Hnone]. congruence.
Qed.

Lemma triple_apply_page o :
  triple (F:=F) served lib o (Engine.apply_pending_page scope) (synced o).
Proof.
  unfold Engine.apply_pending_page, Engine.lib.
  eapply (triple_bind served lib o _ _ (fun page o' => o' = o
    /\ exists s, abs lib s = o /\ Feed.pending_page lib s = Ok (Some page))).
  { apply triple_read. intros s page Hs Hp. split; [done|]. exists s. split; [done|].
    by destruct (Feed.pending_page lib s) as [[q|]|]; simplify_eq/=. }
  intros page o' (-> & s1 & Hs1 & Hpage).
  eapply (triple_bind served lib o _ _ (fun r o' => o' = o /\ is_Some o)).
  { apply triple_read. intros s r Hs Hr. split; [done|]. unfold Feed.replica in Hr.
    destruct (replicas s !! lib) as [r'|] eqn:Hrow; [|done].
    destruct (replica_view s r' Hrow) as (f & Hf & _). rewrite <- Hs, Hf. by eexists. }
  intros r o' (-> & f & ->).
  destruct (pending_page_view s1 page f Hpage Hs1) as (p & Hp & Hmore & Hcs).
  do 3 (apply triple_seq; [auto with quiets|intros _]).
  eapply triple_bind; [by eapply triple_apply_changes|]. intros _ o' (a & ->).
  do 2 (apply triple_seq; [auto with quiets|intros _]).
  eapply triple_bind; [apply triple_mark_committed|].
  intros pending o' (f1 & p1 & [= <-] & Hp1 & Ha & Hend). cbn in Hp1, Ha.
  rewrite Hp in Hp1. injection Hp1 as <-. subst a. case_match.
  - destruct Hend as [He ->]. apply triple_seq; [auto with quiets|intros _].
    apply triple_ret, synced_page; [by case_match|]. intros _ g [= <-] Hb W Hs. exists p. eexists. split; [done|].
    destruct (wf_page _ _ W p Hp) as (Hok & ? & Hfrom & ?). cbn. rewrite Hmore.
    split_and!; auto; [by destruct (StoredPage.has_more page); left|congruence].
  - destruct Hend as (high & ev & ->). eapply triple_bind; [apply triple_retry_ack|].
    intros out o'' (-> & f2 & k & n & [= <-] & [= <-] & Hn & ->). cbn in Hn.
    apply triple_ret, synced_page; [by case_match|]. intros Hout g [= <-] Hb W Hs. exists p. eexists. split; [done|].
    destruct (wf_page _ _ W p Hp) as (Hok & ? & Hfrom & ?). cbn. rewrite Hmore.
    split_and!; auto; [by destruct (StoredPage.has_more page); left|lia].
Qed.

(** *** Bootstrap and handoff *)

Lemma triple_begin_bootstrap f :
  rooted f = false \/ (paging f = None /\ acking f = None) -> handoff f = None ->
  triple (F:=F) served lib (Some f) (Engine.begin_bootstrap scope) (fun _ _ => True).
Proof.
  intros Hp Hh. unfold Engine.begin_bootstrap, Calls.begin_bootstrap, Engine.lib.
  apply triple_seq; [by apply quiet_send_or_fail|intros b].
  do 3 (apply triple_seq; [auto with quiets|intros _]).
  apply triple_seq; [auto with quiets|intros [existing|]].
  - by apply triple_reject.
  - eapply (triple_bind served lib _ _ _ (fun _ _ => True)).
    + apply triple_call. intros now s s' u Hs H. split; [|done].
      apply insert_session_step in H as (f' & Hf & Hb & Hr & ->). simplify_eq.
      apply rtc_once. constructor. by apply begin_bootstrap.
    + intros _ o' _. by apply triple_quiet; [apply quiet_set_status|].
Qed.

Lemma triple_complete_bootstrap o record :
  triple (F:=F) served lib o (Engine.complete_bootstrap scope record)
    (fun out _ => out <> SyncOutcome.RebaselineRequired).
Proof.
  unfold Engine.complete_bootstrap. apply triple_seq; [auto with quiets|intros evidence].
  apply triple_seq; [by apply quiet_send_or_fail|intros completion].
  do 4 (apply triple_seq; [auto with quiets|intros _]).
  eapply (triple_bind served lib _ _ _ (fun _ _ => True)).
  - apply triple_call. intros now s s' u Hs H. split; [|done].
    apply complete_bootstrap_step in H as (f & Hf & Hb & Hr & ->). rewrite <- Hs, Hf.
    apply rtc_once. constructor. by apply finish_bootstrap.
  - intros _ o' _. by apply triple_ret.
Qed.

Lemma triple_advance_bootstrap o record :
  triple (F:=F) served lib o (Engine.advance_bootstrap scope config record)
    (fun out _ => out <> SyncOutcome.RebaselineRequired).
Proof.
  pose proof (framed_bootstrap_page scope) as Hpage.
  pose proof (framed_local_complete lib) as Hlocal.
  unfold Engine.advance_bootstrap, Engine.lib.
  destruct (BootstrapRecord.state record); try apply triple_complete_bootstrap.
  { repeat (apply triple_seq; [quiet|intros ?]). by apply triple_ret. }
  all: apply triple_seq; [auto with quiets|intros desired]; case_match;
    [apply triple_seq; [quiet|intros _]; by apply triple_ret|].
  all: apply triple_seq; [auto with quiets|intros sweep]; case_match;
    [apply triple_seq; [quiet|intros _]; by apply triple_ret|].
  all: do 2 (apply triple_seq; [auto with quiets|intros _]).
  all: apply triple_seq; [auto with quiets|intros current]; apply triple_complete_bootstrap.
Qed.

Lemma triple_rebaseline_required surface f :
  paging f = None -> acking f = None -> boot f = None -> handoff f = None ->
  triple (F:=F) served lib (Some f) (Engine.rebaseline_required scope surface)
    (synced (Some f)).
Proof.
  intros Hp Ha Hb Hh. unfold Engine.rebaseline_required.
  case_match; [apply triple_ret, synced_surface; auto|].
  eapply triple_bind; [apply triple_begin_bootstrap; [by right|done]|].
  intros _ o' _. by apply triple_ret, synced_other.
Qed.

Lemma triple_or_rebaseline {A} surface f (answer : result A RemoteError) k :
  paging f = None -> acking f = None -> boot f = None -> handoff f = None ->
  (forall a, answer = Ok a -> triple (F:=F) served lib (Some f) (k a) (synced (Some f))) ->
  triple (F:=F) served lib (Some f) (Engine.or_rebaseline scope surface answer k)
    (synced (Some f)).
Proof.
  intros Hp Ha Hb Hh Hk. unfold Engine.or_rebaseline. destruct answer; [by apply Hk|].
  case_match; [by apply triple_rebaseline_required|apply triple_raise].
Qed.

Lemma triple_fetch surface f r :
  paging f = None -> acking f = None -> boot f = None -> handoff f = None -> rooted f = true ->
  epoch f = Replica.journal_epoch r -> applied f = Replica.applied_sequence r ->
  acked f = Replica.acknowledged_sequence r ->
  triple (F:=F) served lib (Some f) (Engine.fetch_and_apply scope config surface r)
    (synced (Some f)).
Proof.
  intros Hp Ha Hb Hh Hr He Happ Hack. unfold Engine.fetch_and_apply.
  eapply (triple_bind served lib _ _ _ (fun _ o' => o' = Some f)); [by apply triple_send|].
  intros answer o' ->. apply triple_or_rebaseline; [done..|]. intros checkpoint _.
  apply triple_seq; [auto with quiets|intros _].
  case_match; [by apply triple_rebaseline_required|].
  eapply (triple_bind served lib _ _ _ (fun _ o' => o' = Some f /\ applied f = acked f)).
  { apply triple_reject. intros H'. split; [done|]. rust_bool. congruence. }
  intros _ o' [-> Heq].
  eapply (triple_bind served lib _ _ _ (fun answer o' => o' = Some f
    /\ forall page, answer = Ok page -> served (page_of page))).
  { apply triple_send; [done|]. intros t. split; [done|]. apply server. }
  intros answer' o' [-> Hserved]. apply triple_or_rebaseline; [done..|]. intros page Hpage.
  apply Hserved in Hpage.
  eapply (triple_bind served lib _ _ _ (fun _ o' => o' = Some f /\ FeedPage.scope page = scope)).
  { apply triple_reject. intros H'. by rust_bool. }
  intros _ o' [-> Hscope].
  eapply (triple_bind served lib _ _ _ (fun _ o' => o' = Some f /\ FeedPage.epoch page = epoch f)).
  { apply triple_reject. intros H'. rust_bool. by rewrite He. }
  intros _ o' [-> Hepoch].
  eapply (triple_bind served lib _ _ _ (fun _ o' => o' = Some f /\ acked f <= FeedPage.from_sequence page)).
  { apply triple_reject. intros H'. rust_bool. by rewrite Hack. }
  intros _ o' [-> Hge].
  eapply (triple_bind served lib _ _ _ (fun _ o' => o' = Some f /\ FeedPage.from_sequence page = acked f)).
  { apply triple_reject. intros H'. rust_bool. split; [done|lia]. }
  intros _ o' [-> Hfrom].
  eapply (triple_bind served lib _ _ _ (fun _ o' =>
    o' = Some (with_page f (Some (page_of page)) None)
    /\ step served lib f (with_page f (Some (page_of page)) None))).
  { apply triple_call. intros now s s' u Hs H'.
    eapply persist_step in H' as [Hok ->]; [|by rewrite Hscope|done|done].
    rewrite Ha. assert (step served lib f (with_page f (Some (page_of page)) None)) as Hstep
      by by apply receive.
    split; [by apply rtc_once|done]. }
  intros _ o' [-> Hstep]. apply triple_seq; [auto with quiets|intros _].
  eapply triple_weaken; [apply triple_apply_page|]. intros out o' H'. by eapply synced_receive.
Qed.

(** *** One call *)

Lemma quiet_binding : quiet (F:=F) served lib (Engine.validate_binding (F:=F) scope profile).
Proof. unfold Engine.validate_binding. quiet. Qed.

Lemma triple_inner o surface :
  triple (F:=F) served lib o (Engine.synchronize_once_inner scope profile config surface)
    (synced o).
Proof.
  unfold Engine.synchronize_once_inner, Engine.lib.
  apply triple_seq; [apply quiet_binding|intros _].
  eapply (triple_bind served lib o _ _ (fun b o' => o' = o
    /\ (b = false -> forall f, o = Some f -> handoff f = None))).
  { apply triple_read. intros s b Hs [= <-]. split; [done|]. intros Hb f ->.
    unfold abs, Bootstrap.pending_rebaseline_handoff in *.
    destruct (replicas s !! lib); [|done]. injection Hs as <-. cbn.
    by destruct (rebaseline_applied_handoffs s !! lib). }
  intros b o' [-> Hb].
  eapply (triple_bind served lib o _ _ (fun _ o' => o' = o /\ b = false)); [by apply triple_reject|].
  intros _ o' [-> ->]. specialize (Hb eq_refl).
  apply triple_seq; [auto with quiets|intros issues].
  case_match; [by apply triple_ret, synced_other|].
  apply triple_seq; [auto with quiets|intros _].
  apply triple_seq; [apply quiet_cleanup|intros _].
  eapply (triple_bind served lib o _ _ (fun b o' => o' = o
    /\ forall f, o = Some f -> boot f = None <-> b = None)).
  { apply triple_read. intros s b Hs [= <-]. split; [done|]. intros f ->.
    unfold abs, Bootstrap.bootstrap in *.
    destruct (replicas s !! lib); [|done]. injection Hs as <-. cbn.
    by destruct (bootstrap_sessions s !! lib). }
  intros [record|] o' [-> Hn].
  { eapply triple_weaken; [apply triple_advance_bootstrap|]. intros out o' Hout.
    apply synced_page; [done|]. intros _ f Hf Hboot. by apply (Hn f Hf) in Hboot. }
  eapply (triple_bind served lib o _ _ (fun r o' => o' = o /\ exists f, o = Some f
    /\ epoch f = Replica.journal_epoch r /\ applied f = Replica.applied_sequence r
    /\ acked f = Replica.acknowledged_sequence r /\ rooted f = is_some (Replica.root_node_id r))).
  { apply triple_read. intros s r <- Hr. split; [done|]. unfold Feed.replica in Hr.
    apply replica_view. by destruct (replicas s !! lib); simplify_eq/=. }
  intros r o' (-> & f & -> & He & Happ & Hack & Hroot).
  specialize (Hb f eq_refl). pose proof (proj2 (Hn f eq_refl) eq_refl) as Hboot.
  assert (is_none (Replica.root_node_id r) = true ->
          triple (F:=F) served lib (Some f) (let! _ := Engine.begin_bootstrap scope in
                               ret SyncOutcome.BootstrapRequired) (synced (Some f))) as Hstart.
  { intros Hnone. eapply triple_bind; [apply triple_begin_bootstrap; [left|done]|].
    - rewrite Hroot. by apply negb_true_iff.
    - intros _ o' _. by apply triple_ret, synced_other. }
  destruct (is_none (Replica.root_node_id r)) eqn:Hnone.
  { destruct surface; [|by apply Hstart].
    eapply (triple_bind served lib _ _ _ (fun _ o' => o' = Some f)); [by apply triple_send|].
    intros [checkpoint|error] o' ->.
    - apply triple_seq; [auto with quiets|intros _]. by apply Hstart.
    - case_match; [|apply triple_raise]. apply triple_ret, synced_surface; [done|left].
      rewrite Hroot. by apply negb_true_iff. }
  eapply (triple_bind served lib _ _ _ (fun k o' => o' = Some f /\ (is_some k = false -> acking f = None))).
  { apply triple_read. intros s k Hs Hk. split; [done|]. intros Hnk. rewrite (acking_is _ _ _ Hs).
    unfold Apply.pending_ack in Hk. destruct (pending_acknowledgements s !! lib); [|done].
    by rust_case. }
  intros k o' [-> Hk]. case_match.
  { eapply triple_weaken; [apply triple_retry_ack|]. intros out o' (Hout & g & k' & n & [= <-] & Hk' & Hle & ->).
    by apply synced_retry. }
  specialize (Hk eq_refl).
  eapply (triple_bind served lib _ _ _ (fun p o' => o' = Some f /\ (is_some p = false -> paging f = None))).
  { apply triple_read. intros s p Hs Hp. split; [done|]. intros Hnp. unfold abs, abs_page in Hs.
    unfold Feed.pending_page in Hp. destruct (replicas s !! lib); [|done]. injection Hs as <-. cbn.
    destruct (pending_pages s !! lib); [|done]. by rust_case. }
  intros p o' [-> Hp]. case_match; [apply triple_apply_page|]. specialize (Hp eq_refl).
  apply triple_fetch; try done. rewrite Hroot. unfold is_none in Hnone. by apply negb_false_iff.
Qed.

Lemma triple_synchronize o surface :
  triple (F:=F) served lib o (Engine.synchronize scope profile config surface) (synced o).
Proof.
  unfold Engine.synchronize. eapply triple_inspecting; [apply triple_inner|..].
  - intros out o' H. by apply triple_ret.
  - intros e o'. destruct e; try case_bool_decide;
      try (by apply triple_ret, synced_other); try apply triple_raise.
    all: try (apply triple_seq; [auto with quiets|intros _]; by apply triple_ret, synced_other).
    all: eapply (triple_inspecting served lib _ _ _ (fun _ _ => True));
      [by apply triple_quiet; [apply quiet_set_status|]|..].
    all: intros; apply triple_raise.
Qed.

Lemma triple_handoff o snapshot_id :
  triple (F:=F) served lib o (Engine.complete_rebaseline_handoff scope profile snapshot_id) (fun _ _ => True).
Proof.
  unfold Engine.complete_rebaseline_handoff. apply triple_seq; [apply quiet_binding|intros _].
  apply triple_seq; [auto with quiets|intros [pending|] ]; [|by apply triple_ret].
  apply triple_seq; [auto with quiets|intros _].
  eapply (triple_bind served lib _ _ _ (fun _ o' => o' = o)); [by apply triple_send|]. intros answer o' ->.
  apply triple_seq; [auto with quiets|intros confirmation].
  do 4 (apply triple_seq; [auto with quiets|intros _]).
  apply triple_call. intros now s s' u Hs H. split; [|done].
  apply finalize_step in H as [[-> _]|(f & e & r & Hf & Hh & ->)]; [by rewrite Hs|].
  rewrite <- Hs, Hf. apply rtc_once. constructor. by apply finish_handoff.
Qed.

End Refinement.
