(* ===== verification/Disk.v ===== *)
(** * The managed folder on disk

    [client-sync/src/replica.rs], the Unix build of [FilesystemLocalReplica]:
    the managed root with its [.synveil] control tree as a map from component
    lists to entries, the file-system calls the code makes on it, and the
    [LocalReplica] methods the engine uses.  A call fails for the reasons the
    tree gives (missing, occupied, wrong kind); failures of the device, and
    changes made by another process during one method, are not modelled. *)

From S2P Require Import Prelude Vocabulary Models Rebaseline SyncTypes ClientPaths ClientStore.
From S2P Require Import SyncWorld.

(** ** The tree *)

Inductive Entry : Type := Directory | File (content : rstring) | Redirect | Special.

#[global] Instance Entry_eq_dec : EqDecision Entry.
Proof. solve_decision. Defined.

Notation location := (list rstring) (only parsing).

(** [canonical] says that the configured root still resolves to itself. *)
Record Disk := mk_Disk {
  root : option Entry; canonical : bool; entries : gmap (list rstring) Entry }.

Definition set_entries (d : Disk) (m : gmap (list rstring) Entry) : Disk :=
  mk_Disk (root d) (canonical d) m.

Definition entry_at (d : Disk) (p : location) : option Entry :=
  match p with [] => root d | _ => entries d !! p end.

(** [fs::symlink_metadata]: a path below something that is not a directory is
    an error other than [NotFound]. *)
Inductive Stat : Type := Found (e : Entry) | NotFound | Unreadable.

#[global] Instance Stat_eq_dec : EqDecision Stat.
Proof. solve_decision. Defined.

Fixpoint stat_below (d : Disk) (at_ rest : location) : Stat :=
  match rest with
  | [] => match entry_at d at_ with Some e => Found e | None => NotFound end
  | name :: rest' =>
      match entry_at d at_ with
      | Some Directory => stat_below d (at_ ++ [name]) rest'
      | Some _ => Unreadable
      | None => NotFound
      end
  end.

Definition symlink_metadata (d : Disk) (p : location) : Stat := stat_below d [] p.

Definition exists_ (d : Disk) (p : location) : bool :=
  match symlink_metadata d p with Found _ => true | _ => false end.

(** ** Effects on the tree *)

Definition D (A : Type) : Type := Disk -> Disk * result A ClientSyncError.

Definition dret {A} (a : A) : D A := fun d => (d, Ok a).
Definition dfail {A} (e : ClientSyncError) : D A := fun d => (d, Err e).
Definition dbind {A B} (m : D A) (k : A -> D B) : D B := fun d =>
  match m d with
  | (d', Ok a) => k a d'
  | (d', Err e) => (d', Err e)
  end.
Definition dlift {A} (r : result A ClientSyncError) : D A := fun d => (d, r).
Definition dget {A} (f : Disk -> A) : D A := fun d => (d, Ok (f d)).

Notation "'let$' x ':=' m 'in' k" := (dbind m (fun x => k))
  (at level 10, x binder, m at level 200, k at level 200,
   format "'[v' 'let$'  x  ':='  m  'in' '//' k ']'") : rust_scope.

Definition parent_of (p : location) : location := removelast p.

(** What is left of [a] below [p]. *)
Fixpoint below (p a : location) : option location :=
  match p, a with
  | [], _ => Some a
  | x :: p', y :: a' => if x == y then below p' a' else None
  | _ :: _, [] => None
  end.

(** The subtree at [p], the rest, and the subtree re-rooted at [q]. *)
Definition inside (p : location) (m : gmap (list rstring) Entry) : gmap (list rstring) Entry :=
  filter (fun e => is_some (below p e.1) = true) m.
Definition outside (p : location) (m : gmap (list rstring) Entry) : gmap (list rstring) Entry :=
  filter (fun e => is_some (below p e.1) = false) m.
Definition graft (p q : location) (m : gmap (list rstring) Entry) : gmap (list rstring) Entry :=
  list_to_map (map (fun e : list rstring * Entry => (q ++ default [] (below p e.1), e.2))
                 (map_to_list (inside p m))).

Definition is_leaf (p : location) (m : gmap (list rstring) Entry) : bool :=
  forallb (fun e : list rstring * Entry => (e.1 == p) || is_none (below p e.1)) (map_to_list m).

(** [fs::create_dir], [fs::remove_file] and [create_new]. *)
Definition create_dir (p : location) : D unit := fun d =>
  match symlink_metadata d (parent_of p), symlink_metadata d p with
  | Found Directory, NotFound => (set_entries d (<[p := Directory]> (entries d)), Ok tt)
  | _, _ => (d, Err LocalIo)
  end.

Inductive Removal : Type := Removed | Absent | Failed.

Definition remove_file (p : location) : Disk -> Disk * Removal := fun d =>
  match symlink_metadata d p with
  | NotFound => (d, Absent)
  | Found Directory | Unreadable => (d, Failed)
  | Found _ => (set_entries d (delete p (entries d)), Removed)
  end.

Definition create_new (p : location) (content : rstring) : D unit := fun d =>
  match symlink_metadata d (parent_of p), symlink_metadata d p with
  | Found Directory, NotFound => (set_entries d (<[p := File content]> (entries d)), Ok tt)
  | _, _ => (d, Err LocalIo)
  end.

(** [fs::rename]: the destination may be absent, a non-directory replaced by a
    non-directory, or an empty directory replaced by a directory. *)
Definition rename (p q : location) : D unit := fun d =>
  if p == q then (if exists_ d p then (d, Ok tt) else (d, Err LocalIo))
  else
  let moved := set_entries d (graft p q (entries d) ∪ outside q (outside p (entries d))) in
  match symlink_metadata d p, symlink_metadata d (parent_of q) with
  | Found e, Found Directory =>
      if is_some (below p q) then (d, Err LocalIo)
      else
        match symlink_metadata d q, e with
        | NotFound, _ => (moved, Ok tt)
        | Found Directory, Directory =>
            if is_leaf q (entries d) then (moved, Ok tt) else (d, Err LocalIo)
        | Found Directory, _ | Found _, Directory | Unreadable, _ => (d, Err LocalIo)
        | Found _, _ => (moved, Ok tt)
        end
  | _, _ => (d, Err LocalIo)
  end.

(** The names in a directory. *)
Definition names_in (p : location) (m : gmap (list rstring) Entry) : list rstring :=
  omap (fun e : list rstring * Entry =>
          match below p e.1 with Some [name] => Some name | _ => None end) (map_to_list m).

Definition read_dir (p : location) : D (list rstring) := fun d =>
  match symlink_metadata d p with
  | Found Directory => (d, Ok (names_in p (entries d)))
  | _ => (d, Err LocalIo)
  end.

(** [fs::read_to_string] of a text file. *)
Inductive Text : Type := Read (content : rstring) | Missing | ReadError.

Definition read_to_string (d : Disk) (p : location) : Text :=
  match symlink_metadata d p with
  | Found (File content) => Read content
  | NotFound => Missing
  | _ => ReadError
  end.

(** ** Third-party functions the code calls *)

(** [uuid]: display and parsing; [sha2]: the digest. *)
Class Identifiers := {
  uuid_text : Z -> rstring;
  uuid_parse : rstring -> option Z;
  uuid_version : Z -> Z
}.

Class Sha := sha256 : rstring -> list Z.

(** ** [FilesystemLocalReplica] *)

Definition MAX_DOWNLOAD_BYTES : Z := 2 ^ 40.
Definition MAX_CONTENT_CHUNK_BYTES : Z := 1024 * 1024.
Definition MAX_LOCAL_SCAN_ENTRIES : Z := 100000.

Definition CONTROL_DIRECTORY : rstring := lit ".synveil".
Definition MARKER_FILE : rstring := lit "root-id".
Definition STAGING_DIRECTORY : rstring := lit "staging".
Definition QUARANTINE_DIRECTORY : rstring := lit "quarantine".
Definition MARKER_VERSION : rstring := lit "SYNVEIL_MANAGED_ROOT_V1".
Definition PROFILED_MARKER_VERSION : rstring := lit "SYNVEIL_MANAGED_ROOT_V2".
Definition OPERATION_RECEIPT_VERSION : rstring := lit "SYNVEIL_OPERATION_APPLIED_V1".

Module Managed.
Section Managed.

Context `{U : Unicode} `{I : Identifiers} `{H : Sha}.
Context (scope : ReplicaScope) (binding : Z) (server_profile_id : option Z)
  (deferred_until_available : bool).

(** [relative.as_path().components()]. *)
Definition components (relative : rstring) : location :=
  if Path.is_root relative then [] else split 47 relative.

Definition control : location := [CONTROL_DIRECTORY].
Definition marker : location := [CONTROL_DIRECTORY; MARKER_FILE].

(** [str::lines]. *)
Definition strip_cr (line : rstring) : rstring :=
  match reverse line with
  | 13 :: before => reverse before
  | _ => line
  end.
Definition lines (text : rstring) : list rstring :=
  let parts := split 10 text in
  map strip_cr (match reverse parts with
                | [] :: before => reverse before
                | _ => parts
                end).

Definition parse_binding (value : rstring) : result Z ClientSyncError :=
  let? id := ok_or (uuid_parse value) InvalidRoot in
  if (uuid_version id != 7) || (uuid_text id != value) then Err InvalidRoot else Ok id.

(** [open_marker_only], on the text of the marker. *)
Definition read_marker (text : rstring) : result Z ClientSyncError :=
  if 512 <? len text then Err InvalidRoot
  else
    let expected_version :=
      if is_some server_profile_id then PROFILED_MARKER_VERSION else MARKER_VERSION in
    let ls := lines text in
    if ls !! 0%nat != Some expected_version then Err WrongServerProfile
    else
      let? value := ok_or (ls !! 1%nat) InvalidRoot in
      let? id := parse_binding value in
      if (ls !! 2%nat != Some (uuid_text (owner_user_id scope)))
         || (ls !! 3%nat != Some (uuid_text (device_id scope)))
         || (ls !! 4%nat != Some (uuid_text (library_id scope)))
      then Err WrongRootBinding
      else
        match server_profile_id with
        | Some profile =>
            if ls !! 5%nat != Some (uuid_text profile) then Err WrongServerProfile
            else if is_some (ls !! 6%nat) then Err WrongRootBinding else Ok id
        | None => if is_some (ls !! 5%nat) then Err WrongRootBinding else Ok id
        end.

Definition reject_redirect (p : location) (d : Disk) : result unit ClientSyncError :=
  match symlink_metadata d p with
  | Found Redirect => Err RootRedirected
  | Found _ => Ok tt
  | _ => Err InvalidRoot
  end.

Definition open_marker_only (d : Disk) : result Z ClientSyncError :=
  let? _ := reject_redirect marker d in
  match read_to_string d marker with
  | Read text => read_marker text
  | _ => Err WrongRootBinding
  end.

Definition ensure_control_child (name : rstring) : D unit := fun d =>
  let p := [CONTROL_DIRECTORY; name] in
  match symlink_metadata d p with
  | Found Directory => (d, Ok tt)
  | NotFound => create_dir p d
  | _ => (d, Err InvalidRoot)
  end.

Definition ensure_control_layout : D unit :=
  let$ found := dget (fun d => symlink_metadata d control) in
  match found with
  | Found Directory =>
      let$ _ := ensure_control_child STAGING_DIRECTORY in
      ensure_control_child QUARANTINE_DIRECTORY
  | _ => dfail InvalidRoot
  end.

(** The error a missing root gives. *)
Definition root_error (e : ClientSyncError) : ClientSyncError :=
  if deferred_until_available && bool_decide (e ∈ [InvalidRoot; RootUnavailable])
  then RootUnavailable else e.

Definition validate_root : D unit :=
  let$ present := dget (reject_redirect []) in
  let$ _ := dlift (map_err root_error present) in
  let$ same := dget canonical in
  if negb same then dfail RootRedirected
  else
    let$ redirect := dget (reject_redirect marker) in
    let$ _ := dlift redirect in
    let$ opened := dget open_marker_only in
    let$ reopened := dlift opened in
    if reopened != binding then dfail WrongRootBinding else ensure_control_layout.

(** [reject_existing_redirects], from the component after [at_] on. *)
Fixpoint reject_redirects_from (d : Disk) (at_ rest : location) : result unit ClientSyncError :=
  match rest with
  | [] => Ok tt
  | name :: rest' =>
      let here := at_ ++ [name] in
      match symlink_metadata d here with
      | Found Redirect => Err RootRedirected
      | Found _ => reject_redirects_from d here rest'
      | NotFound => Ok tt
      | Unreadable => Err LocalIo
      end
  end.

Definition reject_existing_redirects (p : location) (d : Disk) : result unit ClientSyncError :=
  let? _ := reject_redirect [] d in
  reject_redirects_from d [] p.

Definition resolve (relative : rstring) : D location :=
  let$ _ := validate_root in
  let p := components relative in
  let$ redirects := dget (reject_existing_redirects p) in
  let$ _ := dlift redirects in
  dret p.

(** *** Locations *)

Definition internal_relative (parts : list rstring) : result rstring ClientSyncError :=
  Path.new (join 47 parts).

Definition directory_staging_location (operation_id : Z) : result rstring ClientSyncError :=
  internal_relative [CONTROL_DIRECTORY; STAGING_DIRECTORY; uuid_text operation_id ++ lit ".dir"].
Definition staging_location (operation_id : Z) : result rstring ClientSyncError :=
  internal_relative [CONTROL_DIRECTORY; STAGING_DIRECTORY; uuid_text operation_id ++ lit ".part"].
Definition quarantine_location (node_id operation_id : Z) : result rstring ClientSyncError :=
  internal_relative [CONTROL_DIRECTORY; QUARANTINE_DIRECTORY;
                     uuid_text node_id ++ lit "-" ++ uuid_text operation_id].
Definition operation_receipt_location (operation_id : Z) : result rstring ClientSyncError :=
  internal_relative [CONTROL_DIRECTORY; STAGING_DIRECTORY; uuid_text operation_id ++ lit ".applied"].
Definition expected_operation_receipt (operation_id : Z) : rstring :=
  OPERATION_RECEIPT_VERSION ++ [10] ++ uuid_text operation_id ++ [10].

(** *** Inspection *)

Definition fingerprint_of (found : Stat) : result (option LocalFingerprint.t) ClientSyncError :=
  match found with
  | NotFound => Ok None
  | Unreadable => Err LocalIo
  | Found Redirect => Err RootRedirected
  | Found Directory => Ok (Some LocalFingerprint.directory)
  | Found Special => Err InvalidState
  | Found (File content) => Ok (Some (LocalFingerprint.file (len content) (sha256 content)))
  end.

Definition inspect (relative : rstring) : D (option LocalFingerprint.t) :=
  let$ p := resolve relative in
  let$ found := dget (fun d => symlink_metadata d p) in
  dlift (fingerprint_of found).

Definition ensure_directory (relative : rstring) : D unit :=
  if Path.is_root relative then validate_root
  else
    let$ p := resolve relative in
    let$ found := dget (fun d => symlink_metadata d p) in
    match found with
    | Found Directory => dret tt
    | Found _ => dfail InvalidState
    | Unreadable => dfail LocalIo
    | NotFound =>
        let$ parent := dget (reject_redirect (parent_of p)) in
        let$ _ := dlift parent in
        create_dir p
    end.

(** Opening a file and reading it: a read returns what is there. *)
Definition open_visible_file (relative : rstring) : D rstring :=
  let$ p := resolve relative in
  let$ found := dget (fun d => symlink_metadata d p) in
  match found with
  | Found (File content) => dret content
  | Found _ => dfail RootRedirected
  | _ => dfail LocalIo
  end.

Definition read_staged_chunk (staging : rstring) (offset max : Z) : D rstring :=
  if is_none (strip_prefix (CONTROL_DIRECTORY ++ [47] ++ STAGING_DIRECTORY ++ [47]) staging)
  then dfail InvalidRelativePath
  else
    let$ content := open_visible_file staging in
    let chunk := take_z max (drop_z offset content) in
    if is_empty chunk then dfail ContentIntegrityMismatch else dret chunk.

(** The loop of [has_portable_name_collision]. *)
Fixpoint scan_names (target_name : rstring) (seen : Z) (names : list rstring) :
  result bool ClientSyncError :=
  match names with
  | [] => Ok false
  | name :: rest =>
      if MAX_LOCAL_SCAN_ENTRIES <? seen + 1 then Err ResourceLimit
      else if (name != target_name)
              && (Portable.local_collision_key name == Portable.local_collision_key target_name)
      then Ok true
      else scan_names target_name (seen + 1) rest
  end.

Definition has_portable_name_collision (relative : rstring) : D bool :=
  if Path.is_root relative then dret false
  else
    let$ parent := dlift (ok_or (Path.parent relative) InvalidRelativePath) in
    let$ p := resolve parent in
    let$ names := read_dir p in
    let$ target := dlift (ok_or (last (split 47 relative)) InvalidRelativePath) in
    dlift (scan_names target 0 names).

(** The paths below a directory, the control tree of the root excepted. *)
Fixpoint collect (relative : rstring) (count : Z) (found : list (location * Entry)) :
  result (list rstring) ClientSyncError :=
  match found with
  | [] => Ok []
  | (rest, e) :: more =>
      let? child := Path.descend relative rest in
      if e == Redirect then Err RootRedirected
      else if MAX_LOCAL_SCAN_ENTRIES <? count + 1 then Err ResourceLimit
      else
        let? more := collect relative (count + 1) more in
        Ok (child :: more)
  end.

Definition descendants (relative : rstring) (m : gmap (list rstring) Entry) :
  list (location * Entry) :=
  omap (fun e : list rstring * Entry =>
          match below (components relative) e.1 with
          | Some (name :: rest) =>
              if Path.is_root relative && (name == CONTROL_DIRECTORY) then None
              else Some (name :: rest, e.2)
          | _ => None
          end) (map_to_list m).

Definition list_descendants (relative : rstring) : D (list rstring) :=
  let$ p := resolve relative in
  let$ found := dget (fun d => symlink_metadata d p) in
  match found with
  | Found Directory => let$ m := dget entries in dlift (collect relative 0 (descendants relative m))
  | _ => dfail LocalIo
  end.

(** *** Staging *)

Definition stage_directory (operation_id : Z) : D rstring :=
  let$ staging := dlift (directory_staging_location operation_id) in
  let$ found := inspect staging in
  match found with
  | Some fingerprint =>
      if fingerprint == LocalFingerprint.directory then dret staging else dfail InvalidState
  | None =>
      let$ p := resolve staging in
      let$ _ := create_dir p in
      dret staging
  end.

(** Writes [content] at the end of the file at [p]. *)
Definition append (p : location) (content : rstring) : D unit := fun d =>
  match entries d !! p with
  | Some (File before) => (set_entries d (<[p := File (before ++ content)]> (entries d)), Ok tt)
  | _ => (d, Err LocalIo)
  end.

(** [let _ = fs::remove_file(..)]. *)
Definition discard (p : location) : D unit := fun d => ((remove_file p d).1, Ok tt).

(** The download loop: the bytes received so far are in the file. *)
Fixpoint receive (p : location) (expected_length : Z) (received : rstring)
  (content : list (result rstring RemoteError)) : D rstring :=
  match content with
  | [] => dret received
  | Err error :: _ => dfail (Remote error)
  | Ok chunk :: rest =>
      if MAX_CONTENT_CHUNK_BYTES <? len chunk
      then let$ _ := discard p in dfail ResourceLimit
      else
        let$ total := dlift (ok_or (checked_add64 (len received) (len chunk)) ResourceLimit) in
        if (expected_length <? total) || (MAX_DOWNLOAD_BYTES <? total)
        then let$ _ := discard p in dfail ContentIntegrityMismatch
        else
          let$ _ := append p chunk in
          receive p expected_length (received ++ chunk) rest
  end.

(** The download into a fresh staging file. *)
Definition download (staging : rstring) (p : location) (expected_length : Z)
  (expected_sha256 : list Z) (content : list (result rstring RemoteError)) : D rstring :=
  let$ _ := create_new p [] in
  let$ received := receive p expected_length [] content in
  if (len received != expected_length) || (sha256 received != expected_sha256)
  then let$ _ := discard p in dfail ContentIntegrityMismatch
  else dret staging.

(** [fs::remove_file(..)?]. *)
Definition remove_or_fail (p : location) : D unit := fun d =>
  match remove_file p d with
  | (d', Removed) => (d', Ok tt)
  | (d', _) => (d', Err LocalIo)
  end.

Definition stage_content (operation_id expected_length : Z) (expected_sha256 : list Z)
  (content : list (result rstring RemoteError)) : D rstring :=
  if MAX_DOWNLOAD_BYTES <? expected_length then dfail ResourceLimit
  else
    let$ staging := dlift (staging_location operation_id) in
    let$ p := resolve staging in
    let$ there := dget (fun d => exists_ d p) in
    if (there : bool)
    then
      let$ found := inspect staging in
      if found == Some (LocalFingerprint.file expected_length expected_sha256) then dret staging
      else
        let$ _ := remove_or_fail p in
        download staging p expected_length expected_sha256 content
    else download staging p expected_length expected_sha256 content.

(** *** Moves *)

Definition expose_staged_file (staging destination : rstring) (operation_id : Z) : D unit :=
  let$ source := resolve staging in
  let$ target := resolve destination in
  let$ parent := dget (reject_redirect (parent_of target)) in
  let$ _ := dlift parent in
  rename source target.

Definition rename_path (source destination : rstring) : D unit :=
  if source == destination then dret tt
  else
    let$ p := resolve source in
    let$ q := resolve destination in
    let$ there := dget (fun d => exists_ d q) in
    if (there : bool) then dfail InvalidState
    else
      let$ parent := dget (reject_redirect (parent_of q)) in
      let$ _ := dlift parent in
      rename p q.

Definition quarantine_path (source : rstring) (node_id operation_id : Z) : D rstring :=
  let$ quarantine := dlift (quarantine_location node_id operation_id) in
  let$ p := resolve source in
  let$ q := resolve quarantine in
  let$ there := dget (fun d => exists_ d q) in
  if (there : bool)
  then
    let$ source_there := dget (fun d => exists_ d p) in
    if (source_there : bool) then dfail InvalidState else dret quarantine
  else
    let$ _ := rename p q in
    dret quarantine.

Definition restore_quarantined (quarantine destination : rstring) : D unit :=
  let$ p := resolve quarantine in
  let$ q := resolve destination in
  let$ there := dget (fun d => exists_ d q) in
  if (there : bool) then dfail InvalidState else rename p q.

(** [staging.as_str().starts_with(".synveil/staging/")]. *)
Definition is_staging (staging : rstring) : bool :=
  is_some (strip_prefix (join 47 [CONTROL_DIRECTORY; STAGING_DIRECTORY; []]) staging).

Definition remove_owned_staging (staging : rstring) : D unit :=
  if negb (is_staging staging) then dfail InvalidRelativePath
  else
    let$ p := resolve staging in
    fun d => match remove_file p d with
             | (d', Failed) => (d', Err LocalIo)
             | (d', _) => (d', Ok tt)
             end.

(** *** Receipts *)

Definition write_operation_receipt (operation_id : Z) : D unit :=
  let$ relative := dlift (operation_receipt_location operation_id) in
  let$ p := resolve relative in
  let expected := expected_operation_receipt operation_id in
  let$ text := dget (fun d => read_to_string d p) in
  match text with
  | Read actual => if actual == expected then dret tt else dfail InvalidState
  | ReadError => dfail LocalIo
  | Missing => create_new p expected
  end.

Definition has_operation_receipt (operation_id : Z) : D bool :=
  let$ relative := dlift (operation_receipt_location operation_id) in
  let$ p := resolve relative in
  let$ text := dget (fun d => read_to_string d p) in
  match text with
  | Read actual =>
      if actual == expected_operation_receipt operation_id then dret true else dfail InvalidState
  | Missing => dret false
  | ReadError => dfail LocalIo
  end.

Definition remove_operation_receipt (operation_id : Z) : D unit :=
  let$ relative := dlift (operation_receipt_location operation_id) in
  let$ p := resolve relative in
  fun d => match remove_file p d with
           | (d', Failed) => (d', Err LocalIo)
           | (d', _) => (d', Ok tt)
           end.

End Managed.
End Managed.

(** The folder as the engine's interface. *)
Definition filesystem_replica `{U : Unicode} `{I : Identifiers} `{H : Sha} (scope : ReplicaScope)
  (binding : Z) (profile : option Z) (deferred : bool) : LocalReplica Disk := {|
  replica_scope := scope;
  replica_profile_id := profile;
  binding_id := binding;
  validate_root := Managed.validate_root scope binding profile deferred;
  inspect := Managed.inspect scope binding profile deferred;
  ensure_directory := Managed.ensure_directory scope binding profile deferred;
  has_portable_name_collision := Managed.has_portable_name_collision scope binding profile deferred;
  stage_directory := Managed.stage_directory scope binding profile deferred;
  directory_staging_location := Managed.directory_staging_location;
  stage_content := Managed.stage_content scope binding profile deferred;
  staging_location := Managed.staging_location;
  quarantine_location := Managed.quarantine_location;
  expose_staged_file := Managed.expose_staged_file scope binding profile deferred;
  rename_path := Managed.rename_path scope binding profile deferred;
  quarantine_path := Managed.quarantine_path scope binding profile deferred;
  restore_quarantined := Managed.restore_quarantined scope binding profile deferred;
  list_descendants := Managed.list_descendants scope binding profile deferred;
  remove_owned_staging := Managed.remove_owned_staging scope binding profile deferred;
  write_operation_receipt := Managed.write_operation_receipt scope binding profile deferred;
  has_operation_receipt := Managed.has_operation_receipt scope binding profile deferred;
  remove_operation_receipt := Managed.remove_operation_receipt scope binding profile deferred
|}.

Definition filesystem_content `{U : Unicode} `{I : Identifiers} `{H : Sha} (scope : ReplicaScope)
  (binding : Z) (profile : option Z) (deferred : bool) : ContentReader Disk := {|
  open_visible_file := Managed.open_visible_file scope binding profile deferred;
  read_staged_chunk := Managed.read_staged_chunk scope binding profile deferred
|}.
