(* ===== verification/OutboundTypes.v ===== *)
(** * Outbound work: intents, mutation requests and the server's answers

    The data of outbound submission: the vocabulary and the semantic hash of an
    [OutboundIntent] ([client-sync/src/observation.rs]), the upload and mutation
    answers of [contracts.rs], and the durable form of a mutation request
    ([outbound.rs]).  [serde_json] is the class [Serde]; the request written to
    the database is read back as the same request. *)

From S2P Require Import Prelude Vocabulary Values Models Requests SyncTypes ClientPaths ClientStore.
From S2P Require Import SyncWorld Candidates Disk.

(** ** Intents ([observation.rs]) *)

Definition intent_kind_as_str (self : OutboundIntentKind.t) : rstring :=
  match self with
  | OutboundIntentKind.CreateDirectory => lit "CREATE_DIRECTORY"
  | OutboundIntentKind.CreateFile => lit "CREATE_FILE"
  | OutboundIntentKind.RenameNode => lit "RENAME_NODE"
  | OutboundIntentKind.MoveNode => lit "MOVE_NODE"
  | OutboundIntentKind.DeleteOrTrashNode => lit "DELETE_OR_TRASH_NODE"
  | OutboundIntentKind.ModifyFileContent => lit "MODIFY_FILE_CONTENT"
  end.

Definition intent_kind_from_str (value : rstring) : option OutboundIntentKind.t :=
  match_str [
    (lit "CREATE_DIRECTORY", OutboundIntentKind.CreateDirectory);
    (lit "CREATE_FILE", OutboundIntentKind.CreateFile);
    (lit "RENAME_NODE", OutboundIntentKind.RenameNode);
    (lit "MOVE_NODE", OutboundIntentKind.MoveNode);
    (lit "DELETE_OR_TRASH_NODE", OutboundIntentKind.DeleteOrTrashNode);
    (lit "MODIFY_FILE_CONTENT", OutboundIntentKind.ModifyFileContent)] value.

#[global] Instance intent_kind_vocabulary :
  Vocabulary intent_kind_as_str intent_kind_from_str id.
Proof. solve_vocabulary. Qed.

Definition intent_state_as_str (self : IntentState) : rstring :=
  match self with
  | IntentPending => lit "PENDING"
  | IntentReady => lit "READY"
  | IntentPreparing => lit "PREPARING"
  | IntentUploading => lit "UPLOADING"
  | IntentSubmitting => lit "SUBMITTING"
  | IntentServerApplied => lit "SERVER_APPLIED"
  | IntentConflict => lit "CONFLICT"
  | IntentBlocked => lit "BLOCKED"
  | IntentSuperseded => lit "SUPERSEDED"
  | IntentCancelled => lit "CANCELLED"
  | IntentNeedsRebaseValidation => lit "NEEDS_REBASE_VALIDATION"
  | IntentReconciled => lit "RECONCILED"
  end.

Definition intent_state_from_str (value : rstring) : option IntentState :=
  match_str [
    (lit "PENDING", IntentPending); (lit "READY", IntentReady);
    (lit "PREPARING", IntentPreparing); (lit "UPLOADING", IntentUploading);
    (lit "SUBMITTING", IntentSubmitting); (lit "SERVER_APPLIED", IntentServerApplied);
    (lit "CONFLICT", IntentConflict); (lit "BLOCKED", IntentBlocked);
    (lit "SUPERSEDED", IntentSuperseded); (lit "CANCELLED", IntentCancelled);
    (lit "NEEDS_REBASE_VALIDATION", IntentNeedsRebaseValidation);
    (lit "RECONCILED", IntentReconciled)] value.

#[global] Instance intent_state_vocabulary :
  Vocabulary intent_state_as_str intent_state_from_str id.
Proof. solve_vocabulary. Qed.

Definition OUTBOUND_INTENT_DEDUPE_VERSION : Z := 1.

Definition object_kind_as_str (self : LocalFingerprint.LocalObjectKind) : rstring :=
  match self with
  | LocalFingerprint.File => lit "FILE"
  | LocalFingerprint.Directory => lit "DIRECTORY"
  end.

(** An intent that is not in the database: its creation time is set by the
    insertion. *)
Definition intent_value (library : Z) (node parent : option Z) (kind : OutboundIntentKind.t)
  (observed : rstring) (old : option rstring) (fingerprint : option LocalFingerprint.t)
  (epoch sequence : Z) (revision version parent_revision : option Z) : IntentRow :=
  mk_IntentRow library node parent kind IntentPending observed old fingerprint epoch sequence
    revision version parent_revision 0.

(** [OutboundIntent::new], given the identifier it draws. *)
Definition new_intent (id : Z) (row : IntentRow) : result (Z * IntentRow) ClientSyncError :=
  let? _ := Candidates.validate_intent_shape row in Ok (id, row).

Definition write_dedupe_field (value : rstring) : rstring := be_bytes 8 (len value) ++ value.

Section Dedupe.
Context `{I : Identifiers} `{H : Sha}.

Definition optional_text (id : option Z) : rstring :=
  match id with Some id => uuid_text id | None => [] end.

(** The bytes [semantic_dedupe_sha256] feeds to the hash. *)
Definition semantic_dedupe_bytes (row : IntentRow) : rstring :=
  lit "synveil-outbound-intent-dedupe" ++ [OUTBOUND_INTENT_DEDUPE_VERSION]
  ++ write_dedupe_field (uuid_text (intent_library_id row))
  ++ write_dedupe_field (optional_text (intent_node_id row))
  ++ write_dedupe_field (intent_kind_as_str (intent_kind row))
  ++ write_dedupe_field (intent_observed_path row)
  ++ write_dedupe_field (default [] (intent_old_path row))
  ++ match intent_fingerprint row with
     | None => write_dedupe_field (lit "ABSENT")
     | Some value =>
         write_dedupe_field (object_kind_as_str (LocalFingerprint.kind value))
         ++ write_dedupe_field (be_bytes 8 (default 0 (LocalFingerprint.length value)))
         ++ write_dedupe_field (default [] (LocalFingerprint.sha256 value))
     end
  ++ write_dedupe_field (be_bytes 8 (intent_base_epoch row))
  ++ write_dedupe_field (be_bytes 8 (intent_base_sequence row))
  ++ write_dedupe_field (be_bytes 8 (default 0 (intent_base_revision row)))
  ++ write_dedupe_field (optional_text (intent_base_version_id row))
  ++ write_dedupe_field (optional_text (intent_parent_node_id row))
  ++ write_dedupe_field (be_bytes 8 (default 0 (intent_base_parent_revision row))).

Definition semantic_dedupe_sha256 (row : IntentRow) : list Z := sha256 (semantic_dedupe_bytes row).

End Dedupe.

(** ** Answers of the server ([contracts.rs]) *)

Record RemoteMutationApplied := mk_RemoteMutationApplied {
  applied_mutation_id : Z; applied_node_id : Z; applied_revision : Z;
  applied_journal_event_id : Z; applied_journal_sequence : Z; applied_replayed : bool }.

Record RemoteMutationConflict := mk_RemoteMutationConflict {
  remote_conflict_id : Z; remote_reason : rstring; remote_replayed : bool;
  remote_resource_id : option Z; remote_expected_revision : option Z;
  remote_current_revision : option Z; remote_current_state : option NodeState.t;
  remote_current_parent_id : option Z; remote_server_epoch : option Z;
  remote_server_sequence : option Z }.

Inductive RemoteMutationOutcome : Type :=
| Applied (applied : RemoteMutationApplied)
| Conflicted (conflict : RemoteMutationConflict).

Record UploadCompletion := mk_UploadCompletion {
  completed_session_id : Z; completed_node_id : Z; completed_file_version_id : Z;
  completed_node_revision : Z; completed_length : Z; completed_sha256 : list Z }.

Record UploadSessionStatus := mk_UploadSessionStatus {
  status_session_id : Z; status_target : UploadTarget.t; status_state : UploadSessionState.t;
  status_expected_length : Z; status_expected_sha256 : option (list Z);
  status_received_bytes : Z; status_completion : option UploadCompletion;
  status_version_conflict : bool }.

(** The operations of [SyncRemote] that outbound submission uses. *)
Class UploadRemote := {
  submit_client_mutation :
    nat -> ReplicaScope -> Mutation.Request -> result RemoteMutationOutcome RemoteError;
  create_upload_session :
    nat -> ReplicaScope -> Z -> UploadTarget.t -> Z -> list Z ->
    result UploadSessionStatus RemoteError;
  get_upload_session : nat -> ReplicaScope -> Z -> result UploadSessionStatus RemoteError;
  append_upload_chunk : nat -> ReplicaScope -> Z -> Z -> rstring -> result Z RemoteError;
  complete_upload : nat -> ReplicaScope -> Z -> result UploadCompletion RemoteError
}.

(** ** Conflict kinds ([conflict_policy.rs]) *)

Definition from_server_reason (reason : rstring) : SyncConflictKind.t :=
  if reason == lit "REVISION_MISMATCH" then SyncConflictKind.RemoteRevisionChanged
  else if reason == lit "NODE_STATE_CHANGED" then SyncConflictKind.RemoteStateChanged
  else if (reason == lit "PARENT_CHANGED") || (reason == lit "DESTINATION_CHANGED")
  then SyncConflictKind.ParentChangedOrUnavailable
  else if reason == lit "NAME_OCCUPIED" then SyncConflictKind.NameCollision
  else if reason == lit "RESOURCE_PURGED" then SyncConflictKind.RemoteMissing
  else SyncConflictKind.RemoteStateChanged.

Definition is_supported_for (self : SyncConflictResolution.t) (kind : SyncConflictKind.t) : bool :=
  match self with
  | SyncConflictResolution.AcceptRemote => true
  | SyncConflictResolution.RetryLocalAgainstCurrentBase =>
      match kind with
      | SyncConflictKind.RemoteMissing | SyncConflictKind.NameCollision => false
      | _ => true
      end
  end.

(** ** The durable form of a mutation request ([outbound.rs]) *)

#[global] Instance ClientMutation_eq_dec : EqDecision Mutation.ClientMutation.
Proof. solve_decision. Defined.

#[global] Instance MutationRequest_eq_dec : EqDecision Mutation.Request.
Proof. solve_decision. Defined.

Record MutationJson (V : Type) := mk_MutationJson {
  json_mutation_id : rstring; json_base_epoch : rstring; json_base_sequence : rstring;
  json_kind : rstring; json_payload : V }.
Arguments mk_MutationJson {V}.
Arguments json_mutation_id {V}.
Arguments json_base_epoch {V}.
Arguments json_base_sequence {V}.
Arguments json_kind {V}.
Arguments json_payload {V}.

(** What the code uses of [serde_json]: an object with text fields ([json!]), the
    text fields of a value ([from_value] into a struct of strings), and the text
    of a [MutationJson] with its parser. *)
Class Serde := {
  Value : Type;
  json_object : list (rstring * rstring) -> Value;
  from_value : list rstring -> Value -> option (list rstring);
  to_string : MutationJson Value -> option rstring;
  from_str : rstring -> option (MutationJson Value)
}.

(** The fields of an object are read back by name, and a text is read back. *)
Class SerdeLaws (S : Serde) : Prop := {
  from_value_object : forall fields, NoDup (map fst fields) ->
    from_value (map fst fields) (json_object fields) = Some (map snd fields);
  from_str_to_string : forall m text, to_string m = Some text -> from_str text = Some m
}.

(** The [uuid] parser accepts the text its printer writes. *)
Class IdentifierLaws (I : Identifiers) : Prop :=
  uuid_parse_text : forall u, Ids.id_ok u -> uuid_parse (uuid_text u) = Some u.

Section Json.
Context `{I : Identifiers} `{S : Serde}.

Definition payload_fields (m : Mutation.ClientMutation) : list (rstring * rstring) :=
  match m with
  | Mutation.CreateDirectory parent_node_id expected_parent_revision name =>
      [(lit "parent_node_id", uuid_text parent_node_id);
       (lit "expected_parent_revision", Decimal.fmt expected_parent_revision);
       (lit "name", name)]
  | Mutation.RenameNode node_id expected_revision new_name =>
      [(lit "node_id", uuid_text node_id);
       (lit "expected_revision", Decimal.fmt expected_revision); (lit "new_name", new_name)]
  | Mutation.MoveNode node_id expected_revision new_parent_node_id expected_new_parent_revision =>
      [(lit "node_id", uuid_text node_id);
       (lit "expected_revision", Decimal.fmt expected_revision);
       (lit "new_parent_node_id", uuid_text new_parent_node_id);
       (lit "expected_new_parent_revision", Decimal.fmt expected_new_parent_revision)]
  | Mutation.TrashNode node_id expected_revision =>
      [(lit "node_id", uuid_text node_id);
       (lit "expected_revision", Decimal.fmt expected_revision)]
  | Mutation.RestoreNode node_id expected_revision expected_parent_node_id
      expected_parent_revision =>
      [(lit "node_id", uuid_text node_id);
       (lit "expected_revision", Decimal.fmt expected_revision);
       (lit "expected_parent_node_id", uuid_text expected_parent_node_id);
       (lit "expected_parent_revision", Decimal.fmt expected_parent_revision)]
  end.

Definition mutation_request_to_json (request : Mutation.Request) : result rstring ClientSyncError :=
  ok_or (to_string (mk_MutationJson
    (uuid_text (Mutation.mutation_id request)) (Decimal.fmt (Mutation.base_epoch request))
    (Decimal.fmt (Mutation.base_sequence request))
    (ClientMutationKind.as_str (Mutation.kind (Mutation.mutation request)))
    (json_object (payload_fields (Mutation.mutation request))))) InvalidState.

(** [.parse().map_err(|_| ClientSyncError::InvalidState)]. *)
Definition parse_id (value : rstring) : result Z ClientSyncError :=
  map_err (fun _ => InvalidState) (Ids.parse_uuid uuid_parse uuid_text value).
Definition parse_number (value : rstring) : result Z ClientSyncError :=
  map_err (fun _ => InvalidState) (Decimal.parse_decimal value).
Definition parse_name (value : rstring) : result rstring ClientSyncError :=
  map_err (fun _ => InvalidState) (Names.LogicalName_new value).

Definition parse_payload (kind : ClientMutationKind.t) (payload : Value) :
  result Mutation.ClientMutation ClientSyncError :=
  match kind with
  | ClientMutationKind.CreateDirectory =>
      match from_value [lit "parent_node_id"; lit "expected_parent_revision"; lit "name"] payload with
      | Some [parent_node_id; expected_parent_revision; name] =>
          let? parent_node_id := parse_id parent_node_id in
          let? expected_parent_revision := parse_number expected_parent_revision in
          let? name := parse_name name in
          Ok (Mutation.CreateDirectory parent_node_id expected_parent_revision name)
      | _ => Err InvalidState
      end
  | ClientMutationKind.RenameNode =>
      match from_value [lit "node_id"; lit "expected_revision"; lit "new_name"] payload with
      | Some [node_id; expected_revision; new_name] =>
          let? node_id := parse_id node_id in
          let? expected_revision := parse_number expected_revision in
          let? new_name := parse_name new_name in
          Ok (Mutation.RenameNode node_id expected_revision new_name)
      | _ => Err InvalidState
      end
  | ClientMutationKind.MoveNode =>
      match from_value [lit "node_id"; lit "expected_revision"; lit "new_parent_node_id";
                        lit "expected_new_parent_revision"] payload with
      | Some [node_id; expected_revision; new_parent_node_id; expected_new_parent_revision] =>
          let? node_id := parse_id node_id in
          let? expected_revision := parse_number expected_revision in
          let? new_parent_node_id := parse_id new_parent_node_id in
          let? expected_new_parent_revision := parse_number expected_new_parent_revision in
          Ok (Mutation.MoveNode node_id expected_revision new_parent_node_id
                expected_new_parent_revision)
      | _ => Err InvalidState
      end
  | ClientMutationKind.TrashNode =>
      match from_value [lit "node_id"; lit "expected_revision"] payload with
      | Some [node_id; expected_revision] =>
          let? node_id := parse_id node_id in
          let? expected_revision := parse_number expected_revision in
          Ok (Mutation.TrashNode node_id expected_revision)
      | _ => Err InvalidState
      end
  | ClientMutationKind.RestoreNode => Err InvalidState
  end.

Definition parse_mutation_json (request : MutationJson Value) :
  result Mutation.Request ClientSyncError :=
  let? mutation_id := parse_id (json_mutation_id request) in
  let? base_epoch := parse_number (json_base_epoch request) in
  let? base_sequence := parse_number (json_base_sequence request) in
  let? kind := ok_or (ClientMutationKind.from_str (json_kind request)) InvalidState in
  let? mutation := parse_payload kind (json_payload request) in
  Ok (Mutation.mk_Request mutation_id base_epoch base_sequence mutation).

Definition mutation_request_from_json (value : rstring) : result Mutation.Request ClientSyncError :=
  let? request := ok_or (from_str value) InvalidState in
  parse_mutation_json request.

(** [path.as_str().rsplit('/').next()]. *)
Definition leaf_name (path : rstring) : result rstring ClientSyncError :=
  let? name := ok_or (last (split 47 path)) InvalidRelativePath in
  map_err (fun _ => InvalidRelativePath) (Names.LogicalName_new name).

(** [mutation_request_for_intent], given the identifier it draws. *)
Definition mutation_request_for_intent (mutation_id : Z) (intent : IntentRow) :
  result (Mutation.Request * rstring) ClientSyncError :=
  let? name := leaf_name (intent_observed_path intent) in
  let node := ok_or (intent_node_id intent) InvalidState in
  let revision := ok_or (intent_base_revision intent) InvalidState in
  let parent := ok_or (intent_parent_node_id intent) InvalidState in
  let parent_revision := ok_or (intent_base_parent_revision intent) InvalidState in
  let? mutation :=
    match intent_kind intent with
    | OutboundIntentKind.CreateDirectory =>
        let? parent := parent in
        let? parent_revision := parent_revision in
        Ok (Mutation.CreateDirectory parent parent_revision name)
    | OutboundIntentKind.RenameNode =>
        let? node := node in
        let? revision := revision in
        Ok (Mutation.RenameNode node revision name)
    | OutboundIntentKind.MoveNode =>
        let? node := node in
        let? revision := revision in
        let? parent := parent in
        let? parent_revision := parent_revision in
        Ok (Mutation.MoveNode node revision parent parent_revision)
    | OutboundIntentKind.DeleteOrTrashNode =>
        let? node := node in
        let? revision := revision in
        Ok (Mutation.TrashNode node revision)
    | OutboundIntentKind.CreateFile | OutboundIntentKind.ModifyFileContent => Err InvalidState
    end in
  let request := Mutation.mk_Request mutation_id (intent_base_epoch intent)
                   (intent_base_sequence intent) mutation in
  let? json := mutation_request_to_json request in
  Ok (request, json).

(** *** A request is read back as it was written *)

Context {HI : IdentifierLaws I} {HS : SerdeLaws S}.

(** The identifiers of a request are valid UUIDv7s. *)
Definition v7_ok (id : Z) : Prop := Ids.id_ok id /\ Ids.validate_uuid id = Ok id.

Definition request_ids (m : Mutation.ClientMutation) : list Z :=
  match m with
  | Mutation.CreateDirectory i _ _ | Mutation.RenameNode i _ _ | Mutation.TrashNode i _ => [i]
  | Mutation.MoveNode i _ j _ | Mutation.RestoreNode i _ j _ => [i; j]
  end.

Definition request_ok (r : Mutation.Request) : Prop :=
  Mutation.ok r /\ v7_ok (Mutation.mutation_id r)
  /\ Forall v7_ok (request_ids (Mutation.mutation r)).

Lemma parse_id_text u : v7_ok u -> parse_id (uuid_text u) = Ok u.
Proof.
  intros [Hu Hv]. unfold parse_id, Ids.parse_uuid. rewrite uuid_parse_text by done.
  rewrite bool_decide_true by done. cbn [negb]. by rewrite Hv.
Qed.

Lemma parse_number_fmt n : u64_ok n -> parse_number (Decimal.fmt n) = Ok n.
Proof. intros Hn. unfold parse_number. by rewrite (proj2 (Decimal.parse_decimal_fmt _ n)). Qed.

Lemma parse_name_ok n : Names.name_ok n -> parse_name n = Ok n.
Proof.
  intros Hn. unfold parse_name.
  by rewrite (proj2 (Names.LogicalName_new_Ok n n)) by done.
Qed.

(** C33: a mutation request survives its durable form. The text written for a
    request whose identifiers, numbers and name satisfy the invariants of their
    types parses back to exactly that request, except that a restore request,
    which the client never writes, is refused on reading. *)
Theorem mutation_json_roundtrip r text :
  request_ok r -> mutation_request_to_json r = Ok text ->
  mutation_request_from_json text =
  match Mutation.mutation r with
  | Mutation.RestoreNode _ _ _ _ => Err InvalidState
  | _ => Ok r
  end.
Proof.
  intros ((He & Hq & Hm) & Hid & Hids) Ht. unfold mutation_request_to_json in Ht.
  destruct (to_string _) as [t|] eqn:E; [|done]. injection Ht as ->.
  unfold mutation_request_from_json. rewrite (from_str_to_string _ _ E). cbn [ok_or].
  unfold parse_mutation_json. cbn [json_mutation_id json_base_epoch json_base_sequence json_kind
    json_payload].
  rewrite parse_id_text, !parse_number_fmt by done.
  rewrite (from_str_as_str _ _ id).
  destruct r as [i e q m]; cbn in *.
  assert (NoDup (map fst (payload_fields m))) as Hn by (destruct m; apply (bool_decide_unpack _); by vm_compute).
  pose proof (from_value_object _ Hn) as Hf.
  destruct m; cbn [Mutation.kind parse_payload payload_fields map fst snd ok_or] in Hf |- *;
    try rewrite Hf; cbn [request_ids Mutation.mutation_ok] in Hids, Hm; rewrite ?Forall_cons in Hids;
    destruct_and?; rewrite ?parse_id_text, ?parse_number_fmt, ?parse_name_ok by done; done.
Qed.

End Json.
