(* ===== verification/OutboundStore.v ===== *)
(** * The outbound tables of the local database

    The methods of [client-sync/src/state.rs] on [outbound_intents],
    [outbound_mutation_requests], [outbound_upload_sessions],
    [outbound_submission_results] and [sync_conflicts] that observation,
    submission and conflict resolution use.  A method made of several statements
    is a sequence of store calls, each of which may fail or lose its answer. *)

From S2P Require Import Prelude Vocabulary Values Models Requests SyncTypes ClientPaths ClientStore.
From S2P Require Import SyncWorld Candidates Disk OutboundTypes.

Definition MAX_OBSERVATION_QUERY_ROWS : Z := 4096.
Definition MAX_REQUEST_JSON_BYTES : Z := 16 * 1024.

Module OutboundStore.
Section OutboundStore.

Context {F : Type} `{U : Unicode} `{E : Env} `{I : Identifiers} `{H : Sha} `{S : Serde}.

(** *** Intents *)

(** The states in which observation may still change an intent. *)
Definition unsubmitted_states : list IntentState :=
  [IntentPending; IntentBlocked; IntentNeedsRebaseValidation].

(** The states of the partial index [active_outbound_intent_dedupe]. *)
Definition indexed_states : list IntentState :=
  IntentNeedsRebaseValidation :: Outbound.active_states.

Definition submittable_states : list IntentState :=
  [IntentPending; IntentReady; IntentPreparing; IntentUploading; IntentSubmitting].

Definition same_dedupe (a b : IntentRow) : bool :=
  (intent_library_id a =? intent_library_id b)
  && (semantic_dedupe_sha256 a == semantic_dedupe_sha256 b).

(** [INSERT] or [UPDATE] of one row under the partial unique index. *)
Definition write_intent (id : Z) (row : IntentRow) : tx unit :=
  do! rows := select outbound_intents in
  do! _ := ensure (negb (bool_decide (intent_state row ∈ indexed_states)
                         && existsb (fun p : Z * IntentRow =>
                              (p.1 != id) && bool_decide (intent_state p.2 ∈ indexed_states)
                              && same_dedupe p.2 row) (map_to_list rows))) Database in
  update (fun s => set_outbound_intents s (<[id := row]> (outbound_intents s))).

Definition decode (p : Z * IntentRow) : result (Z * IntentRow) ClientSyncError :=
  let? row := Candidates.decode_outbound_intent p.2 in Ok (p.1, row).

Definition decode_optional (p : option (Z * IntentRow)) :
  result (option (Z * IntentRow)) ClientSyncError :=
  match p with
  | None => Ok None
  | Some p => let? p := decode p in Ok (Some p)
  end.

(** The first row of a selection ordered by creation; ties, which the statements
    ordered by [created_at_ms] alone leave open, by identifier. *)
Definition first_intent (keep : Z * IntentRow -> bool) (s : Store) : option (Z * IntentRow) :=
  head (merge_sort Candidates.intent_first
          (filter (fun p => keep p = true) (map_to_list (outbound_intents s)))).

Definition unsubmitted (row : IntentRow) : bool := bool_decide (intent_state row ∈ unsubmitted_states).

(** The exact duplicate of an intent. *)
Definition exact_intent (intent : IntentRow) (s : Store) : option (Z * IntentRow) :=
  first_intent (fun p => unsubmitted p.2 && same_dedupe p.2 intent) s.

(** The create intent of a path that observation may still change. *)
Definition pending_create (library : Z) (kind : OutboundIntentKind.t) (path : rstring) (s : Store) :
  option (Z * IntentRow) :=
  first_intent (fun p =>
    (intent_library_id p.2 =? library) && is_none (intent_node_id p.2)
    && (intent_observed_path p.2 == path) && (intent_kind p.2 == kind)
    && unsubmitted p.2 && negb (Outbound.unresolved_conflict p.1 s)) s.

(** The intent an observation is merged into. *)
Definition coalesced_intent (intent : IntentRow) (s : Store) :
  result (option (Z * IntentRow)) ClientSyncError :=
  let library := intent_library_id intent in
  let of_node node kinds (extra : IntentRow -> bool) :=
    first_intent (fun p =>
      (intent_library_id p.2 =? library) && (intent_node_id p.2 == Some node)
      && bool_decide (intent_kind p.2 ∈ kinds) && extra p.2
      && unsubmitted p.2 && negb (Outbound.unresolved_conflict p.1 s)) s in
  match intent_kind intent with
  | OutboundIntentKind.CreateDirectory | OutboundIntentKind.CreateFile =>
      Ok (pending_create library (intent_kind intent) (intent_observed_path intent) s)
  | OutboundIntentKind.ModifyFileContent =>
      let? node := ok_or (intent_node_id intent) InvalidState in
      Ok (of_node node [OutboundIntentKind.ModifyFileContent] (fun _ => true))
  | OutboundIntentKind.RenameNode | OutboundIntentKind.MoveNode =>
      let? node := ok_or (intent_node_id intent) InvalidState in
      let? old := ok_or (intent_old_path intent) InvalidState in
      Ok (of_node node [OutboundIntentKind.RenameNode; OutboundIntentKind.MoveNode]
            (fun row => intent_observed_path row == old))
  | OutboundIntentKind.DeleteOrTrashNode =>
      let? node := ok_or (intent_node_id intent) InvalidState in
      Ok (of_node node [OutboundIntentKind.DeleteOrTrashNode] (fun _ => true))
  end.

(** The values a statement binds for an intent. *)
Definition intent_columns (row : IntentRow) : result unit ClientSyncError :=
  let? _ := optional_u64_i64 (match intent_fingerprint row with
                              | Some f => LocalFingerprint.length f
                              | None => None
                              end) in
  let? _ := sequence_i64 (intent_base_epoch row) in
  let? _ := sequence_i64 (intent_base_sequence row) in
  let? _ := optional_u64_i64 (intent_base_revision row) in
  let? _ := optional_u64_i64 (intent_base_parent_revision row) in
  Ok tt.

(** The [UPDATE] of every column but identity, library, state and creation. *)
Definition merge_columns (existing intent : IntentRow) : IntentRow :=
  mk_IntentRow (intent_library_id existing) (intent_node_id intent) (intent_parent_node_id intent)
    (intent_kind intent) (intent_state existing) (intent_observed_path intent)
    (intent_old_path intent) (intent_fingerprint intent) (intent_base_epoch intent)
    (intent_base_sequence intent) (intent_base_revision intent) (intent_base_version_id intent)
    (intent_base_parent_revision intent) (intent_created_at existing).

Definition update_intent (existing : Z) (guard : IntentRow -> bool) (intent : IntentRow) : tx unit :=
  do! _ := attempt (intent_columns intent) in
  do! _ := now_ms in
  do! row := select (fun s => outbound_intents s !! existing) in
  do! unresolved := select (Outbound.unresolved_conflict existing) in
  match row with
  | Some row =>
      do! _ := ensure (negb unresolved && guard row) InvalidState in
      write_intent existing (merge_columns row intent)
  | None => attempt (Err InvalidState)
  end.

Definition set_created (row : IntentRow) (now : Z) : IntentRow :=
  mk_IntentRow (intent_library_id row) (intent_node_id row) (intent_parent_node_id row)
    (intent_kind row) (intent_state row) (intent_observed_path row) (intent_old_path row)
    (intent_fingerprint row) (intent_base_epoch row) (intent_base_sequence row)
    (intent_base_revision row) (intent_base_version_id row) (intent_base_parent_revision row) now.

(** [insert_outbound_intent_tx], and the last statement of the upsert: the primary
    key, the foreign key to [replicas] and the unique index. *)
Definition insert_intent (now : Z) (intent : Z * IntentRow) : tx unit :=
  do! _ := attempt (intent_columns intent.2) in
  do! fresh := select (fun s => is_none (outbound_intents s !! intent.1)) in
  do! _ := ensure fresh Database in
  do! _ := fetch_one (Feed.replica (intent_library_id intent.2)) in
  write_intent intent.1 (set_created intent.2 now).

Definition outbound_intent (id : Z) (s : Store) : result (option (Z * IntentRow)) ClientSyncError :=
  decode_optional ((fun row => (id, row)) <$> outbound_intents s !! id).

Definition required_intent (id : Z) (s : Store) : result (Z * IntentRow) ClientSyncError :=
  let? found := outbound_intent id s in ok_or found InvalidState.

Definition upsert_outbound_intent_with_result (intent : Z * IntentRow) :
  M F ((Z * IntentRow) * bool) :=
  let! exact := read (fun s => decode_optional (exact_intent intent.2 s)) in
  match exact with
  | Some existing => ret (existing, false)
  | None =>
      let! coalesced := read (fun s => let? found := coalesced_intent intent.2 s in
                                       decode_optional found) in
      match coalesced with
      | Some existing =>
          let! _ := call (update_intent existing.1 (fun _ => true) intent.2) in
          let! updated := read (required_intent existing.1) in
          ret (updated, true)
      | None =>
          let! _ := call (do! now := now_ms in insert_intent now intent) in
          ret (intent, true)
      end
  end.

Definition supersede (id : Z) : tx unit :=
  do! _ := now_ms in
  do! row := select (fun s => outbound_intents s !! id) in
  do! unresolved := select (Outbound.unresolved_conflict id) in
  match row with
  | Some row =>
      do! _ := ensure (negb unresolved && unsubmitted row) InvalidState in
      write_intent id (set_intent_state row IntentSuperseded)
  | None => attempt (Err InvalidState)
  end.

(** The replacement names no node, as the intent it is written over. *)
Definition move_pending_create (source : rstring) (replacement : Z * IntentRow) :
  M F (option (Z * IntentRow)) :=
  let! _ := reject (is_some (intent_node_id replacement.2)
                    || negb (bool_decide (intent_kind replacement.2 ∈
                         [OutboundIntentKind.CreateDirectory; OutboundIntentKind.CreateFile])))
              InvalidState in
  let! existing := read (fun s => decode_optional
                     (pending_create (intent_library_id replacement.2)
                        (intent_kind replacement.2) source s)) in
  match existing with
  | None => ret None
  | Some existing =>
      let! exact := read (fun s => decode_optional (exact_intent replacement.2 s)) in
      match exact with
      | Some exact =>
          let! _ := call (supersede existing.1) in
          ret (Some exact)
      | None =>
          let! _ := call (update_intent existing.1 unsubmitted replacement.2) in
          let! updated := read (required_intent existing.1) in
          ret (Some updated)
      end
  end.

Definition next_submittable_intent (library : Z) (s : Store) :
  result (option (Z * IntentRow)) ClientSyncError :=
  decode_optional (first_intent (fun p =>
    (intent_library_id p.2 =? library) && bool_decide (intent_state p.2 ∈ submittable_states)
    && negb (bool_decide (intent_kind p.2 ∈
                [OutboundIntentKind.CreateDirectory; OutboundIntentKind.CreateFile])
             && is_none (intent_parent_node_id p.2))) s).

(** [UPDATE outbound_intents SET state = ? WHERE intent_id = ? AND state IN (..)],
    with whether a row changed. *)
Definition update_state (id : Z) (from : list IntentState) (to : IntentState) : tx bool :=
  do! row := select (fun s => outbound_intents s !! id) in
  match row with
  | Some row =>
      if bool_decide (intent_state row ∈ from)
      then do! _ := write_intent id (set_intent_state row to) in tx_ret true
      else tx_ret false
  | None => tx_ret false
  end.

Definition transition_outbound_intent (id : Z) (from : list IntentState) (to : IntentState) :
  tx bool :=
  do! _ := ensure (negb (is_empty from)) InvalidState in
  do! _ := now_ms in
  update_state id from to.

Definition all_states : list IntentState :=
  [IntentPending; IntentReady; IntentPreparing; IntentUploading; IntentSubmitting;
   IntentServerApplied; IntentConflict; IntentBlocked; IntentSuperseded; IntentCancelled;
   IntentNeedsRebaseValidation; IntentReconciled].

Definition mark_intent_blocked (id : Z) : tx unit :=
  do! _ := now_ms in
  do! changed := update_state id all_states IntentBlocked in
  ensure changed InvalidState.

(** [UPDATE outbound_intents SET state = ? WHERE ..] over many rows, for states
    outside the unique index or rows already in it. *)
Definition update_states (which : Z -> IntentRow -> bool) (to : IntentState) : tx bool :=
  do! _ := now_ms in
  do! rows := select outbound_intents in
  do! _ := update (fun s => set_outbound_intents s
             (map_imap (fun id row => Some (if which id row then set_intent_state row to else row))
                (outbound_intents s))) in
  tx_ret (existsb (fun p : Z * IntentRow => which p.1 p.2) (map_to_list rows)).

Definition cancel_pending_delete (library node : Z) : tx bool :=
  do! s := select id in
  update_states (fun id row =>
    (intent_library_id row =? library) && (intent_node_id row == Some node)
    && (intent_kind row == OutboundIntentKind.DeleteOrTrashNode) && unsubmitted row
    && negb (Outbound.unresolved_conflict id s)) IntentCancelled.

Definition cancel_pending_create (library : Z) (path : rstring) : tx bool :=
  do! s := select id in
  update_states (fun id row =>
    (intent_library_id row =? library) && is_none (intent_node_id row)
    && bool_decide (intent_kind row ∈
         [OutboundIntentKind.CreateDirectory; OutboundIntentKind.CreateFile])
    && (intent_observed_path row == path) && unsubmitted row
    && negb (Outbound.unresolved_conflict id s)) IntentCancelled.

Definition block_unsubmitted_delete (library node : Z) : tx unit :=
  do! _ := update_states (fun id row =>
    (intent_library_id row =? library) && (intent_node_id row == Some node)
    && (intent_kind row == OutboundIntentKind.DeleteOrTrashNode)
    && bool_decide (intent_state row ∈ [IntentPending; IntentReady; IntentNeedsRebaseValidation]))
    IntentBlocked in
  tx_ret tt.

(** *** Mutation requests *)

Record OutboundMutationRecord := mk_OutboundMutationRecord {
  record_intent_id : Z; record_mutation_id : Z; record_request : Mutation.Request;
  record_json : rstring }.

Definition decode_mutation_record (id : Z) (row : MutationRow) :
  result OutboundMutationRecord ClientSyncError :=
  let? request := mutation_request_from_json (mutation_row_json row) in
  let seal := Mutation.fingerprint sha256 request in
  if Mutation.mutation_id request != mutation_row_id row then Err InvalidState
  else if Mutation.kind (Mutation.mutation request) != mutation_row_kind row then Err InvalidState
  else
    let? epoch := sequence_i64 (Mutation.base_epoch request) in
    if epoch != mutation_row_epoch row then Err InvalidState
    else
      let? sequence := sequence_i64 (Mutation.base_sequence request) in
      if (sequence != mutation_row_sequence row)
         || (Requests.version seal != mutation_row_version row)
         || (Requests.sha256 seal != mutation_row_sha256 row)
      then Err InvalidState
      else Ok (mk_OutboundMutationRecord id (mutation_row_id row) request (mutation_row_json row)).

Definition durable_mutation_request (id : Z) (s : Store) :
  result (option OutboundMutationRecord) ClientSyncError :=
  match outbound_mutation_requests s !! id with
  | None => Ok None
  | Some row => let? record := decode_mutation_record id row in Ok (Some record)
  end.

Definition mutation_row (request : Mutation.Request) (json : rstring) : MutationRow :=
  let seal := Mutation.fingerprint sha256 request in
  mk_MutationRow (Mutation.mutation_id request) (Mutation.kind (Mutation.mutation request))
    (Mutation.base_epoch request) (Mutation.base_sequence request) json (Requests.version seal)
    (Requests.sha256 seal).

(** [INSERT .. ON CONFLICT(intent_id) DO NOTHING] under the [CHECK] of the kind, the
    unique mutation identifier and the foreign key to the intent. *)
Definition insert_mutation_request (id : Z) (request : Mutation.Request) (json : rstring) : tx unit :=
  do! _ := attempt (sequence_i64 (Mutation.base_epoch request)) in
  do! _ := attempt (sequence_i64 (Mutation.base_sequence request)) in
  do! _ := ensure (Mutation.kind (Mutation.mutation request) != ClientMutationKind.RestoreNode)
             Database in
  do! rows := select outbound_mutation_requests in
  if is_some (rows !! id) then tx_ret tt
  else
    do! _ := ensure (negb (existsb (fun p : Z * MutationRow =>
                             mutation_row_id p.2 =? Mutation.mutation_id request)
                             (map_to_list rows))) Database in
    do! _ := fetch_one (fun s => outbound_intents s !! id) in
    update (fun s => set_mutation_requests s
              (<[id := mutation_row request json]> (outbound_mutation_requests s))).

Definition persist_mutation_request (id : Z) (request : Mutation.Request) (json : rstring) :
  M F OutboundMutationRecord :=
  let! _ := reject (is_empty json || (MAX_REQUEST_JSON_BYTES <? len json)) ResourceLimit in
  let! _ := call (do! _ := now_ms in insert_mutation_request id request json) in
  let! persisted := read (durable_mutation_request id) in
  match persisted with
  | None => raise InvalidState
  | Some persisted =>
      let! _ := reject ((record_request persisted != request) || (record_json persisted != json))
                  InvalidState in
      ret persisted
  end.

(** *** Uploads *)

(** [decode_upload_record]. *)
Definition durable_upload_session (id : Z) (s : Store) : result (option UploadRow) ClientSyncError :=
  match outbound_upload_sessions s !! id with
  | None => Ok None
  | Some row => let? _ := Path.new (upload_staging_path row) in Ok (Some row)
  end.

Definition required_upload_session (id : Z) (s : Store) : result UploadRow ClientSyncError :=
  let? found := durable_upload_session id s in ok_or found InvalidState.

Definition insert_staged_upload (id : Z) (operation staging : rstring) (length : Z)
  (digest : list Z) : tx unit :=
  do! _ := attempt (u64_i64 length) in
  do! rows := select outbound_upload_sessions in
  if is_some (rows !! id) then tx_ret tt
  else
    do! _ := fetch_one (fun s => outbound_intents s !! id) in
    update (fun s => set_upload_sessions s
              (<[id := mk_UploadRow None operation staging length digest 0 (lit "STAGED")]>
                 (outbound_upload_sessions s))).

Definition persist_staged_upload (id : Z) (operation staging : rstring) (length : Z)
  (digest : list Z) : M F UploadRow :=
  let! _ := reject (negb ((operation == lit "CREATE_FILE") || (operation == lit "REPLACE_CONTENT")))
              InvalidState in
  let! _ := call (do! _ := now_ms in insert_staged_upload id operation staging length digest) in
  let! persisted := read (required_upload_session id) in
  let! _ := reject ((upload_staging_path persisted != staging)
                    || (upload_expected_length persisted != length)
                    || (upload_expected_sha256 persisted != digest)) InvalidState in
  ret persisted.

(** The [CHECK] of the acknowledged offset. *)
Definition write_upload (id : Z) (row : UploadRow) : tx unit :=
  do! _ := ensure (upload_acknowledged_offset row <=? upload_expected_length row) Database in
  update (fun s => set_upload_sessions s (<[id := row]> (outbound_upload_sessions s))).

Definition set_upload (row : UploadRow) (session : option Z) (offset : Z) (state : rstring) :
  UploadRow :=
  mk_UploadRow session (upload_operation row) (upload_staging_path row) (upload_expected_length row)
    (upload_expected_sha256 row) offset state.

Definition persist_upload_session_id (id session offset : Z) : tx unit :=
  do! _ := attempt (u64_i64 offset) in
  do! _ := now_ms in
  do! row := select (fun s => outbound_upload_sessions s !! id) in
  match row with
  | Some row =>
      do! _ := ensure (is_none_or (upload_session_id row) (fun known => known =? session))
                 InvalidState in
      write_upload id (set_upload row (Some session) offset (lit "SESSION_CREATED"))
  | None => attempt (Err InvalidState)
  end.

Definition update_upload_offset (id offset : Z) (state : rstring) : tx unit :=
  do! _ := ensure (bool_decide (state ∈ [lit "UPLOADING"; lit "COMPLETING"; lit "COMPLETED";
                                         lit "FAILED"])) InvalidState in
  do! _ := attempt (u64_i64 offset) in
  do! _ := now_ms in
  do! row := select (fun s => outbound_upload_sessions s !! id) in
  match row with
  | Some row =>
      do! _ := ensure (upload_acknowledged_offset row <=? offset) InvalidState in
      write_upload id (set_upload row (upload_session_id row) offset state)
  | None => attempt (Err InvalidState)
  end.

(** *** Results *)

(** [INSERT INTO outbound_submission_results .. ON CONFLICT(intent_id) DO UPDATE]:
    [merge] is the [UPDATE] on the row that is there, [row] the row to insert. *)
Definition upsert_result (id : Z) (row : ResultRow) (merge : ResultRow -> ResultRow) : tx unit :=
  do! _ := fetch_one (fun s => outbound_intents s !! id) in
  update (fun s => set_submission_results s
            (<[id := match outbound_submission_results s !! id with
                     | Some existing => merge existing
                     | None => row
                     end]> (outbound_submission_results s))).

Definition applied_row (result : RemoteMutationApplied) (mutation session version : option Z)
  (length : option Z) (digest : option (list Z)) (conflict : option Z) (reason : option rstring) :
  ResultRow :=
  mk_ResultRow OutcomeServerApplied (Some (applied_node_id result))
    (Some (applied_revision result)) version length digest
    (Some (applied_journal_sequence result)) mutation session
    (Some (applied_journal_event_id result)) conflict reason (applied_replayed result).

Definition insert_applied (id : Z) (result : RemoteMutationApplied) : tx unit :=
  do! _ := now_ms in
  do! _ := attempt (revision_i64 (applied_revision result)) in
  do! _ := attempt (sequence_i64 (applied_journal_sequence result)) in
  do! _ := upsert_result id
             (applied_row result (Some (applied_mutation_id result)) None None None None None None)
             (fun old => applied_row result (result_mutation_id old) (result_upload_session_id old)
                           (result_file_version_id old) (result_length old) (result_sha256 old)
                           (result_conflict_id old) (result_conflict_reason old)) in
  do! _ := update_state id all_states IntentServerApplied in
  tx_ret tt.

(** The creates that wait for the identity of a directory. *)
Definition waiting_creates (library : Z) (s : Store) : list (Z * IntentRow) :=
  take 4097 (merge_sort Candidates.intent_first
    (filter (fun p : Z * IntentRow =>
               intent_library_id p.2 = library /\ intent_node_id p.2 = None
               /\ intent_kind p.2 ∈ [OutboundIntentKind.CreateDirectory;
                                     OutboundIntentKind.CreateFile]
               /\ unsubmitted p.2 = true)
       (map_to_list (outbound_intents s)))).

Definition resolve_pending_create_children (library : Z) (parent_path : rstring)
  (parent_node parent_revision : Z) : M F unit :=
  let! rows := read (fun s => Ok (waiting_creates library s)) in
  let! _ := reject (MAX_OBSERVATION_QUERY_ROWS <? len rows) ResourceLimit in
  each (fun p =>
    let! intent := lift (decode p) in
    let row := intent.2 in
    if Path.parent (intent_observed_path row) != Some parent_path then ret tt
    else
      let! id := uuid in
      let! replacement := lift (new_intent id
        (intent_value library None (Some parent_node) (intent_kind row) (intent_observed_path row)
           (intent_old_path row) (intent_fingerprint row) (intent_base_epoch row)
           (intent_base_sequence row) (intent_base_revision row) (intent_base_version_id row)
           (Some parent_revision))) in
      let! _ := upsert_outbound_intent_with_result replacement in
      ret tt) rows.

Definition record_mutation_applied (id : Z) (result : RemoteMutationApplied) : M F unit :=
  let! _ := call (insert_applied id result) in
  let! intent := read (outbound_intent id) in
  match intent with
  | Some (_, row) =>
      if intent_kind row == OutboundIntentKind.CreateDirectory
      then resolve_pending_create_children (intent_library_id row) (intent_observed_path row)
             (applied_node_id result) (applied_revision result)
      else ret tt
  | None => ret tt
  end.

Definition completed_row (completion : UploadCompletion) (mutation sequence event : option Z)
  (conflict : option Z) (reason : option rstring) (replayed : bool) : ResultRow :=
  mk_ResultRow OutcomeServerApplied (Some (completed_node_id completion))
    (Some (completed_node_revision completion)) (Some (completed_file_version_id completion))
    (Some (completed_length completion)) (Some (completed_sha256 completion)) sequence mutation
    (Some (completed_session_id completion)) event conflict reason replayed.

Definition record_upload_completed (id : Z) (completion : UploadCompletion) : tx unit :=
  do! _ := now_ms in
  do! _ := attempt (revision_i64 (completed_node_revision completion)) in
  do! _ := attempt (u64_i64 (completed_length completion)) in
  do! _ := upsert_result id (completed_row completion None None None None None false)
             (fun old => completed_row completion (result_mutation_id old)
                           (result_journal_sequence old) (result_journal_event_id old)
                           (result_conflict_id old) (result_conflict_reason old)
                           (result_replayed old)) in
  do! upload := select (fun s => outbound_upload_sessions s !! id) in
  do! _ := match upload with
           | Some row => write_upload id (set_upload row (upload_session_id row)
                                            (completed_length completion) (lit "COMPLETED"))
           | None => tx_ret tt
           end in
  do! _ := update_state id all_states IntentServerApplied in
  tx_ret tt.

(** *** Conflicts *)

Definition conflict_of_intent (id : Z) (s : Store) : option (Z * ConflictRow) :=
  List.find (fun p : Z * ConflictRow => conflict_intent_id p.2 =? id)
    (map_to_list (sync_conflicts s)).

(** The states from which an intent may become a conflict or be resolved. *)
Definition conflict_states : list IntentState :=
  [IntentPending; IntentReady; IntentPreparing; IntentUploading; IntentSubmitting; IntentBlocked;
   IntentNeedsRebaseValidation; IntentConflict].

(** [record_conflict_tx] with the transition of the intent. *)
Definition record_conflict (conflict_id : Z) (evidence : ConflictRow) : tx Z :=
  let intent := conflict_intent_id evidence in
  do! _ := Candidates.record_conflict_tx conflict_id evidence in
  do! record := fetch_one (conflict_of_intent intent) in
  do! changed := update_state intent conflict_states IntentConflict in
  do! _ := ensure changed InvalidState in
  tx_ret record.1.

Definition conflict_row (mutation session : option Z) (conflict : Z) (reason : rstring)
  (replayed : bool) : ResultRow :=
  mk_ResultRow OutcomeConflict None None None None None None mutation session None (Some conflict)
    (Some reason) replayed.

Definition merge_conflict (conflict : Z) (reason : rstring) (replayed : bool) (old : ResultRow) :
  ResultRow :=
  mk_ResultRow OutcomeConflict (result_resource_id old) (result_revision old)
    (result_file_version_id old) (result_length old) (result_sha256 old)
    (result_journal_sequence old) (result_mutation_id old) (result_upload_session_id old)
    (result_journal_event_id old) (Some conflict) (Some reason) replayed.

(** [Option::or]. *)
Definition or {A} (a b : option A) : option A := match a with Some _ => a | None => b end.

Definition record_mutation_conflict (id mutation : Z) (conflict : RemoteMutationConflict) : M F Z :=
  let! intent := read (required_intent id) in
  let row := intent.2 in
  let reason := remote_reason conflict in
  call (
    do! now := now_ms in
    do! record := record_conflict (remote_conflict_id conflict)
      (mk_ConflictRow id (intent_library_id row)
         (or (remote_resource_id conflict) (intent_node_id row)) (from_server_reason reason)
         (or (remote_expected_revision conflict) (intent_base_revision row))
         (remote_current_revision conflict) (remote_current_state conflict)
         (remote_current_parent_id conflict) (remote_server_epoch conflict)
         (remote_server_sequence conflict) now None) in
    do! _ := ensure ((1 <=? len reason) && (len reason <=? 128)) Database in
    do! _ := upsert_result id
               (conflict_row (Some mutation) None record reason (remote_replayed conflict))
               (merge_conflict record reason (remote_replayed conflict)) in
    tx_ret record).

Definition record_upload_conflict (id : Z) (current_revision : option Z) : M F Z :=
  let! intent := read (required_intent id) in
  let! upload := read (durable_upload_session id) in
  let! conflict_id := uuid in
  let row := intent.2 in
  let reason := lit "REMOTE_CONTENT_CHANGED" in
  let session := match upload with Some u => upload_session_id u | None => None end in
  call (
    do! now := now_ms in
    do! record := record_conflict conflict_id
      (mk_ConflictRow id (intent_library_id row) (intent_node_id row)
         SyncConflictKind.RemoteContentChanged (intent_base_revision row) current_revision None None
         None None now None) in
    do! _ := upsert_result id (conflict_row None session record reason false)
               (fun old => merge_conflict record reason (result_replayed old) old) in
    tx_ret record).

End OutboundStore.
End OutboundStore.
