(* ===== verification/ObservationStore.v ===== *)
(** * The observer's tables of the local database

    The methods of [client-sync/src/state.rs] that only the observation engine
    uses: the reconciliation state of a library, its issues, the overlay of
    observed nodes, the work list of a scan and the suppressions recorded by
    inbound changes.  A method made of several statements outside a transaction
    is a sequence of store calls. *)

From S2P Require Import Prelude Vocabulary Models Requests SyncTypes ClientPaths ClientStore.
From S2P Require Import SyncWorld Candidates OutboundTypes OutboundStore.

(** A server node as the observer sees it: its row under the overlay. *)
Record ObservedLocalNode := mk_ObservedLocalNode {
  observed_local : LocalNode.t; observed_relative_path : rstring; observed_present : bool;
  observed_fingerprint : option LocalFingerprint.t }.

Record ObservationScanWork := mk_ObservationScanWork {
  work_generation : Z; work_relative_path : rstring; work_cursor_name : option rstring }.

Record ObservationSuppression := mk_ObservationSuppression {
  expected_node_id : Z; expected_relative_path : rstring; expected_present : bool;
  expected_fingerprint : option LocalFingerprint.t }.

Module ObservationStore.
Section ObservationStore.

Context {F : Type} `{U : Unicode} `{E : Env}.

(** One setter per table. *)
Section Tables.
Context (s : Store).
Notation o := (observation s).

Definition set_states v : Store :=
  set_observation s (mk_ObservationTables v (observation_nodes o) (observation_scan_work o)
    (observation_scan_seen o) (observation_scan_seen_intents o)).
Definition set_overlay v : Store := set_observation s (set_observation_nodes o v).
Definition set_scan work seen intents : Store :=
  set_observation s
    (mk_ObservationTables (observation_state o) (observation_nodes o) work seen intents).
End Tables.

(** *** [observation_state] *)

Definition state_row (library : Z) (s : Store) : option ObservationState :=
  observation_state (observation s) !! library.

Definition put_state (library : Z) (st : ObservationState) : tx unit :=
  update (fun s => set_states s (<[library := st]> (observation_state (observation s)))).

Definition required_state (library : Z) : M F ObservationState :=
  read (fun s => ok_or (state_row library s) InvalidState).

Definition mark_rescan (library : Z) : tx unit :=
  do! _ := now_ms in
  do! row := select (state_row library) in
  match row with
  | Some st => put_state library (mk_ObservationState true (scan_active st) (scan_generation st))
  | None => attempt (Err InvalidState)
  end.

Definition require_reconciliation (library : Z) : M F ObservationState :=
  let! _ := call (mark_rescan library) in
  required_state library.

(** *** [observation_issues] *)

Definition has_unresolved_observation_issue (library : Z) (path : rstring)
  (kind : ObservationIssueKind.t) (s : Store) : bool :=
  existsb (fun row => (observation_library_id row =? library) && (observation_path row == Some path)
                      && (observation_kind row == kind) && is_none (observation_resolved_at row))
    (observation_issues s).

Definition resolve_row (now : Z) (row : ObservationIssueRow) : ObservationIssueRow :=
  mk_ObservationIssueRow (observation_issue_id row) (observation_library_id row)
    (observation_node_id row) (observation_path row) (observation_kind row)
    (observation_created_at row) (Some now).

Definition resolve_rows (which : ObservationIssueRow -> bool) : tx unit :=
  do! now := now_ms in
  update (fun s => set_issues s (local_apply_issues s)
    (map (fun row => if which row && is_none (observation_resolved_at row)
                     then resolve_row now row else row) (observation_issues s))).

Definition resolve_observation_issue (library id : Z) : tx unit :=
  let which row := (observation_library_id row =? library) && (observation_issue_id row =? id) in
  do! rows := select observation_issues in
  do! _ := resolve_rows which in
  ensure (existsb (fun row => which row && is_none (observation_resolved_at row)) rows) InvalidState.

Definition resolve_recovered_root_observation_issues (library : Z) : tx unit :=
  resolve_rows (fun row => (observation_library_id row =? library)
                           && (observation_kind row == ObservationIssueKind.RootInvalid)).

(** *** The overlay *)

Definition validate_observed_fingerprint (present : bool) (fingerprint : option LocalFingerprint.t) :
  result unit ClientSyncError :=
  if (negb present && is_some fingerprint) || (present && is_none fingerprint)
  then Err InvalidState else Ok tt.

Definition decode_observed_node (row : NodeRow) (overlay : option ObservedRow) :
  result ObservedLocalNode ClientSyncError :=
  let? node := Nodes.decode_local_node row in
  let? path := match overlay with
               | Some o => Path.new (overlay_path o)
               | None => Ok (LocalNode.relative_path node)
               end in
  let present := from_option overlay_present (LocalNode.present node) overlay in
  let fingerprint := from_option overlay_fingerprint (Apply.local_node_fingerprint node) overlay in
  let? _ := validate_observed_fingerprint present fingerprint in
  Ok (mk_ObservedLocalNode node path present fingerprint).

Definition overlay_row (library node : Z) (s : Store) : option ObservedRow :=
  observation_nodes (observation s) !! (library, node).

(** The row that [observed_node_at_path] selects.  At most one is expected; the
    statement leaves the choice open should there be several. *)
Definition observed_row_at (library : Z) (path : rstring) (s : Store) : option ((Z * Z) * NodeRow) :=
  head (filter (fun p : (Z * Z) * NodeRow =>
          p.1.1 = library
          /\ from_option overlay_path (LocalNode.relative_path (row_node p.2))
               (overlay_row library p.1.2 s) = path) (map_to_list (local_nodes s))).

Definition observed_node_at_path (library : Z) (path : rstring) (s : Store) :
  result (option ObservedLocalNode) ClientSyncError :=
  match observed_row_at library path s with
  | None => Ok None
  | Some p =>
      let? node := decode_observed_node p.2 (overlay_row library p.1.2 s) in
      Ok (Some node)
  end.

Definition observed_node (library node : Z) (s : Store) :
  result (option ObservedLocalNode) ClientSyncError :=
  match Nodes.local_row library node s with
  | None => Ok None
  | Some row =>
      let? node := decode_observed_node row (overlay_row library node s) in
      Ok (Some node)
  end.

(** [UNIQUE(library_id, relative_path)]. *)
Definition overlay_path_free (library node : Z) (path : rstring)
  (nodes : gmap (Z * Z) ObservedRow) : bool :=
  forallb (fun p : (Z * Z) * ObservedRow =>
             negb ((p.1.1 =? library) && (p.1.2 != node) && (overlay_path p.2 == path)))
    (map_to_list nodes).

Definition upsert_overlay (library node : Z) (row : ObservedRow) : tx unit :=
  do! _ := attempt (optional_u64_i64 (overlay_fingerprint row ≫= LocalFingerprint.length)) in
  do! _ := now_ms in
  do! present := select (fun s => is_some (Nodes.local_row library node s)) in
  do! overlay := select (fun s => observation_nodes (observation s)) in
  do! _ := ensure (present && (Z.of_nat (length (chars (overlay_path row))) <=? 32768)
                   && overlay_path_free library node (overlay_path row) overlay) Database in
  update (fun s => set_overlay s (<[(library, node) := row]> (observation_nodes (observation s)))).

Definition persist_observed_node (node : LocalNode.t) (path : rstring) (present : bool)
  (fingerprint : option LocalFingerprint.t) : M F unit :=
  let! _ := lift (validate_observed_fingerprint present fingerprint) in
  call (upsert_overlay (LocalNode.library_id node) (LocalNode.node_id node)
          (mk_ObservedRow path present fingerprint)).

(** *** A scan *)

Definition start_scan (library : Z) (generation : Z) (s : Store) : Store :=
  let o := observation s in
  set_scan s
    (<[(library, generation, []) := None]>
       (filter (fun p : (Z * Z * rstring) * option rstring => p.1.1.1 <> library)
          (observation_scan_work o)))
    (filter (fun p : Z * Z * Z => p.1.1 <> library) (observation_scan_seen o))
    (filter (fun p : Z * Z * Z => p.1.1 <> library) (observation_scan_seen_intents o)).

Definition begin_scan (library : Z) : tx unit :=
  do! row := select (state_row library) in
  match row with
  | None => attempt (Err InvalidState)
  | Some current =>
      if negb (scan_active current) && rescan_required current
      then
        let next_generation := scan_generation current + 1 in
        do! _ := ensure (next_generation <=? u64_max) ResourceLimit in
        do! _ := attempt (sequence_i64 next_generation) in
        do! _ := update (start_scan library next_generation) in
        do! _ := now_ms in
        put_state library (mk_ObservationState false true next_generation)
      else tx_ret tt
  end.

Definition begin_reconciliation (library : Z) : M F ObservationState :=
  let! _ := call (begin_scan library) in
  required_state library.

(** [ORDER BY relative_path LIMIT 1]. *)
Definition work_first (a b : rstring * option rstring) : Prop := Nodes.bytes_leb a.1 b.1 = true.

#[local] Instance work_first_dec : RelDecision work_first.
Proof. intros a b. unfold work_first. apply _. Defined.

Definition work_of (library generation : Z) (s : Store) : list (rstring * option rstring) :=
  omap (fun p : (Z * Z * rstring) * option rstring =>
          if (p.1.1.1 =? library) && (p.1.1.2 =? generation) then Some (p.1.2, p.2) else None)
    (map_to_list (observation_scan_work (observation s))).

Definition next_observation_scan_work (library generation : Z) (s : Store) :
  result (option ObservationScanWork) ClientSyncError :=
  let? _ := sequence_i64 generation in
  match head (merge_sort work_first (work_of library generation s)) with
  | None => Ok None
  | Some (path, cursor) =>
      if is_some_and cursor (fun value => is_empty value || (1024 <? len value))
      then Err InvalidState
      else
        let? path := Path.new path in
        Ok (Some (mk_ObservationScanWork generation path cursor))
  end.

Definition mark_scan_node_seen (library generation node : Z) : tx unit :=
  do! _ := attempt (sequence_i64 generation) in
  do! _ := fetch_one (Feed.replica library) in
  update (fun s => let o := observation s in
    set_scan s (observation_scan_work o) ({[(library, generation, node)]} ∪ observation_scan_seen o)
      (observation_scan_seen_intents o)).

Definition mark_scan_intent_seen (library generation intent : Z) : tx unit :=
  do! _ := attempt (sequence_i64 generation) in
  do! _ := fetch_one (Feed.replica library) in
  do! _ := fetch_one (fun s => outbound_intents s !! intent) in
  update (fun s => let o := observation s in
    set_scan s (observation_scan_work o) (observation_scan_seen o)
      ({[(library, generation, intent)]} ∪ observation_scan_seen_intents o)).

(** The create intents that the scan has not come by. *)
Definition unseen_creates (library generation : Z) (s : Store) : list (Z * IntentRow) :=
  filter (fun p : Z * IntentRow =>
    intent_library_id p.2 = library
    /\ intent_kind p.2 ∈ [OutboundIntentKind.CreateDirectory; OutboundIntentKind.CreateFile]
    /\ intent_state p.2 ∈ OutboundStore.unsubmitted_states
    /\ (library, generation, p.1) ∉ observation_scan_seen_intents (observation s))
    (map_to_list (outbound_intents s)).

Definition unseen_active_create_intents (library generation maximum : Z) (s : Store) :
  result (list (Z * IntentRow)) ClientSyncError :=
  let? _ := sequence_i64 generation in
  Feed.decode_all OutboundStore.decode
    (take (Z.to_nat maximum) (merge_sort Candidates.intent_first (unseen_creates library generation s))).

Definition has_more_unseen_active_create_intents (library generation maximum : Z) (s : Store) :
  result bool ClientSyncError :=
  let? _ := sequence_i64 generation in
  Ok (maximum <? len (unseen_creates library generation s)).

(** The present nodes that the scan has not come by, the deepest paths first. *)
Definition unseen_nodes (library generation : Z) (s : Store) : list ((Z * Z) * NodeRow) :=
  filter (fun p : (Z * Z) * NodeRow =>
    p.1.1 = library /\ LocalNode.present (row_node p.2) = true
    /\ (library, generation, p.1.2) ∉ observation_scan_seen (observation s))
    (map_to_list (local_nodes s)).

Definition deepest_first (a b : (Z * Z) * NodeRow) : Prop :=
  let pa := LocalNode.relative_path (row_node a.2) in
  let pb := LocalNode.relative_path (row_node b.2) in
  let la := Z.of_nat (length (chars pa)) in
  let lb := Z.of_nat (length (chars pb)) in
  (lb <? la) || ((la =? lb) && Nodes.bytes_leb pa pb) = true.

#[local] Instance deepest_first_dec : RelDecision deepest_first.
Proof. intros a b. unfold deepest_first. apply _. Defined.

Definition unseen_local_nodes (library generation maximum : Z) (s : Store) :
  result (list LocalNode.t) ClientSyncError :=
  let? _ := sequence_i64 generation in
  Feed.decode_all (fun p => Nodes.decode_local_node p.2)
    (take (Z.to_nat maximum) (merge_sort deepest_first (unseen_nodes library generation s))).

(** [INSERT .. ON CONFLICT DO NOTHING] of the directories found. *)
Definition add_work (library generation : Z) (children : list rstring)
  (work : gmap (Z * Z * rstring) (option rstring)) : gmap (Z * Z * rstring) (option rstring) :=
  foldl (fun m child =>
           match m !! (library, generation, child) with
           | Some _ => m
           | None => <[(library, generation, child) := None]> m
           end) work children.

Definition complete_observation_scan_work (library generation : Z) (work : ObservationScanWork)
  (cursor_name : option rstring) (child_directories : list rstring) : tx unit :=
  let key := (library, generation, work_relative_path work) in
  do! _ := attempt (sequence_i64 generation) in
  do! here := select (fun s => observation_scan_work (observation s) !! key) in
  do! _ := ensure (is_some here) InvalidState in
  do! _ := match cursor_name with
           | Some cursor => ensure ((1 <=? len cursor) && (len cursor <=? 1024)) Database
           | None => tx_ret tt
           end in
  update (fun s => let o := observation s in
    set_scan s
      match cursor_name with
      | Some cursor => <[key := Some cursor]> (observation_scan_work o)
      | None => add_work library generation child_directories
                  (delete key (observation_scan_work o))
      end (observation_scan_seen o) (observation_scan_seen_intents o)).

Definition finish_reconciliation (library generation : Z) : tx unit :=
  do! _ := attempt (sequence_i64 generation) in
  do! s := select id in
  do! _ := ensure (is_empty (work_of library generation s)) InvalidState in
  do! _ := ensure (is_empty (unseen_nodes library generation s)) InvalidState in
  do! _ := ensure (is_empty (unseen_creates library generation s)) InvalidState in
  do! _ := update (fun s => let o := observation s in
    set_scan s (observation_scan_work o)
      (filter (fun p : Z * Z * Z => (p.1.1, p.1.2) <> (library, generation)) (observation_scan_seen o))
      (filter (fun p : Z * Z * Z => (p.1.1, p.1.2) <> (library, generation))
         (observation_scan_seen_intents o))) in
  do! _ := now_ms in
  do! row := select (state_row library) in
  match row with
  | Some st =>
      do! _ := ensure (scan_generation st =? generation) InvalidState in
      put_state library (mk_ObservationState (rescan_required st) false (scan_generation st))
  | None => attempt (Err InvalidState)
  end.

(** *** Suppressions *)

Definition decode_suppression (p : (Z * rstring) * SuppressionRow) :
  result ObservationSuppression ClientSyncError :=
  let row := p.2 in
  let? _ := validate_observed_fingerprint (suppression_present row) (suppression_fingerprint row) in
  let? path := Path.new p.1.2 in
  Ok (mk_ObservationSuppression (suppression_node_id row) path (suppression_present row)
        (suppression_fingerprint row)).

(** [path] is the expected path or lies below it. *)
Definition at_or_below (expected path : rstring) : bool :=
  (path == expected) || is_some (strip_prefix (expected ++ [47]) path).

(** In the order of the map; the caller asks whether any of them matches. *)
Definition observation_suppressions_for_path (library : Z) (path : rstring) (s : Store) :
  result (list ObservationSuppression) ClientSyncError :=
  let rows := filter (fun p : (Z * rstring) * SuppressionRow => suppression_library_id p.2 = library)
                (map_to_list (observation_suppressions s)) in
  if MAX_OBSERVATION_QUERY_ROWS <? len rows then Err ResourceLimit
  else
    let? all := Feed.decode_all decode_suppression rows in
    Ok (filter (fun x => at_or_below (expected_relative_path x) path = true) all).

Definition retire_observation_suppressions (library : Z) : tx unit :=
  update (fun s => set_suppressions s
    (filter (fun p : (Z * rstring) * SuppressionRow => suppression_library_id p.2 <> library)
       (observation_suppressions s))).

End ObservationStore.
End ObservationStore.
