(* ===== verification/Watchers.v ===== *)
(** * Watcher hints ([client-sync/src/observation.rs])

    What a platform watcher may tell the observer: bounded hints, or that it lost
    track.  The two watchers are the in-memory one of the tests and the native
    one, whose backend ([notify]) is outside the model: it delivers events to the
    bounded channel between two polls. *)

From S2P Require Import Prelude SyncTypes ClientPaths.

Definition DEFAULT_RAW_WATCHER_QUEUE_CAPACITY : Z := 1024.
Definition MAX_RAW_WATCHER_QUEUE_CAPACITY : Z := 8192.
Definition DEFAULT_MAX_HINTS_PER_POLL : Z := 256.
Definition DEFAULT_SCAN_BATCH_ENTRIES : Z := 128.

Module WatchHintKind.

Inductive t : Type := Create | Modify | Remove | Rename | Metadata | RescanRequired.

#[global] Instance t_eq_dec : EqDecision t.
Proof. solve_decision. Defined.

End WatchHintKind.

Module WatchHint.

Record t := mk { kind : WatchHintKind.t; paths : list rstring }.

#[global] Instance t_eq_dec : EqDecision t.
Proof. solve_decision. Defined.

Definition new (kind : WatchHintKind.t) (paths : list rstring) : result t ClientSyncError :=
  let bad :=
    match kind with
    | WatchHintKind.RescanRequired => negb (is_empty paths)
    | WatchHintKind.Rename => len paths != 2
    | _ => is_empty paths || (2 <? len paths)
    end in
  if bad then Err InvalidState else Ok (mk kind paths).

Definition rescan_required : t := mk WatchHintKind.RescanRequired [].

End WatchHint.

Module ObservationConfig.

(** The debounce window is in milliseconds. *)
Record t := mk {
  raw_queue_capacity : Z; max_hints_per_poll : Z; scan_batch_entries : Z; debounce_window : Z }.

Definition new (raw_queue_capacity max_hints_per_poll scan_batch_entries debounce_window : Z) :
  result t ClientSyncError :=
  if (raw_queue_capacity =? 0) || (max_hints_per_poll =? 0) || (scan_batch_entries =? 0)
     || (MAX_RAW_WATCHER_QUEUE_CAPACITY <? raw_queue_capacity) || (4096 <? max_hints_per_poll)
     || (1024 <? scan_batch_entries) || (5000 <? debounce_window)
  then Err ResourceLimit
  else Ok (mk raw_queue_capacity max_hints_per_poll scan_batch_entries debounce_window).

Definition default : t :=
  mk DEFAULT_RAW_WATCHER_QUEUE_CAPACITY DEFAULT_MAX_HINTS_PER_POLL DEFAULT_SCAN_BATCH_ENTRIES 200.

End ObservationConfig.

(** [LocalChangeWatcher], started on one managed root. *)
Class LocalChangeWatcher (W : Type) := {
  watcher_start : W -> W * result unit ClientSyncError;
  watcher_poll : Z -> W -> W * result (list WatchHint.t) ClientSyncError;
  watcher_stop : W -> W * result unit ClientSyncError
}.

Definition clamp (value low high : Z) : Z := Z.min (Z.max value low) high.

(** ** The in-memory watcher *)

Module Manual.

(** [ManualWatcherQueue]. *)
Record t := mk { capacity : Z; started : bool; hints : list WatchHint.t }.

Definition with_capacity (capacity : Z) : t :=
  mk (clamp capacity 1 MAX_RAW_WATCHER_QUEUE_CAPACITY) false [].

Definition overflow (queue : t) : t := mk (capacity queue) (started queue) [WatchHint.rescan_required].

Definition push (hint : WatchHint.t) (queue : t) : t :=
  if capacity queue <=? len (hints queue) then overflow queue
  else mk (capacity queue) (started queue) (hints queue ++ [hint]).

(** [root_usable]: the root is absolute and a directory. *)
Definition start (root_usable : bool) (queue : t) : t * result unit ClientSyncError :=
  if negb root_usable then (queue, Err InvalidRoot)
  else (mk (capacity queue) true (hints queue), Ok tt).

Definition poll (maximum : Z) (queue : t) : t * result (list WatchHint.t) ClientSyncError :=
  if maximum =? 0 then (queue, Err ResourceLimit)
  else if negb (started queue) then (queue, Err InvalidState)
  else
    let n := Z.to_nat (Z.min maximum (capacity queue)) in
    (mk (capacity queue) (started queue) (drop n (hints queue)), Ok (take n (hints queue))).

Definition stop (queue : t) : t * result unit ClientSyncError :=
  (mk (capacity queue) false (hints queue), Ok tt).

#[export] Instance watcher (root_usable : bool) : LocalChangeWatcher t := {|
  watcher_start := start root_usable; watcher_poll := poll; watcher_stop := stop |}.

End Manual.

(** ** The native watcher *)

(** A component of a native path; a name may fail to be Unicode. *)
Inductive Component : Type := Normal (name : option rstring) | RootDir | ParentDir | CurDir.

#[global] Instance Component_eq_dec : EqDecision Component.
Proof. solve_decision. Defined.

Definition native : Type := list Component.

(** The events of [notify], as far as the observer tells them apart. *)
Inductive RenameMode : Type := RenameBoth | RenameFrom | RenameTo | RenameAny.
Inductive ModifyKind : Type := ModifyData | ModifyMetadata | ModifyName (mode : RenameMode) | ModifyAny.
Inductive EventKind : Type :=
| EventCreate | EventRemove | EventAccess | EventModify (kind : ModifyKind) | EventOther.

Record Event := mk_Event { event_kind : EventKind; event_paths : list native }.

Module Notify.
Section Notify.

Context `{U : Unicode}.

(** [Path::strip_prefix]. *)
Fixpoint strip_root (root path : native) : option native :=
  match root, path with
  | [], _ => Some path
  | a :: root, b :: path => if a == b then strip_root root path else None
  | _ :: _, [] => None
  end.

Definition is_normal (c : Component) : bool := match c with Normal _ => true | _ => false end.

Fixpoint component_names (path : native) : result (list rstring) ClientSyncError :=
  match path with
  | [] => Ok []
  | Normal (Some name) :: rest => let? names := component_names rest in Ok (name :: names)
  | _ :: _ => Err InvalidRelativePath
  end.

Definition native_to_managed_relative (root path : native) :
  result (option rstring) ClientSyncError :=
  let? relative := ok_or (strip_root root path) InvalidRelativePath in
  if negb (forallb is_normal relative) then Err InvalidRelativePath
  else if is_empty relative then Ok (Some Path.root)
  else
    let? components := component_names relative in
    if head components == Some (lit ".synveil") then Ok None
    else
      let? path := Path.new (join 47 components) in
      Ok (Some path).

Definition is_control_path (path : rstring) : bool :=
  (path == lit ".synveil") || is_some (strip_prefix (lit ".synveil/") path).

(** The paths of an event outside the control tree; [None] when there are more
    than two. *)
Fixpoint event_relatives (root : native) (found : list rstring) (paths : list native) :
  result (option (list rstring)) ClientSyncError :=
  match paths with
  | [] => Ok (Some found)
  | path :: rest =>
      let? relative := native_to_managed_relative root path in
      match relative with
      | None => event_relatives root found rest
      | Some relative =>
          if is_control_path relative then event_relatives root found rest
          else if 2 <=? len found then Ok None
          else event_relatives root (found ++ [relative]) rest
      end
  end.

(** [None]: the event says only that a rescan is needed. *)
Definition hint_kind (kind : EventKind) (count : Z) : option WatchHintKind.t :=
  match kind with
  | EventCreate => Some WatchHintKind.Create
  | EventRemove => Some WatchHintKind.Remove
  | EventModify ModifyMetadata => Some WatchHintKind.Metadata
  | EventModify (ModifyName RenameBoth) =>
      if count =? 2 then Some WatchHintKind.Rename
      else if count =? 1 then Some WatchHintKind.Modify else None
  | EventModify (ModifyName RenameFrom) => Some WatchHintKind.Remove
  | EventModify (ModifyName RenameTo) => Some WatchHintKind.Create
  | EventModify (ModifyName RenameAny) => if count =? 1 then Some WatchHintKind.Modify else None
  | EventModify ModifyData => Some WatchHintKind.Modify
  | EventAccess => Some WatchHintKind.Metadata
  | EventModify ModifyAny | EventOther => None
  end.

Definition notify_event_to_hint (root : native) (event : Event) :
  result (option WatchHint.t) ClientSyncError :=
  let? paths := event_relatives root [] (event_paths event) in
  match paths with
  | None => Ok (Some WatchHint.rescan_required)
  | Some [] => Ok None
  | Some paths =>
      match hint_kind (event_kind event) (len paths) with
      | None => Ok (Some WatchHint.rescan_required)
      | Some kind => let? hint := WatchHint.new kind paths in Ok (Some hint)
      end
  end.

(** The running part holds the root and the channel: the undelivered events, each
    possibly an error of the backend, and whether the sender still lives. *)
Record Running := mk_Running {
  root : native; queue : list (result Event unit); connected : bool }.

Record t := mk { capacity : Z; running : option Running; overflowed : bool }.

Definition new (capacity : Z) : t := mk (clamp capacity 1 MAX_RAW_WATCHER_QUEUE_CAPACITY) None false.

(** [root_usable]: the root is absolute and a directory; [backend]: the answer of
    [notify] to the request to watch it. *)
Definition start (at_root : native) (root_usable : bool) (backend : result unit unit) (w : t) :
  t * result unit ClientSyncError :=
  if is_some (running w) || negb root_usable then (w, Err InvalidState)
  else match backend with
       | Err _ => (w, Err LocalIo)
       | Ok _ => (mk (capacity w) (Some (mk_Running at_root [] true)) (overflowed w), Ok tt)
       end.

(** The callback given to [notify]. *)
Definition deliver (event : result Event unit) (w : t) : t :=
  match running w with
  | None => w
  | Some r =>
      if capacity w <=? len (queue r) then mk (capacity w) (running w) true
      else mk (capacity w) (Some (mk_Running (root r) (queue r ++ [event]) (connected r)))
             (overflowed w)
  end.

(** The loop of [poll]: what is left in the channel and the hints. *)
Fixpoint drain (at_root : native) (alive : bool) (maximum : Z) (hints : list WatchHint.t)
  (queue : list (result Event unit)) : list (result Event unit) * list WatchHint.t :=
  if maximum <=? len hints then (queue, hints)
  else match queue with
       | [] => ([], if alive then hints else hints ++ [WatchHint.rescan_required])
       | Err _ :: rest => (rest, hints ++ [WatchHint.rescan_required])
       | Ok event :: rest =>
           match notify_event_to_hint at_root event with
           | Ok (Some hint) => drain at_root alive maximum (hints ++ [hint]) rest
           | Ok None => drain at_root alive maximum hints rest
           | Err _ => drain at_root alive maximum (hints ++ [WatchHint.rescan_required]) rest
           end
       end.

Definition poll (maximum : Z) (w : t) : t * result (list WatchHint.t) ClientSyncError :=
  if maximum =? 0 then (w, Err ResourceLimit)
  else match running w with
       | None => (w, Err InvalidState)
       | Some r =>
           let hints := if overflowed w then [WatchHint.rescan_required] else [] in
           let '(kept, hints) :=
             drain (root r) (connected r) (Z.min maximum (capacity w)) hints (queue r) in
           (mk (capacity w) (Some (mk_Running (root r) kept (connected r))) false, Ok hints)
       end.

Definition stop (w : t) : t * result unit ClientSyncError := (mk (capacity w) None false, Ok tt).

#[export] Instance notify_watcher (at_root : native) (root_usable : bool)
  (backend : result unit unit) : LocalChangeWatcher t := {|
  watcher_start := start at_root root_usable backend; watcher_poll := poll; watcher_stop := stop |}.

End Notify.
End Notify.

(** ** Coalescing *)

Fixpoint bytes_ltb (a b : rstring) : bool :=
  match a, b with
  | _, [] => false
  | [], _ :: _ => true
  | x :: a, y :: b => (x <? y) || ((x =? y) && bytes_ltb a b)
  end.

(** [BTreeSet::insert] on a set of paths, kept as its sorted elements. *)
Fixpoint insert_path (path : rstring) (set : list rstring) : list rstring :=
  match set with
  | [] => [path]
  | p :: rest =>
      if bytes_ltb path p then path :: set
      else if path == p then set
      else p :: insert_path path rest
  end.

(** [Some] when a recorded rename ends at [source]. *)
Fixpoint redirect (source destination : rstring) (renames : list (rstring * rstring)) :
  option (list (rstring * rstring)) :=
  match renames with
  | [] => None
  | (from, to) :: rest =>
      if to == source then Some ((from, destination) :: rest)
      else let* rest := redirect source destination rest in Some ((from, to) :: rest)
  end.

Definition coalesce_hint (acc : list (rstring * rstring) * list rstring) (hint : WatchHint.t) :
  list (rstring * rstring) * list rstring :=
  let '(renames, paths) := acc in
  match WatchHint.kind hint with
  | WatchHintKind.Rename =>
      let source := nth 0 (WatchHint.paths hint) [] in
      let destination := nth 1 (WatchHint.paths hint) [] in
      if source == destination then acc
      else match redirect source destination renames with
           | Some renames => (renames, paths)
           | None => (renames ++ [(source, destination)], paths)
           end
  | WatchHintKind.RescanRequired => acc
  | _ => (renames, foldl (fun set path => insert_path path set) paths (WatchHint.paths hint))
  end.

Definition coalesce_hints (hints : list WatchHint.t) : list (rstring * rstring) * list rstring :=
  foldl coalesce_hint ([], []) hints.
