(* ===== verification/Observation.v ===== *)
(** * The observation engine

    [client-sync/src/observation.rs]: the observer turns watcher hints and bounded
    scans of the managed folder into durable intents.  It reads the folder and
    writes only the local database; beside the database it keeps a debounce queue
    and two flags in memory, held with its watcher next to the folder.

    The writer lock of a library, which keeps two engines of one process apart, is
    not modelled: a call is a sequence of steps of one engine. *)

From S2P Require Import Prelude Vocabulary Models Requests SyncTypes ClientPaths ClientStore.
From S2P Require Import SyncWorld Candidates Disk OutboundTypes OutboundStore ObservationStore.
From S2P Require Import Watchers.

(** ** What the observer holds *)

(** A buffered hint carries the instant at which it arrived. *)
Record Observer (W : Type) := mk_Observer {
  watcher : W; buffered_hints : list (WatchHint.t * Z); durable_change_pending : bool;
  started : bool }.
Arguments mk_Observer {W} watcher buffered_hints durable_change_pending started.
Arguments watcher {W} o : rename.
Arguments buffered_hints {W} o : rename.
Arguments durable_change_pending {W} o : rename.
Arguments started {W} o : rename.

(** The managed folder with the observer beside it. *)
Record Host (F W : Type) := mk_Host { folder : F; observer : Observer W }.
Arguments mk_Host {F W} folder observer.
Arguments folder {F W} h : rename.
Arguments observer {F W} h : rename.

(** An operation of the folder. *)
Definition through {F W A} (op : F -> F * result A ClientSyncError) (h : Host F W) :
  Host F W * result A ClientSyncError :=
  let '(f, r) := op (folder h) in (mk_Host f (observer h), r).

(** [Instant::now()], in milliseconds. *)
Class Monotonic := { instant : nat -> Z }.

(** What the observer asks the operating system directly, of a path below the
    root: whether it is a symbolic link, and the names in it, [None] for a name
    that is not Unicode. *)
Class DirectoryReader (F : Type) := {
  is_symlink : rstring -> F -> F * result bool ClientSyncError;
  read_dir_names : rstring -> F -> F * result (list (option rstring)) ClientSyncError
}.

Definition filesystem_directories : DirectoryReader Disk := {|
  is_symlink path d :=
    (d, match symlink_metadata d (Managed.components path) with
        | Found e => Ok (e == Redirect)
        | _ => Err LocalIo
        end);
  read_dir_names path d :=
    match read_dir (Managed.components path) d with
    | (d, Ok names) => (d, Ok (map Some names))
    | (d, Err e) => (d, Err e)
    end
|}.

(** ** The wake after a durable change ([runtime.rs], [signals.rs]) *)

Inductive SyncRuntimeWakeResult : Type :=
| Queued | Coalesced | AlreadyRunningFollowupRecorded | PausedByUser | RuntimeStopped
| UnknownLibrary.

#[global] Instance SyncRuntimeWakeResult_eq_dec : EqDecision SyncRuntimeWakeResult.
Proof. solve_decision. Defined.

Module DurableChangeNotification.

Record t := mk { durable_changed : bool; wake_result : option SyncRuntimeWakeResult }.

Definition no_change : t := mk false None.
Definition committed (wake : option SyncRuntimeWakeResult) : t := mk true wake.

End DurableChangeNotification.

(** ** Small predicates *)

Definition node_kind_matches_fingerprint (kind : NodeKind.t) (fingerprint : LocalFingerprint.t) :
  bool :=
  match kind, LocalFingerprint.kind fingerprint with
  | NodeKind.File, LocalFingerprint.File | NodeKind.Directory, LocalFingerprint.Directory => true
  | _, _ => false
  end.

Definition create_kind_matches_node (intent : OutboundIntentKind.t) (node : NodeKind.t) : bool :=
  match intent, node with
  | OutboundIntentKind.CreateFile, NodeKind.File
  | OutboundIntentKind.CreateDirectory, NodeKind.Directory => true
  | _, _ => false
  end.

Definition expected_node_fingerprint (node : LocalNode.t) : option LocalFingerprint.t :=
  match LocalNode.kind node with
  | NodeKind.Directory => Some LocalFingerprint.directory
  | NodeKind.File =>
      match LocalNode.local_length node, LocalNode.local_sha256 node with
      | Some length, Some sha256 => Some (LocalFingerprint.file length sha256)
      | _, _ =>
          match LocalNode.content_length node, LocalNode.content_sha256 node with
          | Some length, Some sha256 => Some (LocalFingerprint.file length sha256)
          | _, _ => None
          end
      end
  end.

(** [Option::filter]. *)
Definition option_filter {A} (p : A -> bool) (o : option A) : option A :=
  match o with Some a => if p a then Some a else None | None => None end.

(** [BTreeMap::insert] of a directory entry, kept as the sorted entries. *)
Fixpoint insert_entry (name child : rstring) (entries : list (rstring * rstring)) :
  list (rstring * rstring) :=
  match entries with
  | [] => [(name, child)]
  | e :: rest =>
      if bytes_ltb name e.1 then (name, child) :: entries
      else if name == e.1 then (name, child) :: rest
      else e :: insert_entry name child rest
  end.

(** The entries kept while a directory is read: the [maximum + 1] smallest. *)
Definition keep_entry (maximum : Z) (name child : rstring) (entries : list (rstring * rstring)) :
  list (rstring * rstring) :=
  let entries := insert_entry name child entries in
  if maximum + 1 <? len entries then take (length entries - 1) entries else entries.

Module Observation.
Section Observation.

Context {F W : Type} `{U : Unicode} `{E : Env} `{T : Monotonic} `{L : LocalReplica F}
  `{D : DirectoryReader F} `{Wt : LocalChangeWatcher W} `{I : Identifiers} `{H : Sha}.
Context (scope : ReplicaScope) (config : ObservationConfig.t).

(** [wake_notifier]: the answer of the runtime to a wake of this library. *)
Context (wake_library : option (nat -> SyncRuntimeWakeResult)).

Notation lib := (library_id scope).
Notation O A := (M (Host F W) A).

(** *** Effects *)

Definition on_folder {A} (op : F -> F * result A ClientSyncError) : O A := fs (through op).

Definition on_watcher {A} (op : W -> W * result A ClientSyncError) : O A :=
  fs (fun h => let o := observer h in
    let '(w, r) := op (watcher o) in
    (mk_Host (folder h) (mk_Observer w (buffered_hints o) (durable_change_pending o) (started o)), r)).

Definition observe {A} (get : Observer W -> A) : O A := fs (fun h => (h, Ok (get (observer h)))).

Definition set_buffered (hints : list (WatchHint.t * Z)) : O unit :=
  fs (fun h => let o := observer h in
    (mk_Host (folder h) (mk_Observer (watcher o) hints (durable_change_pending o) (started o)),
     Ok tt)).

Definition set_pending (value : bool) : O unit :=
  fs (fun h => let o := observer h in
    (mk_Host (folder h) (mk_Observer (watcher o) (buffered_hints o) value (started o)), Ok tt)).

Definition set_started (value : bool) : O unit :=
  fs (fun h => let o := observer h in
    (mk_Host (folder h)
       (mk_Observer (watcher o) (buffered_hints o) (durable_change_pending o) value), Ok tt)).

Definition now : O Z := fun w => (next w, Ok (instant (tick w))).

(** [m.is_err()] and the value of a call whose error is looked at. *)
Definition outcome {A} (m : O A) : O (result A ClientSyncError) := inspecting m ret.

Definition is_err {A B} (r : result A B) : bool := match r with Err _ => true | Ok _ => false end.

(** *** Issues *)

Definition persist_issue (node : option Z) (path : option rstring) (kind : ObservationIssueKind.t) :
  O unit :=
  Calls.persist_observation_issue lib node path kind.

(** An issue that asks for another scan. *)
Definition flag (node : option Z) (path : option rstring) (kind : ObservationIssueKind.t) : O unit :=
  let! _ := persist_issue node path kind in
  let! _ := ObservationStore.require_reconciliation lib in
  ret tt.

Definition flag_and_fail {A} (node : option Z) (path : option rstring)
  (kind : ObservationIssueKind.t) : O A :=
  let! _ := flag node path kind in
  raise (ObservationIssue kind).

Definition validate_root_or_stop : O unit :=
  let! valid := outcome (on_folder validate_root) in
  match valid with
  | Ok _ => call (ObservationStore.resolve_recovered_root_observation_issues lib)
  | Err _ =>
      let! _ := persist_issue None None ObservationIssueKind.RootInvalid in
      let! _ := set_started false in
      let! _ := outcome (on_watcher watcher_stop) in
      raise RootUnavailable
  end.

(** [if self.replica.validate_root().is_err() { self.validate_root_or_stop()? }]. *)
Definition stop_if_root_lost : O unit :=
  let! valid := outcome (on_folder validate_root) in
  if is_err valid then validate_root_or_stop else ret tt.

Definition record_watcher_overflow : O unit := flag None None ObservationIssueKind.WatcherOverflow.

Definition note_durable_change (changed : bool) : O unit :=
  if changed then set_pending true else ret tt.

(** *** Inspection *)

Definition inspect_for_observation (path : rstring) : O (option LocalFingerprint.t) :=
  let! found := outcome (on_folder (inspect path)) in
  match found with
  | Ok value => ret value
  | Err ContentUnstable =>
      let! _ := stop_if_root_lost in
      flag_and_fail None (Some path) ObservationIssueKind.HashUnstable
  | Err InvalidRoot | Err RootUnavailable | Err WrongRootBinding =>
      let! _ := validate_root_or_stop in
      raise RootUnavailable
  | Err RootRedirected | Err InvalidState =>
      let! _ := stop_if_root_lost in
      flag_and_fail None (Some path) ObservationIssueKind.UnsupportedEntryType
  | Err LocalIo =>
      let! valid := outcome (on_folder validate_root) in
      if is_err valid
      then
        let! _ := validate_root_or_stop in
        raise RootUnavailable
      else flag_and_fail None (Some path) ObservationIssueKind.ObservationBusy
  | Err error => raise error
  end.

Definition observed_node_at_path (path : rstring) : O (option ObservedLocalNode) :=
  read (ObservationStore.observed_node_at_path lib path).

Definition node_of (known : ObservedLocalNode) : Z := LocalNode.node_id (observed_local known).

(** The loop of [suppression_matches]. *)
Fixpoint any_suppression (path : rstring) (actual : option LocalFingerprint.t)
  (suppressions : list ObservationSuppression) : O bool :=
  match suppressions with
  | [] => ret false
  | x :: rest =>
      if negb (expected_present x)
      then
        if is_none actual && (path == expected_relative_path x) then ret true
        else any_suppression path actual rest
      else if actual != expected_fingerprint x then any_suppression path actual rest
      else
        let! known := observed_node_at_path path in
        if is_some_and known (fun value =>
             observed_present value && (observed_fingerprint value == actual)
             && ((node_of value =? expected_node_id x)
                 || is_some (strip_prefix (expected_relative_path x ++ [47]) path)))
        then ret true
        else any_suppression path actual rest
  end.

Definition suppression_matches (path : rstring) (actual : option LocalFingerprint.t) : O bool :=
  let! suppressions := read (ObservationStore.observation_suppressions_for_path lib path) in
  any_suppression path actual suppressions.

(** *** Intents *)

Definition new_intent (observed_node parent : option ObservedLocalNode)
  (kind : OutboundIntentKind.t) (path : rstring) (old_path : option rstring)
  (fingerprint : option LocalFingerprint.t) : O (Z * IntentRow) :=
  let! _ := stop_if_root_lost in
  let! replica := read (fun s => ok_or (Feed.replica lib s) InvalidState) in
  let! id := uuid in
  lift (OutboundTypes.new_intent id
    (intent_value lib (node_of <$> observed_node) (node_of <$> parent) kind path old_path
       fingerprint (Replica.journal_epoch replica) (Replica.applied_sequence replica)
       ((fun value => LocalNode.revision (observed_local value)) <$> observed_node)
       (observed_node ≫= fun value => LocalNode.current_version_id (observed_local value))
       ((fun value => LocalNode.revision (observed_local value)) <$> parent))).

(** Persist an intent and note a durable change. *)
Definition record_intent (intent : Z * IntentRow) : O unit :=
  let! persisted := OutboundStore.upsert_outbound_intent_with_result intent in
  note_durable_change persisted.2.

Definition observed_parent (path : rstring) : O (option ObservedLocalNode) :=
  let! parent_path := lift (ok_or (Path.parent path) InvalidRelativePath) in
  let! found := inspect_for_observation parent_path in
  if found != Some LocalFingerprint.directory
  then flag_and_fail None (Some parent_path) ObservationIssueKind.ObservationBusy
  else
    let! known := observed_node_at_path parent_path in
    ret (option_filter (fun value => observed_present value
                          && (LocalNode.kind (observed_local value) == NodeKind.Directory)) known).

Definition required_parent (path : rstring) : O ObservedLocalNode :=
  let! parent := observed_parent path in
  match parent with
  | Some parent => ret parent
  | None => flag_and_fail None (Some path) ObservationIssueKind.ObservationBusy
  end.

Definition move_pending_create (source destination : rstring)
  (destination_fingerprint : LocalFingerprint.t) : O bool :=
  let kind := match LocalFingerprint.kind destination_fingerprint with
              | LocalFingerprint.Directory => OutboundIntentKind.CreateDirectory
              | LocalFingerprint.File => OutboundIntentKind.CreateFile
              end in
  let! parent := observed_parent destination in
  let! replacement := new_intent None parent kind destination None (Some destination_fingerprint) in
  let! moved := OutboundStore.move_pending_create source replacement in
  let! _ := note_durable_change (is_some moved) in
  ret (is_some moved).

Definition record_file_modification (known : ObservedLocalNode) (path : rstring)
  (fingerprint : LocalFingerprint.t) : O unit :=
  let! _ := reject (LocalFingerprint.kind fingerprint != LocalFingerprint.File) InvalidState in
  let! parent := required_parent path in
  let! intent := new_intent (Some known) (Some parent) OutboundIntentKind.ModifyFileContent path
                   None (Some fingerprint) in
  let! _ := record_intent intent in
  ObservationStore.persist_observed_node (observed_local known) path true (Some fingerprint).

(** *** Classification *)

Definition cancel_pending_delete (known : ObservedLocalNode) : O bool :=
  call (OutboundStore.cancel_pending_delete lib (node_of known)).

(** The last part of [classify_known_present]. *)
Definition classify_changed (known : ObservedLocalNode) (path : rstring)
  (fingerprint : LocalFingerprint.t) : O unit :=
  let kind := LocalNode.kind (observed_local known) in
  if negb (node_kind_matches_fingerprint kind fingerprint)
  then flag (Some (node_of known)) (Some path) ObservationIssueKind.UnsupportedEntryType
  else match kind with
       | NodeKind.File => record_file_modification known path fingerprint
       | NodeKind.Directory => ret tt
       end.

Definition classify_known_present (known : ObservedLocalNode) (path : rstring)
  (fingerprint : LocalFingerprint.t) : O unit :=
  let node := observed_local known in
  if observed_present known && (observed_fingerprint known == Some fingerprint)
  then
    let! _ := cancel_pending_delete known in
    ret tt
  else
    let! restored :=
      if negb (observed_present known)
         && node_kind_matches_fingerprint (LocalNode.kind node) fingerprint
         && (expected_node_fingerprint node == Some fingerprint)
      then cancel_pending_delete known else ret false in
    if restored
    then ObservationStore.persist_observed_node node path true (Some fingerprint)
    else classify_changed known path fingerprint.

Definition classify_unknown_present (path : rstring) (fingerprint : LocalFingerprint.t) : O unit :=
  let! parent := observed_parent path in
  let! collision := on_folder (has_portable_name_collision path) in
  if (collision : bool)
  then flag (node_of <$> parent) (Some path) ObservationIssueKind.NameCollision
  else
    let kind := match LocalFingerprint.kind fingerprint with
                | LocalFingerprint.Directory => OutboundIntentKind.CreateDirectory
                | LocalFingerprint.File => OutboundIntentKind.CreateFile
                end in
    let! intent := new_intent None parent kind path None (Some fingerprint) in
    record_intent intent.

(** A known node that is gone. *)
Definition classify_vanished (known : ObservedLocalNode) (path : rstring) : O unit :=
  let! intent := new_intent (Some known) None OutboundIntentKind.DeleteOrTrashNode path None None in
  let! _ := record_intent intent in
  ObservationStore.persist_observed_node (observed_local known) path false None.

Definition classify_path (path : rstring) : O unit :=
  if Notify.is_control_path path then ret tt
  else
    let! ambiguous := read (fun s => Ok (ObservationStore.has_unresolved_observation_issue lib path
                                           ObservationIssueKind.AmbiguousRename s)) in
    if (ambiguous : bool) then ret tt
    else
      let! actual := inspect_for_observation path in
      let! suppressed := suppression_matches path actual in
      if (suppressed : bool) then ret tt
      else
        let! known := observed_node_at_path path in
        match known, actual with
        | Some known, Some fingerprint => classify_known_present known path fingerprint
        | Some known, None => if observed_present known then classify_vanished known path else ret tt
        | None, Some fingerprint => classify_unknown_present path fingerprint
        | None, None =>
            let! _ := call (OutboundStore.cancel_pending_create lib path) in
            ret tt
        end.

Definition ambiguous_rename (path : rstring) (node : option Z) : O unit :=
  flag node (Some path) ObservationIssueKind.AmbiguousRename.

(** The source of a rename is not a present node. *)
Definition classify_untracked_rename (source destination : rstring)
  (source_actual destination_actual : option LocalFingerprint.t) : O unit :=
  match source_actual, destination_actual with
  | None, Some fingerprint =>
      let! destination_node := observed_node_at_path destination in
      match option_filter observed_present destination_node with
      | Some destination_node => classify_known_present destination_node destination fingerprint
      | None =>
          let! moved := move_pending_create source destination fingerprint in
          if (moved : bool) then ret tt else ambiguous_rename source None
      end
  | _, _ => ambiguous_rename source None
  end.

(** A known node was found at its new path, its old path empty. *)
Definition record_rename (source_node : ObservedLocalNode) (source destination : rstring)
  (fingerprint : LocalFingerprint.t) : O unit :=
  let! parent := required_parent destination in
  let! source_parent := lift (ok_or (Path.parent source) InvalidRelativePath) in
  let! destination_parent := lift (ok_or (Path.parent destination) InvalidRelativePath) in
  let kind := if source_parent == destination_parent
              then OutboundIntentKind.RenameNode else OutboundIntentKind.MoveNode in
  let! intent := new_intent (Some source_node) (Some parent) kind destination (Some source)
                   (Some fingerprint) in
  let! _ := record_intent intent in
  let! _ := ObservationStore.persist_observed_node (observed_local source_node) destination true
              (Some fingerprint) in
  if (LocalNode.kind (observed_local source_node) == NodeKind.File)
     && (observed_fingerprint source_node != Some fingerprint)
  then record_file_modification source_node destination fingerprint
  else ret tt.

(** Another node is known at the destination, or its name collides. *)
Definition destination_taken (source_node : ObservedLocalNode) (destination : rstring) : O bool :=
  let! there := observed_node_at_path destination in
  if is_some_and there (fun value => node_of value != node_of source_node) then ret true
  else on_folder (has_portable_name_collision destination).

Definition classify_rename (source destination : rstring) : O unit :=
  if Notify.is_control_path source || Notify.is_control_path destination then ret tt
  else
    let! source_actual := inspect_for_observation source in
    let! destination_actual := inspect_for_observation destination in
    let! suppressed := suppression_matches source source_actual in
    let! suppressed :=
      if (suppressed : bool) then suppression_matches destination destination_actual
      else ret false in
    if (suppressed : bool) then ret tt
    else
      let! source_node := observed_node_at_path source in
      match option_filter observed_present source_node with
      | None => classify_untracked_rename source destination source_actual destination_actual
      | Some source_node =>
          match destination_actual with
          | None => ambiguous_rename source (Some (node_of source_node))
          | Some fingerprint =>
              if is_some source_actual
                 || negb (node_kind_matches_fingerprint
                            (LocalNode.kind (observed_local source_node)) fingerprint)
              then ambiguous_rename source (Some (node_of source_node))
              else
                let! taken := destination_taken source_node destination in
                if (taken : bool)
                then flag (Some (node_of source_node)) (Some destination)
                       ObservationIssueKind.NameCollision
                else record_rename source_node source destination fingerprint
          end
      end.

(** *** Hints *)

(** The first loop of [detect_unpaired_rename]: known paths that are gone and
    unknown ones that are there. *)
Fixpoint gone_and_new (paths : list rstring) :
  O (list (rstring * ObservedLocalNode) * list (rstring * LocalFingerprint.t)) :=
  match paths with
  | [] => ret ([], [])
  | path :: rest =>
      let! known := observed_node_at_path path in
      let! found := outcome (on_folder (inspect path)) in
      let! more := gone_and_new rest in
      ret match found, known with
          | Ok None, Some value =>
              if observed_present value then ((path, value) :: more.1, more.2) else more
          | Ok (Some fingerprint), None => (more.1, (path, fingerprint) :: more.2)
          | _, _ => more
          end
  end.

(** The second loop. *)
Fixpoint flag_unpaired (created : list (rstring * LocalFingerprint.t)) (ambiguous : list rstring)
  (removed : list (rstring * ObservedLocalNode)) : O (list rstring) :=
  match removed with
  | [] => ret ambiguous
  | (source, node) :: rest =>
      let destinations :=
        map fst (filter (fun p : rstring * LocalFingerprint.t =>
          is_some_and (observed_fingerprint node) (fun expected =>
            LocalFingerprint.kind expected == LocalFingerprint.kind p.2) = true) created) in
      if is_empty destinations then flag_unpaired created ambiguous rest
      else
        let! _ := persist_issue (Some (node_of node)) (Some source)
                    ObservationIssueKind.AmbiguousRename in
        let! _ := each (fun destination =>
                    persist_issue None (Some destination) ObservationIssueKind.AmbiguousRename)
                    destinations in
        let! _ := ObservationStore.require_reconciliation lib in
        flag_unpaired created
          (foldl (fun set path => insert_path path set) (insert_path source ambiguous) destinations)
          rest
  end.

Definition detect_unpaired_rename (hints : list WatchHint.t) : O (list rstring) :=
  let! found := gone_and_new (coalesce_hints hints).2 in
  flag_unpaired found.2 [] found.1.

(** The hints that are due, and those retained. *)
Definition due_hints (force : bool) (at_ : Z) (hints : list (WatchHint.t * Z)) :
  list WatchHint.t * list (WatchHint.t * Z) :=
  let due (h : WatchHint.t * Z) :=
    force || (ObservationConfig.debounce_window config <=? Z.max 0 (at_ - h.2)) in
  (map fst (filter (fun h => due h = true) hints), filter (fun h => due h = false) hints).

Definition flush_due_hints (force : bool) : O Z :=
  let! at_ := now in
  let! buffered := observe buffered_hints in
  let '(due, retained) := due_hints force at_ buffered in
  let! _ := set_buffered retained in
  if is_empty due then ret 0
  else
    let! _ := validate_root_or_stop in
    let! ambiguous := detect_unpaired_rename due in
    let '(renames, paths) := coalesce_hints due in
    let paths := filter (fun path => path ∉ ambiguous) paths in
    let! _ := each (fun r : rstring * rstring => classify_rename r.1 r.2) renames in
    let! _ := each classify_path paths in
    ret (len paths).

(** *** Scanning *)

Definition unrepresentable (work : ObservationScanWork) : O unit :=
  persist_issue None (Some (work_relative_path work)) ObservationIssueKind.UnrepresentableName.

(** The loop over [fs::read_dir]. *)
Fixpoint collect_entries (work : ObservationScanWork) (candidates : list (rstring * rstring))
  (names : list (option rstring)) : O (list (rstring * rstring)) :=
  match names with
  | [] => ret candidates
  | None :: _ =>
      let! _ := unrepresentable work in
      let! _ := ObservationStore.require_reconciliation lib in
      raise (ObservationIssue ObservationIssueKind.UnrepresentableName)
  | Some name :: rest =>
      if is_some_and (work_cursor_name work) (fun cursor => Nodes.bytes_leb name cursor)
         || (Path.is_root (work_relative_path work) && (name == lit ".synveil"))
      then collect_entries work candidates rest
      else match Path.child (work_relative_path work) name with
           | Err _ =>
               let! _ := unrepresentable work in
               collect_entries work candidates rest
           | Ok child =>
               collect_entries work
                 (keep_entry (ObservationConfig.scan_batch_entries config) name child candidates) rest
           end
  end.

Definition mark_seen (generation : Z) (known : option ObservedLocalNode) : O unit :=
  match known with
  | Some known => call (ObservationStore.mark_scan_node_seen lib generation (node_of known))
  | None => ret tt
  end.

(** The loop over the selected entries, with the directories among them. *)
Fixpoint classify_children (generation : Z) (children : list rstring) : O (list rstring) :=
  match children with
  | [] => ret []
  | child :: rest =>
      let! known := observed_node_at_path child in
      let! _ := classify_path child in
      let! _ := mark_seen generation known in
      let! found := outcome (on_folder (inspect child)) in
      let! more := classify_children generation rest in
      ret match found with
          | Ok (Some fingerprint) =>
              if fingerprint == LocalFingerprint.directory then child :: more else more
          | _ => more
          end
  end.

(** The entries of the next batch, and where the one after it starts. *)
Definition scan_batch (work : ObservationScanWork) (names : list (option rstring)) :
    O (list (rstring * rstring) * option rstring) :=
  let maximum := ObservationConfig.scan_batch_entries config in
  let! candidates := collect_entries work [] names in
  let selected := take (Z.to_nat maximum) candidates in
  if maximum <? len candidates
  then let! e := lift (ok_or (last selected) InvalidState) in ret (selected, Some e.1)
  else ret (selected, None).

(** The work item is a directory. *)
Definition scan_directory (generation : Z) (work : ObservationScanWork) : O unit :=
  let path := work_relative_path work in
  let! symlink := on_folder (is_symlink path) in
  if (symlink : bool) then flag_and_fail None (Some path) ObservationIssueKind.UnsupportedEntryType
  else
    let! names := on_folder (read_dir_names path) in
    let! '(selected, cursor) := scan_batch work names in
    let! directories := classify_children generation (map snd selected) in
    call (ObservationStore.complete_observation_scan_work lib generation work cursor directories).

Definition reconcile_directory_work (generation : Z) (work : ObservationScanWork) : O unit :=
  let path := work_relative_path work in
  let! known := observed_node_at_path path in
  let! _ := mark_seen generation known in
  let! found := inspect_for_observation path in
  if is_some_and found (fun value => LocalFingerprint.kind value == LocalFingerprint.Directory)
  then scan_directory generation work
  else
    let! _ := classify_path path in
    call (ObservationStore.complete_observation_scan_work lib generation work None []).

(** The destinations that may be where an unseen node went. *)
Fixpoint rename_candidates (node : LocalNode.t) (creates : list (Z * IntentRow)) : O (list rstring) :=
  match creates with
  | [] => ret []
  | intent :: rest =>
      let path := intent_observed_path intent.2 in
      if negb (create_kind_matches_node (intent_kind intent.2) (LocalNode.kind node))
         || (path == LocalNode.relative_path node)
      then rename_candidates node rest
      else
        let! actual := inspect_for_observation path in
        let! more := rename_candidates node rest in
        ret (if is_some_and actual (node_kind_matches_fingerprint (LocalNode.kind node))
             then path :: more else more)
  end.

Definition guard_unpaired_node (creates : list (Z * IntentRow)) (has_more_creates : bool)
  (node : LocalNode.t) : O unit :=
  let source := LocalNode.relative_path node in
  let! known := read (fun s => Ok (ObservationStore.has_unresolved_observation_issue lib source
                                     ObservationIssueKind.AmbiguousRename s)) in
  if (known : bool) then ret tt
  else
    let! candidates := rename_candidates node creates in
    if is_empty candidates && negb has_more_creates then ret tt
    else
      let! _ := persist_issue (Some (LocalNode.node_id node)) (Some source)
                  ObservationIssueKind.AmbiguousRename in
      let! _ := call (OutboundStore.block_unsubmitted_delete lib (LocalNode.node_id node)) in
      let! _ := each (fun destination =>
                  persist_issue None (Some destination) ObservationIssueKind.AmbiguousRename)
                  candidates in
      let! _ := ObservationStore.require_reconciliation lib in
      ret tt.

Definition guard_unpaired_scan_renames (generation : Z) (unseen_nodes : list LocalNode.t) : O unit :=
  if is_empty unseen_nodes then ret tt
  else
    let maximum := ObservationConfig.scan_batch_entries config in
    let! creates := read (ObservationStore.unseen_active_create_intents lib generation maximum) in
    let! has_more :=
      if len creates =? maximum
      then read (ObservationStore.has_more_unseen_active_create_intents lib generation maximum)
      else ret false in
    each (guard_unpaired_node creates has_more) unseen_nodes.

Definition scan_unseen_node (generation : Z) (node : LocalNode.t) : O unit :=
  let! found := read (ObservationStore.observed_node lib (LocalNode.node_id node)) in
  let! observed := lift (ok_or found InvalidState) in
  let! _ := classify_path (observed_relative_path observed) in
  call (ObservationStore.mark_scan_node_seen lib generation (LocalNode.node_id node)).

Definition scan_unseen_create (generation : Z) (intent : Z * IntentRow) : O unit :=
  let! _ := classify_path (intent_observed_path intent.2) in
  call (ObservationStore.mark_scan_intent_seen lib generation intent.1).

(** One unit of an active scan: a directory, a batch of unseen nodes, a batch of
    unseen creates, or its end. *)
Definition scan_unit (generation : Z) : O unit :=
  let maximum := ObservationConfig.scan_batch_entries config in
  let! work := read (ObservationStore.next_observation_scan_work lib generation) in
  match work with
  | Some work => reconcile_directory_work generation work
  | None =>
      let! unseen := read (ObservationStore.unseen_local_nodes lib generation maximum) in
      if negb (is_empty unseen)
      then
        let! _ := guard_unpaired_scan_renames generation unseen in
        each (scan_unseen_node generation) unseen
      else
        let! creates := read (ObservationStore.unseen_active_create_intents lib generation maximum) in
        if is_empty creates
        then
          let! _ := call (ObservationStore.finish_reconciliation lib generation) in
          call (ObservationStore.retire_observation_suppressions lib)
        else each (scan_unseen_create generation) creates
  end.

(** Another engine's operation is not finished. *)
Definition require_no_operations : O unit :=
  let! operations := read (Ops.unfinished_operations lib) in
  if is_empty operations then ret tt
  else flag_and_fail None None ObservationIssueKind.ObservationBusy.

Definition reconcile_once_inner : O ObservationState :=
  let! _ := validate_root_or_stop in
  let! _ := require_no_operations in
  let! state := ObservationStore.begin_reconciliation lib in
  if negb (scan_active state) then ret state
  else
    let! _ := scan_unit (scan_generation state) in
    ObservationStore.required_state lib.

(** *** The calls of the engine *)

Definition notify_pending_durable_change : O DurableChangeNotification.t :=
  let! pending := observe durable_change_pending in
  let! _ := set_pending false in
  if negb pending then ret DurableChangeNotification.no_change
  else fun w => (next w, Ok (DurableChangeNotification.committed
                               ((fun wake => wake (tick w)) <$> wake_library))).

Definition notify_if_reconciliation_complete (state : ObservationState) :
  O DurableChangeNotification.t :=
  if scan_active state || rescan_required state
  then
    let! pending := observe durable_change_pending in
    ret (if pending then DurableChangeNotification.committed None
         else DurableChangeNotification.no_change)
  else notify_pending_durable_change.

(** The result of a call after the notification it causes. *)
Definition notifying {A} (m : O A) (on_ok : A -> O DurableChangeNotification.t) :
  O (A * DurableChangeNotification.t) :=
  let! result := outcome m in
  match result with
  | Err e => let! _ := notify_pending_durable_change in raise e
  | Ok a => let! notification := on_ok a in ret (a, notification)
  end.

Definition reconcile_once_with_notification : O (ObservationState * DurableChangeNotification.t) :=
  notifying reconcile_once_inner notify_if_reconciliation_complete.

Definition flush_with_notification : O (Z * DurableChangeNotification.t) :=
  notifying (flush_due_hints true) (fun _ => notify_pending_durable_change).

(** The loop of [poll_once_inner] over the hints of a poll; with whether the
    history has a gap. *)
Fixpoint buffer_hints (overflowed : bool) (hints : list WatchHint.t) : O bool :=
  match hints with
  | [] => ret overflowed
  | hint :: rest =>
      if WatchHint.kind hint == WatchHintKind.RescanRequired then buffer_hints true rest
      else
        let! buffered := observe buffered_hints in
        if ObservationConfig.raw_queue_capacity config <=? len buffered
        then
          let! _ := set_buffered [] in
          buffer_hints true rest
        else
          let! at_ := now in
          let! _ := set_buffered (buffered ++ [(hint, at_)]) in
          buffer_hints overflowed rest
  end.

Definition poll_once_inner : O (Z * ObservationState) :=
  let! running := observe started in
  let! _ := reject (negb running) InvalidState in
  let! _ := validate_root_or_stop in
  let! hints := on_watcher (watcher_poll (ObservationConfig.max_hints_per_poll config)) in
  let! overflowed := buffer_hints false hints in
  let! _ := if (overflowed : bool) then set_buffered [] else ret tt in
  let! _ := if (overflowed : bool) then record_watcher_overflow else ret tt in
  let! inspected := if (overflowed : bool) then ret 0 else flush_due_hints false in
  let! state := read (fun s => Ok (ObservationStore.state_row lib s)) in
  let! _ := if is_some_and state (fun state => rescan_required state || scan_active state)
            then let! _ := reconcile_once_inner in ret tt
            else ret tt in
  let! state := ObservationStore.required_state lib in
  ret (inspected, state).

Definition poll_once_with_notification :
  O (Z * ObservationState * DurableChangeNotification.t) :=
  notifying poll_once_inner (fun r => notify_if_reconciliation_complete r.2).

(** The checks of the constructor. *)
Definition open_observer : O unit :=
  let! _ := reject (replica_scope != scope) WrongScope in
  let! record := read (fun s => ok_or (Feed.replica lib s) InvalidState) in
  let! _ := reject ((Replica.scope record != scope)
                    || (Replica.root_binding_id record != binding_id)) WrongRootBinding in
  reject (Replica.server_profile_id record != replica_profile_id) WrongServerProfile.

(** [if !self.started.swap(true) { watcher.start(..) }]. *)
Definition start_watcher : O unit :=
  let! running := observe started in
  let! _ := set_started true in
  if (running : bool) then ret tt
  else
    let! result := outcome (on_watcher watcher_start) in
    match result with
    | Ok _ => ret tt
    | Err e => let! _ := set_started false in raise e
    end.

Definition start_with_notification : O (ObservationState * DurableChangeNotification.t) :=
  let! _ := validate_root_or_stop in
  let! _ := require_no_operations in
  let! _ := start_watcher in
  let! _ := ObservationStore.require_reconciliation lib in
  reconcile_once_with_notification.

Definition shutdown : O unit :=
  let! running := observe started in
  if negb running then ret tt
  else
    let! result := outcome (flush_due_hints true) in
    let! _ := notify_pending_durable_change in
    let! _ := if is_err result
              then let! _ := ObservationStore.require_reconciliation lib in ret tt
              else ret tt in
    let! _ := ObservationStore.require_reconciliation lib in
    let! _ := on_watcher watcher_stop in
    set_started false.

(** The entry points of the engine. *)
Inductive EntryPoint : Type := Start | Poll | Flush | Reconcile | Shutdown.

Definition enter (entry : EntryPoint) : O unit :=
  match entry with
  | Start => let! _ := start_with_notification in ret tt
  | Poll => let! _ := poll_once_with_notification in ret tt
  | Flush => let! _ := flush_with_notification in ret tt
  | Reconcile => let! _ := reconcile_once_with_notification in ret tt
  | Shutdown => shutdown
  end.

End Observation.
End Observation.

(** ** The folder shared by the two engines *)

#[export] Instance host_replica {F W} `{L : LocalReplica F} : LocalReplica (Host F W) := {|
  replica_scope := replica_scope;
  replica_profile_id := replica_profile_id;
  binding_id := binding_id;
  validate_root := through validate_root;
  inspect path := through (inspect path);
  ensure_directory path := through (ensure_directory path);
  has_portable_name_collision path := through (has_portable_name_collision path);
  stage_directory operation := through (stage_directory operation);
  directory_staging_location := directory_staging_location;
  stage_content operation length digest chunks := through (stage_content operation length digest chunks);
  staging_location := staging_location;
  quarantine_location := quarantine_location;
  expose_staged_file staging path operation := through (expose_staged_file staging path operation);
  rename_path from to := through (rename_path from to);
  quarantine_path path operation node := through (quarantine_path path operation node);
  restore_quarantined from to := through (restore_quarantined from to);
  list_descendants path := through (list_descendants path);
  remove_owned_staging path := through (remove_owned_staging path);
  write_operation_receipt operation := through (write_operation_receipt operation);
  has_operation_receipt operation := through (has_operation_receipt operation);
  remove_operation_receipt operation := through (remove_operation_receipt operation)
|}.

#[export] Instance host_content {F W} `{C : ContentReader F} : ContentReader (Host F W) := {|
  open_visible_file path := through (open_visible_file path);
  read_staged_chunk path offset max := through (read_staged_chunk path offset max)
|}.
