(* ===== verification/ScanFacts.v ===== *)
(** * Reading a directory in batches

    A scan reads a directory in batches: each reads all names, keeps the smallest
    ones after the cursor in a bounded ordered map, and takes the last name kept as
    the next cursor.  Following the cursors gives every name once, in order. *)

From S2P Require Import Prelude Vocabulary Models Requests SyncTypes ClientPaths ClientStore.
From S2P Require Import SyncWorld Candidates Disk OutboundTypes OutboundStore ObservationStore.
From S2P Require Import Watchers Observation.

(** ** The order of names *)

Definition before (a b : rstring) : Prop := bytes_ltb a b = true.

#[export] Instance before_dec a b : Decision (before a b).
Proof. unfold before. apply _. Defined.

Lemma before_irrefl a : ~ before a a.
Proof. unfold before. induction a as [|x a IH]; cbn; [done|]. rewrite Z.ltb_irrefl, Z.eqb_refl. done. Qed.

#[export] Instance before_trans : Transitive before.
Proof.
  unfold before. intros a. induction a as [|x a IH]; intros [|y b] [|z c]; cbn; try done.
  rewrite !orb_true_iff, !andb_true_iff. intros [H1|[H1 H2]] [H3|[H3 H4]]; [left; lia..|].
  right. split; [lia|]. by eapply IH.
Qed.

Lemma before_total a b : before a b \/ a = b \/ before b a.
Proof.
  unfold before. revert b. induction a as [|x a IH]; intros [|y b]; cbn; auto.
  rewrite !orb_true_iff, !andb_true_iff. destruct (Z.lt_trichotomy x y) as [Hl|[->|Hl]].
  - left. left. lia.
  - destruct (IH b) as [Hb|[->|Hb]]; [left; right; split; [lia|done]|by right; left|].
    right; right. right. split; [lia|done].
  - right; right. left. lia.
Qed.

Lemma not_before a b : bytes_ltb a b = false -> a = b \/ before b a.
Proof. intros H. destruct (before_total a b) as [Hb|?]; [|done]. unfold before in Hb. congruence. Qed.

Lemma leb_before a b : Nodes.bytes_leb a b = negb (bytes_ltb b a).
Proof.
  revert b. induction a as [|x a IH]; intros [|y b]; cbn; try done. rewrite IH.
  destruct (Z.lt_trichotomy x y) as [Hl|[->|Hl]].
  - replace (x <? y) with true by lia. replace (y <? x) with false by lia.
    replace (y =? x) with false by lia. done.
  - rewrite !Z.ltb_irrefl, !Z.eqb_refl. done.
  - replace (x <? y) with false by lia. replace (y <? x) with true by lia.
    replace (x =? y) with false by lia. done.
Qed.

(** ** The bounded map *)

#[local] Notation entries := (list (rstring * rstring)).

Definition ordered (l : entries) : Prop := StronglySorted (fun a b => before a.1 b.1) l.

Lemma insert_names name child l :
  name ∉ map fst l -> insert_entry name child l ≡ₚ (name, child) :: l.
Proof.
  induction l as [|e l IH]; cbn [insert_entry map]; [done|]. intros Hn.
  destruct (bytes_ltb name e.1); [done|]. rewrite bool_decide_false by set_solver.
  rewrite IH by set_solver. by constructor.
Qed.

Lemma insert_elem name child l e :
  e ∈ insert_entry name child l -> e = (name, child) \/ e ∈ l.
Proof.
  induction l as [|e' l IH]; cbn [insert_entry]; [set_solver|]. repeat case_match; set_solver.
Qed.

Lemma insert_ordered name child l : ordered l -> ordered (insert_entry name child l).
Proof.
  intros Hl. induction Hl as [|e l Hl IH Hall]; cbn [insert_entry]; [by repeat constructor|].
  destruct (bytes_ltb name e.1) eqn:Hb.
  - constructor; [by constructor|]. constructor; [done|]. eapply Forall_impl; [exact Hall|].
    intros e' He'. by etransitivity.
  - apply not_before in Hb. case_bool_decide as Heq.
    + constructor; [done|]. eapply Forall_impl; [exact Hall|]. cbn. by subst name.
    + destruct Hb as [Hb|Hb]; [done|]. constructor; [done|].
      apply Forall_forall. intros e' [-> | He']%insert_elem; [done|].
      by eapply Forall_forall in Hall.
Qed.

(** Keeping the first [n] entries of a growing map. *)
Lemma insert_take n name child l :
  take n (insert_entry name child (take n l)) = take n (insert_entry name child l).
Proof.
  revert n. induction l as [|e l IH]; intros [|n]; cbn [take insert_entry]; try done.
  destruct (bytes_ltb name e.1).
  { cbn [take]. destruct n as [|n]; [done|]. cbn [take]. by rewrite take_take, Nat.min_l by lia. }
  destruct (name == e.1); cbn [take]; [by rewrite take_take, Nat.min_id|by rewrite IH].
Qed.

Lemma insert_length name child l : (length (insert_entry name child l) <= S (length l))%nat.
Proof. induction l as [|e l IH]; cbn [insert_entry]; [done|]. repeat case_match; cbn [length]; lia. Qed.

Lemma keep_take maximum name child l :
  0 <= maximum ->
  keep_entry maximum name child (take (Z.to_nat (maximum + 1)) l)
  = take (Z.to_nat (maximum + 1)) (insert_entry name child l).
Proof.
  intros Hm. rewrite <- insert_take. unfold keep_entry, len.
  pose proof (insert_length name child (take (Z.to_nat (maximum + 1)) l)) as Hl.
  rewrite length_take in Hl. set (x := insert_entry _ _ _) in *. case_match.
  - f_equal. lia.
  - rewrite take_ge; [done|lia].
Qed.

(** The map built from a list, and its bounded form. *)
Definition gather (l : entries) : entries := foldl (fun m e => insert_entry e.1 e.2 m) [] l.

Lemma keep_gather maximum l :
  0 <= maximum ->
  foldl (fun m e => keep_entry maximum e.1 e.2 m) [] l = take (Z.to_nat (maximum + 1)) (gather l).
Proof.
  intros Hm. unfold gather. induction l as [|e l IH] using rev_ind; [by destruct (Z.to_nat _)|].
  rewrite !foldl_snoc, IH. by apply keep_take.
Qed.

Lemma gather_ordered l : ordered (gather l).
Proof.
  unfold gather. induction l as [|e l IH] using rev_ind; [constructor|].
  rewrite foldl_snoc. by apply insert_ordered.
Qed.

Lemma gather_perm l : NoDup (map fst l) -> gather l ≡ₚ l.
Proof.
  unfold gather. induction l as [|e l IH] using rev_ind; [done|]. rewrite map_app, foldl_snoc. cbn.
  intros (Hl & Hn & _)%NoDup_app. specialize (IH Hl). rewrite insert_names.
  - rewrite IH. destruct e. by rewrite <- Permutation_cons_append.
  - rewrite IH. intros He. apply (Hn _ He). by left.
Qed.

Lemma ordered_unique l l' : ordered l -> ordered l' -> l ≡ₚ l' -> l = l'.
Proof.
  intros Hl Hl'. apply (StronglySorted_unique_strong (fun a b : rstring * rstring => before a.1 b.1)); [|done..].
  intros a b _ _ Ha Hb.
  destruct (before_irrefl a.1). by etransitivity.
Qed.

Lemma filter_gather (p : rstring * rstring -> Prop) `{!forall e, Decision (p e)} l :
  NoDup (map fst l) -> gather (filter p l) = filter p (gather l).
Proof.
  intros Hn. apply ordered_unique; [apply gather_ordered| |].
  - pose proof (gather_ordered l) as Ho. unfold ordered in *. induction Ho as [|e l' Ho IH Hall]; [constructor|].
    rewrite filter_cons. case_decide; [|done]. constructor; [done|].
    apply Forall_forall. intros e' He'. apply list_elem_of_filter in He' as [_ He'].
    by eapply Forall_forall in Hall.
  - rewrite !gather_perm; [done|done|]. clear -Hn. induction l as [|e l IH]; [constructor|].
    cbn in Hn. apply NoDup_cons in Hn as [He Hn]. rewrite filter_cons. case_decide; [|by apply IH].
    cbn. apply NoDup_cons. split; [|by apply IH]. intros Hin. apply He.
    apply list_elem_of_fmap in Hin as (x & -> & Hx). apply list_elem_of_filter in Hx as [_ Hx].
    by apply list_elem_of_fmap_2.
Qed.

Lemma filter_every {A} (p : A -> Prop) `{!forall a, Decision (p a)} l : Forall p l -> filter p l = l.
Proof. induction 1 as [|a l Ha _ IH]; [done|]. by rewrite filter_cons_True, IH. Qed.

Lemma filter_no {A} (p : A -> Prop) `{!forall a, Decision (p a)} l :
  Forall (fun a => ~ p a) l -> filter p l = [].
Proof. induction 1 as [|a l Ha _ IH]; [done|]. by rewrite filter_cons_False. Qed.

(** What follows an entry of an ordered map. *)
Lemma after_entry p e r :
  ordered (p ++ e :: r) -> filter (fun x : rstring * rstring => before e.1 x.1) (p ++ e :: r) = r.
Proof.
  intros (Hlow & _ & Hr)%StronglySorted_app. inversion_clear Hr as [|? ? _ Hall].
  rewrite filter_app, filter_no, filter_cons_False; [cbn; by apply filter_every|apply before_irrefl|].
  apply Forall_forall. intros x Hx Hb. apply (before_irrefl e.1). etransitivity; [exact Hb|].
  apply Hlow; [done|by left].
Qed.

(** ** Following the cursors *)

Section Follow.

Context {F W : Type} `{U : Unicode} `{E : Env}.
Context (scope : ReplicaScope) (config : ObservationConfig.t) (path : rstring).

Notation maximum := (ObservationConfig.scan_batch_entries config).

(** The entries of a directory that a scan looks at, by name and path. *)
Definition visible (names : list rstring) : entries :=
  omap (fun name =>
          if Path.is_root path && (name == lit ".synveil") then None
          else match Path.child path name with Ok child => Some (name, child) | Err _ => None end) names.

(** All other names are portable. *)
Definition representable (names : list rstring) : Prop :=
  Forall (fun name => is_ok (Path.child path name) = true) names.

Definition after (cursor : option rstring) (l : entries) : entries :=
  match cursor with
  | Some c => filter (fun e => before c e.1) l
  | None => l
  end.

Lemma visible_cons name names :
  visible (name :: names)
  = (if Path.is_root path && (name == lit ".synveil") then []
     else match Path.child path name with Ok child => [(name, child)] | Err _ => [] end) ++ visible names.
Proof.
  unfold visible. cbn [omap list_omap]. destruct (_ && _); [done|]. by destruct (Path.child path name).
Qed.

Lemma collect_pure generation cursor names : forall candidates (w : World (Host F W)),
  representable names ->
  Observation.collect_entries scope config (mk_ObservationScanWork generation path cursor) candidates
    (map Some names) w
  = (w, Ok (foldl (fun m e => keep_entry maximum e.1 e.2 m) candidates (after cursor (visible names)))).
Proof.
  induction names as [|name names IH]; intros candidates w Hr; [by destruct cursor|].
  apply Forall_cons in Hr as [Hn Hr]. rewrite visible_cons. cbn [map Observation.collect_entries].
  cbn [work_cursor_name work_relative_path].
  destruct (Path.is_root path && (name == lit ".synveil")) eqn:Hs.
  { rewrite orb_true_r. by apply IH. }
  rewrite orb_false_r. destruct (Path.child path name) as [child|] eqn:Hc; [|done].
  cbn [app]. destruct cursor as [c|]; cbn [is_some_and after].
  - clear Hs. rewrite leb_before, filter_cons. case_decide as Hb; cbn [fst] in Hb; unfold before in Hb.
    + rewrite Hb. cbn [negb]. by rewrite IH.
    + apply not_true_is_false in Hb. rewrite Hb. cbn [negb]. by rewrite IH.
  - by rewrite IH.
Qed.

(** The names a scan of the directory comes by, batch after batch. *)
Fixpoint follow (fuel : nat) (w : World (Host F W)) (cursor : option rstring) (names : list rstring) :
  option (list rstring) :=
  match fuel with
  | O => None
  | Datatypes.S fuel =>
      match (Observation.scan_batch scope config (mk_ObservationScanWork 0 path cursor)
               (map Some names) w).2 with
      | Ok (selected, None) => Some (map fst selected)
      | Ok (selected, next) =>
          let* more := follow fuel w next names in Some (map fst selected ++ more)
      | Err _ => None
      end
  end.

Lemma follow_rest names w (Hm : 1 <= maximum) (Hr : representable names)
  (Hn : NoDup (map fst (visible names))) : forall fuel cursor p r,
  gather (visible names) = p ++ r -> (length r < fuel)%nat ->
  after cursor (gather (visible names)) = r ->
  follow fuel w cursor names = Some (map fst r).
Proof.
  induction fuel as [|fuel IH]; intros cursor p r Hp Hf Ha; [lia|]. cbn [follow].
  unfold Observation.scan_batch, bind. rewrite collect_pure, keep_gather by (done || lia). cbn [snd].
  replace (gather (after cursor (visible names))) with r.
  2: { destruct cursor; cbn [after] in Ha |- *; [|done]. by rewrite filter_gather. }
  rewrite take_take, Nat.min_l by lia. unfold len. rewrite length_take. destruct (maximum <? _) eqn:Hmore.
  - apply Z.ltb_lt in Hmore. assert (Z.to_nat maximum < length r)%nat as Hlong by lia.
    destruct (last (take (Z.to_nat maximum) r)) as [e|] eqn:Hlast.
    2: { apply last_None in Hlast. apply (f_equal length) in Hlast. rewrite length_take in Hlast. cbn in Hlast. lia. }
    apply last_Some in Hlast as [q Hq].
    assert (r = q ++ e :: drop (Z.to_nat maximum) r) as Hsplit.
    { rewrite <- (take_drop (Z.to_nat maximum) r) at 1. by rewrite Hq, <- app_assoc. }
    cbn [lift ok_or ret snd]. rewrite (IH (Some e.1) (p ++ q ++ [e]) (drop (Z.to_nat maximum) r)).
    + by rewrite <- map_app, take_drop.
    + rewrite Hp, Hsplit at 1. by rewrite <- !app_assoc.
    + rewrite length_drop. lia.
    + cbn [after]. rewrite Hp, Hsplit at 1. rewrite app_assoc. apply after_entry.
      rewrite <- app_assoc, <- Hsplit, <- Hp. apply gather_ordered.
  - apply Z.ltb_ge in Hmore. by rewrite take_ge by lia.
Qed.

Lemma visible_names names : NoDup names -> NoDup (map fst (visible names)).
Proof.
  intros Hn. apply (sublist_NoDup _ names); [done|]. clear Hn. induction names as [|name names IH]; [done|].
  rewrite visible_cons, map_app. repeat case_match; cbn; by constructor.
Qed.


End Follow.
