(* ===== verification/Submission.v ===== *)
(** * The outbound submission engine

    [client-sync/src/outbound.rs]: one call takes the oldest submittable intent,
    checks that it still rests on the state of the replica, and submits it, a
    change of the namespace as one mutation, a change of content as a resumable
    upload from an immutable staged copy.  The hooks of the tests are not
    modelled; what they simulate, a call that stops between two statements, is a
    fault of the database. *)

From S2P Require Import Prelude Vocabulary Values Models Requests SyncTypes ClientPaths ClientStore.
From S2P Require Import SyncWorld Candidates Inbound Cycle Disk OutboundTypes OutboundStore.

Definition MAX_UPLOAD_CHUNK_BYTES : Z := 1024 * 1024.
Definition STAGING_BUFFER_BYTES : Z := 64 * 1024.

Definition is_transient (error : RemoteError) : bool :=
  match error_kind error with
  | RemoteErrorKind.Offline | RemoteErrorKind.Unavailable | RemoteErrorKind.Timeout
  | RemoteErrorKind.RateLimited | RemoteErrorKind.Internal => true
  | _ => false
  end.

Definition is_unauthorized (error : RemoteError) : bool :=
  match error_kind error with
  | RemoteErrorKind.AuthRequired | RemoteErrorKind.DeviceRevoked | RemoteErrorKind.Forbidden => true
  | _ => false
  end.

Definition is_refusal (error : RemoteError) : bool :=
  match error_kind error with
  | RemoteErrorKind.RebaselineRequired | RemoteErrorKind.Rejected | RemoteErrorKind.Integrity
  | RemoteErrorKind.NotFound => true
  | _ => false
  end.

(** How the chunk loop ends: at the expected length, on an offset the server may
    not answer, or without fuel. *)
Inductive Progress : Type := Finished (offset : Z) | Stalled | OutOfFuel.

Module Submission.
Section Submission.

Context {F : Type} `{U : Unicode} `{E : Env} `{R : SyncRemote} `{W : UploadRemote}
  `{L : LocalReplica F} `{C : ContentReader F} `{I : Identifiers} `{H : Sha} `{S : Serde}.
Context (scope : ReplicaScope).

Notation lib := (library_id scope).

Definition block (id : Z) : M F unit := call (OutboundStore.mark_intent_blocked id).

(** [self.state.mark_intent_blocked(..).await?; return Err(..)]. *)
Definition block_and_fail {A} (id : Z) (e : ClientSyncError) : M F A :=
  let! _ := block id in raise e.

Definition blocked (id : Z) : M F SubmissionOutcome.t :=
  let! _ := block id in ret (SubmissionOutcome.Blocked id).

(** *** Validation *)

Definition validate_node_base (intent : Z * IntentRow) : M F unit :=
  let row := intent.2 in
  let! node_id := lift (ok_or (intent_node_id row) InvalidState) in
  let! found := read (Nodes.local_node (intent_library_id row) node_id) in
  let! node := lift (ok_or found InvalidState) in
  let! base := lift (ok_or (intent_base_revision row) InvalidState) in
  if (LocalNode.revision node != base)
     || (LocalNode.current_version_id node != intent_base_version_id row)
  then block_and_fail intent.1 InvalidState
  else ret tt.

Definition validate_parent (intent : Z * IntentRow) : M F unit :=
  let row := intent.2 in
  let! parent_id := lift (ok_or (intent_parent_node_id row) InvalidState) in
  let! found := read (Nodes.local_node (intent_library_id row) parent_id) in
  let! parent := lift (ok_or found InvalidState) in
  let! base := lift (ok_or (intent_base_parent_revision row) InvalidState) in
  if LocalNode.revision parent != base then block_and_fail intent.1 InvalidState else ret tt.

(** Equality of two [OutboundIntent]s, which do not carry the creation time. *)
Definition same_intent (a b : Z * IntentRow) : bool :=
  (a.1 =? b.1)
  && (intent_library_id a.2 =? intent_library_id b.2)
  && (intent_node_id a.2 == intent_node_id b.2)
  && (intent_parent_node_id a.2 == intent_parent_node_id b.2)
  && (intent_kind a.2 == intent_kind b.2) && (intent_state a.2 == intent_state b.2)
  && (intent_observed_path a.2 == intent_observed_path b.2)
  && (intent_old_path a.2 == intent_old_path b.2)
  && (intent_fingerprint a.2 == intent_fingerprint b.2)
  && (intent_base_epoch a.2 =? intent_base_epoch b.2)
  && (intent_base_sequence a.2 =? intent_base_sequence b.2)
  && (intent_base_revision a.2 == intent_base_revision b.2)
  && (intent_base_version_id a.2 == intent_base_version_id b.2)
  && (intent_base_parent_revision a.2 == intent_base_parent_revision b.2).

Definition revalidate_namespace (intent : Z * IntentRow) : M F unit :=
  let id := intent.1 in
  let row := intent.2 in
  let! current := read (OutboundStore.required_intent id) in
  let! _ := reject (negb (same_intent current intent)
                    || negb (bool_decide (intent_state current.2 ∈
                         [IntentPending; IntentReady; IntentPreparing; IntentSubmitting])))
              InvalidState in
  match intent_kind row with
  | OutboundIntentKind.CreateDirectory =>
      let! found := fs (inspect (intent_observed_path row)) in
      if found != Some LocalFingerprint.directory then block_and_fail id ContentUnstable
      else validate_parent intent
  | OutboundIntentKind.RenameNode | OutboundIntentKind.MoveNode =>
      let! fp := lift (ok_or (intent_fingerprint row) InvalidState) in
      let! observed := fs (inspect (intent_observed_path row)) in
      if is_some observed && (observed != Some fp) then block_and_fail id ContentUnstable
      else
        let! old := lift (ok_or (intent_old_path row) InvalidState) in
        let! found := fs (inspect old) in
        if is_some found then block_and_fail id ContentUnstable
        else
          let! _ := validate_node_base intent in
          validate_parent intent
  | OutboundIntentKind.DeleteOrTrashNode =>
      let! found := fs (inspect (intent_observed_path row)) in
      if is_some found then block_and_fail id ContentUnstable
      else validate_node_base intent
  | OutboundIntentKind.CreateFile | OutboundIntentKind.ModifyFileContent => raise InvalidState
  end.

Definition revalidate_upload (intent : Z * IntentRow) : M F unit :=
  let id := intent.1 in
  let row := intent.2 in
  let! fingerprint := lift (ok_or (intent_fingerprint row) InvalidState) in
  let! found := fs (inspect (intent_observed_path row)) in
  let! unstable :=
    if found != Some fingerprint
    then
      let! upload := read (OutboundStore.durable_upload_session id) in
      ret (is_none upload)
    else ret false in
  if unstable then block_and_fail id ContentUnstable
  else
    match intent_kind row with
    | OutboundIntentKind.CreateFile => validate_parent intent
    | OutboundIntentKind.ModifyFileContent =>
        let! _ := validate_node_base intent in
        validate_parent intent
    | _ => raise InvalidState
    end.

(** *** Mutations of the namespace *)

Definition mutation_record (intent : Z * IntentRow) : M F OutboundStore.OutboundMutationRecord :=
  let! found := read (OutboundStore.durable_mutation_request intent.1) in
  match found with
  | Some record => ret record
  | None =>
      let! mutation_id := uuid in
      let! request := lift (mutation_request_for_intent mutation_id intent.2) in
      OutboundStore.persist_mutation_request intent.1 request.1 request.2
  end.

Definition submit_namespace_intent (intent : Z * IntentRow) : M F SubmissionOutcome.t :=
  let id := intent.1 in
  let! _ := revalidate_namespace intent in
  let! record := mutation_record intent in
  let request := OutboundStore.record_request record in
  let! _ := call (OutboundStore.transition_outbound_intent id
                    [IntentPending; IntentReady; IntentPreparing; IntentSubmitting]
                    IntentSubmitting) in
  let! answer := send (SentMutation request) (fun t => submit_client_mutation t scope request) in
  match answer with
  | Ok (Applied applied) =>
      let! _ := OutboundStore.record_mutation_applied id applied in
      ret (SubmissionOutcome.Submitted id)
  | Ok (Conflicted conflict) =>
      let! durable := OutboundStore.record_mutation_conflict id
                        (OutboundStore.record_mutation_id record) conflict in
      ret (SubmissionOutcome.Conflict id durable)
  | Err error =>
      if is_transient error then ret SubmissionOutcome.Offline
      else if is_unauthorized error then ret SubmissionOutcome.AuthRequired
      else if is_refusal error then blocked id
      else raise (Remote error)
  end.

(** *** Uploads *)

Definition upload_operation (kind : OutboundIntentKind.t) : rstring :=
  match kind with
  | OutboundIntentKind.CreateFile => lit "CREATE_FILE"
  | OutboundIntentKind.ModifyFileContent => lit "REPLACE_CONTENT"
  | _ => lit "INVALID"
  end.

Definition upload_target (row : IntentRow) : result UploadTarget.t ClientSyncError :=
  match intent_kind row with
  | OutboundIntentKind.CreateFile =>
      let? parent := ok_or (intent_parent_node_id row) InvalidState in
      let? name := leaf_name (intent_observed_path row) in
      Ok (UploadTarget.CreateFile (intent_library_id row) parent name)
  | OutboundIntentKind.ModifyFileContent =>
      let? node := ok_or (intent_node_id row) InvalidState in
      let? revision := ok_or (intent_base_revision row) InvalidState in
      Ok (UploadTarget.ReplaceContent (intent_library_id row) node revision)
  | _ => Err InvalidState
  end.

Definition validate_upload_status (row : IntentRow) (status : UploadSessionStatus) (length : Z)
  (digest : list Z) : result unit ClientSyncError :=
  if (status_expected_length status != length)
     || (status_expected_sha256 status != Some digest)
     || (length <? status_received_bytes status)
     || negb (bool_decide (status_state status ∈
          [UploadSessionState.Open; UploadSessionState.Verifying; UploadSessionState.Committing;
           UploadSessionState.Committed]))
  then Err InvalidRemoteResponse
  else
    let? target := upload_target row in
    if status_target status != target then Err InvalidRemoteResponse else Ok tt.

Definition is_failed_upload_status (status : UploadSessionStatus) : bool :=
  bool_decide (status_state status ∈
    [UploadSessionState.Failed; UploadSessionState.Expired; UploadSessionState.Aborted]).

Definition validate_completion (completion : UploadCompletion) (length : Z) (digest : list Z) :
  result unit ClientSyncError :=
  if (completed_length completion != length) || (completed_sha256 completion != digest)
  then Err InvalidRemoteResponse else Ok tt.

Definition stage_visible_file (intent : Z * IntentRow) (length : Z) (digest : list Z) :
  M F rstring :=
  let path := intent_observed_path intent.2 in
  let! content := fs (open_visible_file path) in
  let! staged := fs (stage_content intent.1 length digest
                       (map Ok (slices (List.length content) STAGING_BUFFER_BYTES content))) in
  let! found := fs (inspect path) in
  if found != Some (LocalFingerprint.file length digest)
  then
    let! _ := fs (remove_owned_staging staged) in
    raise ContentUnstable
  else ret staged.

Definition upload_record (intent : Z * IntentRow) (length : Z) (digest : list Z) : M F UploadRow :=
  let id := intent.1 in
  let! found := read (OutboundStore.durable_upload_session id) in
  match found with
  | Some upload => ret upload
  | None =>
      let! staged := stage_visible_file intent length digest in
      OutboundStore.persist_staged_upload id (upload_operation (intent_kind intent.2)) staged length
        digest
  end.

Definition upload_conflict (id : Z) (revision : option Z) : M F SubmissionOutcome.t :=
  let! durable := OutboundStore.record_upload_conflict id revision in
  ret (SubmissionOutcome.Conflict id durable).

(** The session of an upload, created if there is none: the upload with its
    session, or the outcome that ends the call. *)
Definition upload_session (intent : Z * IntentRow) (upload : UploadRow) :
  M F (UploadRow + SubmissionOutcome.t) :=
  let id := intent.1 in
  match upload_session_id upload with
  | Some _ => ret (inl upload)
  | None =>
      let! target := lift (upload_target intent.2) in
      let length := upload_expected_length upload in
      let digest := upload_expected_sha256 upload in
      let! answer := send (SentCreateUpload id target length digest)
                       (fun t => create_upload_session t scope id target length digest) in
      match answer with
      | Ok status =>
          let! _ := lift (validate_upload_status intent.2 status length digest) in
          let! _ := call (OutboundStore.persist_upload_session_id id (status_session_id status)
                            (status_received_bytes status)) in
          let! upload := read (OutboundStore.required_upload_session id) in
          ret (inl upload)
      | Err error =>
          if is_transient error then ret (inr SubmissionOutcome.Offline)
          else if is_unauthorized error then ret (inr SubmissionOutcome.AuthRequired)
          else if error_kind error == RemoteErrorKind.Conflict
          then let! outcome := upload_conflict id (error_current_revision error) in ret (inr outcome)
          else
            let! _ := block id in
            if error_kind error == RemoteErrorKind.Protocol then raise (Remote error)
            else ret (inr (SubmissionOutcome.Blocked id))
      end
  end.

(** [while offset < upload.expected_length()]. *)
Fixpoint upload_chunks (fuel : nat) (id session : Z) (staging : rstring) (length offset : Z) :
  M F Progress :=
  if length <=? offset then ret (Finished offset)
  else
    match fuel with
    | O => ret OutOfFuel
    | Datatypes.S fuel' =>
        let! chunk := fs (read_staged_chunk staging offset MAX_UPLOAD_CHUNK_BYTES) in
        let! next := send_or_fail (SentAppendChunk session offset chunk)
                       (fun t => append_upload_chunk t scope session offset chunk) in
        if (next <=? offset) || (length <? next)
        then
          let! _ := block id in
          ret Stalled
        else
          let! _ := call (OutboundStore.update_upload_offset id next (lit "UPLOADING")) in
          upload_chunks fuel' id session staging length next
    end.

(** The offset grows with every turn. *)
Definition chunk_fuel (length offset : Z) : nat := Z.to_nat (length - offset).

Definition finish_upload (id session : Z) (upload : UploadRow) : M F SubmissionOutcome.t :=
  let! answer := send (SentCompleteUpload session) (fun t => complete_upload t scope session) in
  match answer with
  | Ok completion =>
      let! _ := lift (validate_completion completion (upload_expected_length upload)
                        (upload_expected_sha256 upload)) in
      let! _ := call (OutboundStore.record_upload_completed id completion) in
      ret (SubmissionOutcome.Submitted id)
  | Err error =>
      if error_kind error == RemoteErrorKind.Conflict
      then upload_conflict id (error_current_revision error)
      else if is_transient error then ret SubmissionOutcome.Offline
      else if is_unauthorized error then ret SubmissionOutcome.AuthRequired
      else if is_refusal error then blocked id
      else raise (Remote error)
  end.

(** The rest of the call once the server knows the session. *)
Definition resume_upload (intent : Z * IntentRow) (upload : UploadRow) : M F SubmissionOutcome.t :=
  let id := intent.1 in
  let length := upload_expected_length upload in
  let digest := upload_expected_sha256 upload in
  let! session := lift (ok_or (upload_session_id upload) InvalidState) in
  let! status := send_or_fail (SentGetUpload session)
                   (fun t => get_upload_session t scope session) in
  if status_version_conflict status then upload_conflict id None
  else if is_failed_upload_status status then blocked id
  else
    let! _ := lift (validate_upload_status intent.2 status length digest) in
    match status_completion status with
    | Some completion =>
        let! _ := lift (validate_completion completion length digest) in
        let! _ := call (OutboundStore.record_upload_completed id completion) in
        ret (SubmissionOutcome.Submitted id)
    | None =>
        let offset := status_received_bytes status in
        let! _ := call (OutboundStore.update_upload_offset id offset (lit "UPLOADING")) in
        let! progress := upload_chunks (chunk_fuel length offset) id session
                           (upload_staging_path upload) length offset in
        match progress with
        | Finished offset =>
            let! _ := call (OutboundStore.update_upload_offset id offset (lit "COMPLETING")) in
            finish_upload id session upload
        | Stalled => ret (SubmissionOutcome.Blocked id)
        | OutOfFuel => raise ResourceLimit
        end
    end.

Definition submit_upload_intent (intent : Z * IntentRow) : M F SubmissionOutcome.t :=
  let! _ := revalidate_upload intent in
  let! fingerprint :=
    lift (match intent_fingerprint intent.2 with
          | Some f => if LocalFingerprint.kind f == LocalFingerprint.File then Ok f
                      else Err InvalidState
          | None => Err InvalidState
          end) in
  let! length := lift (ok_or (LocalFingerprint.length fingerprint) InvalidState) in
  let! digest := lift (ok_or (LocalFingerprint.sha256 fingerprint) InvalidState) in
  let! upload := upload_record intent length digest in
  let! session := upload_session intent upload in
  match session with
  | inl upload => resume_upload intent upload
  | inr outcome => ret outcome
  end.

(** *** One call *)

(** The intent no longer rests on the state of the replica and of the server. *)
Definition stale_base (checkpoint : Checkpoint.t) (replica : Replica.t) (row : IntentRow) : bool :=
  (Checkpoint.scope checkpoint != scope)
  || (Checkpoint.epoch checkpoint != Replica.journal_epoch replica)
  || (intent_base_epoch row != Replica.journal_epoch replica)
  || (intent_base_sequence row != Replica.applied_sequence replica)
  || (Checkpoint.acknowledged_sequence checkpoint <? Replica.acknowledged_sequence replica)
  || (Checkpoint.acknowledged_sequence checkpoint <? intent_base_sequence row).

Definition submit_intent (intent : Z * IntentRow) : M F SubmissionOutcome.t :=
  let! answer := send SentGetCheckpoint (fun t => get_checkpoint t scope) in
  match answer with
  | Err error =>
      if is_transient error then ret SubmissionOutcome.Offline
      else if is_unauthorized error then ret SubmissionOutcome.AuthRequired
      else raise (Remote error)
  | Ok checkpoint =>
      let! replica := read (fun s => ok_or (Feed.replica lib s) InvalidState) in
      if stale_base checkpoint replica intent.2 then blocked intent.1
      else
        match intent_kind intent.2 with
        | OutboundIntentKind.CreateDirectory | OutboundIntentKind.RenameNode
        | OutboundIntentKind.MoveNode | OutboundIntentKind.DeleteOrTrashNode =>
            submit_namespace_intent intent
        | OutboundIntentKind.CreateFile | OutboundIntentKind.ModifyFileContent =>
            submit_upload_intent intent
        end
  end.

Definition process_next_ready_intent : M F SubmissionOutcome.t :=
  let! _ := fs validate_root in
  let! issues := read (Ops.unresolved_issues lib) in
  let! held :=
    if negb (is_empty issues) then ret true
    else
      let! observed := read (Runner.unresolved_observation_issues scope) in
      ret (negb (is_empty observed)) in
  if held then ret SubmissionOutcome.NoReadyIntent
  else
    let! _ := call (Outbound.reconcile_server_applied_intents lib) in
    let! conflict := read (fun s => Ok (Runner.first_unresolved_conflict scope s)) in
    match conflict with
    | Some (conflict_id, _) => ret (SubmissionOutcome.BlockedByConflict conflict_id)
    | None =>
        let! next := read (OutboundStore.next_submittable_intent lib) in
        match next with
        | None => ret SubmissionOutcome.NoReadyIntent
        | Some intent =>
            if intent_state intent.2 == IntentNeedsRebaseValidation
            then ret SubmissionOutcome.NoReadyIntent
            else submit_intent intent
        end
    end.

(** [OutboundSubmissionEngine::new]: the checks that bind an engine to its replica. *)
Definition new : M F unit :=
  let! _ := fs validate_root in
  let! _ := reject (replica_scope != scope) WrongScope in
  let! record := read (fun s => ok_or (Feed.replica lib s) InvalidState) in
  let! _ := reject ((Replica.scope record != scope)
                    || (Replica.root_binding_id record != binding_id)) WrongRootBinding in
  reject ((Replica.server_profile_id record != replica_profile_id)
          || (Replica.server_profile_id record != remote_profile_id)) WrongServerProfile.

End Submission.
End Submission.

(** One cycle with this engine. *)
Definition sync_cycle {F : Type} `{U : Unicode} `{E : Env} `{R : SyncRemote} `{P : SnapshotRemote}
  `{W : UploadRemote} `{L : LocalReplica F} `{Mat : Materializer F} `{C : ContentReader F}
  `{I : Identifiers} `{H : Sha} `{S : Serde} (scope : ReplicaScope) (profile : option Z)
  (config : EngineConfig.t) (page_limit observed_at : Z) : M F SyncCycleResult.t :=
  Runner.run_once scope profile config page_limit (Submission.process_next_ready_intent scope)
    observed_at.
