(* ===== verification/Conflicts.v ===== *)
(** * Resolving conflicts

    The user's side of conflicts ([client-sync/src/conflict_policy.rs] and the
    methods of [state.rs] it names): listing conflicts page by page, and resolving
    one, which either drops the local change or replaces it by an intent on the
    current state of the replica. *)

From S2P Require Import Prelude Vocabulary Values Models Requests SyncTypes ClientPaths ClientStore.
From S2P Require Import SyncWorld Candidates Inbound Cycle Disk OutboundTypes OutboundStore.

Definition DEFAULT_CONFLICT_PAGE_LIMIT : Z := 100.
Definition MAX_CONFLICT_PAGE_LIMIT : Z := 1000.

Module Conflicts.
Section Conflicts.

Context {F : Type} `{U : Unicode} `{E : Env} `{I : Identifiers} `{H : Sha}.

(** *** Listing *)

(** [ConflictCursor]: when the conflict was detected, and its identifier. *)
Definition cursor (p : Z * ConflictRow) : Z * Z := (conflict_detected_at p.2, p.1).

Definition after_cursor (after : option (Z * Z)) (p : Z * ConflictRow) : bool :=
  match after with
  | None => true
  | Some (detected, id) =>
      (detected <? conflict_detected_at p.2)
      || ((conflict_detected_at p.2 =? detected) && (id <? p.1))
  end.

Definition conflict_rows (library : Z) (unresolved : bool) (s : Store) : list (Z * ConflictRow) :=
  merge_sort Outbound.detected_first
    (filter (fun p : Z * ConflictRow => conflict_library_id p.2 = library
                                        /\ conflict_unresolved p.2 = unresolved)
       (map_to_list (sync_conflicts s))).

Record ConflictPage := mk_ConflictPage {
  page_items : list (Z * ConflictRow); page_next_cursor : option (Z * Z) }.

Definition list_conflicts_inner (library : Z) (unresolved : bool) (after : option (Z * Z))
  (limit : option Z) (s : Store) : result ConflictPage ClientSyncError :=
  let limit := default DEFAULT_CONFLICT_PAGE_LIMIT limit in
  if (limit =? 0) || (MAX_CONFLICT_PAGE_LIMIT <? limit) then Err ResourceLimit
  else
    let? _ := match after with
              | Some (detected, _) => u64_i64 detected
              | None => Ok 0
              end in
    let items := take_z (limit + 1)
                   (List.filter (after_cursor after) (conflict_rows library unresolved s)) in
    let shown := take_z limit items in
    Ok (mk_ConflictPage shown
          (if limit <? len items then cursor <$> last shown else None)).

Definition list_unresolved_conflicts (library : Z) := list_conflicts_inner library true.
Definition list_resolved_conflicts (library : Z) := list_conflicts_inner library false.

(** *** Resolution *)

(** A node the replacement rests on: it must still be there, in a state that
    [fits]. *)
Definition current_base (library : Z) (id : option Z) (fits : LocalNode.t -> bool) :
  tx (option LocalNode.t) :=
  match id with
  | None => tx_ret None
  | Some id =>
      do! found := select (Nodes.local_node library id) in
      do! found := attempt found in
      match found with
      | None => attempt (Err ResolutionNotApplicable)
      | Some node =>
          do! _ := ensure (fits node) ResolutionNotApplicable in
          tx_ret (Some node)
      end
  end.

(** [replacement_intent_tx], given the identifier it draws. *)
Definition replacement_intent_tx (fresh now : Z) (original : Z * IntentRow) : tx (Z * IntentRow) :=
  let row := original.2 in
  let library := intent_library_id row in
  do! replica := select (Feed.replica library) in
  do! replica := attempt (ok_or replica InvalidState) in
  do! node := current_base library (intent_node_id row)
                (fun node => LocalNode.state node == NodeState.Active) in
  do! parent := current_base library (intent_parent_node_id row)
                  (fun node => (LocalNode.state node == NodeState.Active)
                               && (LocalNode.kind node == NodeKind.Directory)) in
  do! upload := select (fun s => outbound_upload_sessions s !! original.1) in
  do! _ := ensure ((intent_kind row != OutboundIntentKind.ModifyFileContent) || is_some upload)
             ResolutionNotApplicable in
  do! replacement := attempt (new_intent fresh
    (intent_value library (intent_node_id row) (intent_parent_node_id row) (intent_kind row)
       (intent_observed_path row) (intent_old_path row) (intent_fingerprint row)
       (Replica.journal_epoch replica) (Replica.applied_sequence replica)
       (LocalNode.revision <$> node)
       (match node with Some node => LocalNode.current_version_id node | None => None end)
       (LocalNode.revision <$> parent))) in
  do! _ := OutboundStore.insert_intent now replacement in
  do! _ :=
    if bool_decide (intent_kind row ∈
         [OutboundIntentKind.CreateFile; OutboundIntentKind.ModifyFileContent])
    then
      match upload with
      | None => attempt (Err ResolutionNotApplicable)
      | Some upload =>
          do! rows := select outbound_upload_sessions in
          do! _ := ensure (is_none (rows !! fresh)) Database in
          update (fun s => set_upload_sessions s
            (<[fresh := OutboundStore.set_upload upload None 0 (lit "STAGED")]>
               (outbound_upload_sessions s)))
      end
    else tx_ret tt in
  tx_ret replacement.

Definition set_resolution (row : ConflictRow) (r : ResolutionColumns) : ConflictRow :=
  mk_ConflictRow (conflict_intent_id row) (conflict_library_id row) (conflict_node_id row)
    (conflict_kind row) (conflict_local_base_revision row) (conflict_remote_revision row)
    (conflict_remote_state row) (conflict_remote_parent row) (conflict_remote_epoch row)
    (conflict_remote_sequence row) (conflict_detected_at row) (Some r).

(** The unique columns and the [CHECK] of the resolution time. *)
Definition write_resolution (conflict_id : Z) (row : ConflictRow) (r : ResolutionColumns) :
  tx unit :=
  do! rows := select sync_conflicts in
  let taken := fun p : Z * ConflictRow =>
    match conflict_resolution p.2 with
    | Some other =>
        (resolution_id other =? resolution_id r)
        || (is_some (replacement_intent_id r)
            && (replacement_intent_id other == replacement_intent_id r))
    | None => false
    end in
  do! _ := ensure ((conflict_detected_at row <=? resolved_at_ms r)
                   && negb (existsb taken (map_to_list rows))) Database in
  update (fun s => set_conflicts s (<[conflict_id := set_resolution row r]> (sync_conflicts s))).

(** [resolve_conflict_inner], given the identifiers it draws. *)
Definition resolve_tx (fresh_intent fresh_resolution conflict_id : Z)
  (expected : option (Z * Z * Z)) (resolution : SyncConflictResolution.t) (reject_duplicate : bool) :
  tx (Z * ConflictRow) :=
  do! now := now_ms in
  do! found := select (fun s => sync_conflicts s !! conflict_id) in
  do! existing := attempt (ok_or found ConflictNotFound) in
  do! _ := ensure (match expected with
                   | None => true
                   | Some (library, intent, detected) =>
                       (conflict_library_id existing =? library)
                       && (conflict_intent_id existing =? intent)
                       && (conflict_detected_at existing =? detected)
                   end) ConflictStale in
  match conflict_resolution existing with
  | Some columns =>
      if negb reject_duplicate && (ClientStore.resolution columns == resolution)
      then tx_ret (conflict_id, existing)
      else attempt (Err ConflictAlreadyResolved)
  | None =>
      do! intent := select (OutboundStore.required_intent (conflict_intent_id existing)) in
      do! intent := attempt intent in
      do! _ := ensure (bool_decide (intent_state intent.2 ∈ OutboundStore.conflict_states))
                 InvalidState in
      do! replacement :=
        match resolution with
        | SyncConflictResolution.AcceptRemote => tx_ret None
        | SyncConflictResolution.RetryLocalAgainstCurrentBase =>
            do! _ := ensure (is_supported_for resolution (conflict_kind existing))
                       ResolutionNotApplicable in
            do! replacement := replacement_intent_tx fresh_intent now intent in
            tx_ret (Some replacement.1)
        end in
      do! changed := OutboundStore.update_state intent.1 OutboundStore.conflict_states
                       (if is_some replacement then IntentSuperseded else IntentCancelled) in
      do! _ := ensure changed InvalidState in
      let columns := mk_ResolutionColumns fresh_resolution resolution now replacement in
      do! _ := write_resolution conflict_id existing columns in
      tx_ret (conflict_id, set_resolution existing columns)
  end.

Definition resolve_conflict_inner (conflict_id : Z) (expected : option (Z * Z * Z))
  (resolution : SyncConflictResolution.t) (reject_duplicate : bool) : M F (Z * ConflictRow) :=
  let! fresh_intent := uuid in
  let! fresh_resolution := uuid in
  call (resolve_tx fresh_intent fresh_resolution conflict_id expected resolution reject_duplicate).

Definition resolve_conflict (conflict_id : Z) (resolution : SyncConflictResolution.t) :
  M F (Z * ConflictRow) :=
  resolve_conflict_inner conflict_id None resolution false.

Definition resolve_conflict_if_current (library conflict_id intent_id detected_at_ms : Z)
  (resolution : SyncConflictResolution.t) : M F (Z * ConflictRow) :=
  resolve_conflict_inner conflict_id (Some (library, intent_id, detected_at_ms)) resolution true.

End Conflicts.
End Conflicts.
