(* ===== verification/DiskFacts.v ===== *)
(** * The managed folder: trees, moves and staging

    A move relocates a whole subtree and nothing else, and can be undone; staged
    content is exactly the content asked for or is not there; inspection of a
    valid root changes nothing. *)

From S2P Require Import Prelude Vocabulary Models Rebaseline SyncTypes ClientPaths ClientStore.
From S2P Require Import SyncWorld Disk.

(** ** The monad *)

Section Monad.

Context {A B : Type} (k : A -> D B) (d d' : Disk).

Lemma dbind_get (f : Disk -> A) : dbind (dget f) k d = k (f d) d.
Proof. done. Qed.

Lemma dbind_lift (r : result A ClientSyncError) a : r = Ok a -> dbind (dlift r) k d = k a d.
Proof. by intros ->. Qed.

Lemma dbind_ok (m : D A) a : m d = (d', Ok a) -> dbind m k d = k a d'.
Proof. unfold dbind. by intros ->. Qed.

Lemma dbind_inv (m : D A) b :
  dbind m k d = (d', Ok b) -> exists d1 a, m d = (d1, Ok a) /\ k a d1 = (d', Ok b).
Proof. unfold dbind. destruct (m d) as [d1 [a|e] ]; [eauto|done]. Qed.

End Monad.

(** ** Locations *)

Lemma below_Some p a r : below p a = Some r <-> a = p ++ r.
Proof.
  revert a. induction p as [|x p IH]; intros a; cbn; [naive_solver|].
  destruct a as [|y a]; [naive_solver|]. case_bool_decide as Hxy.
  - subst. rewrite IH. naive_solver.
  - split; [done|]. naive_solver.
Qed.

Lemma below_app p r : below p (p ++ r) = Some r.
Proof. by apply below_Some. Qed.

Lemma below_None p a : below p a = None <-> forall r, a <> p ++ r.
Proof.
  destruct (below p a) as [r|] eqn:E.
  - apply below_Some in E as ->. split; [done|]. intros H. by destruct (H r).
  - split; [|done]. intros _ r ->. by rewrite below_app in E.
Qed.

Lemma below_refl p : below p p = Some [].
Proof. apply below_Some. by rewrite app_nil_r. Qed.

Lemma below_trans p q r : is_some (below p q) = true -> is_some (below q r) = true ->
  is_some (below p r) = true.
Proof.
  destruct (below p q) as [x|] eqn:E1; [|done]. destruct (below q r) as [y|] eqn:E2; [|done].
  apply below_Some in E1 as ->, E2 as ->. rewrite <- app_assoc, below_app. done.
Qed.

(** ** Moving a subtree *)

Section Move.

Context (p q : list rstring).

Lemma lookup_inside m k :
  inside p m !! k = if is_some (below p k) then m !! k else None.
Proof.
  unfold inside. rewrite map_lookup_filter. destruct (m !! k) as [e|]; cbn; [|by case_match].
  destruct (is_some (below p k)); [by rewrite option_guard_True|by rewrite option_guard_False].
Qed.

Lemma lookup_outside m k :
  outside p m !! k = if is_some (below p k) then None else m !! k.
Proof.
  unfold outside. rewrite map_lookup_filter. destruct (m !! k) as [e|]; cbn; [|by case_match].
  destruct (is_some (below p k)); [by rewrite option_guard_False|by rewrite option_guard_True].
Qed.

Lemma lookup_graft m k :
  graft p q m !! k = match below q k with Some r => m !! (p ++ r) | None => None end.
Proof.
  unfold graft. set (f := fun e : list rstring * Entry => (q ++ default [] (below p e.1), e.2)).
  assert (forall e, e ∈ map_to_list (inside p m) ->
            exists r, e.1 = p ++ r /\ m !! (p ++ r) = Some e.2 /\ f e = (q ++ r, e.2)) as Hin.
  { intros [a e] He. apply elem_of_map_to_list in He. rewrite lookup_inside in He.
    destruct (below p a) as [r|] eqn:E; [|done]. exists r. unfold f. cbn. rewrite E.
    apply below_Some in E as ->. done. }
  assert (NoDup (map f (map_to_list (inside p m))).*1) as Hnd.
  { rewrite <- list_fmap_compose. apply NoDup_fmap_2_strong.
    - intros e1 e2 H1 H2 Heq. unfold compose in Heq. destruct (Hin e1 H1) as (r1 & E1 & M1 & F1).
      destruct (Hin e2 H2) as (r2 & E2 & M2 & F2). rewrite F1, F2 in Heq. cbn in Heq.
      apply app_inv_head in Heq as ->. destruct e1, e2; cbn in *. congruence.
    - apply NoDup_map_to_list. }
  apply option_eq. intros e. rewrite <- elem_of_list_to_map by done. rewrite list_elem_of_fmap.
  split.
  - intros (x & Hx & Hm). destruct (Hin x Hm) as (r & E & M & Fx). rewrite Fx in Hx.
    injection Hx as -> ->. by rewrite below_app.
  - destruct (below q k) as [r|] eqn:E; [|done]. apply below_Some in E as ->. intros Hm.
    exists (p ++ r, e). unfold f. cbn. rewrite below_app. split; [done|].
    apply elem_of_map_to_list. by rewrite lookup_inside, below_app.
Qed.

End Move.

(** What [rename] makes of the map: the subtree of [p] is now at [q], nothing is
    left at [p], everything else stays. *)
Definition moved (p q : list rstring) (m : gmap (list rstring) Entry) :
  gmap (list rstring) Entry :=
  graft p q m ∪ outside q (outside p m).

Lemma lookup_moved p q m k :
  moved p q m !! k
  = match below q k with
    | Some r => m !! (p ++ r)
    | None => if is_some (below p k) then None else m !! k
    end.
Proof.
  unfold moved. rewrite lookup_union, lookup_graft, !lookup_outside.
  destruct (below q k) as [r|]; cbn; [by destruct (m !! (p ++ r))|].
  by destruct (is_some (below p k)), (m !! k).
Qed.

(** Moving there and back. *)
Lemma moved_back p q m :
  below p q = None -> below q p = None -> (forall r, m !! (q ++ r) = None) ->
  moved q p (moved p q m) = m.
Proof.
  intros Hpq Hqp Hfree. apply map_eq. intros k. rewrite lookup_moved.
  destruct (below p k) as [r|] eqn:Ep.
  - rewrite lookup_moved, below_app. by apply below_Some in Ep as ->.
  - destruct (below q k) as [r|] eqn:Eq; cbn.
    + apply below_Some in Eq as ->. by rewrite Hfree.
    + by rewrite lookup_moved, Eq, Ep.
Qed.

(** ** Well-formed trees *)

(** The root is a directory and every entry lies in a directory. *)
Definition tree_ok (d : Disk) : Prop :=
  root d = Some Directory
  /\ forall k e, entries d !! k = Some e ->
       k <> [] /\ entry_at d (parent_of k) = Some Directory.

Lemma parent_snoc (k : list rstring) x : parent_of (k ++ [x]) = k.
Proof. unfold parent_of. apply removelast_last. Qed.

Lemma entry_snoc d k x : entry_at d (k ++ [x]) = entries d !! (k ++ [x]).
Proof. by destruct k. Qed.

(** The ancestors of an entry are directories. *)
Lemma ancestors_dirs d rest : forall k,
  tree_ok d -> is_Some (entry_at d (k ++ rest)) -> rest <> [] -> entry_at d k = Some Directory.
Proof.
  induction rest as [|x rest IH] using rev_ind; [done|]. intros k [Hr Ht] [e He] _.
  rewrite app_assoc in He. rewrite entry_snoc in He.
  destruct (Ht _ _ He) as [_ Hp]. rewrite parent_snoc in Hp.
  destruct rest as [|y rest]; [by rewrite app_nil_r in Hp|].
  apply (IH k); [done|by rewrite Hp; eauto|done].
Qed.

Lemma stat_found d : forall rest k e,
  tree_ok d -> entry_at d (k ++ rest) = Some e -> stat_below d k rest = Found e.
Proof.
  induction rest as [|x rest IH]; intros k e Ht He; cbn.
  - rewrite app_nil_r in He. by rewrite He.
  - rewrite (ancestors_dirs d (x :: rest) k); [|done|by rewrite He; eauto|done].
    apply IH; [done|]. by rewrite <- app_assoc.
Qed.

Lemma metadata_found d p e :
  tree_ok d -> symlink_metadata d p = Found e <-> entry_at d p = Some e.
Proof.
  intros Ht. split; [|intros He; by apply stat_found].
  unfold symlink_metadata. assert (p = [] ++ p) as E by done. rewrite E at 2.
  generalize (@nil rstring) as k. clear E. induction p as [|x p IH]; intros k; cbn.
  - rewrite app_nil_r. destruct (entry_at d k); naive_solver.
  - destruct (entry_at d k) as [[]|]; try done. intros He. apply IH in He.
    by rewrite <- app_assoc in He.
Qed.

Lemma metadata_absent d p : tree_ok d -> symlink_metadata d p = NotFound -> entry_at d p = None.
Proof.
  intros Ht H. destruct (entry_at d p) as [e|] eqn:E; [|done].
  apply metadata_found in E; [|done]. congruence.
Qed.

(** Inside a directory, what is not found is absent. *)
Lemma stat_in_dir d : forall rest k x,
  stat_below d k rest = Found Directory ->
  stat_below d k (rest ++ [x])
  = match entry_at d (k ++ rest ++ [x]) with Some e => Found e | None => NotFound end.
Proof.
  induction rest as [|y rest IH]; intros k x; cbn.
  - by destruct (entry_at d k) as [[]|].
  - destruct (entry_at d k) as [[]|]; try done. intros Hs. rewrite (IH _ x Hs).
    by rewrite <- app_assoc.
Qed.

Lemma metadata_in_dir d p :
  tree_ok d -> p <> [] -> entry_at d (parent_of p) = Some Directory ->
  symlink_metadata d p = match entry_at d p with Some e => Found e | None => NotFound end.
Proof.
  intros Ht Hne Hp. destruct (exists_last Hne) as (k & x & ->). rewrite parent_snoc in Hp.
  apply metadata_found in Hp; [|done]. by apply stat_in_dir.
Qed.

(** Nothing lies below a missing entry. *)
Lemma below_absent d p r :
  tree_ok d -> p <> [] -> entry_at d p = None -> entries d !! (p ++ r) = None.
Proof.
  intros Ht Hne Hp. destruct (entries d !! (p ++ r)) as [e|] eqn:E; [|done].
  assert (is_Some (entry_at d (p ++ r))) as Hs by (destruct p; [done|]; cbn; eauto).
  destruct r as [|x r]; [rewrite app_nil_r in Hs; rewrite Hp in Hs; by destruct Hs|].
  rewrite (ancestors_dirs d (x :: r) p Ht Hs) in Hp; done.
Qed.

(** ** Renaming *)

(** The conditions under which a subtree can be moved to a free place. *)
Record movable (d : Disk) (p q : list rstring) : Prop := mk_movable {
  move_source : is_Some (entry_at d p);
  move_target : entry_at d q = None;
  move_parent : entry_at d (parent_of q) = Some Directory;
  move_outside : below p q = None }.

Lemma rename_moves d p q :
  tree_ok d -> q <> [] -> movable d p q ->
  rename p q d = (set_entries d (moved p q (entries d)), Ok tt).
Proof.
  intros Ht Hq [[e Hp] Hfree Hpar Hout]. unfold rename.
  rewrite bool_decide_false by (intros ->; congruence).
  rewrite (proj2 (metadata_found d p e Ht) Hp), (proj2 (metadata_found d _ _ Ht) Hpar).
  rewrite Hout. cbn [is_some]. rewrite (metadata_in_dir d q) by done. by rewrite Hfree.
Qed.

Lemma rename_inv d d' p q :
  tree_ok d -> p <> q -> entry_at d q = None -> rename p q d = (d', Ok tt) ->
  movable d p q /\ d' = set_entries d (moved p q (entries d)).
Proof.
  intros Ht Hne Hfree. unfold rename. rewrite bool_decide_false by done.
  destruct (symlink_metadata d p) as [e| |] eqn:Ep; try done.
  destruct (symlink_metadata d (parent_of q)) as [[]| |] eqn:Eq; try done.
  destruct (below p q) as [r|] eqn:Eb; cbn [is_some]; [done|].
  apply metadata_found in Ep, Eq; [|done..].
  destruct (symlink_metadata d q) as [e'| |] eqn:Em; [|intros [= <-]|done].
  - apply metadata_found in Em; [|done]. congruence.
  - split; [|done]. split; [by eauto|done..].
Qed.

Lemma removelast_below (p k : list rstring) :
  k <> [] -> below p (parent_of k) <> None -> below p k <> None.
Proof.
  intros Hk Hb E. destruct (exists_last Hk) as (k' & x & ->). rewrite parent_snoc in Hb.
  destruct (below p k') as [r|] eqn:E'; [|done]. apply below_Some in E' as ->.
  rewrite <- app_assoc, below_app in E. done.
Qed.

Lemma not_below_parent p : p <> [] -> below p (parent_of p) = None.
Proof.
  intros Hp. apply below_None. intros r E. apply (f_equal length) in E.
  destruct (exists_last Hp) as (k & x & ->). rewrite parent_snoc in E.
  rewrite !length_app in E. cbn in E. lia.
Qed.

(** Entries that are in neither subtree keep their place. *)
Lemma entry_moved d p q k :
  below p k = None -> below q k = None ->
  entry_at (set_entries d (moved p q (entries d))) k = entry_at d k.
Proof.
  intros Hp Hq. destruct k as [|x k]; [done|]. cbn [entry_at set_entries entries].
  by rewrite lookup_moved, Hq, Hp.
Qed.

(** A target that is free and a source that is not are not nested. *)
Lemma movable_apart d p q : tree_ok d -> p <> [] -> movable d p q -> below q p = None.
Proof.
  intros Ht Hp [Hs Hfree _ Hout]. apply below_None. intros r ->.
  destruct r as [|x r]; [rewrite app_nil_r in Hs; rewrite Hfree in Hs; by destruct Hs|].
  rewrite (ancestors_dirs d (x :: r) q Ht Hs) in Hfree; done.
Qed.

Lemma tree_moved d p q :
  tree_ok d -> p <> [] -> q <> [] -> movable d p q ->
  tree_ok (set_entries d (moved p q (entries d))).
Proof.
  intros Ht Hp Hq Hmv. pose proof (movable_apart d p q Ht Hp Hmv) as Hapart.
  destruct Hmv as [Hs Hfree Hpar Hout]. destruct Ht as [Hr Ht]. split; [done|].
  intros k e. cbn [entries set_entries]. rewrite lookup_moved.
  destruct (below q k) as [r|] eqn:Eq.
  - apply below_Some in Eq as ->. intros He. split; [by destruct q|].
    destruct r as [|x r _] using rev_ind.
    + rewrite app_nil_r. rewrite entry_moved; [done| |by apply not_below_parent].
      destruct (below p (parent_of q)) eqn:E; [|done].
      assert (below p q <> None) by (apply removelast_below; [done|congruence]). congruence.
    + rewrite !app_assoc, parent_snoc in *. destruct (Ht _ _ He) as [_ Hd].
      rewrite parent_snoc in Hd.
      assert (q ++ r <> []) as Hne by by destruct q.
      assert (p ++ r <> []) as Hne' by by destruct p.
      destruct (q ++ r) as [|y l] eqn:E; [done|]. cbn [entry_at set_entries entries].
      rewrite <- E, lookup_moved, below_app. by destruct (p ++ r).
  - destruct (below p k) as [r|] eqn:Ep; cbn [is_some]; [done|]. intros He.
    destruct (Ht k e He) as [Hk Hd]. split; [done|]. rewrite entry_moved; [done| |].
    + destruct (below p (parent_of k)) eqn:E; [|done].
      assert (below p k <> None) by (apply removelast_below; [done|congruence]). congruence.
    + destruct (below q (parent_of k)) eqn:E; [|done].
      assert (below q k <> None) by (apply removelast_below; [done|congruence]). congruence.
Qed.

(** After the move the way back is open. *)
Lemma movable_back d p q :
  tree_ok d -> p <> [] -> q <> [] -> movable d p q ->
  movable (set_entries d (moved p q (entries d))) q p.
Proof.
  intros Ht Hp Hq Hmv. pose proof (movable_apart d p q Ht Hp Hmv) as Hapart.
  destruct Hmv as [[e Hs] Hfree Hpar Hout]. split; [| | |done].
  - destruct q as [|y q]; [done|]. cbn [entry_at set_entries entries].
    rewrite lookup_moved, below_refl, app_nil_r. destruct p; [done|]. by exists e.
  - destruct p as [|y p]; [done|]. cbn [entry_at set_entries entries].
    by rewrite lookup_moved, Hapart, below_refl.
  - assert (entry_at d (parent_of p) = Some Directory) as Hd.
    { destruct p as [|x p]; [done|]. by destruct (proj2 Ht _ _ Hs). }
    rewrite entry_moved; [done|by apply not_below_parent|].
    destruct (below q (parent_of p)) eqn:E; [|done].
    assert (below q p <> None) by (apply removelast_below; [done|congruence]). congruence.
Qed.

(** ** Files *)

(** [d'] differs from [d] at most at [p]. *)
Definition touches_only (p : list rstring) (d d' : Disk) : Prop :=
  root d' = root d /\ canonical d' = canonical d
  /\ forall k, k <> p -> entries d' !! k = entries d !! k.

Lemma touches_refl p d : touches_only p d d.
Proof. done. Qed.

Lemma touches_trans p d1 d2 d3 :
  touches_only p d1 d2 -> touches_only p d2 d3 -> touches_only p d1 d3.
Proof.
  intros (R1 & C1 & E1) (R2 & C2 & E2). split_and!; [congruence..|].
  intros k Hk. by rewrite E2, E1.
Qed.

Definition leaf (o : option Entry) : Prop := o <> Some Directory.

(** A leaf may change into another leaf. *)
Lemma tree_leaf d d' p :
  tree_ok d -> p <> [] -> entry_at d (parent_of p) = Some Directory -> touches_only p d d' ->
  leaf (entry_at d p) -> leaf (entry_at d' p) -> tree_ok d'.
Proof.
  intros [Hr Ht] Hp Hpar (Er & Ec & Ee) Hl Hl'.
  assert (forall k, k <> p -> entry_at d' k = entry_at d k) as He.
  { intros [|x k] Hk; [done|]. by apply Ee. }
  assert (parent_of p <> p) as Hpp.
  { intros E. pose proof (not_below_parent p Hp) as Hn. by rewrite E, below_refl in Hn. }
  split; [congruence|]. intros k e Hk. destruct (decide (k = p)) as [->|Hne].
  - split; [done|]. by rewrite He.
  - rewrite Ee in Hk by done. destruct (Ht k e Hk) as [Hk0 Hd]. split; [done|].
    destruct (decide (parent_of k = p)) as [E|E]; [by rewrite E in Hd|]. by rewrite He.
Qed.

Lemma touches_put p d e : touches_only p d (set_entries d (<[p := e]> (entries d))).
Proof. split_and!; [done..|]. intros k Hk. cbn. by rewrite lookup_insert_ne. Qed.

Lemma touches_delete p d : touches_only p d (set_entries d (delete p (entries d))).
Proof. split_and!; [done..|]. intros k Hk. cbn. by rewrite lookup_delete_ne. Qed.

(** ** Valid roots *)

Section Root.

Context `{U : Unicode} `{I : Identifiers} `{H : Sha}.
Context (scope : ReplicaScope) (binding : Z) (profile : option Z) (deferred : bool).

Notation validate_root := (Managed.validate_root scope binding profile deferred).
Notation resolve := (Managed.resolve scope binding profile deferred).

(** The root is the bound one and its control tree is complete. *)
Record root_ok (d : Disk) : Prop := mk_root_ok {
  root_dir : root d = Some Directory;
  root_canonical : canonical d = true;
  control_dir : entries d !! Managed.control = Some Directory;
  marker_text : exists text, entries d !! Managed.marker = Some (File text)
                             /\ Managed.read_marker scope profile text = Ok binding;
  staging_dir : entries d !! [CONTROL_DIRECTORY; STAGING_DIRECTORY] = Some Directory;
  quarantine_dir : entries d !! [CONTROL_DIRECTORY; QUARANTINE_DIRECTORY] = Some Directory }.

Lemma metadata_one d a e :
  root d = Some Directory -> entries d !! [a] = Some e -> symlink_metadata d [a] = Found e.
Proof. intros Hr He. unfold symlink_metadata. cbn. by rewrite Hr, He. Qed.

Lemma metadata_two d a b e :
  root d = Some Directory -> entries d !! [a] = Some Directory -> entries d !! [a; b] = Some e ->
  symlink_metadata d [a; b] = Found e.
Proof. intros Hr Ha He. unfold symlink_metadata. cbn. by rewrite Hr, Ha, He. Qed.

(** Validation of such a root succeeds and changes nothing. *)
Lemma validate_root_ok d : root_ok d -> validate_root d = (d, Ok tt).
Proof.
  intros [Hr Hc Hd (text & Hm & Ht) Hs Hq].
  pose proof (metadata_two d _ _ _ Hr Hd Hm) as Mm. pose proof (metadata_one d _ _ Hr Hd) as Md.
  pose proof (metadata_two d _ _ _ Hr Hd Hs) as Ms. pose proof (metadata_two d _ _ _ Hr Hd Hq) as Mq.
  assert (symlink_metadata d [] = Found Directory) as M0 by (unfold symlink_metadata; cbn; by rewrite Hr).
  fold Managed.marker in Mm. fold Managed.control in Md.
  assert (Managed.reject_redirect Managed.marker d = Ok tt) as Rm
    by (unfold Managed.reject_redirect; by rewrite Mm).
  assert (Managed.open_marker_only scope profile d = Ok binding) as Om
    by (unfold Managed.open_marker_only, read_to_string; by rewrite Rm, Mm).
  unfold Managed.validate_root. rewrite dbind_get, (dbind_lift _ _ _ tt);
    [|unfold Managed.reject_redirect; by rewrite M0].
  rewrite dbind_get, Hc. cbn [negb]. rewrite dbind_get, (dbind_lift _ _ _ tt) by done.
  rewrite dbind_get, (dbind_lift _ _ _ binding), bool_decide_true by done. cbn [negb].
  unfold Managed.ensure_control_layout. rewrite dbind_get, Md.
  rewrite (dbind_ok _ _ d _ tt); [by unfold Managed.ensure_control_child; rewrite Mq|].
  by unfold Managed.ensure_control_child; rewrite Ms.
Qed.

(** The entries validation looks at. *)
Definition control_entries : list (list rstring) :=
  [Managed.control; Managed.marker; [CONTROL_DIRECTORY; STAGING_DIRECTORY];
   [CONTROL_DIRECTORY; QUARANTINE_DIRECTORY]].

Lemma root_ok_stable d m :
  (forall k, k ∈ control_entries -> m !! k = entries d !! k) ->
  root_ok d -> root_ok (set_entries d m).
Proof.
  unfold control_entries. intros He [Hr Hc Hd Hm Hs Hq]. split; cbn; try done.
  - by rewrite He by set_solver.
  - by setoid_rewrite He; [|set_solver].
  - by rewrite He by set_solver.
  - by rewrite He by set_solver.
Qed.

(** A path can be resolved when its ancestors are directories. *)
Lemma redirects_ok d : forall rest k,
  (forall k', is_some (below k k') = true -> is_some (below k' (k ++ rest)) = true ->
     k' <> k -> symlink_metadata d k' <> Found Redirect /\ symlink_metadata d k' <> Unreadable) ->
  Managed.reject_redirects_from d k rest = Ok tt.
Proof.
  induction rest as [|x rest IH]; intros k Hk; cbn; [done|].
  destruct (Hk (k ++ [x])) as [H1 H2].
  - by rewrite below_app.
  - change (x :: rest) with ([x] ++ rest). by rewrite app_assoc, below_app.
  - intros E. rewrite <- (app_nil_r k) in E at 2. by apply app_inv_head in E.
  - destruct (symlink_metadata d (k ++ [x])) as [[]| |] eqn:Em; try done.
    all: apply IH; intros k' Hb Hb' Hne; apply Hk.
    all: try (eapply below_trans; [|exact Hb]; by rewrite below_app).
    all: try (by rewrite <- app_assoc in Hb').
    all: intros ->; destruct (below (k ++ [x]) k) as [r|] eqn:E; [|done];
      apply below_Some in E; rewrite <- app_assoc in E; rewrite <- (app_nil_r k) in E at 1;
      by apply app_inv_head in E.
Qed.

Lemma resolve_ok d relative :
  root_ok d -> tree_ok d -> Managed.components relative <> [] ->
  entry_at d (parent_of (Managed.components relative)) = Some Directory ->
  entry_at d (Managed.components relative) <> Some Redirect ->
  resolve relative d = (d, Ok (Managed.components relative)).
Proof.
  intros Hr Ht Hne Hdir Hself. unfold Managed.resolve.
  rewrite (dbind_ok _ _ _ _ _ (validate_root_ok d Hr)), dbind_get, (dbind_lift _ _ _ tt); [done|].
  unfold Managed.reject_existing_redirects, Managed.reject_redirect.
  rewrite (proj2 (metadata_found d [] Directory Ht)) by apply Hr.
  apply redirects_ok. intros k' _ Hk' _. cbn [app] in Hk'.
  set (p := Managed.components relative) in *. destruct (decide (k' = p)) as [->|Hd].
  - rewrite metadata_in_dir by done. destruct (entry_at d p) as [e|]; [|done].
    split; [congruence|done].
  - assert (entry_at d k' = Some Directory) as He; [|by rewrite (proj2 (metadata_found _ _ _ Ht) He)].
    destruct (below k' p) as [r|] eqn:E; [|done]. apply below_Some in E.
    destruct (exists_last Hne) as (q & x & Hq). rewrite Hq, parent_snoc in Hdir.
    rewrite Hq in E. destruct r as [|y r] using rev_ind; [by rewrite app_nil_r in E; congruence|].
    rewrite app_assoc in E. apply app_inj_tail in E as [E _]. subst q.
    destruct r as [|z r]; [by rewrite app_nil_r in Hdir|].
    apply (ancestors_dirs d (z :: r)); [done|by rewrite Hdir|done].
Qed.

(** Resolution of a valid root changes nothing and fails only on redirects and
    unreadable paths. *)
Lemma resolve_err d d' relative e :
  root_ok d -> resolve relative d = (d', Err e) ->
  d' = d /\ e ∈ [RootRedirected; InvalidRoot; LocalIo].
Proof.
  intros Hr. unfold Managed.resolve. rewrite (dbind_ok _ _ _ _ _ (validate_root_ok d Hr)), dbind_get.
  destruct (Managed.reject_existing_redirects (Managed.components relative) d) as [[]|e'] eqn:E;
    [done|]. intros [= <- <-]. split; [done|]. unfold Managed.reject_existing_redirects in E.
  destruct (Managed.reject_redirect [] d) eqn:E0.
  - clear E0. revert E. generalize (@nil rstring) as k.
    induction (Managed.components relative) as [|x rest IH]; intros k; cbn; [done|].
    destruct (symlink_metadata d (k ++ [x])) as [[]| |]; try apply IH; intros [= <-]; set_solver.
  - injection E as <-. unfold Managed.reject_redirect in E0.
    repeat case_match; simplify_eq; set_solver.
Qed.

(** What a successful resolution says. *)
Lemma resolve_inv d d' relative p :
  root_ok d -> tree_ok d -> resolve relative d = (d', Ok p) ->
  d' = d /\ p = Managed.components relative /\ symlink_metadata d p <> Found Redirect.
Proof.
  intros Hr Ht. unfold Managed.resolve.
  rewrite (dbind_ok _ _ _ _ _ (validate_root_ok d Hr)), dbind_get.
  destruct (Managed.reject_existing_redirects (Managed.components relative) d) as [[]|] eqn:E;
    [|done].
  rewrite (dbind_lift _ _ _ tt) by done. intros [= <- <-]. do 2 (split; [done|]).
  unfold Managed.reject_existing_redirects in E.
  destruct (Managed.reject_redirect [] d) eqn:E0; [|done].
  set (p := Managed.components relative) in *.
  destruct (decide (p = [])) as [->|Hne].
  - unfold Managed.reject_redirect in E0. by destruct (symlink_metadata d []) as [[]| |].
  - destruct (exists_last Hne) as (q & x & Hq). rewrite Hq in E |- *. clear -E Ht.
    assert (forall k, Managed.reject_redirects_from d k (q ++ [x]) = Ok tt ->
              symlink_metadata d (k ++ q ++ [x]) <> Found Redirect) as Hgen; [|by apply (Hgen [])].
    clear E. induction q as [|y q IH]; intros k; cbn.
    + by destruct (symlink_metadata d (k ++ [x])) as [[]| |].
    + destruct (symlink_metadata d (k ++ [y])) as [e| |] eqn:Ey; [|intros _|done].
      * destruct e; try done; intros E; apply IH in E; by rewrite <- app_assoc in E.
      * intros Hf. apply metadata_found in Hf; [|done]. apply metadata_absent in Ey; [|done].
        change (k ++ y :: q ++ [x]) with (k ++ [y] ++ q ++ [x]) in Hf.
        rewrite app_assoc, app_assoc, entry_snoc, <- app_assoc in Hf.
        rewrite (below_absent d _ _ Ht) in Hf; [done| |done]. by destruct k.
Qed.

(** The control entries are short and start in the control directory. *)
Lemma control_shape k :
  k ∈ control_entries -> (length k <= 2)%nat /\ head k = Some CONTROL_DIRECTORY.
Proof.
  unfold control_entries, Managed.control, Managed.marker. intros Hk.
  repeat (apply elem_of_cons in Hk as [->|Hk]; [split; [cbn [length]; lia|done]|]).
  by apply not_elem_of_nil in Hk.
Qed.

(** Managed locations are not ancestors of the control entries. *)
Lemma control_free relative k :
  Path.managed relative -> relative <> [] -> k ∈ control_entries ->
  below (Managed.components relative) k = None.
Proof.
  intros Hm Hne Hk. apply below_None. intros r ->.
  unfold Managed.components, Path.is_root in Hk. destruct relative as [|b s]; [done|].
  cbn [is_empty] in Hk. pose proof (Path.managed_components _ Hm Hne) as Hc.
  apply control_shape in Hk as [Hl Hh]. rewrite length_app in Hl.
  pose proof (split_nonempty 47 (b :: s)) as Hsp. revert Hc Hl Hh Hsp.
  generalize (split 47 (b :: s)) as l. clear. intros l Hc Hl Hh Hsp.
  destruct Hc as [|part parts Hp|id|id parts]; cbn [length] in Hl; try lia; [done|].
  cbn in Hh. injection Hh as ->. by apply Forall_inv in Hp.
Qed.

Lemma components_inj a b : Managed.components a = Managed.components b -> a = b.
Proof.
  unfold Managed.components, Path.is_root. intros E.
  assert (forall s, is_empty s = false -> split 47 s <> []) as Hs
    by (intros s _; apply split_nonempty).
  destruct (is_empty a) eqn:Ea, (is_empty b) eqn:Eb.
  - by destruct a, b.
  - symmetry in E. by apply Hs in E.
  - by apply Hs in E.
  - by rewrite <- (join_split 47 a), E, join_split.
Qed.

Lemma components_nonempty a : a <> [] -> Managed.components a <> [].
Proof. destruct a; [done|]. intros _. apply split_nonempty. Qed.

(** A managed path names a place of the folder other than its root. *)
Definition place (relative : rstring) : Prop := Path.managed relative /\ relative <> [].

Lemma root_moved d a b :
  place a -> place b -> root_ok d ->
  root_ok (set_entries d (moved (Managed.components a) (Managed.components b) (entries d))).
Proof.
  intros [Ha Hna] [Hb Hnb]. apply root_ok_stable. intros k Hk.
  by rewrite lookup_moved, !control_free.
Qed.

Notation rename_path := (Managed.rename_path scope binding profile deferred).

Lemma rename_path_runs d a b :
  root_ok d -> tree_ok d -> place a -> place b -> a <> b ->
  movable d (Managed.components a) (Managed.components b) ->
  entry_at d (Managed.components a) <> Some Redirect ->
  rename_path a b d
  = (set_entries d (moved (Managed.components a) (Managed.components b) (entries d)), Ok tt).
Proof.
  intros Hr Ht [Ha Hna] [Hb Hnb] Hab Hmv Hred.
  pose proof (components_nonempty a Hna) as Hca. pose proof (components_nonempty b Hnb) as Hcb.
  assert (entry_at d (parent_of (Managed.components a)) = Some Directory) as Hpa.
  { destruct (move_source _ _ _ Hmv) as [e He].
    destruct (Managed.components a); [done|]. by apply (proj2 Ht _ e). }
  unfold Managed.rename_path. rewrite bool_decide_false by done.
  rewrite (dbind_ok _ _ d _ (Managed.components a)) by (by apply resolve_ok).
  rewrite (dbind_ok _ _ d _ (Managed.components b));
    [|apply resolve_ok; try done; [apply Hmv|rewrite (move_target _ _ _ Hmv); done] ].
  rewrite dbind_get. assert (exists_ d (Managed.components b) = false) as ->.
  { unfold exists_. rewrite metadata_in_dir by (done || apply Hmv).
    by rewrite (move_target _ _ _ Hmv). }
  rewrite dbind_get, (dbind_lift _ _ _ tt); [by apply rename_moves|].
  unfold Managed.reject_redirect.
  by rewrite (proj2 (metadata_found d _ _ Ht) (move_parent _ _ _ Hmv)).
Qed.

Lemma rename_path_inv d d' a b :
  root_ok d -> tree_ok d -> a <> b -> rename_path a b d = (d', Ok tt) ->
  movable d (Managed.components a) (Managed.components b)
  /\ entry_at d (Managed.components a) <> Some Redirect
  /\ d' = set_entries d (moved (Managed.components a) (Managed.components b) (entries d)).
Proof.
  intros Hr Ht Hab. unfold Managed.rename_path. rewrite bool_decide_false by done. intros Hd.
  apply dbind_inv in Hd as (d1 & p & H1 & Hd). apply resolve_inv in H1 as (-> & -> & Hnr); [|done..].
  apply dbind_inv in Hd as (d2 & q & H2 & Hd). apply resolve_inv in H2 as (-> & -> & _); [|done..].
  rewrite dbind_get in Hd. destruct (exists_ d (Managed.components b)) eqn:Ex; [done|].
  rewrite dbind_get in Hd. apply dbind_inv in Hd as (d3 & u & H3 & Hd).
  assert (d3 = d) as -> by by unfold dlift in H3; destruct (Managed.reject_redirect _ _); simplify_eq.
  assert (entry_at d (Managed.components b) = None) as Hfree.
  { destruct (entry_at d (Managed.components b)) as [e|] eqn:E; [|done].
    apply metadata_found in E; [|done]. unfold exists_ in Ex. by rewrite E in Ex. }
  apply rename_inv in Hd as [Hmv ->]; [|done|by intros E; apply components_inj in E|done].
  split_and!; [done| |done]. intros E. by apply metadata_found in E.
Qed.

(** Renaming moves exactly one subtree and can be undone: after a successful
    [rename_path] the folder is again a tree under a valid root, every entry of
    the source is at the same place below the destination with the same content,
    nothing remains at the source, nothing else has changed, and renaming back
    restores the folder as it was. *)
Theorem rename_path_roundtrip d d' a b :
  root_ok d -> tree_ok d -> place a -> place b -> a <> b -> rename_path a b d = (d', Ok tt) ->
  root_ok d' /\ tree_ok d'
  /\ (forall k, entries d' !! k
        = match below (Managed.components b) k with
          | Some rest => entries d !! (Managed.components a ++ rest)
          | None => if is_some (below (Managed.components a) k) then None else entries d !! k
          end)
  /\ rename_path b a d' = (d, Ok tt).
Proof.
  intros Hr Ht Ha Hb Hab Hren. apply rename_path_inv in Hren as (Hmv & Hred & ->); [|done..].
  pose proof (components_nonempty a (proj2 Ha)) as Hca.
  pose proof (components_nonempty b (proj2 Hb)) as Hcb.
  pose proof (root_moved d a b Ha Hb Hr) as Hr'. pose proof (tree_moved d _ _ Ht Hca Hcb Hmv) as Ht'.
  split_and!; [done|done|intros k; apply lookup_moved|].
  rewrite rename_path_runs; try done; [|by apply movable_back|].
  - cbn [set_entries entries]. rewrite moved_back; [by destruct d|apply Hmv| |].
    + exact (movable_apart d _ _ Ht Hca Hmv).
    + intros r. apply below_absent; [done|done|apply Hmv].
  - destruct (Managed.components b) as [|y l] eqn:E; [done|]. cbn [entry_at set_entries entries].
    rewrite lookup_moved, below_refl, app_nil_r. by destruct (Managed.components a).
Qed.

(** *** Staged content *)

(** [p] is a file slot: its parent is a directory and it is none. *)
Record slot (d : Disk) (p : list rstring) : Prop := mk_slot {
  slot_root : root_ok d;
  slot_tree : tree_ok d;
  slot_parent : entry_at d (parent_of p) = Some Directory;
  slot_leaf : leaf (entries d !! p) }.

Section Slot.

Context (p : list rstring).
Hypothesis p_name : p <> [].
Lemma entry_p d : entry_at d p = entries d !! p.
Proof. by destruct p. Qed.

Lemma slot_metadata d :
  slot d p -> symlink_metadata d p = match entries d !! p with Some e => Found e | None => NotFound end.
Proof. intros Hs. by rewrite metadata_in_dir, entry_p by (done || apply Hs). Qed.

Hypothesis p_free : p ∉ control_entries.

Lemma slot_touched d d' :
  slot d p -> touches_only p d d' -> leaf (entries d' !! p) -> slot d' p.
Proof.
  intros [Hr Ht Hp Hl] Htd Hl'. pose proof Htd as (Er & Ec & Ee). split; [| | |done].
  - assert (root_ok (set_entries d (entries d'))) as Hok.
    { apply root_ok_stable; [|done]. intros k Hk. apply Ee. by intros ->. }
    destruct Hok. split; cbn in *; congruence || done.
  - eapply tree_leaf; try done; by rewrite entry_p.
  - assert (parent_of p <> p).
    { intros E. pose proof (not_below_parent p p_name) as Hn. by rewrite E, below_refl in Hn. }
    destruct (parent_of p) as [|x l]; [by cbn in *; rewrite Er|]. cbn in *. by rewrite Ee.
Qed.

Lemma slot_put d c : slot d p -> slot (set_entries d (<[p := File c]> (entries d))) p.
Proof.
  intros Hs. eapply slot_touched; [done|apply touches_put|]. cbn. by rewrite lookup_insert_eq.
Qed.

Lemma discard_spec d c :
  slot d p -> entries d !! p = Some (File c) ->
  Managed.discard p d = (set_entries d (delete p (entries d)), Ok tt).
Proof.
  intros Hs Hp. unfold Managed.discard, remove_file. by rewrite slot_metadata, Hp.
Qed.

Lemma receive_spec n : forall content received d d' r,
  slot d p -> entries d !! p = Some (File received) ->
  Managed.receive p n received content d = (d', r) ->
  touches_only p d d'
  /\ match r with
     | Ok total => slot d' p /\ entries d' !! p = Some (File total)
     | Err ContentIntegrityMismatch => slot d' p /\ entries d' !! p = None
     | Err _ => True
     end.
Proof.
  induction content as [|[chunk|error] content IH]; intros received d d' r Hs Hp; cbn.
  - intros [= <- <-]. split; [apply touches_refl|done].
  - case_match.
    { rewrite (dbind_ok _ _ _ _ _ (discard_spec d received Hs Hp)). intros [= <- <-].
      split; [apply touches_delete|done]. }
    unfold checked_add64. destruct (_ <=? u64_max);
      [|intros [= <- <-]; split; [apply touches_refl|done] ].
    rewrite (dbind_lift _ _ _ (len received + len chunk)) by done. case_match.
    { rewrite (dbind_ok _ _ _ _ _ (discard_spec d received Hs Hp)). intros [= <- <-].
      split; [apply touches_delete|]. split; [|by cbn; rewrite lookup_delete_eq].
      eapply slot_touched; [done|apply touches_delete|]. cbn. by rewrite lookup_delete_eq. }
    rewrite (dbind_ok _ _ (set_entries d (<[p := File (received ++ chunk)]> (entries d))) _ tt)
      by (unfold Managed.append; by rewrite Hp).
    intros Hrec. apply IH in Hrec as [Htd Hr]; [|by apply slot_put|by cbn; rewrite lookup_insert_eq].
    split; [|done]. eapply touches_trans; [apply touches_put|done].
  - intros [= <- <-]. split; [apply touches_refl|done].
Qed.

Lemma download_spec staging n digest content d d' r :
  slot d p -> entries d !! p = None ->
  Managed.download staging p n digest content d = (d', r) ->
  touches_only p d d'
  /\ match r with
     | Ok path => path = staging /\ slot d' p
                  /\ exists c, entries d' !! p = Some (File c) /\ len c = n /\ sha256 c = digest
     | Err ContentIntegrityMismatch => slot d' p /\ entries d' !! p = None
     | Err _ => True
     end.
Proof.
  intros Hs Hp. unfold Managed.download.
  rewrite (dbind_ok _ _ (set_entries d (<[p := File []]> (entries d))) _ tt).
  2: { unfold create_new. rewrite (proj2 (metadata_found d _ _ (slot_tree _ _ Hs)) (slot_parent _ _ Hs)).
       by rewrite slot_metadata, Hp. }
  unfold dbind at 1.
  destruct (Managed.receive p n [] content _) as [d1 r1] eqn:Hrec.
  apply receive_spec in Hrec as [Htd Hr]; [|by apply slot_put|by cbn; rewrite lookup_insert_eq].
  assert (touches_only p d d1) as Htd1 by (eapply touches_trans; [apply touches_put|done]).
  destruct r1 as [total|e]; [|intros [= <- <-]; split; [done|by destruct e] ].
  destruct Hr as [Hs1 Hp1]. case_match eqn:Hbad.
  - rewrite (dbind_ok _ _ _ _ _ (discard_spec d1 total Hs1 Hp1)). intros [= <- <-].
    split; [eapply touches_trans; [done|apply touches_delete]|].
    split; [|by cbn; rewrite lookup_delete_eq].
    eapply slot_touched; [done|apply touches_delete|]. cbn. by rewrite lookup_delete_eq.
  - intros [= <- <-]. rust_bool. split; [done|]. split; [done|]. split; [done|]. by exists total.
Qed.

End Slot.

(** A name below [.synveil/staging]. *)
Lemma staging_components x path :
  Managed.internal_relative [CONTROL_DIRECTORY; STAGING_DIRECTORY; x] = Ok path ->
  path <> [] /\ Managed.components path = [CONTROL_DIRECTORY; STAGING_DIRECTORY; x].
Proof.
  unfold Managed.internal_relative. intros Hn. apply Path.new_managed in Hn as [-> Hm].
  set (path := join 47 [CONTROL_DIRECTORY; STAGING_DIRECTORY; x]) in *.
  assert (path <> []) as Hne by by unfold path. split; [done|].
  assert (split 47 path = CONTROL_DIRECTORY :: STAGING_DIRECTORY :: split 47 x) as Es.
  { unfold path. change (join 47 [CONTROL_DIRECTORY; STAGING_DIRECTORY; x])
      with (CONTROL_DIRECTORY ++ 47 :: STAGING_DIRECTORY ++ 47 :: x).
    by rewrite !split_app_sep by (apply (bool_decide_eq_true_1 _); by vm_compute). }
  pose proof (Path.managed_components _ Hm Hne) as Hc. rewrite Es in Hc.
  assert (exists id, split 47 x = [id]) as [id Hid].
  { inversion Hc as [|? ? Hp|id|]; [by apply Forall_inv in Hp|by exists id]. }
  unfold Managed.components, Path.is_root. destruct path as [|b rest] eqn:Ep; [done|].
  cbn [is_empty]. rewrite Es, Hid. pose proof (join_split 47 x) as Hj. rewrite Hid in Hj.
  cbn in Hj. by subst.
Qed.

Notation inspect := (Managed.inspect scope binding profile deferred).

Lemma inspect_slot d path :
  path <> [] -> slot d (Managed.components path) ->
  entries d !! Managed.components path <> Some Redirect ->
  inspect path d
  = (d, Managed.fingerprint_of
          match entries d !! Managed.components path with Some e => Found e | None => NotFound end).
Proof.
  intros Hne Hs Hr. pose proof (components_nonempty path Hne) as Hc. unfold Managed.inspect.
  rewrite (dbind_ok _ _ d _ (Managed.components path)).
  - rewrite dbind_get, slot_metadata by done. done.
  - apply resolve_ok; [apply Hs|apply Hs|done|apply Hs|]. by rewrite entry_p.
Qed.

(** The staging file is the declared content, or after a mismatch is not there. *)
Definition staged_result (path : rstring) (n : Z) (digest : list Z) (d' : Disk)
  (r : result rstring ClientSyncError) : Prop :=
  match r with
  | Ok path' => path' = path /\ inspect path d' = (d', Ok (Some (LocalFingerprint.file n digest)))
  | Err ContentIntegrityMismatch => inspect path d' = (d', Ok None)
  | Err _ => True
  end.

Lemma download_inspect path n digest content d d' r :
  path <> [] -> Managed.components path ∉ control_entries -> slot d (Managed.components path) ->
  entries d !! Managed.components path = None ->
  Managed.download path (Managed.components path) n digest content d = (d', r) ->
  touches_only (Managed.components path) d d' /\ staged_result path n digest d' r.
Proof.
  intros Hne Hf Hs Hp Hd. pose proof (components_nonempty path Hne) as Hc.
  apply download_spec in Hd as [Htd Hr]; [|done..]. split; [done|].
  destruct r as [path'|e]; cbn.
  - destruct Hr as (-> & Hs' & c & Hc' & <- & <-). split; [done|].
    rewrite inspect_slot; [by rewrite Hc'|done..|by rewrite Hc'].
  - destruct e; try done. destruct Hr as [Hs' Hn].
    rewrite inspect_slot; [by rewrite Hn|done..|by rewrite Hn].
Qed.

(** Staging over what is already at the staging path. *)
Lemma restage path n digest content d d' r e :
  path <> [] -> Managed.components path ∉ control_entries ->
  root_ok d -> tree_ok d -> entry_at d (parent_of (Managed.components path)) = Some Directory ->
  resolve path d = (d, Ok (Managed.components path)) ->
  entries d !! Managed.components path = Some e ->
  (let$ found := inspect path in
   if found == Some (LocalFingerprint.file n digest) then dret path
   else
     let$ _ := Managed.remove_or_fail (Managed.components path) in
     Managed.download path (Managed.components path) n digest content) d = (d', r) ->
  touches_only (Managed.components path) d d' /\ staged_result path n digest d' r.
Proof.
  intros Hne Hf Hr Ht Hpar Hres Ep. pose proof (components_nonempty path Hne) as Hc.
  assert (inspect path d = (d, Managed.fingerprint_of (Found e))) as Hins.
  { unfold Managed.inspect. rewrite (dbind_ok _ _ _ _ _ Hres), dbind_get.
    unfold dlift. by rewrite metadata_in_dir, entry_p, Ep by done. }
  unfold dbind at 1. rewrite Hins. destruct (Managed.fingerprint_of (Found e)) as [found|err] eqn:Hfp.
  2: { intros [= <- <-]. split; [apply touches_refl|]. cbn in Hfp. by destruct e; simplify_eq. }
  case_bool_decide as Hfound; [subst found; intros [= <- <-]; by split; [apply touches_refl|]|].
  unfold dbind, Managed.remove_or_fail, remove_file. rewrite metadata_in_dir, entry_p, Ep by done.
  assert (e <> Directory ->
    slot (set_entries d (delete (Managed.components path) (entries d))) (Managed.components path))
    as Hslot.
  { intros Hed. eapply slot_touched; [done|done| |apply touches_delete|].
    - split; [done..|]. rewrite Ep. by intros [= ->].
    - cbn. by rewrite lookup_delete_eq. }
  destruct e; [intros [= <- <-]; by split; [apply touches_refl|]|intros Hd..].
  all: apply download_inspect in Hd as [Htd Hst];
    [|done|done|by apply Hslot|by cbn; rewrite lookup_delete_eq].
  all: split; [|done]; eapply touches_trans; [apply touches_delete|done].
Qed.

(** Staged content is the declared content or is not there: when
    [stage_content] succeeds, the staging file has exactly the declared length
    and digest, whatever chunks arrived; when it reports an integrity mismatch,
    no staging file is left; and it touches no other entry of the folder. *)
Theorem stage_content_integrity operation_id path n digest content d d' r :
  root_ok d -> tree_ok d -> Managed.staging_location operation_id = Ok path ->
  Managed.stage_content scope binding profile deferred operation_id n digest content d = (d', r) ->
  touches_only (Managed.components path) d d' /\ staged_result path n digest d' r.
Proof.
  intros Hr Ht Hloc. unfold Managed.stage_content.
  case_match; [intros [= <- <-]; by split; [apply touches_refl|]|].
  rewrite Hloc, (dbind_lift _ _ _ path) by done. apply staging_components in Hloc as [Hne Hp].
  assert (Managed.components path ∉ control_entries) as Hpf.
  { intros Hin. apply control_shape in Hin as [Hl _]. rewrite Hp in Hl. cbn [length] in Hl. lia. }
  assert (entry_at d (parent_of (Managed.components path)) = Some Directory) as Hpar
    by (rewrite Hp; apply Hr).
  pose proof (components_nonempty path Hne) as Hc. unfold dbind at 1.
  destruct (resolve path d) as [d1 [q|e]] eqn:Hres.
  2: { apply resolve_err in Hres as [-> He]; [|done]. intros [= <- <-].
       split; [apply touches_refl|]. by destruct e; try done; set_solver. }
  apply resolve_inv in Hres as Hinv; [|done..]. destruct Hinv as (-> & -> & _).
  rewrite dbind_get. unfold exists_. rewrite metadata_in_dir, entry_p by done.
  destruct (entries d !! Managed.components path) as [e|] eqn:Ep.
  - by eapply restage.
  - apply download_inspect; [done|done| |done]. split; [done..|]. by rewrite Ep.
Qed.

End Root.
