(* ===== verification/Materialize.v ===== *)
(** * The materialiser: one server node into the managed folder

    [client-sync/src/engine.rs] below the feed: where a node belongs, which
    filesystem operation gets it there, the checks that the folder still holds
    what the database says, the execution of the operation with its durable
    record and receipt, and the classification of interrupted operations at
    startup.  The folder itself is the interface [LocalReplica]. *)

From S2P Require Import Prelude Vocabulary Models Rebaseline SyncTypes ClientPaths ClientStore.
From S2P Require Import SyncWorld Inbound.

(** ** Fingerprints and plans *)

Module Plan.

Definition expected_fingerprint (node : LocalNode.t) : option LocalFingerprint.t :=
  match LocalNode.kind node with
  | NodeKind.Directory => Some LocalFingerprint.directory
  | NodeKind.File =>
      let* length := LocalNode.local_length node in
      let* sha256 := LocalNode.local_sha256 node in
      Some (LocalFingerprint.file length sha256)
  end.

Definition desired_node_fingerprint (desired : SnapshotNode.t) :
  result (option LocalFingerprint.t) ClientSyncError :=
  match SnapshotNode.kind desired with
  | NodeKind.Directory => Ok (Some LocalFingerprint.directory)
  | NodeKind.File =>
      let? length := ok_or (SnapshotNode.content_length desired) InvalidRemoteResponse in
      let? sha256 := ok_or (SnapshotNode.content_sha256 desired) InvalidRemoteResponse in
      Ok (Some (LocalFingerprint.file length sha256))
  end.

Definition desired_fingerprint (operation : LocalOperation.t) : option LocalFingerprint.t :=
  match LocalOperation.kind operation with
  | LocalOperationKind.CreateDirectory => Some LocalFingerprint.directory
  | LocalOperationKind.ReplaceFile =>
      let* length := LocalOperation.desired_length operation in
      let* sha256 := LocalOperation.desired_sha256 operation in
      Some (LocalFingerprint.file length sha256)
  | _ => None
  end.

Definition expected_operation_fingerprint (operation : LocalOperation.t) :
  option LocalFingerprint.t :=
  let* kind := LocalOperation.expected_kind operation in
  match kind with
  | NodeKind.Directory => Some LocalFingerprint.directory
  | NodeKind.File =>
      let* length := LocalOperation.expected_length operation in
      let* sha256 := LocalOperation.expected_sha256 operation in
      Some (LocalFingerprint.file length sha256)
  end.

Definition quarantine_matches_desired (existing : LocalNode.t) (desired : SnapshotNode.t) : bool :=
  match SnapshotNode.kind desired with
  | NodeKind.Directory => LocalNode.kind existing == NodeKind.Directory
  | NodeKind.File =>
      (LocalNode.kind existing == NodeKind.File)
      && (LocalNode.local_length existing == SnapshotNode.content_length desired)
      && (LocalNode.local_sha256 existing == SnapshotNode.content_sha256 desired)
  end.

(** The source computes the same option as [expected_operation_fingerprint],
    written with [zip]. *)
Definition fingerprint_matches_operation (operation : LocalOperation.t)
  (actual : option LocalFingerprint.t) : bool :=
  let expected :=
    match LocalOperation.expected_kind operation with
    | Some NodeKind.Directory => Some LocalFingerprint.directory
    | Some NodeKind.File =>
        match LocalOperation.expected_length operation, LocalOperation.expected_sha256 operation with
        | Some length, Some sha256 => Some (LocalFingerprint.file length sha256)
        | _, _ => None
        end
    | None => None
    end in
  actual == expected.

Definition node_kind_of (fingerprint : LocalFingerprint.t) : NodeKind.t :=
  match LocalFingerprint.kind fingerprint with
  | LocalFingerprint.File => NodeKind.File
  | LocalFingerprint.Directory => NodeKind.Directory
  end.

(** [LocalOperation::new] with the columns derived from an expected
    fingerprint, as all three callers compute them. *)
Definition new_operation (id library node : Z) (fact : ApplyFact) (kind : LocalOperationKind.t)
  (source destination : option rstring) (expected : option LocalFingerprint.t) (revision : Z)
  (version length : option Z) (sha256 : option (list Z)) : LocalOperation.t :=
  LocalOperation.mk id library node (fact_sequence fact) (fact_generation fact) kind source
    destination None (node_kind_of <$> expected) (expected ≫= LocalFingerprint.length)
    (expected ≫= LocalFingerprint.sha256) revision version length sha256
    LocalOperationState.Prepared.

Definition local_node_from_desired (library : Z) (desired : SnapshotNode.t) (target : rstring)
  (fact : ApplyFact) (present : bool) (quarantine : option rstring)
  (previous : option LocalNode.t) : LocalNode.t :=
  let active_file := present && (SnapshotNode.kind desired == NodeKind.File) in
  LocalNode.mk library (SnapshotNode.node_id desired) (SnapshotNode.parent_node_id desired) target
    (SnapshotNode.name desired) (SnapshotNode.kind desired) (SnapshotNode.state desired)
    (SnapshotNode.revision desired) (SnapshotNode.current_version_id desired)
    (SnapshotNode.content_length desired) (SnapshotNode.content_sha256 desired)
    (if active_file then SnapshotNode.content_length desired
     else previous ≫= LocalNode.local_length)
    (if active_file then SnapshotNode.content_sha256 desired
     else previous ≫= LocalNode.local_sha256)
    (default 0 (match fact_generation fact with
                | Some generation => Some generation
                | None => LocalNode.bootstrap_generation <$> previous
                end))
    present quarantine.

Definition present_node (node : option LocalNode.t) : option LocalNode.t :=
  let* n := node in if LocalNode.present n then Some n else None.

Definition filesystem_applied (operation : option LocalOperation.t) : bool :=
  is_some_and operation (fun o => LocalOperation.state o == LocalOperationState.FilesystemApplied).

(** The errors [inspect] reports for an object of an unsupported kind. *)
Definition unsupported (e : ClientSyncError) : bool :=
  bool_decide (e ∈ [InvalidState; InvalidRelativePath]).

(** Equality of two [BTreeSet]s of paths. *)
Definition same_paths (a b : list rstring) : bool :=
  forallb (fun p => bool_decide (p ∈ b)) a && forallb (fun p => bool_decide (p ∈ a)) b.

End Plan.

Import Plan.

(** ** The engine's filesystem half *)

Module Folder.
Section Folder.

Context {F : Type} `{U : Unicode} `{E : Env} `{R : SyncRemote} `{L : LocalReplica F}.
Context (scope : ReplicaScope).

Definition lib : Z := library_id scope.

(** [block]: the issue is made durable, then reported. *)
Definition block {A} (kind : LocalIssueKind.t) (node : option Z) (fact : ApplyFact)
  (expected_state : rstring) : M F A :=
  inspecting (Calls.persist_issue lib node (fact_sequence fact) (fact_generation fact) kind
                expected_state)
    (fun r => match r with
              | Ok _ => raise (LocalIssue kind)
              | Err error => raise error
              end).

(** Short-circuit [&&] and [||] over effects. *)
Definition and_then (a b : M F bool) : M F bool :=
  let! x := a in if (x : bool) then b else ret false.
Definition or_else (a b : M F bool) : M F bool :=
  let! x := a in if (x : bool) then ret true else b.

Definition occupied (path : rstring) : M F bool :=
  let! found := fs (inspect path) in ret (is_some found).
Definition vacant (path : rstring) : M F bool :=
  let! found := fs (inspect path) in ret (is_none found).

Definition inspect_optional (path : option rstring) : M F (option LocalFingerprint.t) :=
  match path with
  | None => ret None
  | Some path => fs (inspect path)
  end.

(** *** Where a node belongs *)

Definition desired_path (desired : SnapshotNode.t) (fact : ApplyFact) : M F rstring :=
  match SnapshotNode.parent_node_id desired with
  | None => ret Path.root
  | Some parent_id =>
      let id := Some (SnapshotNode.node_id desired) in
      if negb (Portable.is_portable (Portable.validate_logical_name (SnapshotNode.name desired)))
      then block LocalIssueKind.LocalNameUnrepresentable id fact
             (lit "logical name is not representable as one exact Windows and Linux segment")
      else
        let! parent := read (Nodes.local_node lib parent_id) in
        match parent with
        | Some parent =>
            if LocalNode.kind parent == NodeKind.Directory
            then lift (Path.child (LocalNode.relative_path parent) (SnapshotNode.name desired))
            else block LocalIssueKind.LocalTypeMismatch id fact
                   (lit "desired parent must be a tracked directory")
        | None => block LocalIssueKind.LocalParentMissing id fact
                    (lit "desired parent mapping must be durably applied first")
        end
  end.

Definition check_collision (node_id : Z) (target : rstring) (fact : ApplyFact) : M F unit :=
  let key := join 47 (map Portable.local_collision_key (split 47 target)) in
  let! other := read (Nodes.local_node_at_collision_key lib key) in
  if is_some_and other (fun other => LocalNode.node_id other != node_id)
  then block LocalIssueKind.LocalNameCollision (Some node_id) fact
         (lit "portable case-folded path collides with another managed Node")
  else ret tt.

Definition ensure_destination_available (existing : option LocalNode.t) (target : rstring)
  (fact : ApplyFact) : M F unit :=
  let same_managed_path :=
    is_some_and existing (fun n => LocalNode.present n && (LocalNode.relative_path n == target)) in
  let! collision := fs (has_portable_name_collision target) in
  if (collision : bool)
  then block LocalIssueKind.LocalNameCollision (LocalNode.node_id <$> existing) fact
         (lit "destination collides with another local name under the portable comparison policy")
  else
    let! occupied :=
      inspecting (fs (inspect target)) (fun r =>
        match r with
        | Ok value => ret (is_some value)
        | Err error => if unsupported error then ret true else raise error
        end) in
    if negb same_managed_path && occupied
    then block LocalIssueKind.LocalPathOccupied (LocalNode.node_id <$> existing) fact
           (lit "destination is occupied by an object not attributable to this managed Node")
    else ret tt.

(** *** Verification *)

(** [match self.replica.inspect(..) { Ok(v) => v, Err(unsupported) => block, .. }]. *)
Definition inspect_or {A} (op : F -> F * result A ClientSyncError) (kind : LocalIssueKind.t)
  (node : option Z) (fact : ApplyFact) (expected_state : rstring) : M F A :=
  inspecting (fs op) (fun r =>
    match r with
    | Ok value => ret value
    | Err error => if unsupported error then block kind node fact expected_state else raise error
    end).

(** The tracked nodes strictly below a directory. *)
Definition tracked_below (library node : Z) (prefix : rstring) : M F (list LocalNode.t) :=
  let! nodes := read (Nodes.local_nodes_of library) in
  ret (filter (fun n => LocalNode.present n = true /\ LocalNode.node_id n <> node
                        /\ is_some (strip_prefix prefix (LocalNode.relative_path n)) = true) nodes).

(** The descendants of a directory against the tracked ones. *)
Definition verify_tree (node : LocalNode.t) (fact : ApplyFact) : M F unit :=
  let id := LocalNode.node_id node in
  let path := LocalNode.relative_path node in
  let! actual_paths :=
    inspect_or (list_descendants path) LocalIssueKind.LocalDivergence (Some id) fact
      (lit "managed directory contains an unrepresentable local entry") in
  let prefix := if Path.is_root path then [] else path ++ [47] in
  let! tracked := tracked_below (LocalNode.library_id node) id prefix in
  if negb (same_paths actual_paths (map LocalNode.relative_path tracked))
  then block LocalIssueKind.LocalDivergence (Some id) fact
         (lit "managed directory tree contains unknown, missing, or redirected entries")
  else
    each (fun child =>
            let! actual := fs (inspect (LocalNode.relative_path child)) in
            if actual != expected_fingerprint child
            then block LocalIssueKind.LocalDivergence (Some (LocalNode.node_id child)) fact
                   (lit "managed descendant content differs from the last durable apply")
            else ret tt)
      (filter (fun child => LocalNode.kind child = NodeKind.File) tracked).

(** Whether an unresolved conflict holds the local content in durable staging. *)
Definition conflict_staged (node : LocalNode.t) : M F bool :=
  if LocalNode.kind node == NodeKind.File
  then
    let! staged := read (Outbound.durable_unresolved_content_conflict_source
                           (LocalNode.library_id node) (LocalNode.node_id node)) in
    match staged with
    | None => ret false
    | Some staged =>
        let durable := LocalFingerprint.file (upload_expected_length staged)
                         (upload_expected_sha256 staged) in
        let! found := fs (inspect (upload_staging_path staged)) in
        ret (found == Some durable)
    end
  else ret false.

Definition verify_clean (node : LocalNode.t) (include_tree : bool) (fact : ApplyFact) : M F unit :=
  if negb (LocalNode.present node) then ret tt
  else
    let id := Some (LocalNode.node_id node) in
    let! actual :=
      inspect_or (inspect (LocalNode.relative_path node)) LocalIssueKind.LocalTypeMismatch id fact
        (lit "tracked local object is not a supported regular file or directory") in
    let! expected := lift (ok_or (expected_fingerprint node) InvalidState) in
    if is_none actual
    then block LocalIssueKind.LocalDivergence id fact
           (lit "tracked local object is missing from its last durable path")
    else if (LocalFingerprint.kind <$> actual) != Some (LocalFingerprint.kind expected)
    then block LocalIssueKind.LocalTypeMismatch id fact
           (lit "tracked local object type differs from the last durable apply")
    else if actual != Some expected
    then
      let! staged := conflict_staged node in
      if (staged : bool) then ret tt
      else block LocalIssueKind.LocalDivergence id fact
             (lit "tracked local content differs from the last durable apply")
    else if include_tree && (LocalNode.kind node == NodeKind.Directory)
    then verify_tree node fact
    else ret tt.

Definition verify_quarantine_clean (node : LocalNode.t) (fact : ApplyFact) : M F unit :=
  let id := Some (LocalNode.node_id node) in
  let! quarantine := lift (ok_or (LocalNode.quarantine_relative_path node) InvalidState) in
  let! actual :=
    inspect_or (inspect quarantine) LocalIssueKind.LocalDivergence id fact
      (lit "quarantine object is not a supported regular file or directory") in
  let! expected := lift (ok_or (expected_fingerprint node) InvalidState) in
  let! has_descendants :=
    if LocalNode.kind node == NodeKind.Directory
    then inspecting (fs (list_descendants quarantine)) (fun r =>
           match r with
           | Ok paths => ret (negb (is_empty paths))
           | Err error => if unsupported error then ret true else raise error
           end)
    else ret false in
  if (actual != Some expected) || has_descendants
  then block LocalIssueKind.LocalDivergence id fact
         (lit "quarantine contents must match the last durable managed state")
  else ret tt.

(** The paths the children of a recovered directory have after the operation. *)
Fixpoint map_children (base prefix : rstring) (children : list LocalNode.t) :
  result (list (rstring * LocalNode.t)) ClientSyncError :=
  match children with
  | [] => Ok []
  | child :: rest =>
      let? suffix := ok_or (strip_prefix prefix (LocalNode.relative_path child)) InvalidState in
      let? mapped := Path.append_relative base suffix in
      let? rest := map_children base prefix rest in
      Ok ((mapped, child) :: rest)
  end.

Definition recovered_root (operation : LocalOperation.t) : option rstring :=
  match LocalOperation.kind operation with
  | LocalOperationKind.Trash | LocalOperationKind.Purge => LocalOperation.staging operation
  | _ => LocalOperation.destination operation
  end.

Definition recovered_fingerprint (operation : LocalOperation.t) : option LocalFingerprint.t :=
  match LocalOperation.kind operation with
  | LocalOperationKind.CreateDirectory | LocalOperationKind.ReplaceFile =>
      desired_fingerprint operation
  | _ => expected_operation_fingerprint operation
  end.

Definition logical_source (operation : LocalOperation.t) : option rstring :=
  match LocalOperation.kind operation with
  | LocalOperationKind.Rename | LocalOperationKind.Move
  | LocalOperationKind.Trash | LocalOperationKind.Purge => LocalOperation.source operation
  | LocalOperationKind.Restore => LocalOperation.destination operation
  | LocalOperationKind.CreateDirectory | LocalOperationKind.ReplaceFile => None
  end.

Definition verify_recovered_operation (operation : LocalOperation.t) (fact : ApplyFact) :
  M F unit :=
  let id := Some (LocalOperation.node_id operation) in
  let! filesystem_root := lift (ok_or (recovered_root operation) InvalidState) in
  let! expected_root := lift (ok_or (recovered_fingerprint operation) InvalidState) in
  let! found := fs (inspect filesystem_root) in
  if found != Some expected_root
  then block LocalIssueKind.LocalDivergence id fact
         (lit "recovered filesystem result differs from the durable operation intent")
  else if LocalFingerprint.kind expected_root != LocalFingerprint.Directory then ret tt
  else
    let! expected :=
      match logical_source operation with
      | None => ret []
      | Some source =>
          let prefix := source ++ [47] in
          let! children := tracked_below (LocalOperation.library_id operation)
                             (LocalOperation.node_id operation) prefix in
          lift (map_children filesystem_root prefix children)
      end in
    let! actual_paths :=
      inspect_or (list_descendants filesystem_root) LocalIssueKind.LocalDivergence id fact
        (lit "recovered directory contains an unrepresentable local entry") in
    if negb (same_paths actual_paths (map fst expected))
    then block LocalIssueKind.LocalDivergence id fact
           (lit "recovered directory tree differs from the durable managed mapping")
    else
      each (fun p : rstring * LocalNode.t =>
              let! found := fs (inspect p.1) in
              if found != expected_fingerprint p.2
              then block LocalIssueKind.LocalDivergence (Some (LocalNode.node_id p.2)) fact
                     (lit "recovered descendant content differs from the last durable apply")
              else ret tt)
        (filter (fun p => LocalNode.kind p.2 = NodeKind.File) expected).

(** *** Work of this device coming back through the feed *)

(** [match inspect { Ok(v) => v, Err(unsupported) => return Ok(false), .. }]. *)
Definition inspect_then (path : rstring) (k : option LocalFingerprint.t -> M F bool) : M F bool :=
  inspecting (fs (inspect path)) (fun r =>
    match r with
    | Ok value => k value
    | Err error => if unsupported error then ret false else raise error
    end).

Definition self_originated_filesystem_matches (existing : LocalNode.t) (desired : SnapshotNode.t)
  (target : rstring) : M F bool :=
  inspect_then target (fun found =>
    let! wanted := lift (desired_node_fingerprint desired) in
    if found != wanted then ret false
    else if LocalNode.relative_path existing == target then ret true
    else inspect_then (LocalNode.relative_path existing) (fun old => ret (is_none old))).

Definition self_originated_create_matches (desired : SnapshotNode.t) (target : rstring) : M F bool :=
  inspect_then target (fun found =>
    let! wanted := lift (desired_node_fingerprint desired) in
    ret (found == wanted)).

Definition self_originated (desired : SnapshotNode.t) (fact : ApplyFact)
  (existing : option LocalNode.t) (target : rstring) : M F bool :=
  match fact_sequence fact with
  | None => ret false
  | Some sequence =>
      let! submission := read (Outbound.outbound_result_for_sequence lib sequence) in
      match submission with
      | None => ret false
      | Some submission =>
          if Outbound.matches_desired submission desired
          then
            match existing with
            | Some node =>
                if LocalNode.present node && (LocalNode.kind node == SnapshotNode.kind desired)
                then self_originated_filesystem_matches node desired target
                else ret false
            | None => self_originated_create_matches desired target
            end
          else ret false
      end
  end.

(** *** Choosing and recording an operation *)

Definition create_kind (desired : SnapshotNode.t) : LocalOperationKind.t :=
  match SnapshotNode.kind desired with
  | NodeKind.Directory => LocalOperationKind.CreateDirectory
  | NodeKind.File => LocalOperationKind.ReplaceFile
  end.

Definition active_operation_kind (desired : SnapshotNode.t) (existing : option LocalNode.t)
  (target : rstring) (event_kind : option ChangeKind.t) : M F (option LocalOperationKind.t) :=
  match existing with
  | None => ret (Some (create_kind desired))
  | Some existing =>
      if negb (LocalNode.present existing)
      then
        let! restore :=
          match LocalNode.quarantine_relative_path existing with
          | None => ret false
          | Some quarantine =>
              inspecting (fs (inspect quarantine)) (fun r =>
                match r with
                | Ok (Some _) | Err InvalidState => ret (quarantine_matches_desired existing desired)
                | Ok None => ret false
                | Err error => raise error
                end)
          end in
        ret (Some (if (restore : bool) then LocalOperationKind.Restore else create_kind desired))
      else
        let path_changed := LocalNode.relative_path existing != target in
        let content_changed :=
          (SnapshotNode.kind desired == NodeKind.File)
          && ((LocalNode.current_version_id existing != SnapshotNode.current_version_id desired)
              || (LocalNode.content_length existing != SnapshotNode.content_length desired)
              || (LocalNode.content_sha256 existing != SnapshotNode.content_sha256 desired)) in
        ret (if content_changed then Some LocalOperationKind.ReplaceFile
             else if path_changed
             then Some (match event_kind with
                        | Some ChangeKind.NodeMoved => LocalOperationKind.Move
                        | _ => LocalOperationKind.Rename
                        end)
             else None)
  end.

Definition fact_operation (library node : Z) (fact : ApplyFact) : M F (option LocalOperation.t) :=
  read (Ops.operation_for_fact library node (fact_sequence fact) (fact_generation fact)).

Definition staging_for (kind : LocalOperationKind.t) (desired : SnapshotNode.t)
  (existing : option LocalNode.t) (id : Z) : result (option rstring) ClientSyncError :=
  let place r := let? path := r in Ok (Some path) in
  match kind with
  | LocalOperationKind.CreateDirectory => place (directory_staging_location id)
  | LocalOperationKind.ReplaceFile => place (staging_location id)
  | LocalOperationKind.Trash | LocalOperationKind.Purge =>
      place (quarantine_location (SnapshotNode.node_id desired) id)
  | LocalOperationKind.Restore =>
      place (ok_or (existing ≫= LocalNode.quarantine_relative_path) InvalidState)
  | LocalOperationKind.Rename | LocalOperationKind.Move => Ok None
  end.

Definition with_staging (operation : LocalOperation.t) (path : option rstring) : LocalOperation.t :=
  match path with
  | None => operation
  | Some path => LocalOperation.set_staging operation path
  end.

Definition operation_for_desired (desired : SnapshotNode.t) (existing : option LocalNode.t)
  (target : rstring) (fact : ApplyFact) (kind : LocalOperationKind.t) : M F LocalOperation.t :=
  let! found := fact_operation lib (SnapshotNode.node_id desired) fact in
  match found with
  | Some operation =>
      let! _ := reject (LocalOperation.kind operation != kind) InvalidState in
      ret operation
  | None =>
      let! id := uuid in
      let operation :=
        new_operation id lib (SnapshotNode.node_id desired) fact kind
          (LocalNode.relative_path <$> present_node existing) (Some target)
          (existing ≫= expected_fingerprint) (SnapshotNode.revision desired)
          (SnapshotNode.current_version_id desired) (SnapshotNode.content_length desired)
          (SnapshotNode.content_sha256 desired) in
      let! staging := lift (staging_for kind desired existing id) in
      let operation := with_staging operation staging in
      let! _ := call (Ops.prepare_operation operation) in
      ret operation
  end.

(** *** Executing an operation *)

Definition execute_create (operation : LocalOperation.t) : M F unit :=
  let! staging := lift (ok_or (LocalOperation.staging operation) InvalidState) in
  let! destination := lift (ok_or (LocalOperation.destination operation) InvalidState) in
  let! missing := vacant staging in
  let! _ := if (missing : bool)
            then
              let! actual := fs (stage_directory (LocalOperation.operation_id operation)) in
              reject (actual != staging) InvalidState
            else ret tt in
  let! ready := and_then (let! found := fs (inspect staging) in
                          ret (found == Some LocalFingerprint.directory))
                  (vacant destination) in
  if (ready : bool) then fs (rename_path staging destination) else raise InvalidState.

(** The download, unless the content is already staged. *)
Definition stage (operation : LocalOperation.t) (version_id length : Z) (sha256 : list Z)
  (staging : rstring) : M F unit :=
  let! found := fs (inspect staging) in
  if found == Some (LocalFingerprint.file length sha256) then ret tt
  else
    let node := LocalOperation.node_id operation in
    let! content := send_or_fail (SentDownload node version_id)
                      (fun t => download_current_content t scope node version_id) in
    let! _ := reject ((RemoteContent.node_id content != node)
                      || (RemoteContent.version_id content != version_id)
                      || (RemoteContent.length content != length)
                      || (RemoteContent.sha256 content != sha256)) InvalidRemoteResponse in
    let! staged :=
      inspecting (fs (stage_content (LocalOperation.operation_id operation) length sha256
                        (RemoteContent.body content)))
        (fun r => match r with
                  | Err ContentIntegrityMismatch =>
                      raise (LocalIssue LocalIssueKind.ContentIntegrityMismatch)
                  | r => lift r
                  end) in
    reject (staged != staging) InvalidState.

Definition execute_replace (operation : LocalOperation.t) (desired : option SnapshotNode.t) :
  M F unit :=
  let! desired := lift (ok_or desired InvalidState) in
  let! version_id := lift (ok_or (SnapshotNode.current_version_id desired) InvalidRemoteResponse) in
  let! length := lift (ok_or (SnapshotNode.content_length desired) InvalidRemoteResponse) in
  let! sha256 := lift (ok_or (SnapshotNode.content_sha256 desired) InvalidRemoteResponse) in
  let! staging := lift (ok_or (LocalOperation.staging operation) InvalidState) in
  let! _ := stage operation version_id length sha256 staging in
  let! _ := check FailurePoint.AfterContentStagedBeforeExpose in
  let! destination := lift (ok_or (LocalOperation.destination operation) InvalidState) in
  let! _ :=
    match LocalOperation.source operation with
    | Some source =>
        if source == destination then ret tt
        else
          let! source_state := occupied source in
          let! destination_state := occupied destination in
          if source_state && negb destination_state
          then fs (rename_path source destination)
          else reject (source_state || negb destination_state) InvalidState
    | None => ret tt
    end in
  let! found := fs (inspect destination) in
  if found == Some (LocalFingerprint.file length sha256)
  then fs (remove_owned_staging staging)
  else fs (expose_staged_file staging destination (LocalOperation.operation_id operation)).

Definition execute_rename (operation : LocalOperation.t) : M F unit :=
  let! source := lift (ok_or (LocalOperation.source operation) InvalidState) in
  let! destination := lift (ok_or (LocalOperation.destination operation) InvalidState) in
  let! ready := and_then (occupied source) (vacant destination) in
  if (ready : bool) then fs (rename_path source destination)
  else
    let! bad := or_else (occupied source)
                  (let! found := fs (inspect destination) in
                   ret (negb (fingerprint_matches_operation operation found))) in
    reject bad InvalidState.

Definition execute_quarantine (operation : LocalOperation.t) : M F unit :=
  let! source := lift (ok_or (LocalOperation.source operation) InvalidState) in
  let! quarantine := lift (ok_or (LocalOperation.staging operation) InvalidState) in
  let! ready := and_then (occupied source) (vacant quarantine) in
  if (ready : bool)
  then
    let! actual := fs (quarantine_path source (LocalOperation.node_id operation)
                         (LocalOperation.operation_id operation)) in
    reject (actual != quarantine) InvalidState
  else
    let! bad := or_else (occupied source) (vacant quarantine) in
    reject bad InvalidState.

Definition execute_restore (operation : LocalOperation.t) : M F unit :=
  let! quarantine := lift (ok_or (LocalOperation.staging operation) InvalidState) in
  let! destination := lift (ok_or (LocalOperation.destination operation) InvalidState) in
  let! quarantine_state := fs (inspect quarantine) in
  let! _ := reject (negb (fingerprint_matches_operation operation quarantine_state)) InvalidState in
  let! ready := and_then (ret (is_some quarantine_state)) (vacant destination) in
  if (ready : bool) then fs (restore_quarantined quarantine destination)
  else
    let! bad := or_else (occupied quarantine) (vacant destination) in
    reject bad InvalidState.

Definition execute_operation (operation : LocalOperation.t) (desired : option SnapshotNode.t) :
  M F unit :=
  match LocalOperation.state operation with
  | LocalOperationState.FilesystemApplied => ret tt
  | LocalOperationState.NeedsAttention => raise (LocalIssue LocalIssueKind.LocalRecoveryAmbiguous)
  | LocalOperationState.DatabaseCommitted => raise InvalidState
  | LocalOperationState.Prepared =>
      let! _ := check FailurePoint.BeforeFilesystemAction in
      let! _ :=
        match LocalOperation.kind operation with
        | LocalOperationKind.CreateDirectory => execute_create operation
        | LocalOperationKind.ReplaceFile => execute_replace operation desired
        | LocalOperationKind.Rename | LocalOperationKind.Move => execute_rename operation
        | LocalOperationKind.Trash | LocalOperationKind.Purge => execute_quarantine operation
        | LocalOperationKind.Restore => execute_restore operation
        end in
      let! _ := fs (write_operation_receipt (LocalOperation.operation_id operation)) in
      let! _ := check FailurePoint.AfterFilesystemActionBeforeState in
      call (Ops.set_operation_state (LocalOperation.operation_id operation)
              LocalOperationState.FilesystemApplied)
  end.

(** A recorded result is checked against the folder, a fresh start against the
    mapping. *)
Definition verify_fact (node : LocalNode.t) (recovered : option LocalOperation.t)
  (fact : ApplyFact) : M F unit :=
  let! _ := if filesystem_applied recovered then ret tt else verify_clean node true fact in
  match recovered with
  | Some operation =>
      if LocalOperation.state operation == LocalOperationState.FilesystemApplied
      then verify_recovered_operation operation fact else ret tt
  | None => ret tt
  end.

(** *** Applying a node *)

Definition apply_trashed (desired : SnapshotNode.t) (target : rstring)
  (existing : option LocalNode.t) (fact : ApplyFact) : M F AppliedNode :=
  match existing with
  | None =>
      ret (mk_AppliedNode (local_node_from_desired lib desired target fact false None None) None)
  | Some node =>
      if negb (LocalNode.present node)
      then ret (mk_AppliedNode
                  (local_node_from_desired lib desired target fact false
                     (LocalNode.quarantine_relative_path node) (Some node)) None)
      else
        let! recovered := fact_operation lib (SnapshotNode.node_id desired) fact in
        let! _ := verify_fact node recovered fact in
        let! operation := operation_for_desired desired (Some node) target fact
                            LocalOperationKind.Trash in
        let! _ := execute_operation operation (Some desired) in
        ret (mk_AppliedNode
               (local_node_from_desired lib desired target fact false
                  (LocalOperation.staging operation) (Some node))
               (Some (LocalOperation.operation_id operation)))
  end.

(** The checks before an operation that has not run yet. *)
Definition verify_before (kind : LocalOperationKind.t) (existing : option LocalNode.t)
  (target : rstring) (fact : ApplyFact) : M F unit :=
  let! _ := match existing with
            | Some node => if kind == LocalOperationKind.Restore
                           then verify_quarantine_clean node fact else ret tt
            | None => ret tt
            end in
  let! _ :=
    match present_node existing with
    | None => ret tt
    | Some node =>
        let! own_content :=
          if kind == LocalOperationKind.ReplaceFile
          then inspecting (read (fun s => Ok (Outbound.has_pending_file_content_submission
                                                (LocalNode.node_id node) s)))
                 (fun r => ret (match r with Ok value => value | Err _ => false end))
          else ret false in
        if (own_content : bool) then ret tt
        else verify_clean node (kind != LocalOperationKind.ReplaceFile) fact
    end in
  ensure_destination_available existing target fact.

(** The tail of [apply_desired_node_inner], once the operation is known. *)
Definition apply_operation (desired : SnapshotNode.t) (target : rstring)
  (existing : option LocalNode.t) (fact : ApplyFact) (kind : LocalOperationKind.t) :
  M F AppliedNode :=
  let! recovered := fact_operation lib (SnapshotNode.node_id desired) fact in
  let! _ :=
    match recovered with
    | Some operation =>
        if LocalOperation.state operation == LocalOperationState.FilesystemApplied
        then verify_recovered_operation operation fact else ret tt
    | None => ret tt
    end in
  let! _ := if filesystem_applied recovered then ret tt
            else verify_before kind existing target fact in
  let! operation := operation_for_desired desired existing target fact kind in
  let! _ :=
    inspecting (execute_operation operation (Some desired)) (fun r =>
      match r with
      | Err (LocalIssue LocalIssueKind.ContentIntegrityMismatch) =>
          block LocalIssueKind.ContentIntegrityMismatch (Some (SnapshotNode.node_id desired)) fact
            (lit "downloaded content must match the declared length and SHA-256")
      | r => lift r
      end) in
  ret (mk_AppliedNode (local_node_from_desired lib desired target fact true None existing)
         (Some (LocalOperation.operation_id operation))).

Definition apply_desired_node_inner (desired : SnapshotNode.t) (fact : ApplyFact)
  (event_kind : option ChangeKind.t) : M F AppliedNode :=
  let id := SnapshotNode.node_id desired in
  let! target := desired_path desired fact in
  let! existing := read (Nodes.local_node lib id) in
  let! _ := check_collision id target fact in
  let! own := self_originated desired fact existing target in
  if (own : bool)
  then ret (mk_AppliedNode (local_node_from_desired lib desired target fact true None existing) None)
  else if is_none (SnapshotNode.parent_node_id desired)
  then
    let! _ := reject ((SnapshotNode.kind desired != NodeKind.Directory)
                      || (SnapshotNode.state desired != NodeState.Active)) InvalidRemoteResponse in
    let! _ := fs (ensure_directory target) in
    ret (mk_AppliedNode (local_node_from_desired lib desired target fact true None None) None)
  else if SnapshotNode.state desired == NodeState.Trashed
  then apply_trashed desired target existing fact
  else
    let! _ := reject (SnapshotNode.state desired != NodeState.Active) InvalidRemoteResponse in
    if is_some_and existing (fun node => LocalNode.kind node != SnapshotNode.kind desired)
    then block LocalIssueKind.LocalTypeMismatch (Some id) fact
           (lit "tracked object type must match the server Node type")
    else
      let! kind := active_operation_kind desired existing target event_kind in
      match kind with
      | None =>
          let! node := lift (ok_or existing InvalidState) in
          let! _ := verify_clean node false fact in
          ret (mk_AppliedNode
                 (local_node_from_desired lib desired target fact true None (Some node)) None)
      | Some kind => apply_operation desired target existing fact kind
      end.

(** [Err(LocalIo)] becomes a durable blocker. *)
Definition or_block_io {A} (m : M F A) (node : option Z) (fact : ApplyFact) : M F A :=
  inspecting m (fun r =>
    match r with
    | Err LocalIo => block LocalIssueKind.LocalIoUnavailable node fact
                       (lit "local filesystem operation must become available before retry")
    | r => lift r
    end).

Definition apply_desired_node (desired : SnapshotNode.t) (fact : ApplyFact)
  (event_kind : option ChangeKind.t) : M F AppliedNode :=
  let id := Some (SnapshotNode.node_id desired) in
  let! stale := Calls.mark_outbound_intents_needing_rebase lib id in
  if (stale : bool) then raise (ObservationIssue ObservationIssueKind.BaseStateChanged)
  else or_block_io (apply_desired_node_inner desired fact event_kind) id fact.

(** *** Removing a node *)

(** The purge operation of a fact, found or prepared. *)
Definition purge_operation (library : Z) (node : LocalNode.t) (fact : ApplyFact) (revision : Z) :
  M F LocalOperation.t :=
  let! found := fact_operation library (LocalNode.node_id node) fact in
  match found with
  | Some operation => ret operation
  | None =>
      let! id := uuid in
      let operation :=
        new_operation id library (LocalNode.node_id node) fact LocalOperationKind.Purge
          (Some (LocalNode.relative_path node)) None (expected_fingerprint node) revision
          None None None in
      let! staging := lift (quarantine_location (LocalNode.node_id node) id) in
      let operation := LocalOperation.set_staging operation staging in
      let! _ := call (Ops.prepare_operation operation) in
      ret operation
  end.

Definition apply_purge_inner (change : StoredChange.t) (epoch : Z) : M F unit :=
  let resource := StoredChange.resource_id change in
  let fact := Feed (StoredChange.sequence change) in
  let! stale := Calls.mark_outbound_intents_needing_rebase lib (Some resource) in
  if (stale : bool) then raise (ObservationIssue ObservationIssueKind.BaseStateChanged)
  else
    let! _ := reject (is_some (StoredChange.desired_node change)) InvalidRemoteResponse in
    let! existing := read (Nodes.local_node lib resource) in
    let! operation_id :=
      match present_node existing with
      | None => ret None
      | Some node =>
          let! recovered := fact_operation lib (LocalNode.node_id node) fact in
          let! _ := verify_fact node recovered fact in
          let! nodes := read (Nodes.local_nodes_of lib) in
          if existsb (fun n => LocalNode.parent_node_id n == Some (LocalNode.node_id node)) nodes
          then block LocalIssueKind.LocalDivergence (Some (LocalNode.node_id node)) fact
                 (lit "purge requires tracked descendants to be removed first")
          else
            let! operation := purge_operation lib node fact (StoredChange.resource_revision change) in
            let! _ := execute_operation operation None in
            ret (Some (LocalOperation.operation_id operation))
      end in
    call (Apply.record_event_applied scope epoch change None operation_id).

Definition apply_purge (change : StoredChange.t) (epoch : Z) : M F unit :=
  or_block_io (apply_purge_inner change epoch) (Some (StoredChange.resource_id change))
    (Feed (StoredChange.sequence change)).

Definition sweep_absent_bootstrap_node_inner (node : LocalNode.t) (generation : Z) : M F unit :=
  let id := LocalNode.node_id node in
  let library := LocalNode.library_id node in
  let fact := Bootstrap generation in
  if Path.is_root (LocalNode.relative_path node)
  then block LocalIssueKind.LocalDivergence (Some id) fact
         (lit "bootstrap root identity must remain stable")
  else if negb (LocalNode.present node)
  then call (Nodes.remove_local_node library id)
  else
    let! recovered := fact_operation library id fact in
    let! _ := verify_fact node recovered fact in
    let! operation := purge_operation library node fact (LocalNode.revision node) in
    let! _ := execute_operation operation None in
    call (Ops.commit_removed_node_operation library id (LocalOperation.operation_id operation)).

Definition sweep_absent_bootstrap_node (node : LocalNode.t) (generation : Z) : M F unit :=
  or_block_io (sweep_absent_bootstrap_node_inner node generation) (Some (LocalNode.node_id node))
    (Bootstrap generation).

(** *** Startup recovery *)

(** Whether the folder shows the operation complete, given a receipt. *)
Definition receipt_confirms (operation : LocalOperation.t)
  (source destination staging : option LocalFingerprint.t) : bool :=
  match LocalOperation.kind operation with
  | LocalOperationKind.CreateDirectory =>
      (destination == Some LocalFingerprint.directory) && is_none staging
  | LocalOperationKind.ReplaceFile =>
      is_some_and (desired_fingerprint operation) (fun expected => destination == Some expected)
  | LocalOperationKind.Rename | LocalOperationKind.Move =>
      is_none source && fingerprint_matches_operation operation destination
  | LocalOperationKind.Trash | LocalOperationKind.Purge =>
      is_none source && fingerprint_matches_operation operation staging
  | LocalOperationKind.Restore =>
      is_none staging && fingerprint_matches_operation operation destination
  end.

(** The classification without a receipt. *)
Definition classify_unreceipted (operation : LocalOperation.t)
  (source destination staging : option LocalFingerprint.t) : RecoveryClassification.t :=
  let expected_source := fingerprint_matches_operation operation source in
  match LocalOperation.kind operation with
  | LocalOperationKind.CreateDirectory =>
      match staging, destination with
      | None, None => RecoveryClassification.NotStarted
      | Some value, None =>
          if value == LocalFingerprint.directory then RecoveryClassification.SafeToRetry
          else RecoveryClassification.Ambiguous
      | _, _ => RecoveryClassification.Ambiguous
      end
  | LocalOperationKind.ReplaceFile =>
      let staging_retryable := is_none staging || (staging == desired_fingerprint operation) in
      let destination_retryable :=
        if LocalOperation.source operation == LocalOperation.destination operation
        then expected_source else is_none destination in
      if expected_source && destination_retryable && staging_retryable
      then RecoveryClassification.SafeToRetry else RecoveryClassification.Ambiguous
  | LocalOperationKind.Rename | LocalOperationKind.Move =>
      if expected_source && is_none destination then RecoveryClassification.NotStarted
      else RecoveryClassification.Ambiguous
  | LocalOperationKind.Trash | LocalOperationKind.Purge =>
      if expected_source && is_none staging then RecoveryClassification.NotStarted
      else RecoveryClassification.Ambiguous
  | LocalOperationKind.Restore =>
      if fingerprint_matches_operation operation staging && is_none destination
      then RecoveryClassification.SafeToRetry else RecoveryClassification.Ambiguous
  end.

Definition classify_operation (operation : LocalOperation.t) : M F RecoveryClassification.t :=
  match LocalOperation.state operation with
  | LocalOperationState.DatabaseCommitted => ret RecoveryClassification.DatabaseCompletedAckPending
  | LocalOperationState.FilesystemApplied =>
      ret RecoveryClassification.FilesystemCompletedDatabasePending
  | LocalOperationState.NeedsAttention => ret RecoveryClassification.Ambiguous
  | LocalOperationState.Prepared =>
      let! source := inspect_optional (LocalOperation.source operation) in
      let! destination := inspect_optional (LocalOperation.destination operation) in
      let! staging := inspect_optional (LocalOperation.staging operation) in
      inspecting (fs (has_operation_receipt (LocalOperation.operation_id operation))) (fun r =>
        match r with
        | Ok true =>
            ret (if receipt_confirms operation source destination staging
                 then RecoveryClassification.FilesystemCompletedDatabasePending
                 else RecoveryClassification.Ambiguous)
        | Ok false => ret (classify_unreceipted operation source destination staging)
        | Err InvalidState => ret RecoveryClassification.Ambiguous
        | Err error => raise error
        end)
  end.

(** [block(.., ApplyFact::from_operation(&operation)?, ..)]. *)
Definition block_operation {A} (kind : LocalIssueKind.t) (operation : LocalOperation.t)
  (expected_state : rstring) : M F A :=
  let! fact := lift (fact_from_operation operation) in
  block kind (Some (LocalOperation.node_id operation)) fact expected_state.

Definition recover_operation (operation : LocalOperation.t) : M F unit :=
  let id := LocalOperation.operation_id operation in
  let! classification :=
    inspecting (classify_operation operation) (fun r =>
      match r with
      | Err LocalIo =>
          block_operation LocalIssueKind.LocalIoUnavailable operation
            (lit "local filesystem recovery inspection must become available")
      | r => lift r
      end) in
  match classification with
  | RecoveryClassification.FilesystemCompletedDatabasePending =>
      call (Ops.set_operation_state id LocalOperationState.FilesystemApplied)
  | RecoveryClassification.Ambiguous =>
      let! _ := call (Ops.set_operation_state id LocalOperationState.NeedsAttention) in
      block_operation LocalIssueKind.LocalRecoveryAmbiguous operation
        (lit "interrupted filesystem operation cannot be attributed safely")
  | RecoveryClassification.NotStarted | RecoveryClassification.SafeToRetry
  | RecoveryClassification.DatabaseCompletedAckPending => ret tt
  end.

Definition recover_startup_inner : M F unit :=
  let! operations := read (Ops.unfinished_operations lib) in
  each recover_operation operations.

End Folder.
End Folder.

(** The engine's own methods are the materialiser. *)
Definition materializer {F : Type} `{U : Unicode} `{E : Env} `{R : SyncRemote} `{L : LocalReplica F}
  (scope : ReplicaScope) : Materializer F := {|
  apply_desired_node := Folder.apply_desired_node scope;
  apply_purge := Folder.apply_purge scope;
  sweep_absent_bootstrap_node := Folder.sweep_absent_bootstrap_node scope;
  recover_startup_inner := Folder.recover_startup_inner scope
|}.
