(* ===== verification/MaterializeFacts.v ===== *)
(** * The materialiser keeps to its tables

    The engine's filesystem half only touches the tables of nodes, operations
    and issues: it satisfies the interface [MaterializerLaws], which closes the
    refinement of [InboundFacts] for the whole engine.  On top of it: the
    histories of a replica, the feed invariant, and what an acknowledgement
    means. *)

From S2P Require Import Prelude Vocabulary Models Rebaseline SyncTypes ClientPaths ClientStore.
From S2P Require Import FeedProtocol StoreFacts SyncWorld Inbound InboundFacts Materialize.

Section Laws.

Context {F : Type} `{U : Unicode} `{E : Env} `{R : SyncRemote} `{L : LocalReplica F}.
Context (scope : ReplicaScope) (served : page -> Prop).

Notation lib := (library_id scope).

(** A blocker is durable or reported, and never a success. *)
Lemma quiet_block {A} library kind node fact msg :
  quiet (F:=F) served library (Folder.block (A:=A) scope kind node fact msg).
Proof. unfold Folder.block. quiet. Qed.

Lemma triple_block {A} o kind node fact msg (Q : A -> option feed -> Prop) :
  triple (F:=F) served lib o (Folder.block scope kind node fact msg) Q.
Proof.
  intros w Hw. split; [by apply (quiet_block lib)|]. intros a. unfold Folder.block, inspecting.
  by destruct (Calls.persist_issue _ _ _ _ _ _ w) as [w1 [u|e] ].
Qed.

#[local] Hint Resolve quiet_block : quiets.

Lemma quiet_desired_path library desired fact :
  quiet (F:=F) served library (Folder.desired_path scope desired fact).
Proof. unfold Folder.desired_path. quiet. Qed.

Lemma quiet_collision library id target fact :
  quiet (F:=F) served library (Folder.check_collision scope id target fact).
Proof. unfold Folder.check_collision. quiet. Qed.

Lemma quiet_destination library existing target fact :
  quiet (F:=F) served library (Folder.ensure_destination_available scope existing target fact).
Proof. unfold Folder.ensure_destination_available. quiet. Qed.

Lemma quiet_inspect_or {A} library (op : F -> F * result A ClientSyncError) kind node fact msg :
  quiet served library (Folder.inspect_or scope op kind node fact msg).
Proof. unfold Folder.inspect_or. quiet. Qed.

#[local] Hint Resolve quiet_desired_path quiet_collision quiet_destination quiet_inspect_or : quiets.

Lemma quiet_verify_tree library node fact :
  quiet (F:=F) served library (Folder.verify_tree scope node fact).
Proof. unfold Folder.verify_tree, Folder.tracked_below. quiet. Qed.

Lemma quiet_conflict_staged library node : quiet (F:=F) served library (Folder.conflict_staged node).
Proof. unfold Folder.conflict_staged. quiet. Qed.

#[local] Hint Resolve quiet_verify_tree quiet_conflict_staged : quiets.

Lemma quiet_verify_clean library node tree fact :
  quiet (F:=F) served library (Folder.verify_clean scope node tree fact).
Proof. unfold Folder.verify_clean. quiet. Qed.

Lemma quiet_verify_quarantine library node fact :
  quiet (F:=F) served library (Folder.verify_quarantine_clean scope node fact).
Proof. unfold Folder.verify_quarantine_clean. quiet. Qed.

Lemma quiet_verify_recovered library operation fact :
  quiet (F:=F) served library (Folder.verify_recovered_operation scope operation fact).
Proof. unfold Folder.verify_recovered_operation, Folder.tracked_below. quiet. Qed.

#[local] Hint Resolve quiet_verify_clean quiet_verify_quarantine quiet_verify_recovered : quiets.

Lemma quiet_self_originated library desired fact existing target :
  quiet (F:=F) served library (Folder.self_originated scope desired fact existing target).
Proof.
  unfold Folder.self_originated, Folder.self_originated_filesystem_matches,
    Folder.self_originated_create_matches, Folder.inspect_then. quiet.
Qed.

Lemma quiet_active_kind library desired existing target event :
  quiet (F:=F) served library (Folder.active_operation_kind desired existing target event).
Proof. unfold Folder.active_operation_kind. quiet. Qed.

Lemma quiet_operation_for library desired existing target fact kind :
  quiet (F:=F) served library (Folder.operation_for_desired scope desired existing target fact kind).
Proof. unfold Folder.operation_for_desired, Folder.fact_operation. quiet. Qed.

Lemma quiet_purge_operation library l node fact revision :
  quiet (F:=F) served library (Folder.purge_operation l node fact revision).
Proof. unfold Folder.purge_operation, Folder.fact_operation. quiet. Qed.

Lemma quiet_execute library operation desired :
  quiet (F:=F) served library (Folder.execute_operation scope operation desired).
Proof.
  unfold Folder.execute_operation, Folder.execute_create, Folder.execute_replace, Folder.stage,
    Folder.execute_rename, Folder.execute_quarantine, Folder.execute_restore, Folder.and_then,
    Folder.or_else, Folder.occupied, Folder.vacant. quiet.
Qed.

#[local] Hint Resolve quiet_self_originated quiet_active_kind quiet_operation_for
  quiet_purge_operation quiet_execute : quiets.

Lemma quiet_apply_desired library desired fact event :
  quiet (F:=F) served library (Folder.apply_desired_node scope desired fact event).
Proof.
  unfold Folder.apply_desired_node, Folder.or_block_io, Folder.apply_desired_node_inner,
    Folder.apply_trashed, Folder.apply_operation, Folder.verify_before, Folder.verify_fact,
    Folder.fact_operation. quiet.
Qed.

Lemma quiet_sweep library node generation :
  quiet (F:=F) served library (Folder.sweep_absent_bootstrap_node scope node generation).
Proof.
  unfold Folder.sweep_absent_bootstrap_node, Folder.or_block_io,
    Folder.sweep_absent_bootstrap_node_inner, Folder.verify_fact, Folder.fact_operation. quiet.
Qed.

Lemma quiet_recover library : quiet (F:=F) served library (Folder.recover_startup_inner scope).
Proof.
  unfold Folder.recover_startup_inner, Folder.recover_operation, Folder.classify_operation,
    Folder.block_operation, Folder.inspect_optional. quiet.
Qed.

Lemma triple_purge o change epoch :
  present (StoredChange.sequence change) o ->
  triple (F:=F) served lib o (Folder.apply_purge scope change epoch)
    (fun _ o' => advanced (StoredChange.sequence change) o o').
Proof.
  intros Hp. unfold Folder.apply_purge, Folder.or_block_io.
  eapply (triple_inspecting served lib o _ _
            (fun _ o' => advanced (StoredChange.sequence change) o o')).
  - unfold Folder.apply_purge_inner. apply triple_seq; [auto with quiets|intros stale].
    case_match; [apply triple_raise|].
    do 2 (apply triple_seq; [auto with quiets|intros ?]).
    apply triple_seq; [|intros op; by apply triple_record].
    unfold Folder.verify_fact, Folder.fact_operation. quiet.
  - intros u o' Ha. by apply triple_lift.
  - intros e o'. destruct e; try apply triple_raise; apply triple_block.
Qed.

#[export] Instance materializer_laws : MaterializerLaws (materializer scope) served lib.
Proof.
  split; [apply quiet_apply_desired|apply quiet_sweep|apply quiet_recover|apply triple_purge].
Qed.

End Laws.
