(* ===== verification/EditFacts.v ===== *)
(** * Local edits and the inbound engine

    What happens to a file that was edited locally and not yet observed when
    the server changes the same node: the edit is preserved and reported, unless
    the database still holds the result of an earlier upload of that file, in
    which case the edit is overwritten. *)

From S2P Require Import Prelude Vocabulary Models Rebaseline SyncTypes ClientPaths ClientStore.
From S2P Require Import StoreFacts SyncWorld Inbound Disk DiskFacts Materialize.

(** ** Computations that keep an invariant *)

Section Calm.

Context {F : Type} (P : World F -> Prop).

Definition calm {A} (m : M F A) : Prop := forall w, P w -> P (m w).1.

(** [m] keeps the invariant, and its value satisfies [Q] when it succeeds. *)
Definition gives {A} (m : M F A) (Q : A -> Prop) : Prop :=
  forall w, P w -> P (m w).1 /\ forall a, (m w).2 = Ok a -> Q a.

Lemma calm_gives {A} (m : M F A) : calm m -> gives m (fun _ => True).
Proof. intros H w Hw. split; [by apply H|done]. Qed.

Lemma gives_calm {A} (m : M F A) Q : gives m Q -> calm m.
Proof. intros H w Hw. by apply H. Qed.

Lemma gives_weaken {A} (m : M F A) (Q Q' : A -> Prop) :
  gives m Q -> (forall a, Q a -> Q' a) -> gives m Q'.
Proof. intros H HQ w Hw. destruct (H w Hw) as [? HQa]. split; [done|]. auto. Qed.

(** After a step that never succeeds nothing happens. *)
Lemma calm_dead {A B} (m : M F A) (k : A -> M F B) :
  gives m (fun _ => False) -> calm (bind m k).
Proof.
  intros Hm w Hw. destruct (Hm w Hw) as [Hw1 Ha]. unfold bind.
  destruct (m w) as [w1 [a|e]]; [by destruct (Ha a)|done].
Qed.

Lemma calm_value {A B} (m : M F A) (k : A -> M F B) Q :
  gives m Q -> (forall a, Q a -> calm (k a)) -> calm (bind m k).
Proof.
  intros Hm Hk w Hw. destruct (Hm w Hw) as [Hw1 Ha]. unfold bind.
  destruct (m w) as [w1 [a|e]]; cbn in *; [by apply Hk; [apply Ha|]|done].
Qed.

Lemma gives_bind {A B} (m : M F A) (k : A -> M F B) Q Q' :
  gives m Q -> (forall a, Q a -> gives (k a) Q') -> gives (bind m k) Q'.
Proof.
  intros Hm Hk w Hw. destruct (Hm w Hw) as [Hw1 Ha]. unfold bind.
  destruct (m w) as [w1 [a|e]]; cbn in *; [|by split]. by apply Hk; [apply Ha|].
Qed.

Lemma calm_bind {A B} (m : M F A) (k : A -> M F B) :
  calm m -> (forall a, calm (k a)) -> calm (bind m k).
Proof.
  intros Hm Hk w Hw. unfold bind. specialize (Hm w Hw).
  destruct (m w) as [w1 [a|e]]; cbn in *; [by apply Hk|done].
Qed.

Lemma gives_seq {A B} (m : M F A) (k : A -> M F B) Q :
  calm m -> (forall a, gives (k a) Q) -> gives (bind m k) Q.
Proof. intros Hm Hk. eapply gives_bind; [by apply calm_gives|]. intros a _. apply Hk. Qed.

Lemma calm_inspecting {A B} (m : M F A) (k : result A ClientSyncError -> M F B) :
  calm m -> (forall r, calm (k r)) -> calm (inspecting m k).
Proof.
  intros Hm Hk w Hw. unfold inspecting. specialize (Hm w Hw).
  destruct (m w) as [w1 r]. by apply Hk.
Qed.

Lemma calm_ret {A} (a : A) : calm (ret a).
Proof. by intros w. Qed.

Lemma calm_raise {A} e : calm (raise (A:=A) e).
Proof. by intros w. Qed.

Lemma calm_lift {A} (r : result A ClientSyncError) : calm (lift r).
Proof. by intros w. Qed.

Lemma calm_reject b e : calm (reject b e).
Proof. by destruct b; intros w. Qed.

Lemma gives_ret {A} (a : A) (Q : A -> Prop) : Q a -> gives (ret a) Q.
Proof. intros HQ w Hw. split; [done|]. by intros b [= <-]. Qed.

Lemma gives_raise {A} e (Q : A -> Prop) : gives (raise e) Q.
Proof. by intros w Hw. Qed.

Lemma gives_lift {A} (r : result A ClientSyncError) (Q : A -> Prop) :
  (forall a, r = Ok a -> Q a) -> gives (lift r) Q.
Proof. by intros HQ w Hw. Qed.

(** A store call: what holds after its transaction, and after a step that changes
    nothing. *)
Lemma calm_call `{E : Env} {A} (t : tx A) :
  (forall w s a, P w -> t (clock (tick w)) (store w) = Ok (s, a) ->
     P (mk_World s (files w) (S (tick w)) (sent w))) ->
  (forall w, P w -> P (next w)) -> calm (call t).
Proof.
  intros Ht Hn w Hw. unfold call. destruct (db_fault (tick w)); [|by apply Hn|];
    destruct (t (clock (tick w)) (store w)) as [[s a]|e] eqn:H;
    solve [by apply Hn | by eapply Ht].
Qed.

End Calm.

Create HintDb calms.
#[export] Hint Resolve calm_ret calm_raise calm_lift calm_reject : calms.

Ltac calm :=
  repeat first
    [ progress (auto with calms)
    | apply calm_bind; [|intros ?]
    | apply calm_inspecting; [|intros ?]
    | progress case_match ].

(** ** The tables that decide whether a file is clean *)

Definition decisive (s : Store) :=
  (local_nodes s, local_operations s, outbound_submission_results s, sync_conflicts s,
   outbound_upload_sessions s).

Lemma keeps_status library st : keeps decisive (Feed.set_status library st).
Proof. unfold Feed.set_status, Feed.put_replica. frame. Qed.

Lemma keeps_issue id l n q g k e : keeps decisive (Ops.insert_issue id l n q g k e).
Proof. unfold Ops.insert_issue. frame. Qed.

Lemma keeps_observation_issue id l n p k : keeps decisive (Ops.insert_observation_issue id l n p k).
Proof. unfold Ops.insert_observation_issue. frame. Qed.

Lemma keeps_rebase `{U : Unicode} l n t : keeps decisive (Outbound.require_rebase l n t).
Proof. unfold Outbound.require_rebase. frame. Qed.

#[export] Hint Resolve keeps_status keeps_issue keeps_observation_issue keeps_rebase : frames.

(** ** A diverged file *)

Section Diverged.

Context {F : Type} `{U : Unicode} `{E : Env} `{R : SyncRemote} `{L : LocalReplica F}.
Context (scope : ReplicaScope) (s0 : Store) (f0 : F).

Notation lib := (library_id scope).

(** The folder is read-only for inspection. *)
Hypothesis inspect_reads : forall p, (inspect p f0).1 = f0.
Hypothesis root_reads : (ensure_directory [] f0).1 = f0.

(** The folder is as it was and so are the tables. *)
Definition unchanged (w : World F) : Prop := files w = f0 /\ decisive (store w) = decisive s0.

Lemma calm_read {A} (q : Store -> result A ClientSyncError) : calm unchanged (read q).
Proof. by intros w. Qed.

Lemma calm_uuid : calm (F:=F) unchanged uuid.
Proof. by intros w. Qed.

Lemma calm_frame {A} (t : tx A) : keeps decisive t -> calm unchanged (call t).
Proof.
  intros Ht. apply calm_call; [|done]. intros w s a [Hf Hs] H.
  split; [done|]. cbn. by rewrite (Ht _ _ _ _ H).
Qed.

Lemma calm_inspect p : calm unchanged (fs (inspect p)).
Proof.
  intros w [Hf Hs]. unfold fs. rewrite Hf. pose proof (inspect_reads p).
  destruct (inspect p f0) as [f r]. by subst.
Qed.

Lemma calm_root : calm unchanged (fs (ensure_directory [])).
Proof.
  intros w [Hf Hs]. unfold fs. rewrite Hf. pose proof root_reads.
  destruct (ensure_directory [] f0) as [f r]. by subst.
Qed.

#[local] Hint Resolve calm_read calm_uuid calm_inspect calm_root : calms.
#[local] Hint Extern 1 (calm _ (call _)) => apply calm_frame; solve [auto with frames] : calms.

Lemma calm_status l st : calm unchanged (Calls.set_status l st).
Proof. unfold Calls.set_status. calm. Qed.

#[local] Hint Resolve calm_status : calms.

Lemma calm_mark_rebase n : calm unchanged (Calls.mark_outbound_intents_needing_rebase lib n).
Proof.
  unfold Calls.mark_outbound_intents_needing_rebase, Calls.persist_observation_issue,
    Calls.intent_target. calm.
Qed.

Lemma calm_block {A} kind node fact msg :
  calm unchanged (Folder.block (A:=A) scope kind node fact msg).
Proof. unfold Folder.block, Calls.persist_issue. calm. Qed.

(** A blocker never succeeds. *)
Lemma gives_block {A} kind node fact msg (Q : A -> Prop) :
  gives unchanged (Folder.block (A:=A) scope kind node fact msg) Q.
Proof.
  intros w Hw. split; [by apply calm_block|]. unfold Folder.block, inspecting.
  by destruct (Calls.persist_issue _ _ _ _ _ _ w) as [w1 [u|e]].
Qed.

#[local] Hint Resolve calm_mark_rebase calm_block : calms.

Lemma calm_desired_path desired fact : calm unchanged (Folder.desired_path scope desired fact).
Proof. unfold Folder.desired_path. calm. Qed.

Lemma calm_collision id target fact : calm unchanged (Folder.check_collision scope id target fact).
Proof. unfold Folder.check_collision. calm. Qed.

Lemma calm_self_originated desired fact existing target :
  calm unchanged (Folder.self_originated scope desired fact existing target).
Proof.
  unfold Folder.self_originated, Folder.self_originated_filesystem_matches,
    Folder.self_originated_create_matches, Folder.inspect_then. calm.
Qed.

Lemma calm_active_kind desired existing target event :
  calm unchanged (Folder.active_operation_kind desired existing target event).
Proof. unfold Folder.active_operation_kind. calm. Qed.

(** A query over the decisive tables has the value it had. *)
Lemma gives_read {A} (q : Store -> result A ClientSyncError) :
  (forall s s', decisive s = decisive s' -> q s = q s') ->
  gives unchanged (read q) (fun a => q s0 = Ok a).
Proof.
  intros Hq w Hw. split; [by apply calm_read|]. cbn. destruct Hw as [_ Hs].
  destruct (db_fault (tick w)); [|done..]. by rewrite (Hq _ _ Hs).
Qed.

Context (node : LocalNode.t) (found : LocalFingerprint.t).
Hypothesis is_present : LocalNode.present node = true.
Hypothesis is_file : LocalNode.kind node = NodeKind.File.
Hypothesis content : inspect (LocalNode.relative_path node) f0 = (f0, Ok (Some found)).
Hypothesis diverged : Plan.expected_fingerprint node <> Some found.
Hypothesis no_conflict :
  Outbound.durable_unresolved_content_conflict_source (LocalNode.library_id node)
    (LocalNode.node_id node) s0 = Ok None.

Lemma conflict_not_staged : gives unchanged (Folder.conflict_staged node) (fun b => b = false).
Proof.
  unfold Folder.conflict_staged. rewrite is_file.
  rewrite bool_decide_true by done.
  eapply gives_bind.
  - apply gives_read. intros s s' [= _ _ _ Hc Hu].
    unfold Outbound.durable_unresolved_content_conflict_source. by rewrite Hc, Hu.
  - intros staged Hs. rewrite no_conflict in Hs. injection Hs as <-. by apply gives_ret.
Qed.

(** Verification of a diverged file never succeeds. *)
Lemma verify_clean_fails tree fact :
  gives unchanged (Folder.verify_clean scope node tree fact) (fun _ => False).
Proof.
  unfold Folder.verify_clean. rewrite is_present. cbn [negb].
  eapply (gives_bind unchanged _ _ (fun a => a = Some found)).
  { intros w [Hf Hs]. unfold Folder.inspect_or, inspecting, fs. rewrite Hf, content. cbn.
    split; [by split|]. by intros a [= <-]. }
  intros actual ->. cbn [is_none is_some negb].
  eapply (gives_bind unchanged _ _ (fun e => Plan.expected_fingerprint node = Some e)).
  { apply gives_lift. intros e He. by destruct (Plan.expected_fingerprint node); simplify_eq/=. }
  intros expected He. case_match; [apply gives_block|].
  rewrite bool_decide_false by (intros [= ->]; congruence). cbn [negb].
  eapply gives_bind; [apply conflict_not_staged|]. intros b ->. apply gives_block.
Qed.

Hypothesis no_upload :
  Outbound.has_pending_file_content_submission (LocalNode.node_id node) s0 = false.

Lemma verify_before_fails kind target fact :
  gives unchanged (Folder.verify_before scope kind (Some node) target fact) (fun _ => False).
Proof.
  unfold Folder.verify_before, Plan.present_node. rewrite is_present. apply gives_seq.
  { unfold Folder.verify_quarantine_clean, Folder.inspect_or. rewrite is_file. calm. }
  intros _. eapply (gives_bind unchanged _ _ (fun _ => False)); [|by intros].
  eapply (gives_bind unchanged _ _ (fun b => b = false)).
  - case_bool_decide; [|by apply gives_ret]. intros w Hw. unfold inspecting, read, ret. cbn.
    split; [done|]. intros b [= <-]. destruct Hw as [_ Hs].
    destruct (db_fault (tick w)); [|done..].
    unfold Outbound.has_pending_file_content_submission in *. injection Hs as _ _ -> _ _. done.
  - intros b ->. apply verify_clean_fails.
Qed.

Context (desired : SnapshotNode.t) (fact : ApplyFact).
Hypothesis tracked :
  Nodes.local_node lib (SnapshotNode.node_id desired) s0 = Ok (Some node).
Hypothesis not_applied : forall operation,
  Ops.operation_for_fact lib (SnapshotNode.node_id desired) (fact_sequence fact)
    (fact_generation fact) s0 = Ok (Some operation) ->
  LocalOperation.state operation <> LocalOperationState.FilesystemApplied.

Lemma recovered_not_applied :
  gives unchanged (Folder.fact_operation lib (SnapshotNode.node_id desired) fact)
    (fun o => Plan.filesystem_applied o = false).
Proof.
  eapply gives_weaken.
  - apply gives_read. intros s s' [= _ Ho _ _ _]. unfold Ops.operation_for_fact, Ops.operation_rows.
    by rewrite Ho.
  - intros [o|] Ho; [|done]. apply not_applied in Ho. cbn. by apply bool_decide_false.
Qed.

(** What is done for an operation that is not recorded as applied. *)
Lemma not_applied_skip {A} o (m : LocalOperation.t -> M F A) (k : M F A) :
  Plan.filesystem_applied o = false ->
  match o with
  | Some operation =>
      if LocalOperation.state operation == LocalOperationState.FilesystemApplied
      then m operation else k
  | None => k
  end = k.
Proof. destruct o as [o|]; [|done]. cbn. by intros ->. Qed.

Lemma calm_trashed target : calm unchanged (Folder.apply_trashed scope desired target (Some node) fact).
Proof.
  unfold Folder.apply_trashed. rewrite is_present. cbn [negb].
  eapply calm_value; [apply recovered_not_applied|]. intros o Ho. apply calm_dead.
  unfold Folder.verify_fact. rewrite Ho. eapply gives_bind; [apply verify_clean_fails|done].
Qed.

Lemma calm_operation target kind :
  calm unchanged (Folder.apply_operation scope desired target (Some node) fact kind).
Proof.
  unfold Folder.apply_operation. eapply calm_value; [apply recovered_not_applied|]. intros o Ho.
  rewrite (not_applied_skip o (fun operation => Folder.verify_recovered_operation scope operation fact))
    by done.
  apply calm_bind; [apply calm_ret|intros _]. rewrite Ho. apply calm_dead, verify_before_fails.
Qed.

Lemma root_target :
  SnapshotNode.parent_node_id desired = None ->
  gives unchanged (Folder.desired_path scope desired fact) (fun target => target = []).
Proof. intros Hp. unfold Folder.desired_path. rewrite Hp. by apply gives_ret. Qed.

Lemma calm_apply_inner event :
  calm unchanged (Folder.apply_desired_node_inner scope desired fact event).
Proof.
  unfold Folder.apply_desired_node_inner.
  eapply (calm_value unchanged _ _ (fun target =>
            SnapshotNode.parent_node_id desired = None -> target = [])).
  { destruct (SnapshotNode.parent_node_id desired) eqn:Hp.
    - eapply gives_weaken; [apply calm_gives, calm_desired_path|done].
    - eapply gives_weaken; [by apply root_target|done]. }
  intros target Htarget. eapply calm_value.
  { apply (gives_read (Nodes.local_node lib (SnapshotNode.node_id desired))).
    intros s s' [= Hn _ _ _ _]. unfold Nodes.local_node, Nodes.local_row. by rewrite Hn. }
  intros existing He. rewrite tracked in He. injection He as <-.
  apply calm_bind; [apply calm_collision|intros _].
  apply calm_bind; [apply calm_self_originated|intros own].
  case_match; [calm|]. destruct (SnapshotNode.parent_node_id desired) as [parent|]; cbn [is_none is_some negb].
  2: { rewrite Htarget by done. calm. }
  case_match; [apply calm_trashed|]. apply calm_bind; [auto with calms|intros _].
  case_match; [auto with calms|]. apply calm_bind; [apply calm_active_kind|intros [kind|]].
  - apply calm_operation.
  - eapply (calm_value unchanged _ _ (fun n => n = node)); [by apply gives_lift; intros n [= <-]|].
    intros n ->. apply calm_dead, verify_clean_fails.
Qed.

Lemma calm_apply_desired event : calm unchanged (Folder.apply_desired_node scope desired fact event).
Proof.
  pose proof calm_apply_inner. unfold Folder.apply_desired_node, Folder.or_block_io. calm.
Qed.

End Diverged.

(** ** On disk *)

Section OnDisk.

Context `{U : Unicode} `{I : Identifiers} `{H : Sha} `{E : Env} `{R : SyncRemote}.
Context (scope : ReplicaScope) (binding : Z) (profile : option Z) (deferred : bool).

Notation lib := (library_id scope).
Notation folder := (filesystem_replica scope binding profile deferred).
Notation inspect := (Managed.inspect scope binding profile deferred).

Lemma inspect_read_only d p : root_ok scope binding profile d -> (inspect p d).1 = d.
Proof.
  intros Hr. unfold Managed.inspect, dbind.
  destruct (Managed.resolve scope binding profile deferred p d) as [d1 [q|e]] eqn:Hres.
  - unfold Managed.resolve in Hres.
    rewrite (dbind_ok _ _ _ _ _ (validate_root_ok _ _ _ deferred d Hr)), dbind_get in Hres.
    unfold dbind, dlift, dret in Hres. by destruct (Managed.reject_existing_redirects _ _); simplify_eq.
  - by apply resolve_err in Hres as [-> _].
Qed.


End OnDisk.
