(* ===== verification/SyncFacts.v ===== *)
(** * What inbound synchronisation guarantees

    The theorems about whole histories of a replica: calls of the engine
    interleaved with edits of the folder and with commits of the other
    components.  They hold for any clock, any database or injected fault, any
    folder and any server; what a theorem needs of the server is a hypothesis
    of it. *)

From S2P Require Import Prelude Vocabulary Models Rebaseline SyncTypes ClientPaths ClientStore.
From S2P Require Import FeedProtocol StoreFacts SyncWorld Inbound InboundFacts Materialize.
From S2P Require Import MaterializeFacts.

Section Histories.

Context {F : Type} `{U : Unicode} `{E : Env} `{R : SyncRemote} `{L : LocalReplica F}.
Context (scope : ReplicaScope) (profile : option Z) (config : EngineConfig.t).

Notation lib := (library_id scope).

(** [synchronize_once] ([surface = false]) and [synchronize_incremental_once]. *)
Definition sync (surface : bool) : M F SyncOutcome.t :=
  Engine.synchronize scope profile config (Mat := materializer scope) surface.

(** Calls of the engine are serialised by the writer lock; between them the
    folder may be edited and other components may commit. *)
Inductive history (w : World F) : World F -> Prop :=
| here : history w w
| then_sync w' surface : history w w' -> history w (sync surface w').1
| then_handoff w' snapshot_id :
    history w w' ->
    history w (Engine.complete_rebaseline_handoff scope profile snapshot_id w').1
| then_edit w' f : history w w' -> history w (mk_World (store w') f (tick w') (sent w'))
| then_elsewhere w' s :
    history w w' -> abs lib s = abs lib (store w') ->
    history w (mk_World s (files w') (tick w') (sent w')).

Section Served.

Context (served : page -> Prop).
Hypothesis server : forall t limit page,
  fetch_changes t scope limit = Ok page -> served (page_of page).

Lemma sync_synced surface o :
  triple served lib o (sync surface) (synced scope served o).
Proof. apply triple_synchronize; [apply _|done]. Qed.

Lemma history_reach w w' : history w w' -> reach served lib w w'.
Proof.
  induction 1 as [|w' surface _ IH|w' id _ IH|w' f _ IH|w' s _ IH Hs].
  - apply reach_refl.
  - eapply reach_trans; [exact IH|]. by eapply sync_synced.
  - eapply reach_trans; [exact IH|]. by eapply (triple_handoff scope profile served).
  - eapply reach_trans; [exact IH|]. by apply reach_quiet.
  - eapply reach_trans; [exact IH|]. by apply reach_quiet.
Qed.

End Served.

Lemma history_reach_any w w' : history w w' -> reach (fun _ => True) lib w w'.
Proof. by apply history_reach. Qed.

(** C1: The engine refines the feed protocol: every history, whatever fails and
    whatever the server answers, is a sequence of protocol steps on the local
    cursor.  In particular an event is applied only as the successor of the
    applied sequence, out of the page in hand, and only a page starting at the
    acknowledged sequence is accepted. *)
Theorem feed_refines_protocol w w' :
  history w w' ->
  rtc (ostep (fun _ => True) lib) (abs lib (store w)) (abs lib (store w')).
Proof. intros H. by apply history_reach_any in H as [H _]. Qed.

(** The feed invariant holds throughout: the acknowledged sequence never
    passes the applied one, a page in hand starts at the acknowledged sequence
    and holds exactly the events up to its end, an acknowledgement in flight is
    that of a page applied to its end; and away from a snapshot handoff neither
    sequence ever decreases. *)
Theorem feed_invariant w w' f :
  abs lib (store w) = Some f -> wf lib f -> history w w' ->
  exists g, abs lib (store w') = Some g /\ wf lib g
    /\ (handoff f = None -> handoff g = None /\ acked f <= acked g /\ applied f <= applied g).
Proof.
  intros Hf W H. apply history_reach_any in H as [Hs _]. unfold view in Hs. rewrite Hf in Hs.
  assert (exists g, abs lib (store w') = Some g) as [g Hg].
  { revert Hs. generalize (abs lib (store w')) as o'. intros o' Hs.
    apply rtc_inv_r in Hs as [<-|(o & _ & [f' g' _])]; eauto. }
  rewrite Hg in Hs. exists g. split; [done|].
  split; [by apply (rtc_wf _ _ _ _ Hs)|]. by apply (rtc_monotone _ _ _ _ Hs).
Qed.

(** C4: An acknowledgement is only ever sent for a page whose every event has
    been applied: at that moment the database holds the page, its evidence is
    the one sent, it starts at the acknowledged sequence, and the applied
    sequence is its end. *)
Theorem acknowledged_only_applied w w' f s evidence :
  sent w = [] -> abs lib (store w) = Some f -> wf lib f -> history w w' ->
  (s, SentAcknowledge evidence) ∈ sent w' ->
  exists r p, replicas s !! lib = Some r /\ pending_pages s !! lib = Some p
    /\ PageRow.ack_evidence p = Some evidence
    /\ Replica.acknowledged_sequence r = PageRow.from_sequence p
    /\ Replica.applied_sequence r = PageRow.through_sequence p
    /\ map EventRow.sequence (default [] (pending_events s !! lib))
       = seqZ (PageRow.from_sequence p + 1) (PageRow.through_sequence p - PageRow.from_sequence p).
Proof.
  intros H0 Hf W H Hin. apply history_reach_any in H as [_ (l & Hl & Hall)].
  rewrite Hl, H0 in Hin. rewrite Forall_forall in Hall.
  destruct (Hall _ Hin) as [Hs (g & k & Hg & Hk & <-)]. cbn in Hs, Hg.
  unfold view in Hs. rewrite Hf, Hg in Hs. apply rtc_wf in Hs; [|done]. cbn in Hs.
  unfold abs, abs_page in Hg. destruct (replicas s !! lib) as [r|]; [|done].
  injection Hg as <-. cbn in Hk. destruct (pending_pages s !! lib) as [p|].
  - destruct (wf_acking _ _ Hs _ k eq_refl Hk) as (Ha & high & ev & Hev & ->).
    destruct (wf_page _ _ Hs _ eq_refl) as (Hok & _ & Hfrom & _).
    exists r, p. pose proof (page_consecutive _ Hok) as Hc. done.
  - destruct (wf_quiet _ _ Hs eq_refl) as [_ Hnone]. cbn in Hnone. congruence.
Qed.

(** *** Progress *)

(** A call outside a bootstrap that reports [Idle], [Progressed] or
    [MoreAvailable] has processed exactly one page of the server, from the
    acknowledged sequence to the page's end, and acknowledged it; it reports
    [MoreAvailable] exactly when the server marked the page as followed by more,
    except when it only retried an acknowledgement, which always reports
    [Progressed]. *)
Theorem synchronize_one_page (served : page -> Prop) surface w f out :
  (forall t limit page, fetch_changes t scope limit = Ok page -> served (page_of page)) ->
  abs lib (store w) = Some f -> wf lib f -> boot f = None ->
  (forall p, paging f = Some p -> served p) ->
  (sync surface w).2 = Ok out -> settled out = true ->
  exists p g, abs lib (store (sync surface w).1) = Some g /\ served p /\ page_ok p
    /\ (page_more p = bool_decide (out = SyncOutcome.MoreAvailable)
        \/ out = SyncOutcome.Progressed /\ is_Some (acking f))
    /\ acked f = page_from p /\ acked g = page_through p /\ paging g = None.
Proof.
  intros Hserver Hf W Hb Hp Hout Hcase.
  destruct (sync_synced served Hserver surface _ w eq_refl) as [_ H].
  unfold view in H. rewrite Hf in H.
  destruct (proj1 (H out Hout) Hcase f eq_refl Hb W Hp)
    as (p & g & Hg & Hsv & Hok & Hm & Ha & Ha' & _ & Hpg & _).
  by exists p, g.
Qed.

(** The world after [n] calls. *)
Fixpoint calls (surface : bool) (n : nat) (w : World F) : World F :=
  match n with
  | O => w
  | S n' => calls surface n' (sync surface w).1
  end.

(** What an honest server with [head] events serves. *)
Definition honest (head : Z) (p : page) : Prop :=
  page_through p <= head /\ (page_more p = true -> page_events p <> []).


(** *** An acknowledgement the server no longer accepts *)

(** [m] changes nothing of the protocol and can only report [Blocked]. *)
Definition stuck (o : option feed) (m : M F SyncOutcome.t) : Prop :=
  forall w, view lib w = o ->
    view lib (m w).1 = o /\ forall out, (m w).2 = Ok out -> out = SyncOutcome.Blocked.

Notation any := (fun _ : page => True).

Lemma stuck_seq {A} o (m : M F A) k :
  quiet any lib m -> (forall a, stuck o (k a)) -> stuck o (bind m k).
Proof.
  intros Hm Hk w Hw. destruct (Hm w) as [_ Hv]. unfold bind.
  destruct (m w) as [w1 [a|e] ]; cbn in *; [|split; [congruence|done] ].
  apply Hk. congruence.
Qed.

Lemma stuck_read {A} o (q : Store -> result A ClientSyncError) k :
  (forall s a, abs lib s = o -> q s = Ok a -> stuck o (k a)) -> stuck o (bind (read q) k).
Proof.
  intros H w Hw. unfold bind, read. destruct (db_fault (tick w)); try done.
  destruct (q (store w)) as [a|e] eqn:Hq; [|done]. by apply (H (store w) a).
Qed.

Lemma stuck_send {A} o q (answer : nat -> result A RemoteError) k :
  (forall t, is_ok (answer t) = false) -> stuck o (bind (send_or_fail q answer) k).
Proof.
  intros H w Hw. unfold bind, send_or_fail. specialize (H (tick w)).
  by destruct (answer (tick w)).
Qed.

Section Rejected.

Hypothesis rejected : forall t evidence, exists error,
  acknowledge_changes t scope evidence = Err error
  /\ error_kind error = RemoteErrorKind.RebaselineRequired.

Lemma stuck_retry o : stuck o (Engine.retry_pending_ack scope).
Proof.
  unfold Engine.retry_pending_ack. apply stuck_read. intros s k _ _.
  do 2 (apply stuck_seq; [auto with quiets|intros _]). apply stuck_send. intros t.
  by destruct (rejected t (PendingAck.evidence k)) as (error & -> & _).
Qed.

Lemma stuck_inner surface f k :
  acking f = Some k -> boot f = None -> rooted f = true ->
  stuck (Some f) (Engine.synchronize_once_inner scope profile config
                    (Mat := materializer scope) surface).
Proof.
  intros Hk Hb Hr. unfold Engine.synchronize_once_inner, Engine.lib.
  apply stuck_seq; [apply quiet_binding|intros _].
  apply stuck_seq; [auto with quiets|intros marker].
  apply stuck_seq; [auto with quiets|intros _].
  apply stuck_seq; [auto with quiets|intros issues].
  case_match; [intros w Hw; split; [done|by intros out [= <-] ]|].
  apply stuck_seq; [apply quiet_recover|intros _].
  apply stuck_seq; [apply quiet_cleanup|intros _].
  apply stuck_read. intros s session Hs [= <-]. unfold abs in Hs.
  destruct (replicas s !! lib) as [r|] eqn:Hrow; [|done]. injection Hs as <-. cbn in *.
  unfold Bootstrap.bootstrap. destruct (bootstrap_sessions s !! lib); [done|].
  apply stuck_read. intros s' r' Hs' Hr'. unfold abs, Feed.replica in *.
  destruct (replicas s' !! lib) as [r1|]; [|done]. injection Hr' as <-.
  injection Hs' as _ _ _ _ _ _ _ Hroot. unfold is_none. rewrite Hroot, Hr. cbn [negb].
  apply stuck_read. intros s2 ack Hs2 Hack. unfold abs, Apply.pending_ack in *.
  destruct (replicas s2 !! lib) as [r2|]; [|done]. injection Hs2 as _ _ _ _ Hacks _ _ _.
  rewrite Hacks, Hk in Hack. assert (is_some ack = true) as -> by rust_case. apply stuck_retry.
Qed.

Lemma sync_stuck surface w f k :
  view lib w = Some f -> acking f = Some k -> boot f = None -> rooted f = true ->
  view lib (sync surface w).1 = Some f
  /\ forall out, (sync surface w).2 = Ok out ->
       out = SyncOutcome.Blocked \/ out = SyncOutcome.Offline.
Proof.
  intros Hw Hk Hb Hr. unfold sync, Engine.synchronize, inspecting.
  destruct (stuck_inner surface f k Hk Hb Hr w Hw) as [Hv Hout].
  destruct (Engine.synchronize_once_inner scope profile config surface w) as [w1 [out|e] ].
  - cbn in *. split; [done|]. intros out' [= <-]. left. by apply Hout.
  - cbn in Hv. destruct e; try case_bool_decide; cbn.
    all: try (split; [done|]; intros out' [= <-]; by left).
    all: try done.
    all: destruct (quiet_set_status any lib lib EngineStatus.Error w1) as [_ He];
      destruct (quiet_set_status any lib lib EngineStatus.Offline w1) as [_ Ho].
    all: unfold bind, ret, raise; unfold Engine.lib in *.
    all: try (destruct (Calls.set_status lib EngineStatus.Error w1) as [w2 r2]; cbn in *;
              split; [congruence|done]).
    destruct (Calls.set_status lib EngineStatus.Offline w1) as [w2 [u|e2] ]; cbn in *;
      (split; [congruence|]); [intros out' [= <-]; by right|done].
Qed.

(** C34: A pending acknowledgement that the server answers with "rebaseline
    required" (its journal was rotated, or the retained history moved past the
    client) is retried for ever: however often the engine is called, no call
    starts or surfaces a rebaseline, and the feed state never changes. *)
Theorem pending_ack_wedges surface w f k n :
  abs lib (store w) = Some f -> acking f = Some k -> boot f = None -> rooted f = true ->
  abs lib (store (calls surface n w)) = Some f
  /\ forall out, (sync surface (calls surface n w)).2 = Ok out ->
       out = SyncOutcome.Blocked \/ out = SyncOutcome.Offline.
Proof.
  intros Hf Hk Hb Hr. revert w Hf. induction n as [|n IH]; intros w Hf; cbn [calls].
  - split; [done|]. by apply (sync_stuck surface w f k).
  - apply IH. by apply (sync_stuck surface w f k).
Qed.

End Rejected.

End Histories.
