(* ===== verification/ConvergenceFacts.v ===== *)
(** * Recovery creates one snapshot and ends at its boundary

    What one call of the coordinator guarantees: it creates at most one snapshot,
    the loop over the pages ends, a snapshot replaces the mirror as a whole, and
    a reported convergence leaves the cursor at the boundary of the snapshot. *)

From S2P Require Import Prelude Vocabulary Models Rebaseline SyncTypes ClientPaths ClientStore.
From S2P Require Import FeedProtocol StoreFacts SyncWorld Candidates SnapshotFacts Inbound Cycle.
From S2P Require Import InboundFacts Disk Materialize MaterializeFacts EditFacts SyncFacts.

(** ** The engine leaves recovery alone *)

Definition is_create (p : Store * request) : bool :=
  match p.2 with SentCreateSnapshot => true | _ => false end.

(** The snapshots requested so far. *)
Definition creates (l : list (Store * request)) : nat := length (List.filter is_create l).

Lemma creates_app l l' : creates (l ++ l') = (creates l + creates l')%nat.
Proof. unfold creates. by rewrite List.filter_app, length_app. Qed.

Ltac head_of t := match t with ?f _ => head_of f | _ => t end.

(** Opens the definition at the head of a computation. *)
Ltac open_calm := match goal with |- calm _ ?m => let h := head_of m in unfold h end.
Ltac open_keeps := match goal with |- keeps _ ?m => let h := head_of m in unfold h end.

Section Untouched.

Context {F : Type} `{U : Unicode} `{E : Env} {V : Type}.
Context (g : Store -> V) (v : V) (base : list (Store * request)).

(** What [g] reads is [v], and no snapshot was requested since [base]. *)
Definition at_rest (w : World F) : Prop :=
  g (store w) = v /\ exists l, sent w = base ++ l /\ creates l = 0%nat.

Lemma rest_read {A} (q : Store -> result A ClientSyncError) : calm at_rest (read q).
Proof. by intros w. Qed.

Lemma rest_uuid : calm at_rest uuid.
Proof. by intros w. Qed.

Lemma rest_check point : calm at_rest (check point).
Proof. by intros w. Qed.

Lemma rest_fs {A} (op : F -> F * result A ClientSyncError) : calm at_rest (fs op).
Proof. intros w. unfold fs. by destruct (op (files w)). Qed.

Lemma rest_call {A} (t : tx A) : keeps g t -> calm at_rest (call t).
Proof.
  intros Ht. apply calm_call; [|done]. intros w s a [Hc Hn] H.
  split; [|done]. cbn. by rewrite (Ht _ _ _ _ H).
Qed.

Lemma rest_sent w q s :
  q <> SentCreateSnapshot -> (exists l, sent w = base ++ l /\ creates l = 0%nat) ->
  exists l, sent (F:=F) w ++ [(s, q)] = base ++ l /\ creates l = 0%nat.
Proof.
  intros Hq (l & -> & Hl). exists (l ++ [(s, q)]). rewrite app_assoc, creates_app, Hl.
  by destruct q.
Qed.

Lemma rest_send {A} q (answer : nat -> result A RemoteError) :
  q <> SentCreateSnapshot -> calm at_rest (send q answer).
Proof. intros Hq w [Hc Hn]. split; [done|by apply rest_sent]. Qed.

Lemma rest_send_or_fail {A} q (answer : nat -> result A RemoteError) :
  q <> SentCreateSnapshot -> calm at_rest (send_or_fail q answer).
Proof. intros Hq w [Hc Hn]. split; [done|by apply rest_sent]. Qed.

Lemma calm_each {A} (P : World F -> Prop) (f : A -> M F unit) l :
  (forall a, calm P (f a)) -> calm P (each f l).
Proof. intros Hf. induction l as [|a l IH]; cbn [each]; [apply calm_ret|by apply calm_bind]. Qed.

Lemma rest_uuids : calm at_rest Candidates.uuids.
Proof. by intros w. Qed.

End Untouched.

Lemma keeps_nothing {A} (t : tx A) : keeps (fun _ => tt) t.
Proof. done. Qed.

#[export] Hint Resolve keeps_nothing : frames.

#[export] Hint Resolve rest_read rest_uuid rest_uuids rest_check rest_fs : calms.
#[export] Hint Extern 1 (calm (at_rest _ _ _) (send _ _)) => by apply rest_send : calms.
#[export] Hint Extern 1 (calm (at_rest _ _ _) (send_or_fail _ _)) =>
  by apply rest_send_or_fail : calms.

(** Goes through a computation and the transactions it calls; [rule] reduces a
    store call to its transaction. *)
Ltac walk rule :=
  repeat first
    [ progress (auto with calms)
    | apply calm_bind; [|intros ?]
    | apply calm_inspecting; [|intros ?]
    | apply calm_each; intros ?
    | rule
    | solve [auto with frames]
    | apply keeps_bind; [|intros ?]
    | apply keeps_each; intros ?
    | apply keeps_update; by intros
    | progress cbv zeta
    | progress case_match
    | open_calm
    | open_keeps ].

Ltac untouched := walk ltac:(apply rest_call).

(** ** The engine does not touch the candidates *)

Section Engine.

Context {F : Type} `{U : Unicode} `{E : Env} `{R : SyncRemote} `{L : LocalReplica F}.
Context (scope : ReplicaScope) (profile : option Z) (config : EngineConfig.t).
Context (v : gmap Z Candidate.t) (base : list (Store * request)).

Notation rest := (at_rest (F:=F) rebaseline_candidates v base).

Lemma untouched_status l st : calm rest (Calls.set_status l st).
Proof. untouched. Qed.

Lemma untouched_issue l nd q g k e : calm rest (Calls.persist_issue l nd q g k e).
Proof. untouched. Qed.

#[local] Hint Resolve untouched_status untouched_issue : calms.

Lemma untouched_block {A} kind node fact msg :
  calm rest (Folder.block (A:=A) scope kind node fact msg).
Proof. untouched. Qed.

#[local] Hint Resolve untouched_block : calms.

Lemma untouched_desired desired fact event :
  calm rest (apply_desired_node (Materializer := materializer scope) desired fact event).
Proof. cbn. untouched. Qed.

Lemma untouched_sweep node generation :
  calm rest (sweep_absent_bootstrap_node (Materializer := materializer scope) node generation).
Proof. cbn. untouched. Qed.

Lemma untouched_purge change epoch :
  calm rest (apply_purge (Materializer := materializer scope) change epoch).
Proof. cbn. untouched. Qed.

Lemma untouched_recover : calm rest (recover_startup_inner (Materializer := materializer scope)).
Proof. cbn. untouched. Qed.

#[local] Hint Resolve untouched_desired untouched_sweep untouched_purge untouched_recover : calms.

Lemma untouched_sync surface : calm rest (sync scope profile config surface).
Proof. unfold sync. untouched. Qed.

Lemma untouched_handoff id : calm rest (Engine.complete_rebaseline_handoff scope profile id).
Proof. untouched. Qed.

End Engine.

(** ** At most one snapshot *)

Section Spending.

Context {F : Type} (library : Z).

(** A snapshot is requested under a durable claim. *)
Definition claimed (p : Store * request) : Prop :=
  is_create p = true ->
  exists c, rebaseline_candidates p.1 !! library = Some c /\ Candidate.state c = CreateClaim.

(** [m] requests at most [k] snapshots, each under a claim. *)
Definition spends {A} (k : nat) (m : M F A) (w : World F) : Prop :=
  exists l, sent (m w).1 = sent w ++ l /\ (creates l <= k)%nat /\ Forall claimed l.

Lemma spends_none {A} (m : M F A) w :
  calm (at_rest (fun _ => tt) tt (sent w)) m -> spends 0 m w.
Proof.
  intros Hm. destruct (Hm w) as [_ (l & Hs & Hl)].
  { split; [done|]. exists []. by rewrite app_nil_r. }
  exists l. split_and!; [done|lia|]. rewrite Forall_forall. intros p Hp Hc. exfalso.
  unfold creates in Hl. apply nil_length_inv in Hl.
  assert (p ∈ List.filter is_create l) as Hin.
  { apply list_elem_of_In, List.filter_In. split; [by apply list_elem_of_In|done]. }
  rewrite Hl in Hin. by apply elem_of_nil in Hin.
Qed.

Lemma spends_weaken {A} k k' (m : M F A) w : (k <= k')%nat -> spends k m w -> spends k' m w.
Proof. intros Hk (l & ? & ? & ?). exists l. split_and!; [done|lia|done]. Qed.

Lemma spends_trans (w0 w1 w2 : World F) k k' :
  (exists l, sent w1 = sent w0 ++ l /\ (creates l <= k)%nat /\ Forall claimed l) ->
  (exists l, sent w2 = sent w1 ++ l /\ (creates l <= k')%nat /\ Forall claimed l) ->
  exists l, sent w2 = sent w0 ++ l /\ (creates l <= k + k')%nat /\ Forall claimed l.
Proof.
  intros (l & H1 & ? & ?) (l' & H2 & ? & ?). exists (l ++ l').
  rewrite H2, H1, creates_app, Forall_app, app_assoc. split_and!; [done|lia|done..].
Qed.

Lemma spends_bind {A B} k k' (m : M F A) (f : A -> M F B) w :
  spends k m w -> (forall a w1, m w = (w1, Ok a) -> spends k' (f a) w1) ->
  spends (k + k') (bind m f) w.
Proof.
  intros Hm Hf. unfold spends, bind in *. destruct (m w) as [w1 [a|e]] eqn:H; cbn in *.
  - eapply spends_trans; [exact Hm|]. by apply (Hf a).
  - destruct Hm as (l & ? & ? & ?). exists l. split_and!; [done|lia|done].
Qed.

Lemma spends_inspecting {A B} k k' (m : M F A) (f : result A ClientSyncError -> M F B) w :
  spends k m w -> (forall r w1, spends k' (f r) w1) -> spends (k + k') (inspecting m f) w.
Proof.
  intros Hm Hf. unfold spends, inspecting in *. destruct (m w) as [w1 r] eqn:H; cbn in *.
  eapply spends_trans; [exact Hm|]. apply (Hf r).
Qed.

End Spending.

Section Coordinator.

Context {F : Type} `{U : Unicode} `{E : Env} `{R : SyncRemote} `{Sn : SnapshotRemote}
  `{L : LocalReplica F}.
Context (scope : ReplicaScope) (profile : option Z) (config : EngineConfig.t) (page_limit : Z).

Notation lib := (library_id scope).

(** One call of the coordinator over the whole engine. *)
Definition converge : M F ConvergenceOutcome.t :=
  Coordinator.run_convergence_once scope profile config page_limit (Mat := materializer scope).

Notation silent base := (at_rest (F:=F) (fun _ => tt) tt base).

Lemma silent_pages fuel d base : calm (silent base) (Applier.fetch_pages scope page_limit fuel d).
Proof.
  induction fuel as [|fuel IH]; cbn [Applier.fetch_pages]; untouched.
Qed.

#[local] Hint Resolve silent_pages : calms.

Lemma silent_apply d base : calm (silent base) (Coordinator.apply_and_handoff (F:=F) scope profile page_limit d).
Proof. untouched. Qed.

Lemma silent_sync surface base : calm (silent base) (sync scope profile config surface).
Proof.
  intros w [_ Hs]. destruct (untouched_sync scope profile config (rebaseline_candidates (store w)) base surface w).
  - by split.
  - by split.
Qed.

Lemma claim_writes claim now s s' id :
  Candidates.claim_rebaseline_snapshot_creation scope claim now s = Ok (s', id) ->
  exists c, rebaseline_candidates s' !! lib = Some c /\ Candidate.state c = CreateClaim.
Proof.
  intros H. unfold Candidates.claim_rebaseline_snapshot_creation, Candidates.put_candidate in H.
  repeat tx_step H. injection H as <- _. cbn. rewrite lookup_insert_eq. eauto.
Qed.

Lemma spends_create w :
  spends lib 1 (Coordinator.create_apply_and_handoff (F:=F) scope profile page_limit) w.
Proof.
  unfold Coordinator.create_apply_and_handoff.
  apply (spends_bind lib 0 1); [apply spends_none; untouched|]. intros fresh w1 _.
  apply (spends_bind lib 0 1); [apply spends_none; untouched|]. intros claim w2 Hclaim.
  apply (spends_bind lib 1 0).
  - eexists. split; [done|]. split; [done|]. repeat constructor. intros _. cbn.
    apply call_ok in Hclaim as (s' & Hclaim & ->). by apply claim_writes in Hclaim.
  - intros answer w3 _. apply spends_none. untouched.
Qed.

Lemma silent_resume c base :
  calm (silent base) (Coordinator.resume_candidate (F:=F) scope profile page_limit c).
Proof. unfold Coordinator.resume_candidate. apply silent_apply. Qed.

Lemma silent_handoff id e r base :
  calm (silent base) (Coordinator.complete_handoff (F:=F) scope profile id e r).
Proof. untouched. Qed.

Lemma spends_converge w : spends lib 1 converge w.
Proof.
  unfold converge, Coordinator.run_convergence_once.
  apply (spends_bind lib 0 1); [apply spends_none; untouched|]. intros [c|] w1 _.
  { destruct (Candidate.state c); try apply spends_create.
    all: apply (spends_weaken lib 0); [lia|]. all: apply spends_none, silent_resume. }
  apply (spends_bind lib 0 1); [apply spends_none; untouched|]. intros [pending|] w2 _.
  - apply (spends_inspecting lib 0 1); [apply spends_none, silent_handoff|].
    intros [out|e] w3; [apply (spends_weaken lib 0); [lia|]; apply spends_none; untouched|].
    case_match; [apply spends_create|]. apply (spends_weaken lib 0); [lia|].
    apply spends_none. untouched.
  - apply (spends_bind lib 0 1); [apply spends_none, silent_sync|]. intros out w3 _.
    destruct out; try apply spends_create.
    all: apply (spends_weaken lib 0); [lia|]; apply spends_none; untouched.
Qed.

(** With a snapshot being fetched nothing new is created. *)
Lemma spends_resume w c :
  rebaseline_candidates (store w) !! lib = Some c -> Candidate.state c <> CreateClaim ->
  spends lib 0 converge w.
Proof.
  intros Hc Hs. unfold converge, Coordinator.run_convergence_once.
  apply (spends_bind lib 0 0); [apply spends_none; untouched|]. intros found w1 Hr.
  apply read_ok in Hr as [Hr ->]. unfold Candidates.rebaseline_candidate in Hr. rewrite Hc in Hr.
  apply decode_optional_ok in Hr as ->. apply spends_none.
  destruct (Candidate.state c); [apply silent_resume..|done].
Qed.

(** C30: One call of the recovery coordinator requests at most one snapshot,
    whatever fails on the way and whatever the server answers; the request leaves
    only after a claim for it is durable; and while a snapshot is being fetched or
    waits to be activated no other one is requested. *)
Theorem one_snapshot_per_run w :
  exists l, sent (converge w).1 = sent w ++ l /\ (creates l <= 1)%nat /\ Forall (claimed lib) l
    /\ forall c, rebaseline_candidates (store w) !! lib = Some c ->
         Candidate.state c <> CreateClaim -> creates l = 0%nat.
Proof.
  destruct (spends_converge w) as (l & Hl & Hk & Hc). exists l. split_and!; try done.
  intros c H Hs. destruct (spends_resume w c H Hs) as (l' & Hl' & Hk' & _).
  rewrite Hl in Hl'. apply (inj (app (sent w))) in Hl' as ->. lia.
Qed.

(** ** The fence around a snapshot *)

(** The feed is well formed, and neither a page nor a bootstrap is in hand. *)
Definition idle (w : World F) : Prop :=
  exists f, abs lib (store w) = Some f /\ wf lib f /\ paging f = None /\ boot f = None.

(** The feed is well formed, and idle while a snapshot is being created, fetched
    or handed off. *)
Definition fenced (w : World F) : Prop :=
  exists f, abs lib (store w) = Some f /\ wf lib f
    /\ (rebaseline_candidates (store w) !! lib <> None \/ handoff f <> None ->
        paging f = None /\ boot f = None).

Lemma idle_fenced w : idle w -> fenced w.
Proof. intros (f & Hf & W & Hp & Hb). by exists f. Qed.

Lemma idle_rest {A} (m : M F A) :
  (forall v base, calm (at_rest (abs lib) v base) m) -> calm idle m.
Proof.
  intros Hm w (f & Hf & H). destruct (Hm (Some f) (sent w) w) as [Hv _].
  { split; [done|]. exists []. by rewrite app_nil_r. }
  by exists f.
Qed.

Lemma idle_pages fuel d : calm idle (Applier.fetch_pages (F:=F) scope page_limit fuel d).
Proof.
  apply idle_rest. intros v base.
  induction fuel as [|fuel IH]; cbn [Applier.fetch_pages]; untouched.
Qed.

(** The feed after an activation. *)
Lemma activate_abs d c nodes fresh now s s' f :
  Candidates.activate_tx scope d c nodes fresh now s = Ok (s', tt) ->
  rebaseline_candidates s !! lib = Some c ->
  Forall (fun n => LocalNode.library_id n = lib) nodes ->
  NoDup (map LocalNode.node_id nodes) -> abs lib s = Some f ->
  Boundary.resume_sequence (Descriptor.boundary d) <= i64_max
  /\ abs lib s' = Some (mk_feed (epoch f) (applied f) (acked f) (paging f) (acking f) (boot f)
       (Some (Boundary.journal_epoch (Descriptor.boundary d),
              Boundary.resume_sequence (Descriptor.boundary d))) true).
Proof.
  intros H Hc Hl Hd Hf.
  apply activate_tx_ok in H as (m & o & cs & r & root & _ & _ & _ & _ & Hr & _ & _ & Hmax & ->); [|done..].
  split; [done|]. unfold abs, abs_page in *. cbn. rewrite Hr in Hf. injection Hf as <-.
  by rewrite !lookup_insert_eq.
Qed.

Lemma idle_activate d : calm idle (Candidates.activate_rebaseline_candidate (F:=F) scope d).
Proof.
  intros w (f & Hf & W & Hp & Hb). pose proof (activate_cases scope d w) as H. cbn zeta in H.
  destruct (Candidates.activate_rebaseline_candidate scope d w) as [w' r]. cbn [fst].
  destruct H as (_ & _ & [[Hs _]|(c & old & nodes & fresh & now & Hc & _ & _ & Hn & H)]);
    [exists f; by rewrite Hs|].
  apply rebaseline_local_nodes_ok in Hn as (Hd & -> & _).
  eapply activate_abs in H as [Hmax H]; [|done| |by rewrite mirrored_ids|done].
  2: { apply Forall_forall. intros n Hn. by apply list_elem_of_fmap in Hn as (n' & -> & _). }
  eexists. split; [exact H|]. destruct W as [Wc Wq Wp Wa Wr Wb Wh].
  split; [|done]. split; cbn; try done; [by rewrite Hp|by intros e r' [= <- <-]].
Qed.

Lemma idle_complete_handoff id :
  calm idle (Engine.complete_rebaseline_handoff (F:=F) scope profile id).
Proof.
  unfold Engine.complete_rebaseline_handoff, Engine.lib.
  apply calm_bind; [apply idle_rest; intros; untouched|intros _].
  apply calm_bind; [apply idle_rest; intros; untouched|intros [pending|]; [|apply calm_ret]].
  apply calm_bind; [apply calm_reject|intros _].
  apply calm_bind; [apply idle_rest; intros; untouched|intros answer].
  apply calm_bind; [apply calm_lift|intros confirmation].
  do 3 (apply calm_bind; [apply calm_reject|intros _]).
  apply calm_bind; [apply idle_rest; intros; untouched|intros _].
  intros w (f & Hf & W & Hp & Hb). unfold call. destruct (db_fault (tick w)); try by exists f.
  all: destruct (Bootstrap.finalize_rebaseline_handoff _ _ _ _) as [[s' o]|e] eqn:H; [|by exists f].
  all: apply finalize_step in H as [[Hs _]|(f' & e & r & Hf' & Hh & Hs)];
    [exists f; cbn; by rewrite Hs|].
  all: rewrite Hf in Hf'; injection Hf' as <-; eexists; split; [exact Hs|]; split; [|done].
  all: by apply (step_wf (fun _ => True) lib f); [|apply finish_handoff].
Qed.

Lemma idle_send {A} q (answer : nat -> result A RemoteError) : calm idle (send q answer).
Proof. by intros w. Qed.

#[local] Hint Extern 2 (calm idle (read _)) => apply idle_rest; intros; untouched : calms.
#[local] Hint Extern 2 (calm idle uuid) => apply idle_rest; intros; untouched : calms.
#[local] Hint Extern 2 (calm idle (call _)) => apply idle_rest; intros; untouched : calms.
#[local] Hint Resolve idle_send idle_pages idle_activate idle_complete_handoff : calms.

Lemma idle_apply d :
  calm idle (Coordinator.apply_and_handoff (F:=F) scope profile page_limit d).
Proof.
  unfold Coordinator.apply_and_handoff, Coordinator.complete_handoff, Applier.apply. calm.
Qed.

#[local] Hint Resolve idle_apply : calms.

Lemma idle_create : calm idle (Coordinator.create_apply_and_handoff (F:=F) scope profile page_limit).
Proof. unfold Coordinator.create_apply_and_handoff, Coordinator.release_claim. calm. Qed.

(** Incremental synchronisation outside recovery stays outside it, and asks for a
    rebaseline only when idle. *)
Lemma sync_outside w f w' r :
  abs lib (store w) = Some f -> wf lib f -> handoff f = None ->
  rebaseline_candidates (store w) !! lib = None -> sync scope profile config true w = (w', r) ->
  fenced w' /\ (r = Ok SyncOutcome.RebaselineRequired -> idle w').
Proof.
  intros Hf W Hh Hc Hsync.
  destruct (sync_synced scope profile config (fun _ => True) (fun _ _ _ _ => I) true _ w eq_refl)
    as [[Hr _] Hout].
  destruct (untouched_sync scope profile config (rebaseline_candidates (store w)) (sent w) true w)
    as [Hcand _]; [split; [done|]; exists []; by rewrite app_nil_r|].
  rewrite Hsync in *. cbn [fst snd] in *. unfold view in *. rewrite Hf in Hr.
  assert (exists g, abs lib (store w') = Some g) as [g Hg].
  { revert Hr. generalize (abs lib (store w')) as o'. intros o' Hr.
    apply rtc_inv_r in Hr as [<-|(o & _ & [f' g' _])]; eauto. }
  rewrite Hg in Hr, Hout. pose proof (rtc_wf _ _ _ _ Hr W) as Wg.
  destruct (rtc_monotone _ _ _ _ Hr W Hh) as (Hhg & _). split.
  - exists g. split_and!; try done. rewrite Hcand. intros [|]; done.
  - intros ->. destruct (Hout _ eq_refl) as [_ Hs]. destruct (Hs eq_refl g eq_refl) as [Hb Hp].
    exists g. split_and!; try done. destruct Hp as [Hp|Hp]; [by apply (wf_rooted _ _ Wg)|done].
Qed.

Lemma handoff_is s f :
  abs lib s = Some f ->
  handoff f = (fun h => (HandoffRecord.journal_epoch h, HandoffRecord.resume_sequence h))
                <$> Bootstrap.pending_rebaseline_handoff lib s.
Proof. unfold abs. destruct (replicas s !! lib); [|done]. by intros [= <-]. Qed.

Lemma fenced_converge : calm fenced converge.
Proof.
  intros w Hw. unfold converge, Coordinator.run_convergence_once, bind at 1.
  destruct (read (Candidates.rebaseline_candidate lib) w) as [w1 [found|e]] eqn:Hr.
  2: { unfold read in Hr. by injection Hr as <- _. }
  apply read_ok in Hr as [Hr ->]. apply decode_optional_ok in Hr as ->.
  destruct Hw as (f & Hf & W & Hfence).
  destruct (rebaseline_candidates (store w) !! lib) as [c|] eqn:Hc.
  { assert (idle (next w)) as Hi by (exists f; destruct Hfence; auto).
    apply idle_fenced. destruct (Candidate.state c); [apply idle_apply..|apply idle_create]; done. }
  unfold bind at 1.
  destruct (read _ (next w)) as [w2 [pending|e]] eqn:Hr.
  2: { unfold read in Hr. injection Hr as <- _. exists f. split_and!; try done. cbn. by rewrite Hc. }
  apply read_ok in Hr as [[= <-] ->]. cbn [store next].
  pose proof (handoff_is _ _ Hf) as Hh.
  destruct (Bootstrap.pending_rebaseline_handoff lib (store w)) as [h|].
  - assert (idle (next (next w))) as Hi.
    { exists f. destruct Hfence as [? ?]; [right; by rewrite Hh|done]. }
    apply idle_fenced. revert Hi. generalize (next (next w)). intros w0 Hi.
    pose proof idle_create. unfold Coordinator.complete_handoff. revert w0 Hi.
    match goal with |- forall w0, idle w0 -> idle (?m w0).1 => change (calm idle m) end. calm.
  - unfold bind. destruct (Engine.synchronize _ _ _ _ _) as [w3 r] eqn:Hs.
    apply (sync_outside _ f) in Hs as [Hw3 Hreb]; [|done..].
    destruct r as [out|e]; [|done]. destruct out; try done. apply idle_fenced, idle_create. auto.
Qed.

(** Calls of the coordinator for one library are serialised by its guard; between
    them the folder may be edited and other components may commit. *)
Inductive recovery_history (w : World F) : World F -> Prop :=
| recovery_here : recovery_history w w
| then_converge w' : recovery_history w w' -> recovery_history w (converge w').1
| then_edited w' f : recovery_history w w' -> recovery_history w (mk_World (store w') f (tick w') (sent w'))
| then_other w' s :
    recovery_history w w' -> abs lib s = abs lib (store w') ->
    rebaseline_candidates s !! lib = rebaseline_candidates (store w') !! lib ->
    recovery_history w (mk_World s (files w') (tick w') (sent w')).

(** Throughout the life of a replica under the coordinator the feed
    invariant holds, and from the claim of a snapshot until its handoff is
    finished there is no page and no bootstrap in hand: the cursor is never moved
    by the feed under a snapshot that is about to replace the mirror.  This holds
    across crashes, database faults and any answers of the server. *)
Theorem recovery_fence w w' : fenced w -> recovery_history w w' -> fenced w'.
Proof.
  intros Hw H. induction H as [|w' _ IH|w' f _ IH|w' s _ IH Hs Hc]; [done| |done|].
  - by apply fenced_converge.
  - unfold fenced in *. cbn. by rewrite Hs, Hc.
Qed.

(** ** Convergence *)

Lemma binding_store v base :
  calm (at_rest (F:=F) id v base) (Engine.validate_binding scope profile).
Proof. untouched. Qed.

(** A successful handoff of the marker [h] leaves the cursor at its boundary. *)
Lemma handoff_ok id w w' o f h :
  Engine.complete_rebaseline_handoff scope profile id w = (w', Ok o) ->
  abs lib (store w) = Some f -> rebaseline_applied_handoffs (store w) !! lib = Some h ->
  abs lib (store w') = Some (mk_feed (HandoffRecord.journal_epoch h) (HandoffRecord.resume_sequence h)
    (HandoffRecord.resume_sequence h) (paging f) (acking f) (boot f) None (rooted f)).
Proof.
  intros H Hf Hh. unfold Engine.complete_rebaseline_handoff, Engine.lib in H.
  apply bind_ok in H as (w1 & u & H1 & H).
  assert (store w1 = store w) as Hs1.
  { pose proof (binding_store (store w) (sent w) w) as Hs. rewrite H1 in Hs.
    apply Hs. split; [done|]. exists []. by rewrite app_nil_r. }
  apply bind_ok in H as (w2 & pending & H2 & H). apply read_ok in H2 as [[= <-] ->].
  unfold Bootstrap.pending_rebaseline_handoff in H. rewrite Hs1, Hh in H.
  apply bind_ok in H as (w3 & [] & H3 & H). apply reject_ok in H3 as [_ ->].
  apply bind_ok in H as (w4 & answer & H4 & H). injection H4 as <- <-.
  apply bind_ok in H as (w5 & confirmation & H5 & H). apply lift_ok in H5 as [_ ->].
  do 3 (apply bind_ok in H as (? & [] & H6 & H); apply reject_ok in H6 as [_ ->]).
  apply bind_ok in H as (w6 & [] & H7 & H). unfold check in H7. injection H7 as <- _.
  apply call_ok in H as (s' & H & ->). cbn [store next] in *. rewrite Hs1 in H.
  apply finalize_step in H as [[_ Hn]|(f' & e & r & Hf' & Hh' & Hs)]; [congruence|].
  rewrite Hf in Hf'. injection Hf' as <-. rewrite Hs. unfold abs in Hf.
  destruct (replicas (store w) !! lib); [|done]. injection Hf as <-. cbn in *.
  rewrite Hh in Hh'. by injection Hh' as <- <-.
Qed.

(** An applied snapshot has its marker. *)
Lemma apply_marker d w w' o :
  Applier.apply (F:=F) scope page_limit d w = (w', Ok o) ->
  exists h, rebaseline_applied_handoffs (store w') !! lib = Some h
    /\ HandoffRecord.journal_epoch h = Boundary.journal_epoch (Descriptor.boundary d)
    /\ HandoffRecord.resume_sequence h = Boundary.resume_sequence (Descriptor.boundary d).
Proof.
  intros H. unfold Applier.apply in H.
  do 2 (apply bind_ok in H as (? & [] & H1 & H); apply reject_ok in H1 as [_ ->]).
  unfold inspecting in H. destruct (read _ w) as [w1 r] eqn:Hr.
  assert (r = Ok true \/ bind (call (Candidates.begin_rebaseline_candidate scope d)) (fun _ =>
            bind (Applier.fetch_pages scope page_limit (Applier.page_fuel d) d) (fun _ =>
            bind (Candidates.activate_rebaseline_candidate scope d) (fun _ => ret Applied))) w1
          = (w', Ok o)) as [->|Hrun].
  { destruct r as [[|]|[]]; try done; auto. }
  - injection H as <- _. apply read_ok in Hr as [Hr ->]. cbn [store next].
    unfold Candidates.rebaseline_is_applied in Hr.
    destruct (rebaseline_applied_handoffs (store w) !! lib) as [h|]; [|done]. exists h. split; [done|].
    case_bool_decide; [|done]. cbn in Hr.
    destruct (sequence_i64 _) as [e|] eqn:He in Hr; [|done]. cbn in Hr.
    case_bool_decide; [|done]. cbn in Hr.
    destruct (sequence_i64 (Boundary.resume_sequence _)) as [q|] eqn:Hq; [|done]. cbn in Hr.
    case_bool_decide; [|done]. apply u64_i64_ok in He as [-> _], Hq as [-> _]. done.
  - apply bind_ok in Hrun as (w2 & u & _ & Hrun). apply bind_ok in Hrun as (w3 & b & _ & Hrun).
    apply bind_ok in Hrun as (w4 & [] & Ha & Hrun). injection Hrun as <- _.
    apply activate_activated in Ha as (_ & _ & c & _ & Ha). rewrite (activated_marker _ _ _ _ _ Ha).
    rewrite lookup_insert_eq. by eexists.
Qed.

(** [RebaselineConverged] names the marker that was handed off. *)
Lemma complete_converged id e r w w' out f h :
  Coordinator.complete_handoff (F:=F) scope profile id e r w = (w', Ok out) ->
  abs lib (store w) = Some f -> rebaseline_applied_handoffs (store w) !! lib = Some h ->
  HandoffRecord.journal_epoch h = e -> HandoffRecord.resume_sequence h = r ->
  out = ConvergenceOutcome.RebaselineConverged id (Boundary.mk e r)
  /\ exists g, abs lib (store w') = Some g /\ epoch g = e /\ applied g = r /\ acked g = r
       /\ handoff g = None.
Proof.
  intros H Hf Hh <- <-. unfold Coordinator.complete_handoff in H.
  apply bind_ok in H as (w1 & o & H1 & H). injection H as <- <-. split; [done|].
  eapply handoff_ok in H1; [|done..]. by eexists.
Qed.

(** The outcome [RebaselineConverged] means that the cursor is at the boundary. *)
Definition at_boundary (out : ConvergenceOutcome.t) (w : World F) : Prop :=
  forall id b, out = ConvergenceOutcome.RebaselineConverged id b ->
  exists g, abs lib (store w) = Some g /\ epoch g = Boundary.journal_epoch b
    /\ applied g = Boundary.resume_sequence b /\ acked g = Boundary.resume_sequence b
    /\ handoff g = None.

Lemma apply_converged d w w' out :
  idle w -> Coordinator.apply_and_handoff (F:=F) scope profile page_limit d w = (w', Ok out) ->
  at_boundary out w'.
Proof.
  intros Hi H. unfold Coordinator.apply_and_handoff in H.
  apply bind_ok in H as (? & [] & H1 & H). apply reject_ok in H1 as [_ ->].
  apply bind_ok in H as (w1 & o & H1 & H).
  assert (idle w1) as (f & Hf & _).
  { assert (calm idle (Applier.apply (F:=F) scope page_limit d)) as Hc by (unfold Applier.apply; calm).
    specialize (Hc w Hi). by rewrite H1 in Hc. }
  apply apply_marker in H1 as (h & Hh & He & Hr). unfold inspecting in H.
  destruct (Coordinator.complete_handoff _ _ _ _ _ w1) as [w2 [out'|e]] eqn:Hd.
  - injection H as <- <-. eapply complete_converged in Hd as [-> Hg]; [|done..].
    intros id b [= <- <-]. exact Hg.
  - case_match; [|done]. by injection H as <- <-.
Qed.

Lemma create_converged w w' out :
  idle w -> Coordinator.create_apply_and_handoff (F:=F) scope profile page_limit w = (w', Ok out) ->
  at_boundary out w'.
Proof.
  intros Hi H. unfold Coordinator.create_apply_and_handoff in H.
  apply bind_ok in H as (w1 & fresh & H1 & H).
  apply bind_ok in H as (w2 & claim & H2 & H).
  apply bind_ok in H as (w3 & answer & H3 & H). unfold Coordinator.release_claim in H.
  assert (idle w3) as Hi3.
  { assert (calm idle (bind uuid (fun fresh =>
              bind (call (Candidates.claim_rebaseline_snapshot_creation scope fresh)) (fun _ =>
              send SentCreateSnapshot (fun t => create_snapshot t scope))))) as Hc by calm.
    specialize (Hc w Hi). unfold bind in Hc. by rewrite H1, H2, H3 in Hc. }
  destruct answer as [d|error].
  - do 2 (case_match; [by apply bind_ok in H as (? & ? & _ & H)|]).
    apply bind_ok in H as (w4 & u & Hp & H). eapply apply_converged; [|done].
    assert (calm idle (call (F:=F)
      (Candidates.promote_rebaseline_snapshot_creation_claim scope claim d))) as Hc by calm.
    specialize (Hc w3 Hi3). by rewrite Hp in Hc.
  - apply bind_ok in H as (w4 & u & H4 & H). case_match; [|done]. by injection H as <- <-.
Qed.

(** When the coordinator reports that a rebaseline converged, the replica is
    at exactly the boundary it reports: the journal epoch and both sequences are
    those of the snapshot, and no handoff is left pending. *)
Theorem converged_at_boundary w w' id b :
  fenced w -> converge w = (w', Ok (ConvergenceOutcome.RebaselineConverged id b)) ->
  exists g, abs lib (store w') = Some g /\ epoch g = Boundary.journal_epoch b
    /\ applied g = Boundary.resume_sequence b /\ acked g = Boundary.resume_sequence b
    /\ handoff g = None.
Proof.
  intros (f & Hf & W & Hfence) H. unfold converge, Coordinator.run_convergence_once in H.
  apply bind_ok in H as (w1 & found & H1 & H). apply read_ok in H1 as [H1 ->].
  apply decode_optional_ok in H1 as ->.
  destruct (rebaseline_candidates (store w) !! lib) as [c|] eqn:Hc.
  { assert (idle (next w)) as Hi by (exists f; destruct Hfence; auto).
    destruct (Candidate.state c);
      [eapply apply_converged in H|eapply apply_converged in H|eapply create_converged in H]; eauto. }
  apply bind_ok in H as (w2 & pending & H2 & H). apply read_ok in H2 as [[= <-] ->].
  cbn [store next] in H. unfold Bootstrap.pending_rebaseline_handoff in H.
  destruct (rebaseline_applied_handoffs (store w) !! lib) as [h|] eqn:Hh.
  - assert (handoff f <> None) as Hhf.
    { rewrite (handoff_is _ _ Hf). unfold Bootstrap.pending_rebaseline_handoff. by rewrite Hh. }
    assert (idle (next (next w))) as Hi by (exists f; destruct Hfence; auto).
    unfold inspecting in H.
    destruct (Coordinator.complete_handoff _ _ _ _ _ _) as [w3 [out|e]] eqn:Hd.
    + injection H as <- ->. eapply complete_converged in Hd as [[= -> ->] Hg]; done.
    + case_match; [|done]. eapply create_converged in H; [by eapply H|].
      assert (calm idle (Coordinator.complete_handoff (F:=F) scope profile
                (HandoffRecord.snapshot_id h) (HandoffRecord.journal_epoch h)
                (HandoffRecord.resume_sequence h))) as Hcalm
        by (unfold Coordinator.complete_handoff; calm).
      specialize (Hcalm _ Hi). by rewrite Hd in Hcalm.
  - apply bind_ok in H as (w3 & out & H3 & H).
    assert (handoff f = None) as Hhf.
    { rewrite (handoff_is _ _ Hf). unfold Bootstrap.pending_rebaseline_handoff. by rewrite Hh. }
    apply (sync_outside _ f) in H3 as [_ Hreb]; [|done..].
    destruct out; try done. eapply create_converged in H; [by eapply H|auto].
Qed.

End Coordinator.
