(* ===== verification/CycleFrame.v ===== *)
(** * The inbound half of a cycle and the outbound tables

    What a cycle does before it calls the submission engine: it reads, writes
    files, talks to the server and writes its own tables.  Of the outbound tables
    it only changes states of intents, by two statements, and of the observer's
    issues it only adds some.  An invariant that
    survives those is an invariant of whole cycles as soon as the submission
    engine keeps it.  The life of a replica is a history of cycles, observations,
    resolutions, edits and foreign commits. *)

From S2P Require Import Prelude Vocabulary Models Rebaseline SyncTypes ClientPaths ClientStore.
From S2P Require Import FeedProtocol StoreFacts SyncWorld Candidates SnapshotFacts Inbound Cycle.
From S2P Require Import InboundFacts Disk OutboundTypes OutboundStore Submission Conflicts Materialize.
From S2P Require Import MaterializeFacts EditFacts SyncFacts ConvergenceFacts.

Definition outbound_tables (s : Store) :=
  (outbound_intents s, outbound_submission_results s, outbound_upload_sessions s,
   outbound_mutation_requests s, observation_issues s).

(** The requests of the inbound half. *)
Definition inbound_request (q : request) : bool :=
  match q with
  | SentMutation _ | SentCreateUpload _ _ _ _ | SentGetUpload _ | SentAppendChunk _ _ _
  | SentCompleteUpload _ => false
  | _ => true
  end.

Class Outward {F : Type} `{U : Unicode} `{E : Env} (P : World F -> Prop) : Prop := {
  outward_still : forall w w', store w' = store w -> sent w' = sent w -> P w -> P w';
  outward_send : forall w w' q, inbound_request q = true -> store w' = store w ->
    sent w' = sent w ++ [(store w, q)] -> P w -> P w';
  outward_call : forall A (t : tx A), keeps outbound_tables t -> calm P (call t);
  outward_rebase : forall library node target,
    calm P (call (Outbound.require_rebase library node target));
  outward_reconcile : forall library,
    calm P (call (Outbound.reconcile_server_applied_intents library));
  outward_issues : forall id library node path kind,
    calm P (call (Ops.insert_observation_issue id library node path kind))
}.

Section Outward.

Context {F : Type} `{U : Unicode} `{E : Env} (P : World F -> Prop) `{HP : !Outward P}.

Lemma outward_read {A} (q : Store -> result A ClientSyncError) : calm P (read q).
Proof. intros w Hw. by apply (outward_still w). Qed.

Lemma outward_uuid : calm P uuid.
Proof. intros w Hw. by apply (outward_still w). Qed.

Lemma outward_uuids : calm P Candidates.uuids.
Proof. intros w Hw. by apply (outward_still w). Qed.

Lemma outward_check point : calm P (check point).
Proof. intros w Hw. by apply (outward_still w). Qed.

Lemma outward_fs {A} (op : F -> F * result A ClientSyncError) : calm P (fs op).
Proof.
  intros w Hw. unfold fs. destruct (op (files w)) as [f r]. by apply (outward_still w).
Qed.

Lemma outward_answered {A} q (answer : nat -> result A RemoteError) :
  inbound_request q = true -> calm P (send q answer).
Proof. intros Hq w Hw. by apply (outward_send w _ q). Qed.

Lemma outward_answered_or_fail {A} q (answer : nat -> result A RemoteError) :
  inbound_request q = true -> calm P (send_or_fail q answer).
Proof. intros Hq w Hw. by apply (outward_send w _ q). Qed.

End Outward.

Ltac side := solve [apply _ | done].

#[export] Hint Extern 1 (calm _ (read _)) => (apply outward_read; side) : calms.
#[export] Hint Extern 1 (calm _ uuid) => (apply outward_uuid; side) : calms.
#[export] Hint Extern 1 (calm _ Candidates.uuids) => (apply outward_uuids; side) : calms.
#[export] Hint Extern 1 (calm _ (check _)) => (apply outward_check; side) : calms.
#[export] Hint Extern 1 (calm _ (fs _)) => (apply outward_fs; side) : calms.
#[export] Hint Extern 1 (calm _ (call (Outbound.require_rebase _ _ _))) =>
  (apply outward_rebase; side) : calms.
#[export] Hint Extern 1 (calm _ (call (Outbound.reconcile_server_applied_intents _))) =>
  (apply outward_reconcile; side) : calms.
#[export] Hint Extern 1 (calm _ (call (Ops.insert_observation_issue _ _ _ _ _))) =>
  (apply outward_issues; side) : calms.
#[export] Hint Extern 1 (calm _ (send _ _)) => (apply outward_answered; side) : calms.
#[export] Hint Extern 1 (calm _ (send_or_fail _ _)) => (apply outward_answered_or_fail; side) : calms.

Ltac outward := walk ltac:(apply outward_call).

Section Cycle.

Context {F : Type} `{U : Unicode} `{E : Env} `{R : SyncRemote} `{D : SnapshotRemote}
  `{W : UploadRemote} `{L : LocalReplica F} `{C : ContentReader F} `{I : Identifiers} `{H : Sha}
  `{S : Serde}.
Context (scope : ReplicaScope) (profile : option Z) (config : EngineConfig.t) (page_limit : Z).
Context (P : World F -> Prop) `{HP : !Outward P}.

Lemma outward_status l st : calm P (Calls.set_status l st).
Proof. outward. Qed.

Lemma outward_issue l nd q g k e : calm P (Calls.persist_issue l nd q g k e).
Proof. outward. Qed.

#[local] Hint Resolve outward_status outward_issue : calms.

Lemma outward_block {A} kind node fact msg :
  calm P (Folder.block (A:=A) scope kind node fact msg).
Proof. outward. Qed.

#[local] Hint Resolve outward_block : calms.

Lemma outward_desired desired fact event :
  calm P (apply_desired_node (Materializer := materializer scope) desired fact event).
Proof. cbn. outward. Qed.

Lemma outward_sweep node generation :
  calm P (sweep_absent_bootstrap_node (Materializer := materializer scope) node generation).
Proof. cbn. outward. Qed.

Lemma outward_purge change epoch :
  calm P (apply_purge (Materializer := materializer scope) change epoch).
Proof. cbn. outward. Qed.

Lemma outward_recover : calm P (recover_startup_inner (Materializer := materializer scope)).
Proof. cbn. outward. Qed.

#[local] Hint Resolve outward_desired outward_sweep outward_purge outward_recover : calms.

Lemma outward_sync surface : calm P (sync scope profile config surface).
Proof. unfold sync. outward. Qed.

Lemma tables_classify library epoch sequence now fresh intents :
  keeps outbound_tables (Candidates.classify_intents library epoch sequence now fresh intents).
Proof.
  revert fresh. induction intents as [|p intents IH]; intros fresh;
    cbn [Candidates.classify_intents]; outward.
Qed.

#[local] Hint Resolve tables_classify : frames.

Lemma outward_pages fuel d : calm P (Applier.fetch_pages scope page_limit fuel d).
Proof. induction fuel as [|fuel IH]; cbn [Applier.fetch_pages]; outward. Qed.

#[local] Hint Resolve outward_pages outward_sync : calms.

(** The whole cycle, given the submission engine. *)
Lemma outward_cycle observed_at :
  calm P (Submission.process_next_ready_intent scope) ->
  calm P (sync_cycle (Mat := materializer scope) scope profile config page_limit observed_at).
Proof.
  intros Hp. unfold sync_cycle, Runner.run_once.
  assert (forall inbound, calm P (Runner.outbound_step scope
            (Submission.process_next_ready_intent scope) inbound)) as Ho.
  { intros inbound. unfold Runner.outbound_step. outward. }
  outward.
Qed.

End Cycle.

(** ** The life of a replica *)

Section History.

Context {F : Type} `{U : Unicode} `{E : Env} `{R : SyncRemote} `{D : SnapshotRemote}
  `{W : UploadRemote} `{L : LocalReplica F} `{C : ContentReader F} `{I : Identifiers} `{H : Sha}
  `{S : Serde}.
Context (scope : ReplicaScope) (profile : option Z) (config : EngineConfig.t) (page_limit : Z).

Notation cycle := (sync_cycle (Mat := materializer scope) scope profile config page_limit).

(** What the components of the client do to a replica: whole cycles, the calls of
    the observer, resolutions by the user, edits of the folder and the passing of
    time, and commits of other components, which respect [keep]. *)
Inductive client_history (keep : Store -> Store -> Prop) (w : World F) : World F -> Prop :=
| client_here : client_history keep w w
| client_cycle w' observed_at :
    client_history keep w w' -> client_history keep w (cycle observed_at w').1
| client_upsert w' intent :
    client_history keep w w' ->
    client_history keep w (OutboundStore.upsert_outbound_intent_with_result intent w').1
| client_move w' source replacement :
    client_history keep w w' ->
    client_history keep w (OutboundStore.move_pending_create source replacement w').1
| client_cancel_delete w' node :
    client_history keep w w' ->
    client_history keep w (call (OutboundStore.cancel_pending_delete (library_id scope) node) w').1
| client_cancel_create w' path :
    client_history keep w w' ->
    client_history keep w (call (OutboundStore.cancel_pending_create (library_id scope) path) w').1
| client_block_delete w' node :
    client_history keep w w' ->
    client_history keep w
      (call (OutboundStore.block_unsubmitted_delete (library_id scope) node) w').1
| client_resolve w' conflict expected resolution duplicate :
    client_history keep w w' ->
    client_history keep w
      (Conflicts.resolve_conflict_inner conflict expected resolution duplicate w').1
| client_edit w' f t :
    client_history keep w w' -> client_history keep w (mk_World (store w') f t (sent w'))
| client_commit w' s :
    client_history keep w w' -> keep (store w') s ->
    client_history keep w (mk_World s (files w') (tick w') (sent w')).

(** What every step keeps, a history keeps. *)
Lemma client_invariant keep (P : World F -> Prop) w w' :
  (forall observed_at, calm P (cycle observed_at)) ->
  (forall intent, calm P (OutboundStore.upsert_outbound_intent_with_result intent)) ->
  (forall source intent, calm P (OutboundStore.move_pending_create source intent)) ->
  (forall node, calm P (call (OutboundStore.cancel_pending_delete (library_id scope) node))) ->
  (forall path, calm P (call (OutboundStore.cancel_pending_create (library_id scope) path))) ->
  (forall node, calm P (call (OutboundStore.block_unsubmitted_delete (library_id scope) node))) ->
  (forall c expected r duplicate, calm P (Conflicts.resolve_conflict_inner c expected r duplicate)) ->
  (forall w f t, P w -> P (mk_World (store w) f t (sent w))) ->
  (forall w s, P w -> keep (store w) s -> P (mk_World s (files w) (tick w) (sent w))) ->
  P w -> client_history keep w w' -> P w'.
Proof.
  intros Hc Hu Hm Hd Hcr Hb Hr He Hk Hw Hh.
  induction Hh; [done|by apply Hc|by apply Hu|by apply Hm|by apply Hd|by apply Hcr|by apply Hb
                |by apply Hr|by apply He|by apply Hk].
Qed.

End History.
