(* ===== verification/ObservationFacts.v ===== *)
(** * What the observer writes

    A call of the observer is a sequence of small steps: it records intents that
    describe the folder as it is, on the cursor and the revisions of the mirror,
    withdraws what the folder no longer shows, and writes its own tables.  It
    sends nothing and leaves the folder, the mirror and the cursor alone, so that
    every theorem on the histories of the client covers it. *)

From S2P Require Import Prelude Vocabulary Values Models Requests Rebaseline SyncTypes ClientPaths.
From S2P Require Import ClientStore FeedProtocol StoreFacts SyncWorld Candidates SnapshotFacts.
From S2P Require Import Inbound Cycle InboundFacts Disk OutboundTypes OutboundStore ObservationStore.
From S2P Require Import Watchers Observation Submission Conflicts DiskFacts Materialize.
From S2P Require Import MaterializeFacts EditFacts SyncFacts ConvergenceFacts CycleFrame.

(** ** The observer's own tables *)

(** The store without the tables that only the observer writes. *)
Definition besides_observer (s : Store) : Store :=
  set_observation
    (set_suppressions (set_issues s (local_apply_issues s) []) ∅)
    (observation empty_store).

(** The issues that only a person resolves. *)
Definition lasting (row : ObservationIssueRow) : Prop :=
  observation_resolved_at row = None /\ observation_kind row <> ObservationIssueKind.RootInvalid.

(** A commit to those tables; open issues stay. *)
Definition observer_commit (s s' : Store) : Prop :=
  besides_observer s' = besides_observer s
  /\ forall row, lasting row -> row ∈ observation_issues s -> row ∈ observation_issues s'.

#[export] Instance observer_commit_preorder : PreOrder observer_commit.
Proof.
  split; [by split|]. intros a b c [H1 K1] [H2 K2]. split; [congruence|eauto].
Qed.

Definition own {A} (t : tx A) : Prop :=
  forall now s s' a, t now s = Ok (s', a) -> observer_commit s s'.

Section Own.

Context `{U : Unicode}.

Lemma own_frame {A} (t : tx A) :
  keeps (fun s => (besides_observer s, observation_issues s)) t -> own t.
Proof.
  intros Ht now s s' a Hr. pose proof (Ht _ _ _ _ Hr) as [Hb Hi]%pair_equal_spec.
  split; [done|by rewrite Hi].
Qed.

Lemma own_bind {A B} (m : tx A) (k : A -> tx B) :
  own m -> (forall a, own (k a)) -> own (tx_bind m k).
Proof.
  intros Hm Hk now s s' b Hr. apply tx_bind_ok in Hr as (s1 & a & H1 & H2).
  transitivity s1; [by eapply Hm|by eapply Hk].
Qed.

Lemma own_issue id library node path kind :
  own (Ops.insert_observation_issue id library node path kind).
Proof.
  intros now s s' u Hr. unfold Ops.insert_observation_issue in Hr. repeat tx_step Hr.
  destruct (existsb _ _); [by injection Hr as <- _|]. apply update_ok in Hr as ->.
  split; [done|]. intros r _ Hin. cbn. apply elem_of_app. by left.
Qed.

Lemma own_root_issues library :
  own (ObservationStore.resolve_recovered_root_observation_issues library).
Proof.
  intros now s s' u Hr. unfold ObservationStore.resolve_recovered_root_observation_issues,
    ObservationStore.resolve_rows in Hr. repeat tx_step Hr. apply update_ok in Hr as ->.
  split; [done|]. intros r [_ Hk] Hin. cbn. apply list_elem_of_fmap. exists r. split; [|done].
  rewrite bool_decide_false by done. by rewrite andb_false_r.
Qed.

End Own.

(** ** The steps *)

(** The folder operations of the observer leave the folder as it is. *)
Record steady {F : Type} `{L : LocalReplica F} `{D : DirectoryReader F} (f : F) : Prop := {
  steady_root : (validate_root f).1 = f;
  steady_inspect : forall path, (inspect path f).1 = f;
  steady_collision : forall path, (has_portable_name_collision path f).1 = f;
  steady_symlink : forall path, (is_symlink path f).1 = f;
  steady_names : forall path, (read_dir_names path f).1 = f }.

Section Observed.

Context {F W : Type} `{U : Unicode} `{E : Env} `{T : Monotonic} `{L : LocalReplica F}
  `{D : DirectoryReader F} `{Wt : LocalChangeWatcher W} `{I : Identifiers} `{H : Sha}.
Context (scope : ReplicaScope) (config : ObservationConfig.t)
  (wake : option (nat -> SyncRuntimeWakeResult)).

Notation lib := (library_id scope).
Notation world := (World (Host F W)).

(** What the folder has at a path. *)
Definition found_at (f : F) (path : rstring) (found : option LocalFingerprint.t) : Prop :=
  (inspect path f).2 = Ok found.

(** The node an intent names and the base it names with it. *)
Definition based_on (s : Store) (node revision : option Z) (version : option (option Z)) : Prop :=
  match node with
  | None => revision = None /\ (version = None \/ version = Some None)
  | Some id =>
      exists key row, local_nodes s !! (lib, key) = Some row
        /\ LocalNode.node_id (row_node row) = id
        /\ revision = Some (LocalNode.revision (row_node row))
        /\ (version = None \/ version = Some (LocalNode.current_version_id (row_node row)))
  end.

(** An intent that says what the folder [f] shows, on the state [s] of the mirror. *)
Record describes (f : F) (s : Store) (i : IntentRow) : Prop := {
  described_library : intent_library_id i = lib;
  described_pending : intent_state i = IntentPending;
  described_cursor : exists r, replicas s !! lib = Some r
    /\ intent_base_epoch i = Replica.journal_epoch r
    /\ intent_base_sequence i = Replica.applied_sequence r;
  described_node : based_on s (intent_node_id i) (intent_base_revision i)
                     (Some (intent_base_version_id i));
  described_parent : based_on s (intent_parent_node_id i) (intent_base_parent_revision i) None;
  described_path : found_at f (intent_observed_path i) (intent_fingerprint i);
  described_kind :
    match intent_kind i with
    | OutboundIntentKind.CreateDirectory =>
        intent_node_id i = None
        /\ exists fp, intent_fingerprint i = Some fp
             /\ LocalFingerprint.kind fp = LocalFingerprint.Directory
    | OutboundIntentKind.CreateFile =>
        intent_node_id i = None
        /\ exists fp, intent_fingerprint i = Some fp
             /\ LocalFingerprint.kind fp = LocalFingerprint.File
    | OutboundIntentKind.ModifyFileContent =>
        is_Some (intent_node_id i)
        /\ exists fp, intent_fingerprint i = Some fp
             /\ LocalFingerprint.kind fp = LocalFingerprint.File
    | OutboundIntentKind.RenameNode =>
        is_Some (intent_node_id i) /\ is_Some (intent_fingerprint i)
        /\ exists old, intent_old_path i = Some old /\ found_at f old None
             /\ Path.parent old = Path.parent (intent_observed_path i)
    | OutboundIntentKind.MoveNode =>
        is_Some (intent_node_id i) /\ is_Some (intent_fingerprint i)
        /\ exists old, intent_old_path i = Some old /\ found_at f old None
             /\ Path.parent old <> Path.parent (intent_observed_path i)
    | OutboundIntentKind.DeleteOrTrashNode =>
        is_Some (intent_node_id i) /\ intent_fingerprint i = None
    end }.

(** The steps of the observer since [w0]. *)
Inductive observed (w0 : world) : world -> Prop :=
| observed_here : observed w0 w0
| observed_memory w o t :
    observed w0 w -> observed w0 (mk_World (store w) (mk_Host (folder (files w)) o) t (sent w))
| observed_intent w intent :
    observed w0 w -> describes (folder (files w0)) (store w0) intent.2 ->
    observed w0 (OutboundStore.upsert_outbound_intent_with_result intent w).1
| observed_move w source replacement :
    observed w0 w -> describes (folder (files w0)) (store w0) replacement.2 ->
    found_at (folder (files w0)) source None ->
    observed w0 (OutboundStore.move_pending_create source replacement w).1
| observed_restored w node path fp :
    observed w0 w -> found_at (folder (files w0)) path (Some fp) ->
    observed w0 (call (OutboundStore.cancel_pending_delete lib node) w).1
| observed_gone w path :
    observed w0 w -> found_at (folder (files w0)) path None ->
    observed w0 (call (OutboundStore.cancel_pending_create lib path) w).1
| observed_held w node :
    observed w0 w -> observed w0 (call (OutboundStore.block_unsubmitted_delete lib node) w).1
| observed_commit w s :
    observed w0 w -> observer_commit (store w) s ->
    observed w0 (mk_World s (files w) (tick w) (sent w)).

(** What no step changes. *)
Definition besides_writes (s : Store) : Store := set_outbound_intents (besides_observer s) ∅.

Definition fixed (w : world) : F * list (Store * request) * Store :=
  (folder (files w), sent w, besides_writes (store w)).

Notation anchored v := (fun w : world => fixed w = v).

Lemma anchored_read {A} v (q : Store -> result A ClientSyncError) : calm (anchored v) (read q).
Proof. by intros w. Qed.

Lemma anchored_call {A} v (t : tx A) : keeps besides_writes t -> calm (anchored v) (call t).
Proof.
  intros Ht. apply calm_call; [|done]. intros w s a Hw Hr. unfold fixed in *. cbn.
  by rewrite (Ht _ _ _ _ Hr).
Qed.

#[local] Hint Resolve anchored_read : calms.

Lemma besides_commit s s' : observer_commit s s' -> besides_writes s' = besides_writes s.
Proof. intros [Hb _]. unfold besides_writes. by rewrite Hb. Qed.

Lemma observed_fixed w0 w : observed w0 w -> fixed w = fixed w0.
Proof.
  induction 1 as [|w o t _ IH|w i _ IH _|w src r _ IH _ _|w n p fp _ IH _|w p _ IH _|w n _ IH
                 |w s _ IH Hs]; [done|done| | | | | |].
  - refine ((_ : calm (anchored _) (OutboundStore.upsert_outbound_intent_with_result i)) w IH).
    walk ltac:(apply anchored_call).
  - refine ((_ : calm (anchored _) (OutboundStore.move_pending_create src r)) w IH).
    walk ltac:(apply anchored_call).
  - apply anchored_call; [|done]. walk fail.
  - apply anchored_call; [|done]. walk fail.
  - apply anchored_call; [|done]. walk fail.
  - rewrite <- IH. unfold fixed. cbn. by rewrite (besides_commit _ _ Hs).
Qed.

(** ** The calls of the observer are such steps *)

Section Since.

Context (w0 : world) (Hsteady : steady (folder (files w0))).

Notation f0 := (folder (files w0)).
Notation s0 := (store w0).
Notation P := (observed w0).

Lemma observed_tick w t : P w -> P (mk_World (store w) (files w) t (sent w)).
Proof. intros Hw. destruct (files w) as [f o] eqn:Hf. pose proof (observed_memory w0 w o t Hw) as Hm. by rewrite Hf in Hm. Qed.

Lemma observed_read {A} (q : Store -> result A ClientSyncError) : calm P (read q).
Proof. intros w Hw. by apply observed_tick. Qed.

Lemma observed_uuid : calm P uuid.
Proof. intros w Hw. by apply observed_tick. Qed.

Lemma observed_now : calm P Observation.now.
Proof. intros w Hw. by apply observed_tick. Qed.

Lemma observed_own {A} (t : tx A) : own t -> calm P (call t).
Proof.
  intros Ht. apply calm_call.
  - intros w s a Hw Hr. apply (observed_tick (mk_World s (files w) (tick w) (sent w))).
    apply observed_commit; [done|]. by eapply Ht.
  - intros w Hw. by apply observed_tick.
Qed.

Lemma observed_query {A} (q : Store -> result A ClientSyncError) (Q : A -> Prop) :
  (forall w a, P w -> q (store w) = Ok a -> Q a) -> gives P (read q) Q.
Proof.
  intros Hq w Hw. split; [by apply observed_tick|]. intros a Ha. unfold read in Ha. cbn in Ha.
  destruct (db_fault (tick w)); try done. by eapply Hq.
Qed.

(** *** The folder *)

Lemma observed_folder {A} (op : F -> F * result A ClientSyncError) :
  (op f0).1 = f0 -> gives P (Observation.on_folder op) (fun a => (op f0).2 = Ok a).
Proof.
  intros Hop w Hw. pose proof (f_equal (fun x => x.1.1) (observed_fixed w0 w Hw)) as Hf. cbn in Hf.
  unfold Observation.on_folder, fs, through. rewrite Hf. destruct (op f0) as [f r]. cbn in Hop. subst f.
  rewrite <- Hf. split; [by apply observed_memory|done].
Qed.

Lemma observed_outcome {A} (m : M (Host F W) A) : calm P m -> calm P (Observation.outcome m).
Proof. intros Hm. apply calm_inspecting; [done|]. intros r. apply calm_ret. Qed.

Lemma observed_look {A} (op : F -> F * result A ClientSyncError) :
  (op f0).1 = f0 -> gives P (Observation.outcome (Observation.on_folder op)) (fun r => (op f0).2 = r).
Proof.
  intros Hop w Hw. pose proof (f_equal (fun x => x.1.1) (observed_fixed w0 w Hw)) as Hf. cbn in Hf.
  unfold Observation.outcome, inspecting, Observation.on_folder, fs, through. rewrite Hf.
  destruct (op f0) as [f r]. cbn in Hop. subst f. rewrite <- Hf.
  split; [by apply observed_memory|]. by intros a [= <-].
Qed.

Lemma observed_look_calm {A} (op : F -> F * result A ClientSyncError) :
  (op f0).1 = f0 -> calm P (Observation.on_folder op).
Proof. intros Hop. by eapply gives_calm, observed_folder. Qed.

(** *** Memory *)

Lemma observed_watcher {A} (op : W -> W * result A ClientSyncError) :
  calm P (Observation.on_watcher op).
Proof.
  intros w Hw. unfold Observation.on_watcher, fs. destruct (op _) as [x r]. by apply observed_memory.
Qed.

Lemma observed_observe {A} (get : Observer W -> A) : calm P (Observation.observe get).
Proof. intros w Hw. unfold Observation.observe, fs. by apply observed_tick. Qed.

Lemma observed_buffered l : calm P (Observation.set_buffered l).
Proof. intros w Hw. by apply observed_memory. Qed.

Lemma observed_pending b : calm P (Observation.set_pending b).
Proof. intros w Hw. by apply observed_memory. Qed.

Lemma observed_started b : calm P (Observation.set_started b).
Proof. intros w Hw. by apply observed_memory. Qed.

#[local] Hint Resolve observed_read observed_uuid observed_now observed_watcher observed_observe
  observed_buffered observed_pending observed_started observed_outcome : calms.
#[local] Hint Extern 1 (calm P (Observation.on_folder _)) =>
  (apply observed_look_calm; by apply Hsteady) : calms.

(** A statement on the observer's own tables. *)
Ltac owned :=
  apply observed_own; first [apply own_issue | apply own_root_issues | apply own_frame].

Ltac observing := walk ltac:(owned).

Notation persist_issue := (Observation.persist_issue (F:=F) (W:=W) scope).

Lemma observed_issue node path kind : calm P (persist_issue node path kind).
Proof. observing. Qed.

#[local] Hint Resolve observed_issue : calms.

Lemma observed_reconciliation : calm P (ObservationStore.require_reconciliation lib).
Proof. observing. Qed.

#[local] Hint Resolve observed_reconciliation : calms.

Lemma observed_flag node path kind : calm P (Observation.flag scope node path kind).
Proof. observing. Qed.

#[local] Hint Resolve observed_flag : calms.

Lemma observed_validate : calm P (Observation.validate_root_or_stop scope).
Proof. observing. Qed.

#[local] Hint Resolve observed_validate : calms.

Lemma observed_stop : calm P (Observation.stop_if_root_lost scope).
Proof. observing. Qed.

#[local] Hint Resolve observed_stop : calms.

Lemma raising {A} (m : M (Host F W) unit) e (Q : A -> Prop) :
  calm P m -> gives P (let! _ := m in raise e) Q.
Proof. intros Hm. eapply gives_bind; [by apply calm_gives|]. intros _ _. apply gives_raise. Qed.

Lemma observed_inspect path :
  gives P (Observation.inspect_for_observation scope path) (found_at f0 path).
Proof.
  eapply gives_bind; [apply observed_look, Hsteady|]. intros [v|e] Hv; [by apply gives_ret|].
  assert (forall A kind (Q : A -> Prop), gives P
    (Observation.flag_and_fail scope None (Some path) kind) Q) as Hf.
  { intros. by apply raising, observed_flag. }
  assert (forall kind, gives P
    (let! _ := Observation.stop_if_root_lost scope in
     Observation.flag_and_fail scope None (Some path) kind) (found_at f0 path)) as Hs.
  { intros. eapply gives_seq; [apply observed_stop|]. intros _. apply Hf. }
  destruct e; try apply gives_raise; try apply Hs; try (by apply raising, observed_validate).
  eapply gives_bind; [apply observed_look, Hsteady|]. intros r _.
  destruct (Observation.is_err r); [by apply raising, observed_validate|apply Hf].
Qed.

Lemma observed_inspect_calm path : calm P (Observation.inspect_for_observation scope path).
Proof. eapply gives_calm, observed_inspect. Qed.

#[local] Hint Resolve observed_inspect_calm : calms.

(** *** Nodes and intents *)

(** A node of the mirror. *)
Definition mirrored (v : ObservedLocalNode) : Prop :=
  exists key row, local_nodes s0 !! (lib, key) = Some row /\ observed_local v = row_node row.

Lemma decode_local_ok row n : Nodes.decode_local_node row = Ok n -> n = row_node row.
Proof.
  unfold Nodes.decode_local_node. intros Hn. destruct (Path.new _); [|done].
  destruct (map_err _ _); [|done]. destruct (match LocalNode.quarantine_relative_path _ with
    | None => _ | Some _ => _ end); [by injection Hn|done].
Qed.

Lemma decode_observed_ok row overlay v :
  ObservationStore.decode_observed_node row overlay = Ok v -> observed_local v = row_node row.
Proof.
  unfold ObservationStore.decode_observed_node. intros Hd.
  destruct (Nodes.decode_local_node row) as [n|] eqn:Hn; [|done].
  destruct (match overlay with Some _ => _ | None => _ end); [|done].
  destruct (ObservationStore.validate_observed_fingerprint _ _); [|done]. injection Hd as <-. cbn.
  by apply decode_local_ok in Hn.
Qed.

Lemma observed_mirror w : P w -> local_nodes (store w) = local_nodes s0 /\ replicas (store w) = replicas s0.
Proof.
  intros Hw. pose proof (f_equal (fun x => x.2) (observed_fixed w0 w Hw)) as Hs. cbn in Hs.
  split; [by apply (f_equal local_nodes) in Hs|by apply (f_equal replicas) in Hs].
Qed.

Lemma observed_at path :
  gives P (Observation.observed_node_at_path scope path) (fun o => forall v, o = Some v -> mirrored v).
Proof.
  apply observed_query. intros w o Hw Ho v ->. destruct (observed_mirror w Hw) as [Hn _].
  unfold ObservationStore.observed_node_at_path, ObservationStore.observed_row_at in Ho.
  destruct (head _) as [[[l key] row]|] eqn:Hh; [|done]. cbn in Ho.
  destruct (ObservationStore.decode_observed_node _ _) as [v'|] eqn:Hd; [|done].
  injection Ho as ->. apply decode_observed_ok in Hd. apply head_Some_elem_of in Hh.
  apply list_elem_of_filter in Hh as [[Hl _] Hh]. apply elem_of_map_to_list in Hh. cbn in Hl. subst l.
  exists key, row. by rewrite <- Hn.
Qed.

Lemma observed_at_calm path : calm P (Observation.observed_node_at_path scope path).
Proof. eapply gives_calm, observed_at. Qed.

#[local] Hint Resolve observed_at_calm : calms.

Lemma observed_any_suppression path actual l :
  calm P (Observation.any_suppression scope path actual l).
Proof. induction l; cbn [Observation.any_suppression]; observing. Qed.

#[local] Hint Resolve observed_any_suppression : calms.

Lemma observed_suppression path actual : calm P (Observation.suppression_matches scope path actual).
Proof. observing. Qed.

#[local] Hint Resolve observed_suppression : calms.

Lemma mirrored_based (o : option ObservedLocalNode) :
  (forall v, o = Some v -> mirrored v) ->
  based_on s0 (Observation.node_of <$> o)
    ((fun v => LocalNode.revision (observed_local v)) <$> o)
    (Some (o ≫= fun v => LocalNode.current_version_id (observed_local v)))
  /\ based_on s0 (Observation.node_of <$> o)
    ((fun v => LocalNode.revision (observed_local v)) <$> o) None.
Proof.
  destruct o as [v|]; cbn; [|auto]. intros Hv. destruct (Hv v eq_refl) as (key & row & Hr & Hl).
  unfold Observation.node_of. rewrite Hl. split; exists key, row; auto.
Qed.

(** The part of [describes] that depends on the call site. *)
Definition shows (node : option ObservedLocalNode) (kind : OutboundIntentKind.t) (path : rstring)
  (old : option rstring) (fp : option LocalFingerprint.t) : Prop :=
  match kind with
  | OutboundIntentKind.CreateDirectory =>
      node = None /\ exists x, fp = Some x /\ LocalFingerprint.kind x = LocalFingerprint.Directory
  | OutboundIntentKind.CreateFile =>
      node = None /\ exists x, fp = Some x /\ LocalFingerprint.kind x = LocalFingerprint.File
  | OutboundIntentKind.ModifyFileContent =>
      is_Some node /\ exists x, fp = Some x /\ LocalFingerprint.kind x = LocalFingerprint.File
  | OutboundIntentKind.RenameNode =>
      is_Some node /\ is_Some fp
      /\ exists o, old = Some o /\ found_at f0 o None /\ Path.parent o = Path.parent path
  | OutboundIntentKind.MoveNode =>
      is_Some node /\ is_Some fp
      /\ exists o, old = Some o /\ found_at f0 o None /\ Path.parent o <> Path.parent path
  | OutboundIntentKind.DeleteOrTrashNode => is_Some node /\ fp = None
  end.

Lemma observed_new_intent node parent kind path old fp :
  (forall v, node = Some v -> mirrored v) -> (forall v, parent = Some v -> mirrored v) ->
  found_at f0 path fp -> shows node kind path old fp ->
  gives P (Observation.new_intent scope node parent kind path old fp)
    (fun i => describes f0 s0 i.2).
Proof.
  intros Hn Hp Hf Hk. eapply gives_seq; [apply observed_stop|intros _].
  eapply (gives_bind _ _ _ (fun r => replicas s0 !! lib = Some r)).
  { apply observed_query. intros w r Hw Hr. destruct (observed_mirror w Hw) as [_ <-].
    unfold Feed.replica, ok_or in Hr. destruct (replicas (store w) !! lib); [|done]. by simplify_eq. }
  intros r Hr. eapply gives_seq; [apply observed_uuid|intros id]. apply gives_lift.
  intros i Hi. unfold OutboundTypes.new_intent in Hi.
  destruct (Candidates.validate_intent_shape _); [|done]. injection Hi as <-. cbn.
  destruct (mirrored_based node Hn) as [Hb _], (mirrored_based parent Hp) as [_ Hpb].
  split; cbn; [done..|by exists r|done|done|done|].
  destruct kind; cbn in Hk |- *; rewrite ?fmap_is_Some, ?fmap_None; naive_solver.
Qed.

Lemma observed_note changed : calm P (Observation.note_durable_change changed).
Proof. observing. Qed.

Lemma observed_record i : describes f0 s0 i.2 -> calm P (Observation.record_intent i).
Proof.
  intros Hi. apply calm_bind; [|intros; apply observed_note]. intros w Hw. by apply observed_intent.
Qed.

(** Making an intent and recording it. *)
Lemma observed_make {B} node parent kind path old fp (k : unit -> M (Host F W) B) :
  (forall v, node = Some v -> mirrored v) -> (forall v, parent = Some v -> mirrored v) ->
  found_at f0 path fp -> shows node kind path old fp -> (forall u, calm P (k u)) ->
  calm P (let! i := Observation.new_intent scope node parent kind path old fp in
          let! u := Observation.record_intent i in k u).
Proof.
  intros Hn Hp Hf Hk Hrest. eapply calm_value; [by apply observed_new_intent|].
  intros i Hi. apply calm_bind; [by apply observed_record|done].
Qed.

Lemma some_mirrored v : mirrored v -> forall v', Some v = Some v' -> mirrored v'.
Proof. by intros Hv v' [= <-]. Qed.

Lemma observed_overlay node path present fp :
  calm P (ObservationStore.persist_observed_node node path present fp).
Proof. observing. Qed.

#[local] Hint Resolve observed_overlay observed_note : calms.

Lemma observed_flag_and_fail {A} node path kind :
  calm P (Observation.flag_and_fail (A:=A) scope node path kind).
Proof. observing. Qed.

#[local] Hint Resolve observed_flag_and_fail : calms.

Lemma observed_parent_mirrored path :
  gives P (Observation.observed_parent scope path) (fun o => forall v, o = Some v -> mirrored v).
Proof.
  eapply gives_seq; [apply calm_lift|intros parent]. eapply gives_seq; [apply observed_inspect_calm|].
  intros found. destruct (found != _).
  - by apply raising, observed_flag.
  - eapply gives_bind; [apply observed_at|]. intros o Ho. apply gives_ret. intros v.
    destruct o as [v'|]; cbn; [|done]. destruct (_ && _); [|done]. intros [= <-]. by apply Ho.
Qed.

Lemma observed_required_parent path : gives P (Observation.required_parent scope path) mirrored.
Proof.
  eapply gives_bind; [apply observed_parent_mirrored|]. intros [v|] Hv.
  - apply gives_ret. by apply Hv.
  - by apply raising, observed_flag.
Qed.

Lemma fresh_kind fp (path : rstring) :
  shows None match LocalFingerprint.kind fp with
             | LocalFingerprint.Directory => OutboundIntentKind.CreateDirectory
             | LocalFingerprint.File => OutboundIntentKind.CreateFile
             end path None (Some fp).
Proof. destruct (LocalFingerprint.kind fp) eqn:Hk; cbn; eauto. Qed.

Lemma observed_move_create source destination fp :
  found_at f0 source None -> found_at f0 destination (Some fp) ->
  calm P (Observation.move_pending_create scope source destination fp).
Proof.
  intros Hs Hd. unfold Observation.move_pending_create.
  eapply calm_value; [apply observed_parent_mirrored|]. intros parent Hp.
  eapply calm_value; [apply observed_new_intent; [done|done|done|apply fresh_kind]|]. intros i Hi.
  apply calm_bind; [|intros moved; observing]. intros w Hw. by apply observed_move.
Qed.

Lemma gives_reject b e : gives P (reject b e) (fun _ => b = false).
Proof. unfold reject. destruct b; [apply gives_raise|by apply gives_ret]. Qed.

Lemma observed_modification known path fp :
  mirrored known -> found_at f0 path (Some fp) ->
  calm P (Observation.record_file_modification scope known path fp).
Proof.
  intros Hk Hf. eapply calm_value; [apply gives_reject|]. intros u Hfile. cbv beta in Hfile.
  eapply calm_value; [apply observed_required_parent|]. intros parent Hp.
  apply observed_make; [by apply some_mirrored..|done| |auto with calms].
  split; [by eexists|]. eexists. split; [done|]. by apply negb_false_iff, bool_decide_eq_true_1 in Hfile.
Qed.

(** *** Classification *)

Lemma observed_cancel_delete known path fp :
  found_at f0 path (Some fp) -> calm P (Observation.cancel_pending_delete scope known).
Proof. intros Hf w Hw. by eapply observed_restored. Qed.

Lemma observed_changed known path fp :
  mirrored known -> found_at f0 path (Some fp) ->
  calm P (Observation.classify_changed scope known path fp).
Proof.
  intros Hk Hf. pose proof (observed_modification known path fp Hk Hf).
  unfold Observation.classify_changed. observing.
Qed.

Lemma observed_known known path fp :
  mirrored known -> found_at f0 path (Some fp) ->
  calm P (Observation.classify_known_present scope known path fp).
Proof.
  intros Hk Hf. pose proof (observed_changed known path fp Hk Hf).
  pose proof (observed_cancel_delete known path fp Hf).
  unfold Observation.classify_known_present. observing.
Qed.

Lemma observed_unknown path fp :
  found_at f0 path (Some fp) -> calm P (Observation.classify_unknown_present scope path fp).
Proof.
  intros Hf. eapply calm_value; [apply observed_parent_mirrored|]. intros parent Hp.
  apply calm_bind; [auto with calms|]. intros [|]; [apply observed_flag|]. cbv zeta.
  eapply calm_value; [apply observed_new_intent; [done|done|done|apply fresh_kind]|].
  apply observed_record.
Qed.

Lemma observed_vanished known path :
  mirrored known -> found_at f0 path None -> calm P (Observation.classify_vanished scope known path).
Proof.
  intros Hk Hf. apply observed_make; [by apply some_mirrored|done|done| |auto with calms].
  split; [by eexists|done].
Qed.

Lemma observed_path path : calm P (Observation.classify_path scope path).
Proof.
  unfold Observation.classify_path. destruct (Notify.is_control_path path); [apply calm_ret|].
  apply calm_bind; [auto with calms|]. intros [|]; [apply calm_ret|].
  eapply calm_value; [apply observed_inspect|]. intros actual Ha.
  apply calm_bind; [auto with calms|]. intros [|]; [apply calm_ret|].
  eapply calm_value; [apply observed_at|]. intros known Hk.
  destruct known as [known|], actual as [fp|].
  - by apply observed_known; [apply Hk|].
  - destruct (observed_present known); [|apply calm_ret]. by apply observed_vanished; [apply Hk|].
  - by apply observed_unknown.
  - apply calm_bind; [|intros; apply calm_ret]. intros w Hw. by apply observed_gone.
Qed.

Lemma observed_untracked source destination source_actual destination_actual :
  found_at f0 source source_actual -> found_at f0 destination destination_actual ->
  calm P (Observation.classify_untracked_rename scope source destination source_actual
            destination_actual).
Proof.
  intros Hs Hd. destruct source_actual as [?|]; [apply observed_flag|].
  destruct destination_actual as [fp|]; [|apply observed_flag].
  eapply calm_value; [apply observed_at|]. intros there Ht.
  destruct (option_filter observed_present there) as [v|] eqn:Hv.
  - apply observed_known; [|done]. apply Ht. destruct there as [v'|]; cbn in Hv; [|done].
    by destruct (observed_present v').
  - apply calm_bind; [by apply observed_move_create|]. intros [|]; [apply calm_ret|apply observed_flag].
Qed.

Lemma observed_rename_record known source destination fp :
  mirrored known -> found_at f0 source None -> found_at f0 destination (Some fp) ->
  calm P (Observation.record_rename scope known source destination fp).
Proof.
  intros Hk Hs Hd. eapply calm_value; [apply observed_required_parent|]. intros parent Hp.
  eapply calm_value; [apply gives_lift; by intros a Ha; exact Ha|]. intros sp Hsp.
  eapply calm_value; [apply gives_lift; by intros a Ha; exact Ha|]. intros dp Hdp. cbv zeta.
  pose proof (observed_modification known destination fp Hk Hd) as Hm.
  apply observed_make; [by apply some_mirrored..|done| |intros _; observing].
  unfold ok_or in Hsp, Hdp. destruct (Path.parent source) eqn:H1, (Path.parent destination) eqn:H2; try done.
  injection Hsp as <-. injection Hdp as <-. case_bool_decide as Heq; cbn;
    (split_and!; [by eexists|by eexists|]); exists source; rewrite H1, H2; split_and!; try done; congruence.
Qed.

Lemma observed_taken known destination : calm P (Observation.destination_taken scope known destination).
Proof. observing. Qed.

Lemma observed_rename source destination : calm P (Observation.classify_rename scope source destination).
Proof.
  unfold Observation.classify_rename. destruct (_ || _); [apply calm_ret|].
  eapply calm_value; [apply observed_inspect|]. intros sa Hs.
  eapply calm_value; [apply observed_inspect|]. intros da Hd.
  apply calm_bind; [auto with calms|intros b1]. apply calm_bind; [observing|]. intros [|]; [apply calm_ret|].
  eapply calm_value; [apply observed_at|]. intros there Ht.
  destruct (option_filter observed_present there) as [v|] eqn:Hv; [|by apply observed_untracked].
  assert (mirrored v) as Hm.
  { apply Ht. destruct there as [v'|]; cbn in Hv; [|done]. by destruct (observed_present v'). }
  destruct da as [fp|]; [|apply observed_flag]. destruct sa as [?|]; [apply observed_flag|]. cbn [is_some orb].
  destruct (negb _); [apply observed_flag|]. apply calm_bind; [apply observed_taken|].
  intros [|]; [apply observed_flag|]. by apply observed_rename_record.
Qed.

#[local] Hint Resolve observed_path observed_rename : calms.

(** *** Hints and scans *)

Lemma observed_block node : calm P (call (OutboundStore.block_unsubmitted_delete lib node)).
Proof. intros w Hw. by apply observed_held. Qed.

Lemma observed_gone_and_new paths : calm P (Observation.gone_and_new scope paths).
Proof. induction paths; cbn [Observation.gone_and_new]; observing. Qed.

Lemma observed_unpaired created ambiguous removed :
  calm P (Observation.flag_unpaired scope created ambiguous removed).
Proof.
  revert ambiguous. induction removed as [|[source node] removed IH]; intros ambiguous;
    cbn [Observation.flag_unpaired]; observing.
Qed.

#[local] Hint Resolve observed_block observed_gone_and_new observed_unpaired : calms.

Lemma observed_flush force : calm P (Observation.flush_due_hints scope config force).
Proof. observing. Qed.

Lemma observed_entries work candidates names :
  calm P (Observation.collect_entries scope config work candidates names).
Proof.
  revert candidates. induction names as [|[name|] names IH]; intros candidates;
    cbn [Observation.collect_entries]; observing.
Qed.

Lemma observed_children generation children :
  calm P (Observation.classify_children scope generation children).
Proof. induction children; cbn [Observation.classify_children]; observing. Qed.

Lemma observed_candidates node creates : calm P (Observation.rename_candidates scope node creates).
Proof. induction creates; cbn [Observation.rename_candidates]; observing. Qed.

#[local] Hint Resolve observed_flush observed_entries observed_children observed_candidates : calms.

Lemma observed_unit generation : calm P (Observation.scan_unit scope config generation).
Proof. observing. Qed.

#[local] Hint Resolve observed_unit : calms.

Lemma observed_once : calm P (Observation.reconcile_once_inner scope config).
Proof. observing. Qed.

Lemma observed_notify : calm P (Observation.notify_pending_durable_change wake).
Proof.
  apply calm_bind; [auto with calms|intros pending]. apply calm_bind; [auto with calms|intros _].
  destruct (negb pending); [apply calm_ret|]. intros w Hw. by apply observed_tick.
Qed.

#[local] Hint Resolve observed_once observed_notify : calms.

Lemma observed_complete state :
  calm P (Observation.notify_if_reconciliation_complete wake state).
Proof. observing. Qed.

Lemma observed_notifying {A} (m : M (Host F W) A) on_ok :
  calm P m -> (forall a, calm P (on_ok a)) -> calm P (Observation.notifying wake m on_ok).
Proof.
  intros Hm Hk. apply calm_bind; [auto with calms|]. intros [a|e]; observing.
Qed.

#[local] Hint Resolve observed_complete : calms.

Lemma observed_buffer overflowed hints : calm P (Observation.buffer_hints config overflowed hints).
Proof.
  revert overflowed. induction hints as [|h hints IH]; intros overflowed;
    cbn [Observation.buffer_hints]; observing.
Qed.

#[local] Hint Resolve observed_buffer : calms.

Lemma observed_poll : calm P (Observation.poll_once_inner scope config).
Proof. observing. Qed.

Lemma observed_enter entry : calm P (Observation.enter scope config wake entry).
Proof.
  assert (calm P (Observation.reconcile_once_with_notification scope config wake)) as Hr.
  { apply observed_notifying; auto with calms. }
  destruct entry; cbn [Observation.enter].
  - observing.
  - apply calm_bind; [|observing]. apply observed_notifying; [apply observed_poll|].
    intros. auto with calms.
  - apply calm_bind; [|observing]. apply observed_notifying; auto with calms.
  - observing.
  - unfold Observation.shutdown. observing.
Qed.

End Since.


(** ** A root that is not there *)

Section RootLost.

Context (f0 : F) (e : ClientSyncError) (Hroot : validate_root f0 = (f0, Err e)).
Context (intents : gmap Z IntentRow) (overlay : gmap (Z * Z) ObservedRow).

(** The folder is the one without a root, and no intent or observation of it was
    written. *)
Definition untouched_by_loss (w : world) : Prop :=
  folder (files w) = f0 /\ outbound_intents (store w) = intents
  /\ observation_nodes (observation (store w)) = overlay.

Notation P := untouched_by_loss.

Lemma lost_read {A} (q : Store -> result A ClientSyncError) : calm P (read q).
Proof. by intros w. Qed.

Lemma lost_uuid : calm P uuid.
Proof. by intros w. Qed.

Lemma lost_now : calm P Observation.now.
Proof. by intros w. Qed.

Lemma lost_observe {A} (get : Observer W -> A) : calm P (Observation.observe get).
Proof. by intros w. Qed.

Lemma lost_buffered l : calm P (Observation.set_buffered l).
Proof. by intros w. Qed.

Lemma lost_pending b : calm P (Observation.set_pending b).
Proof. by intros w. Qed.

Lemma lost_started b : calm P (Observation.set_started b).
Proof. by intros w. Qed.

Lemma lost_watcher {A} (op : W -> W * result A ClientSyncError) : calm P (Observation.on_watcher op).
Proof. intros w Hw. unfold Observation.on_watcher, fs. by destruct (op _). Qed.

Lemma lost_outcome {A} (m : M (Host F W) A) : calm P m -> calm P (Observation.outcome m).
Proof. intros Hm. apply calm_inspecting; [done|]. intros r. apply calm_ret. Qed.

Lemma lost_call {A} (t : tx A) :
  keeps (fun s => (outbound_intents s, observation_nodes (observation s))) t -> calm P (call t).
Proof.
  intros Ht. apply calm_call; [|done]. intros w s a (Hf & Hi & Ho) Hr.
  pose proof (Ht _ _ _ _ Hr) as [H1 H2]%pair_equal_spec. by split_and!; [|rewrite <- Hi|rewrite <- Ho].
Qed.

#[local] Hint Resolve lost_read lost_uuid lost_now lost_observe lost_buffered lost_pending
  lost_started lost_watcher lost_outcome : calms.

Ltac losing := walk ltac:(apply lost_call).

Lemma lost_validate : gives P (Observation.validate_root_or_stop scope) (fun _ => False).
Proof.
  eapply (gives_bind _ _ _ (fun r => r = Err e)).
  - intros w Hw. unfold Observation.outcome, inspecting, Observation.on_folder, fs, through.
    destruct Hw as (Hf & Hi & Ho). rewrite Hf, Hroot. split; [done|by intros r [= <-]].
  - intros r ->. eapply gives_seq; [losing|intros _]. eapply gives_seq; [losing|intros _].
    eapply gives_seq; [losing|intros _]. apply gives_raise.
Qed.

(** Nothing follows the check of the root. *)
Lemma lost_first {A} (k : unit -> M (Host F W) A) :
  gives P (let! u := Observation.validate_root_or_stop scope in k u) (fun _ => False).
Proof. eapply gives_bind; [apply lost_validate|by intros ? []]. Qed.

Lemma lost_notify : calm P (Observation.notify_pending_durable_change wake).
Proof.
  apply calm_bind; [auto with calms|intros pending]. apply calm_bind; [auto with calms|intros _].
  destruct (negb pending); [apply calm_ret|]. by intros w.
Qed.

#[local] Hint Resolve lost_notify : calms.

Lemma lost_notifying {A} (m : M (Host F W) A) on_ok Q :
  gives P m Q -> (forall a, calm P (on_ok a)) ->
  gives P (Observation.notifying wake m on_ok) (fun x => Q x.1).
Proof.
  intros Hm Hk. eapply (gives_bind _ _ _ (fun r => forall a, r = Ok a -> Q a)).
  - intros w Hw. destruct (Hm w Hw) as [Hw' Ha]. unfold Observation.outcome, inspecting.
    destruct (m w) as [w' r]. split; [done|]. intros r' [= <-]. apply Ha.
  - intros [a|err] Ha; [|by eapply gives_seq; [apply lost_notify|intros ?; apply gives_raise]].
    eapply gives_seq; [apply Hk|]. intros n. apply gives_ret. by apply Ha.
Qed.

Lemma lost_flush force : calm P (Observation.flush_due_hints scope config force).
Proof.
  unfold Observation.flush_due_hints. apply calm_bind; [auto with calms|intros at_].
  apply calm_bind; [auto with calms|intros buffered]. destruct (Observation.due_hints _ _ _ _) as [due kept].
  apply calm_bind; [auto with calms|intros _]. destruct (is_empty due); [apply calm_ret|].
  eapply gives_calm, lost_first.
Qed.

#[local] Hint Resolve lost_flush : calms.

Lemma lost_once : gives P (Observation.reconcile_once_inner scope config) (fun _ => False).
Proof. apply lost_first. Qed.

Lemma lost_poll : gives P (Observation.poll_once_inner scope config) (fun _ => False).
Proof.
  eapply gives_seq; [auto with calms|intros running]. eapply gives_seq; [apply calm_reject|intros _].
  apply lost_first.
Qed.

Lemma lost_complete state : calm P (Observation.notify_if_reconciliation_complete wake state).
Proof. losing. Qed.

Lemma lost_enter entry :
  gives P (Observation.enter scope config wake entry)
    (fun _ => entry = Observation.Flush \/ entry = Observation.Shutdown).
Proof.
  destruct entry; cbn [Observation.enter].
  - eapply gives_bind; [apply lost_first|by intros ? []].
  - eapply gives_bind; [apply lost_notifying; [apply lost_poll|intros; apply lost_complete]|by intros ? []].
  - eapply gives_weaken; [apply calm_gives|by left].
    apply calm_bind; [|losing]. eapply gives_calm, lost_notifying; [by apply calm_gives, lost_flush|].
    intros. apply lost_notify.
  - eapply gives_bind; [apply lost_notifying; [apply lost_once|apply lost_complete]|by intros ? []].
  - eapply gives_weaken; [apply calm_gives|by right]. unfold Observation.shutdown. losing.
Qed.

End RootLost.


End Observed.

(** ** The folder of the disk *)

Section Folder.

Context `{U : Unicode} `{I : Identifiers} `{H : Sha}.
Context (scope : ReplicaScope) (binding : Z) (profile : option Z) (deferred : bool).

Notation managed := (filesystem_replica scope binding profile deferred).

Lemma still_bind {A B} (m : D A) (k : A -> D B) d :
  (m d).1 = d -> (forall a, (k a d).1 = d) -> (dbind m k d).1 = d.
Proof. intros Hm Hk. unfold dbind. destruct (m d) as [d' [a|e]]; cbn in Hm; subst; auto. Qed.

Lemma still_resolve p d :
  (Managed.validate_root scope binding profile deferred d).1 = d ->
  (Managed.resolve scope binding profile deferred p d).1 = d.
Proof. intros Hv. apply still_bind; [done|]. intros _. by repeat (apply still_bind; [done|intros ?]). Qed.

(** Once the control directories are there, or the root is not, looking at the
    folder changes nothing. *)
Lemma disk_steady d :
  (Managed.validate_root scope binding profile deferred d).1 = d ->
  steady (L := managed) (D := filesystem_directories) d.
Proof.
  intros Hv. split; cbn; [done|..]; intros path.
  - unfold Managed.inspect. apply still_bind; [by apply still_resolve|]. intros p. done.
  - unfold Managed.has_portable_name_collision. destruct (Path.is_root path); [done|].
    apply still_bind; [done|intros parent]. apply still_bind; [by apply still_resolve|intros p].
    apply still_bind; [|intros names; by apply still_bind; [|intros ?]].
    unfold read_dir. by repeat case_match.
  - done.
  - unfold read_dir. by destruct (symlink_metadata d (Managed.components path)) as [[]| |].
Qed.

End Folder.
