(* ===== verification/WholeClient.v ===== *)
(** * The client with its observer

    The observer and the synchroniser work on one folder and one database.  A
    history with calls of the real observer is a history of the client, so that
    what holds of those holds of the whole.  An issue of the observer that is not
    about the root stays open whatever either engine does, and while it is open
    nothing local is submitted. *)

From S2P Require Import Prelude Vocabulary Values Models Requests Rebaseline SyncTypes ClientPaths.
From S2P Require Import ClientStore FeedProtocol StoreFacts SyncWorld Candidates SnapshotFacts.
From S2P Require Import Inbound Cycle InboundFacts Disk OutboundTypes OutboundStore ObservationStore.
From S2P Require Import Watchers Observation Submission Conflicts DiskFacts Materialize.
From S2P Require Import MaterializeFacts EditFacts SyncFacts ConvergenceFacts CycleFrame.
From S2P Require Import ObservationFacts.

Section Whole.

Context {F W : Type} `{U : Unicode} `{E : Env} `{T : Monotonic} `{R : SyncRemote}
  `{Sn : SnapshotRemote} `{Up : UploadRemote} `{L : LocalReplica F} `{C : ContentReader F}
  `{D : DirectoryReader F} `{Wt : LocalChangeWatcher W} `{I : Identifiers} `{H : Sha} `{S : Serde}.
Context (scope : ReplicaScope) (profile : option Z) (config : EngineConfig.t) (page_limit : Z)
  (observing : ObservationConfig.t) (wake : option (nat -> SyncRuntimeWakeResult)).

Notation lib := (library_id scope).
Notation world := (World (Host F W)).
Notation client keep :=
  (client_history (F := Host F W) scope profile config page_limit keep).
Notation enter := (Observation.enter (F := F) (W := W) scope observing wake).

(** The life of the client with calls of the observer in between. *)
Inductive whole_history (keep : Store -> Store -> Prop) (w : world) : world -> Prop :=
| whole_here : whole_history keep w w
| whole_client w1 w2 :
    whole_history keep w w1 -> client keep w1 w2 -> whole_history keep w w2
| whole_observer w1 entry :
    whole_history keep w w1 -> steady (folder (files w1)) ->
    whole_history keep w (enter entry w1).1.

Lemma client_trans keep w w1 w2 : client keep w w1 -> client keep w1 w2 -> client keep w w2.
Proof.
  intros H1. induction 1; [done|by apply client_cycle|by apply client_upsert|by apply client_move
    |by apply client_cancel_delete|by apply client_cancel_create|by apply client_block_delete
    |by apply client_resolve|by apply client_edit|by apply client_commit].
Qed.

Lemma observed_client keep (w w' : world) :
  (forall s s', observer_commit s s' -> keep s s') -> observed scope w w' -> client keep w w'.
Proof.
  intros Hk. induction 1; [apply client_here|by apply client_edit|by apply client_upsert
    |by apply client_move|by apply client_cancel_delete|by apply client_cancel_create
    |by apply client_block_delete|]. apply client_commit; auto.
Qed.


(** ** Open issues *)

(** What commits of other components do to the issues: only a person closes them. *)
Definition issues_last (s s' : Store) : Prop :=
  forall row, lasting row -> row ∈ observation_issues s -> row ∈ observation_issues s'.

Section Open.

Context (row : ObservationIssueRow) (Hrow : lasting row)
  (Hlib : observation_library_id row = lib) (base : list (Store * request)).

(** The issue is open, and only inbound requests were sent since [base]. *)
Definition fenced_off (w : world) : Prop :=
  row ∈ observation_issues (store w)
  /\ exists l, sent w = base ++ l /\ Forall (fun p => inbound_request p.2 = true) l.

Lemma fenced_call {A} (t : tx A) : keeps observation_issues t -> calm fenced_off (call t).
Proof.
  intros Ht. apply calm_call; [|done]. intros w s a [Hr Hl] Hs. split; [|done]. cbn.
  by rewrite (Ht _ _ _ _ Hs).
Qed.

#[local] Instance fenced_outward : Outward fenced_off.
Proof.
  split.
  - intros w w' Hs Hl. unfold fenced_off. by rewrite Hs, Hl.
  - intros w w' q Hq Hs Hl [Hr (l & He & Hf)]. split; [by rewrite Hs|].
    exists (l ++ [(store w, q)]). rewrite Hl, He, app_assoc. split; [done|].
    apply Forall_app. split; [done|]. by apply Forall_singleton.
  - intros A t Ht. apply fenced_call. intros now s s' a Hr. by injection (Ht _ _ _ _ Hr).
  - intros. apply fenced_call. unfold Outbound.require_rebase. frame.
  - intros. apply fenced_call. unfold Outbound.reconcile_server_applied_intents. frame.
  - intros id library node path kind. apply calm_call; [|done]. intros w s a [Hr Hl] Hs.
    split; [|done]. by eapply own_issue.
Qed.

Lemma issue_listed (s : Store) rows :
  row ∈ observation_issues s -> Runner.unresolved_observation_issues scope s = Ok rows -> rows <> [].
Proof.
  intros Hr. unfold Runner.unresolved_observation_issues. destruct (MAX_RECOVERY_ROWS <? _); [done|].
  destruct (Feed.decode_all _ _); [|done]. intros [= <-] Hn. apply (not_elem_of_nil row). rewrite <- Hn.
  apply list_elem_of_filter. split; [|done]. by destruct Hrow.
Qed.

(** The submission engine stops at the issue. *)
Lemma fenced_process :
  gives fenced_off (Submission.process_next_ready_intent scope)
    (fun outcome => outcome = SubmissionOutcome.NoReadyIntent).
Proof.
  unfold Submission.process_next_ready_intent. eapply gives_seq; [auto with calms|intros _].
  eapply gives_seq; [auto with calms|intros issues].
  eapply (gives_bind _ _ _ (fun held => held = true)).
  - destruct issues; cbn [is_empty negb]; [|by apply gives_ret].
    eapply (gives_bind _ _ _ (fun rows => rows <> [])).
    + intros w Hw. split; [by apply (outward_read fenced_off)|]. intros rows Hrows.
      unfold read in Hrows. cbn in Hrows. destruct (db_fault (tick w)); try done.
      eapply issue_listed; [apply Hw|done].
    + intros rows Hn. apply gives_ret. by destruct rows.
  - intros held ->. by apply gives_ret.
Qed.

Ltac issues := walk ltac:(apply fenced_call).

Lemma fenced_client w w' : client issues_last w w' -> fenced_off w -> fenced_off w'.
Proof.
  intros Hc Hw. revert Hc. apply client_invariant; [..|done].
  - intros at_. apply outward_cycle; [apply _|]. eapply gives_calm, fenced_process.
  - intros i. issues.
  - intros source i. issues.
  - intros node. issues.
  - intros path. issues.
  - intros node. issues.
  - intros c expected r duplicate. issues.
  - by intros w1 f t.
  - intros w1 s [Hr Hl] Hk. split; [by apply Hk|done].
Qed.

End Open.

(** C8: An issue of the observer that is not about the root fences the client off
    for good.  Whatever cycles, observations, resolutions of conflicts, edits and
    restarts follow, the issue stays open, every request sent is one of the inbound
    half, and the submission engine answers that nothing is ready: no local change
    reaches the server again. *)
Theorem open_issue_fences row w w' :
  lasting row -> observation_library_id row = lib -> row ∈ observation_issues (store w) ->
  whole_history issues_last w w' ->
  row ∈ observation_issues (store w')
  /\ (exists l, sent w' = sent w ++ l /\ Forall (fun p => inbound_request p.2 = true) l)
  /\ forall outcome, (Submission.process_next_ready_intent scope w').2 = Ok outcome ->
       outcome = SubmissionOutcome.NoReadyIntent.
Proof.
  intros Hrow Hlib Hin Hw. assert (fenced_off row (sent w) w') as Hf.
  { induction Hw as [|w1 w2 _ IH Hc|w1 entry _ IH Hs].
    - split; [done|]. exists []. by rewrite app_nil_r.
    - by eapply fenced_client.
    - eapply fenced_client; [done|done| |done]. apply observed_client; [by intros ? ? []|].
      by apply observed_enter, observed_here. }
  split_and!; [apply Hf..|]. by apply (fenced_process row Hrow Hlib (sent w)).
Qed.

End Whole.
