(* ===== verification/QuietFacts.v ===== *)
(** * Scanning a folder that did not change

    A scan looks at every directory, every node and every pending create, and
    turns what differs from its last observation into intents.  Where nothing
    differs it records nothing, raises nothing and forgets nothing, however often
    it is started and however its units are cut. *)

From S2P Require Import Prelude Vocabulary Values Models Requests Rebaseline SyncTypes ClientPaths.
From S2P Require Import ClientStore FeedProtocol StoreFacts SyncWorld Candidates SnapshotFacts.
From S2P Require Import Inbound Cycle InboundFacts Disk OutboundTypes OutboundStore ObservationStore.
From S2P Require Import Watchers Observation Submission Conflicts DiskFacts Materialize.
From S2P Require Import MaterializeFacts EditFacts SyncFacts ConvergenceFacts CycleFrame.
From S2P Require Import ObservationFacts.

Section Quiet.

Context {F W : Type} `{U : Unicode} `{E : Env} `{T : Monotonic} `{L : LocalReplica F}
  `{D : DirectoryReader F} `{Wt : LocalChangeWatcher W} `{I : Identifiers} `{H : Sha}.
Context (scope : ReplicaScope) (config : ObservationConfig.t)
  (wake : option (nat -> SyncRuntimeWakeResult)).

Notation lib := (library_id scope).
Notation world := (World (Host F W)).

(** A path at which the mirror or the overlay has a node. *)
Definition mirrored (s : Store) (path : rstring) : Prop :=
  is_Some (ObservationStore.observed_row_at lib path s).

(** The listing of a mirrored directory: the control directory of the root, and
    mirrored names. *)
Definition listed (s : Store) (path : rstring) (name : option rstring) : Prop :=
  exists n, name = Some n
    /\ (Path.is_root path && (n == lit ".synveil") = true
        \/ exists child, Path.child path n = Ok child /\ mirrored s child).

(** The folder [f] is as the observer knows it from [s], and nothing is under way. *)
Record settled (f : F) (s : Store) : Prop := {
  settled_steady : steady f;
  settled_root : is_ok (validate_root f).2 = true;
  settled_operations : forall rows, Ops.unfinished_operations lib s = Ok rows -> rows = [];
  settled_intents : forall id row, outbound_intents s !! id = Some row ->
    intent_library_id row = lib ->
    intent_kind row ∈ [OutboundIntentKind.CreateDirectory; OutboundIntentKind.CreateFile;
                       OutboundIntentKind.DeleteOrTrashNode] ->
    OutboundStore.unsubmitted row = false;
  settled_top : mirrored s [];
  settled_paths : forall path, mirrored s path ->
    exists found, (inspect path f).2 = Ok found
      /\ forall known, ObservationStore.observed_node_at_path lib path s = Ok (Some known) ->
           observed_fingerprint known = found;
  settled_listing : forall path fingerprint, mirrored s path ->
    (inspect path f).2 = Ok (Some fingerprint) ->
    LocalFingerprint.kind fingerprint = LocalFingerprint.Directory ->
    (is_symlink path f).2 = Ok false
    /\ forall names, (read_dir_names path f).2 = Ok names -> Forall (listed s path) names }.

(** The scan in hand is to look at mirrored paths. *)
Definition scanning_mirror (s s' : Store) : Prop :=
  forall generation path cursor,
    observation_scan_work (observation s') !! (lib, generation, path) = Some cursor ->
    mirrored s path.

(** The tables a scan compares the folder with. *)
Definition compared (s : Store) :=
  (local_nodes s, observation_nodes (observation s), outbound_intents s, local_operations s).

(** No issue is open in [s'] that is not open in [s]. *)
Definition nothing_raised (s s' : Store) : Prop :=
  forall row, row ∈ observation_issues s' -> observation_resolved_at row = None ->
    row ∈ observation_issues s.

(** The mirrored paths. *)
Lemma mirrored_paths s path :
  mirrored s path ->
  path ∈ map (fun p : (Z * Z) * NodeRow =>
                from_option overlay_path (LocalNode.relative_path (row_node p.2))
                  (ObservationStore.overlay_row lib p.1.2 s)) (map_to_list (local_nodes s)).
Proof.
  intros [p Hp%head_Some_elem_of]. apply list_elem_of_filter in Hp as [[_ <-] Hin].
  apply list_elem_of_fmap. by exists p.
Qed.

Section Settled.

Context (f0 : F) (s0 : Store) (Hset : settled f0 s0).

Definition still (w : world) : Prop :=
  folder (files w) = f0 /\ compared (store w) = compared s0
  /\ nothing_raised s0 (store w) /\ scanning_mirror s0 (store w).

Notation P := still.

(** *** Steps that change nothing *)

Lemma still_read {A} (q : Store -> result A ClientSyncError) : calm P (read q).
Proof. by intros w. Qed.

Lemma still_now : calm P Observation.now.
Proof. by intros w. Qed.

Lemma still_observe {A} (get : Observer W -> A) : calm P (Observation.observe get).
Proof. by intros w. Qed.

Lemma still_pending b : calm P (Observation.set_pending b).
Proof. by intros w. Qed.

Lemma still_started b : calm P (Observation.set_started b).
Proof. by intros w. Qed.

Lemma still_watcher {A} (op : W -> W * result A ClientSyncError) : calm P (Observation.on_watcher op).
Proof. intros w Hw. unfold Observation.on_watcher, fs. by destruct (op _). Qed.

Lemma still_outcome {A} (m : M (Host F W) A) : calm P m -> calm P (Observation.outcome m).
Proof. intros Hm. apply calm_inspecting; [done|]. intros r. apply calm_ret. Qed.

Lemma still_call {A} (t : tx A) :
  keeps (fun s => (compared s, observation_issues s, observation_scan_work (observation s))) t ->
  calm P (call t).
Proof.
  intros Ht. apply calm_call; [|done]. intros w s a (Hf & Hc & Hi & Hk) Hr.
  pose proof (Ht _ _ _ _ Hr) as [[H1 H2]%pair_equal_spec H3]%pair_equal_spec.
  split_and!; [done|by cbn; rewrite H1| |]; cbn; unfold nothing_raised, scanning_mirror;
    rewrite ?H2, ?H3; done.
Qed.

#[local] Hint Resolve still_read still_now still_observe still_pending still_started still_watcher
  still_outcome : calms.

Ltac quietly := walk ltac:(apply still_call).

(** A look at the folder. *)
Lemma still_look {A} (op : F -> F * result A ClientSyncError) :
  (op f0).1 = f0 -> gives P (Observation.on_folder op) (fun a => (op f0).2 = Ok a).
Proof.
  intros Hop w (Hf & Hrest). unfold Observation.on_folder, fs, through. rewrite Hf.
  destruct (op f0) as [f r]. cbn in *. subst f. split; [done|]. by intros a ->.
Qed.

Lemma still_look_outcome {A} (op : F -> F * result A ClientSyncError) :
  (op f0).1 = f0 -> gives P (Observation.outcome (Observation.on_folder op)) (fun r => r = (op f0).2).
Proof.
  intros Hop w (Hf & Hrest). unfold Observation.outcome, inspecting, Observation.on_folder, fs, through.
  rewrite Hf. destruct (op f0) as [f r]. cbn in *. subst f. split; [done|]. by intros a [= <-].
Qed.

(** A query over the compared tables has the value it had. *)
Lemma still_query {A} (q : Store -> result A ClientSyncError) :
  (forall s s', compared s = compared s' -> q s = q s') -> gives P (read q) (fun a => q s0 = Ok a).
Proof.
  intros Hq w Hw. split; [by apply still_read|]. cbn. destruct Hw as (_ & Hc & _).
  destruct (db_fault (tick w)); [|done..]. by rewrite (Hq _ _ Hc).
Qed.

Lemma compared_fields s s' :
  compared s = compared s' ->
  local_nodes s = local_nodes s' /\ observation_nodes (observation s) = observation_nodes (observation s')
  /\ outbound_intents s = outbound_intents s' /\ local_operations s = local_operations s'.
Proof. unfold compared. by intros [[[? ?]%pair_equal_spec ?]%pair_equal_spec ?]%pair_equal_spec. Qed.

Lemma still_known path :
  gives P (Observation.observed_node_at_path scope path)
    (fun k => ObservationStore.observed_node_at_path lib path s0 = Ok k).
Proof.
  apply still_query. intros s s' (Hn & Ho & _)%compared_fields.
  unfold ObservationStore.observed_node_at_path, ObservationStore.observed_row_at,
    ObservationStore.overlay_row. by rewrite Hn, Ho.
Qed.

(** *** The root and the issues *)

Lemma unchanged_resolve : calm P (call (ObservationStore.resolve_recovered_root_observation_issues lib)).
Proof.
  apply calm_call; [|done]. intros w s a (Hf & Hc & Hi & Hk) Hr.
  unfold ObservationStore.resolve_recovered_root_observation_issues, ObservationStore.resolve_rows in Hr.
  repeat tx_step Hr. apply update_ok in Hr as ->. split_and!; [done..| |done].
  intros row Hin Hopen. cbn in Hin. apply list_elem_of_fmap in Hin as (old & -> & Hin).
  destruct (_ && _); [done|]. by apply Hi.
Qed.

Lemma still_validate : calm P (Observation.validate_root_or_stop scope).
Proof.
  eapply calm_value; [apply still_look_outcome, Hset|]. intros r ->.
  pose proof (settled_root _ _ Hset). destruct (validate_root f0).2; [apply unchanged_resolve|done].
Qed.

#[local] Hint Resolve still_validate : calms.

Lemma still_inspect path found :
  (inspect path f0).2 = Ok found ->
  gives P (Observation.inspect_for_observation scope path) (fun v => v = found).
Proof.
  intros Hf. eapply gives_bind; [apply still_look_outcome, Hset|]. intros r ->. rewrite Hf. by apply gives_ret.
Qed.

(** *** A path *)

Lemma present_fingerprint path known :
  ObservationStore.observed_node_at_path lib path s0 = Ok (Some known) ->
  is_some (observed_fingerprint known) = observed_present known.
Proof.
  unfold ObservationStore.observed_node_at_path, ObservationStore.decode_observed_node.
  destruct (ObservationStore.observed_row_at _ _ _) as [[key row]|]; [|done]. intros Hd.
  destruct (Nodes.decode_local_node _) as [node|]; [|done].
  destruct (match ObservationStore.overlay_row _ _ _ with Some _ => _ | None => _ end); [|done].
  cbv zeta in Hd. revert Hd. generalize (from_option overlay_fingerprint (Apply.local_node_fingerprint node)
    (ObservationStore.overlay_row lib (key, row).1.2 s0)) as fingerprint.
  generalize (from_option overlay_present (LocalNode.present node)
    (ObservationStore.overlay_row lib (key, row).1.2 s0)) as present.
  intros present fingerprint. unfold ObservationStore.validate_observed_fingerprint.
  by destruct present, fingerprint; cbn; intros [= <-].
Qed.

Lemma mirrored_known path : ObservationStore.observed_node_at_path lib path s0 = Ok None -> ~ mirrored s0 path.
Proof.
  unfold ObservationStore.observed_node_at_path, mirrored. intros Hk [p Hp]. rewrite Hp in Hk.
  by destruct (ObservationStore.decode_observed_node _ _).
Qed.

(** An [UPDATE] of the states of intents that concerns none of them. *)
Lemma states_kept which to s now s' b :
  (forall id row, outbound_intents s !! id = Some row -> which id row = false) ->
  OutboundStore.update_states which to now s = Ok (s', b) ->
  compared s' = compared s /\ observation_issues s' = observation_issues s
  /\ observation s' = observation s.
Proof.
  intros Hw Hr. unfold OutboundStore.update_states in Hr. repeat tx_step Hr.
  cbn [update tx_ret] in Hr. injection Hr as <- _. split_and!; [|done..].
  unfold compared. cbn. do 2 f_equal. apply map_eq. intros id. rewrite map_lookup_imap.
  destruct (outbound_intents s !! id) as [row|] eqn:Hrow; [|done]. cbn. by rewrite (Hw id row Hrow).
Qed.

Lemma still_cancel node : calm P (call (OutboundStore.cancel_pending_delete lib node)).
Proof.
  apply calm_call; [|done]. intros w s b (Hf & Hc & Hi & Hk) Hr.
  unfold OutboundStore.cancel_pending_delete in Hr. repeat tx_step Hr.
  apply states_kept in Hr as (H1 & H2 & H3).
  - split_and!; cbn; [done|by rewrite H1|unfold nothing_raised; by rewrite H2|
      unfold scanning_mirror; by rewrite H3].
  - intros id row Hrow. destruct (intent_library_id row =? lib) eqn:Hl; [|done]. apply Z.eqb_eq in Hl.
    destruct (intent_node_id row == Some node); [|done].
    destruct (decide (intent_kind row = OutboundIntentKind.DeleteOrTrashNode)) as [Hd|Hd];
      [|by rewrite bool_decide_false].
    apply compared_fields in Hc as (_ & _ & Ho & _). rewrite Ho in Hrow.
    rewrite (settled_intents _ _ Hset id row Hrow Hl); [by rewrite andb_false_r|]. rewrite Hd. set_solver.
Qed.

Lemma still_suppression path actual : calm P (Observation.suppression_matches scope path actual).
Proof.
  apply calm_bind; [auto with calms|intros l].
  induction l as [|x l IH]; cbn [Observation.any_suppression]; [apply calm_ret|].
  destruct (negb _); [by destruct (_ && _); [apply calm_ret|]|]. destruct (actual != _); [done|].
  apply calm_bind; [apply still_read|intros known]. by destruct (is_some_and _ _); [apply calm_ret|].
Qed.

(** A mirrored path shows what is known of it. *)
Lemma still_classify path : mirrored s0 path -> calm P (Observation.classify_path scope path).
Proof.
  intros Hm. unfold Observation.classify_path. destruct (Notify.is_control_path path); [apply calm_ret|].
  apply calm_bind; [auto with calms|intros ambiguous]. destruct ambiguous; [apply calm_ret|].
  destruct (settled_paths _ _ Hset path Hm) as (found & Hf & Hk).
  eapply calm_value; [by apply still_inspect|]. intros v ->.
  apply calm_bind; [apply still_suppression|intros suppressed].
  destruct suppressed; [apply calm_ret|].
  eapply calm_value; [apply still_known|]. intros [known|] Hn; [|by apply mirrored_known in Hn].
  specialize (Hk known Hn). pose proof (present_fingerprint path known Hn) as Hp. rewrite Hk in Hp.
  destruct found as [fingerprint|]; cbn in Hp; [|rewrite <- Hp; apply calm_ret].
  unfold Observation.classify_known_present. rewrite <- Hp, Hk, bool_decide_true by done.
  apply calm_bind; [apply still_cancel|intros _; apply calm_ret].
Qed.

(** *** A directory *)

Lemma insert_mirrored name child l :
  mirrored s0 child -> Forall (fun e : rstring * rstring => mirrored s0 e.2) l ->
  Forall (fun e : rstring * rstring => mirrored s0 e.2) (insert_entry name child l).
Proof.
  intros Hc. induction 1 as [|e l He Hl IH]; cbn [insert_entry]; [by constructor|].
  destruct (bytes_ltb _ _); [by repeat constructor|]. destruct (name == e.1); by constructor.
Qed.

Lemma keep_mirrored maximum name child l :
  mirrored s0 child -> Forall (fun e : rstring * rstring => mirrored s0 e.2) l ->
  Forall (fun e : rstring * rstring => mirrored s0 e.2) (keep_entry maximum name child l).
Proof.
  intros Hc Hl. unfold keep_entry. pose proof (insert_mirrored name child l Hc Hl).
  destruct (_ <? _); [by apply Forall_take|done].
Qed.

Lemma still_collect work names : forall candidates,
  Forall (listed s0 (work_relative_path work)) names ->
  Forall (fun e : rstring * rstring => mirrored s0 e.2) candidates ->
  gives P (Observation.collect_entries scope config work candidates names)
    (Forall (fun e : rstring * rstring => mirrored s0 e.2)).
Proof.
  induction names as [|name names IH]; intros candidates Hn Hc; [by apply gives_ret|].
  apply Forall_cons in Hn as [(n & -> & Hl) Hn]. cbn [Observation.collect_entries].
  destruct (_ || _) eqn:Hskip; [by apply IH|]. apply orb_false_iff in Hskip as [_ Hskip].
  destruct Hl as [Hl|(child & Hp & Hm)]; [by rewrite Hskip in Hl|]. rewrite Hp.
  apply IH; [done|by apply keep_mirrored].
Qed.

Lemma still_batch work names :
  Forall (listed s0 (work_relative_path work)) names ->
  gives P (Observation.scan_batch scope config work names)
    (fun b => Forall (mirrored s0) (map snd b.1)).
Proof.
  intros Hn. eapply gives_bind; [by apply still_collect|]. intros l Hl.
  assert (Forall (mirrored s0) (map snd (take (Z.to_nat (ObservationConfig.scan_batch_entries config)) l)))
    by (by apply Forall_map, Forall_take).
  destruct (_ <? _); [|by apply gives_ret].
  eapply gives_seq; [apply calm_lift|]. intros e. by apply gives_ret.
Qed.

Lemma still_seen generation known : calm P (Observation.mark_seen scope generation known).
Proof. destruct known; cbn; quietly. Qed.

Lemma still_children generation children :
  Forall (mirrored s0) children ->
  gives P (Observation.classify_children scope generation children) (Forall (mirrored s0)).
Proof.
  induction 1 as [|child children Hm Hc IH]; cbn [Observation.classify_children]; [by apply gives_ret|].
  eapply gives_seq; [apply still_read|intros known]. eapply gives_seq; [by apply still_classify|intros _].
  eapply gives_seq; [apply still_seen|intros _].
  eapply gives_seq; [eapply gives_calm, still_look_outcome, Hset|intros found].
  eapply gives_bind; [apply IH|intros more Hmore]. apply gives_ret.
  repeat case_match; try done. by constructor.
Qed.

Lemma add_mirrored generation children : forall work,
  Forall (mirrored s0) children ->
  (forall g path c, work !! (lib, g, path) = Some c -> mirrored s0 path) ->
  forall g path c, ObservationStore.add_work lib generation children work !! (lib, g, path) = Some c ->
    mirrored s0 path.
Proof.
  induction children as [|child children IH]; intros work Hc Hw; [done|].
  apply Forall_cons in Hc as [Hm Hc]. unfold ObservationStore.add_work. cbn [foldl].
  apply IH; [done|]. destruct (work !! (lib, generation, child)); [done|].
  intros g path c. destruct (decide ((lib, generation, child) = (lib, g, path))) as [[= -> ->]|Hne];
    [done|]. rewrite lookup_insert_ne by done. apply Hw.
Qed.

Lemma still_complete generation work cursor children :
  mirrored s0 (work_relative_path work) -> Forall (mirrored s0) children ->
  calm P (call (ObservationStore.complete_observation_scan_work lib generation work cursor children)).
Proof.
  intros Hm Hc. apply calm_call; [|done]. intros w s u (Hf & Ht & Hi & Hk) Hr.
  unfold ObservationStore.complete_observation_scan_work in Hr. cbv zeta in Hr.
  destruct cursor as [cursor|]; repeat tx_step Hr; apply update_ok in Hr as ->;
    (split_and!; [done|done|done|]); intros g path c; cbn.
  - destruct (decide ((lib, generation, work_relative_path work) = (lib, g, path))) as [[= <- <-]|Hne];
      [done|]. rewrite lookup_insert_ne by done. apply Hk.
  - apply add_mirrored; [done|]. intros g' path' c' Hl. apply lookup_delete_Some in Hl as [_ Hl]. by eapply Hk.
Qed.

Lemma still_directory generation work fingerprint :
  mirrored s0 (work_relative_path work) ->
  (inspect (work_relative_path work) f0).2 = Ok (Some fingerprint) ->
  LocalFingerprint.kind fingerprint = LocalFingerprint.Directory ->
  calm P (Observation.scan_directory scope config generation work).
Proof.
  intros Hm Hf Hd. destruct (settled_listing _ _ Hset _ _ Hm Hf Hd) as [Hl Hn].
  unfold Observation.scan_directory. cbv zeta.
  eapply calm_value; [apply still_look, Hset|]. intros symlink Hs. rewrite Hl in Hs. injection Hs as <-.
  eapply calm_value; [apply still_look, Hset|]. intros names Hnames.
  eapply calm_value; [by apply still_batch, Hn|]. intros [selected cursor] Hsel.
  eapply calm_value; [by apply still_children|]. intros directories Hdirs. by apply still_complete.
Qed.

Lemma still_work generation work :
  mirrored s0 (work_relative_path work) ->
  calm P (Observation.reconcile_directory_work scope config generation work).
Proof.
  intros Hm. unfold Observation.reconcile_directory_work. cbv zeta.
  apply calm_bind; [apply still_read|intros known]. apply calm_bind; [apply still_seen|intros _].
  destruct (settled_paths _ _ Hset _ Hm) as (found & Hf & _).
  eapply calm_value; [by apply still_inspect|]. intros v ->.
  destruct (is_some_and found _) eqn:Hd.
  - destruct found as [fingerprint|]; [|done]. cbn in Hd. apply bool_decide_eq_true in Hd.
    by eapply still_directory.
  - apply calm_bind; [by apply still_classify|intros _]. by apply still_complete.
Qed.

(** *** Nodes and creates that the scan did not come by *)

Lemma no_creates generation s :
  compared s = compared s0 -> ObservationStore.unseen_creates lib generation s = [].
Proof.
  intros (_ & _ & Ho & _)%compared_fields. unfold ObservationStore.unseen_creates.
  apply elem_of_nil_inv. intros [id row] [Hp Hin]%list_elem_of_filter. apply elem_of_map_to_list in Hin. cbn in *.
  destruct Hp as (Hl & Hk & Hs & _). rewrite Ho in Hin.
  assert (OutboundStore.unsubmitted row = false) as Hu.
  { eapply (settled_intents _ _ Hset); [done..|]. set_solver. }
  apply bool_decide_eq_false in Hu. done.
Qed.

Lemma still_creates generation maximum :
  gives P (read (ObservationStore.unseen_active_create_intents lib generation maximum)) (fun l => l = []).
Proof.
  intros w Hw. split; [by apply still_read|]. intros l. cbn. destruct (db_fault (tick w)); [|done..].
  unfold ObservationStore.unseen_active_create_intents. rewrite no_creates by apply Hw.
  destruct (sequence_i64 _); [|done]. cbn. rewrite take_nil. by intros [= <-].
Qed.

Lemma still_more generation maximum :
  0 <= maximum ->
  gives P (read (ObservationStore.has_more_unseen_active_create_intents lib generation maximum))
    (fun b => b = false).
Proof.
  intros Hm w Hw. split; [by apply still_read|]. intros b. cbn. destruct (db_fault (tick w)); [|done..].
  unfold ObservationStore.has_more_unseen_active_create_intents. rewrite no_creates by apply Hw.
  destruct (sequence_i64 _); [|done]. cbn. intros [= <-]. apply Z.ltb_ge. done.
Qed.

Lemma still_guard generation nodes :
  0 <= ObservationConfig.scan_batch_entries config ->
  calm P (Observation.guard_unpaired_scan_renames scope config generation nodes).
Proof.
  intros Hm. unfold Observation.guard_unpaired_scan_renames. destruct (is_empty nodes); [apply calm_ret|].
  cbv zeta. eapply calm_value; [apply still_creates|]. intros l ->.
  eapply (calm_value _ _ _ (fun b => b = false)).
  - destruct (_ =? _); [by apply still_more|by apply gives_ret].
  - intros b ->. apply calm_each. intros node. unfold Observation.guard_unpaired_node. cbv zeta.
    apply calm_bind; [apply still_read|intros known]. destruct known; [apply calm_ret|].
    eapply (calm_value _ _ _ (fun l => l = [])); [by apply gives_ret|]. intros l ->. apply calm_ret.
Qed.

Lemma node_mirrored node known :
  ObservationStore.observed_node lib node s0 = Ok (Some known) ->
  mirrored s0 (observed_relative_path known).
Proof.
  unfold ObservationStore.observed_node. destruct (Nodes.local_row lib node s0) as [row|] eqn:Hrow; [|done].
  intros Hd. destruct (ObservationStore.decode_observed_node _ _) as [v|] eqn:Hv; [|done].
  injection Hd as ->. assert (from_option overlay_path (LocalNode.relative_path (row_node row))
    (ObservationStore.overlay_row lib node s0) = observed_relative_path known) as Hp.
  { unfold ObservationStore.decode_observed_node in Hv.
    destruct (Nodes.decode_local_node row) as [n|] eqn:Hn; [|done]. apply decode_local_ok in Hn as ->.
    destruct (ObservationStore.overlay_row lib node s0) as [o|]; cbn in Hv |- *.
    - destruct (Path.new (overlay_path o)) as [q|] eqn:Hq; [|done]. apply Path.new_managed in Hq as [-> _].
      destruct (ObservationStore.validate_observed_fingerprint _ _); [|done]. by injection Hv as <-.
    - destruct (ObservationStore.validate_observed_fingerprint _ _); [|done]. by injection Hv as <-. }
  unfold mirrored, ObservationStore.observed_row_at. apply head_is_Some. intros Hnil.
  apply (not_elem_of_nil ((lib, node), row)). rewrite <- Hnil. apply list_elem_of_filter. cbn.
  split; [done|]. by apply elem_of_map_to_list.
Qed.

Lemma still_unseen generation node : calm P (Observation.scan_unseen_node scope generation node).
Proof.
  unfold Observation.scan_unseen_node. eapply calm_value.
  { apply (still_query (ObservationStore.observed_node lib (LocalNode.node_id node))).
    intros s s' (Hn & Ho & _)%compared_fields. unfold ObservationStore.observed_node, Nodes.local_row,
      ObservationStore.overlay_row. by rewrite Hn, Ho. }
  intros found Hf. destruct found as [known|]; cbn [ok_or]; [|apply calm_dead; by intros w].
  eapply (calm_value _ _ _ (fun k => k = known)); [by apply gives_lift; intros k [= <-]|]. intros k ->.
  apply calm_bind; [apply still_classify; by eapply node_mirrored|intros _]. quietly.
Qed.

(** *** The scan *)

Lemma still_next generation :
  gives P (read (ObservationStore.next_observation_scan_work lib generation))
    (fun o => forall work, o = Some work -> mirrored s0 (work_relative_path work)).
Proof.
  intros w Hw. split; [by apply still_read|]. intros o. cbn. destruct (db_fault (tick w)); [|done..].
  unfold ObservationStore.next_observation_scan_work. destruct (sequence_i64 _); [|done]. cbn.
  destruct (head _) as [[path cursor]|] eqn:Hh; [|by intros [= <-]].
  destruct (is_some_and _ _); [done|]. destruct (Path.new path) as [q|] eqn:Hq; [|done].
  apply Path.new_managed in Hq as [-> _]. intros [= <-] work [= <-]. cbn.
  assert ((path, cursor) ∈ ObservationStore.work_of lib generation (store w)) as Hin.
  { apply head_Some_elem_of in Hh. by rewrite merge_sort_Permutation in Hh. }
  unfold ObservationStore.work_of in Hin. apply list_elem_of_omap in Hin as ([[[l g] p] c] & Hin & He).
  cbn in He. destruct (_ && _) eqn:Hlg; [|done]. injection He as -> ->.
  apply andb_prop in Hlg as [->%Z.eqb_eq _]. apply elem_of_map_to_list in Hin. by eapply Hw.
Qed.

Lemma still_unit generation :
  0 <= ObservationConfig.scan_batch_entries config ->
  calm P (Observation.scan_unit scope config generation).
Proof.
  intros Hm. unfold Observation.scan_unit. cbv zeta. eapply calm_value; [apply still_next|].
  intros [work|] Hwork; [by apply still_work, Hwork|].
  apply calm_bind; [apply still_read|intros unseen]. destruct (negb _).
  - apply calm_bind; [by apply still_guard|intros _]. apply calm_each, still_unseen.
  - eapply calm_value; [apply still_creates|]. intros l ->. cbn [is_empty].
    unfold ObservationStore.finish_reconciliation, ObservationStore.retire_observation_suppressions.
    quietly.
Qed.

Lemma still_begin : calm P (call (ObservationStore.begin_scan lib)).
Proof.
  apply calm_call; [|done]. intros w s u (Hf & Hc & Hi & Hk) Hr.
  unfold ObservationStore.begin_scan in Hr. repeat tx_step Hr.
  destruct (ObservationStore.state_row lib (store w)) as [current|]; [|done].
  destruct (_ && _); [|by injection Hr as <- _]. cbv zeta in Hr. repeat tx_step Hr.
  unfold ObservationStore.put_state in Hr. apply update_ok in Hr as ->.
  split_and!; [done|done|done|]. intros g path c. cbn.
  destruct (decide ((lib, scan_generation current + 1, []) = (lib, g, path))) as [[= <- <-]|Hne];
    [intros _; apply Hset|]. rewrite lookup_insert_ne by done.
  intros [Hl _]%map_lookup_filter_Some. by eapply Hk.
Qed.

Lemma still_idle : calm P (Observation.require_no_operations scope).
Proof.
  eapply calm_value.
  { apply (still_query (Ops.unfinished_operations lib)). intros s s' (_ & _ & _ & Ho)%compared_fields.
    unfold Ops.unfinished_operations, Ops.operation_rows. by rewrite Ho. }
  intros rows Hr. rewrite (settled_operations _ _ Hset rows Hr). apply calm_ret.
Qed.

Lemma still_once :
  0 <= ObservationConfig.scan_batch_entries config -> calm P (Observation.reconcile_once_inner scope config).
Proof.
  intros Hm. apply calm_bind; [apply still_validate|intros _]. apply calm_bind; [apply still_idle|intros _].
  apply calm_bind; [apply calm_bind; [apply still_begin|intros _; apply still_read]|intros state].
  destruct (negb _); [apply calm_ret|]. apply calm_bind; [by apply still_unit|intros _]. apply still_read.
Qed.

Lemma still_notify : calm P (Observation.notify_pending_durable_change wake).
Proof.
  apply calm_bind; [auto with calms|intros pending]. apply calm_bind; [auto with calms|intros _].
  destruct (negb pending); [apply calm_ret|]. by intros w.
Qed.

#[local] Hint Resolve still_once still_notify still_idle : calms.

Lemma still_enter entry :
  0 <= ObservationConfig.scan_batch_entries config ->
  entry = Observation.Start \/ entry = Observation.Reconcile ->
  calm P (Observation.enter scope config wake entry).
Proof.
  intros Hm [->| ->]; cbn [Observation.enter].
  - unfold Observation.start_with_notification, Observation.start_watcher,
      Observation.reconcile_once_with_notification, Observation.notifying,
      ObservationStore.require_reconciliation, ObservationStore.mark_rescan. quietly.
  - unfold Observation.reconcile_once_with_notification, Observation.notifying. quietly.
Qed.

End Settled.

(** The world after some calls of the observer. *)
Definition after_calls (entries : list Observation.EntryPoint) (w : world) : world :=
  foldl (fun w entry => (Observation.enter scope config wake entry w).1) w entries.

(** C18: A folder that is as the observer last knew it is scanned without effect.  However
    often scans are started and advanced, in batches of any size, whatever faults the
    database has, no intent is recorded, changed or withdrawn, what was observed stays,
    and no issue is raised. *)
Theorem quiet_scan entries (w : world) :
  0 <= ObservationConfig.scan_batch_entries config ->
  settled (folder (files w)) (store w) -> scanning_mirror (store w) (store w) ->
  Forall (fun entry => entry = Observation.Start \/ entry = Observation.Reconcile) entries ->
  let w' := after_calls entries w in
  folder (files w') = folder (files w)
  /\ outbound_intents (store w') = outbound_intents (store w)
  /\ observation_nodes (observation (store w')) = observation_nodes (observation (store w))
  /\ nothing_raised (store w) (store w').
Proof.
  intros Hm Hset Hscan He. cbv zeta.
  assert (still (folder (files w)) (store w) (after_calls entries w)) as (Hf & Hc & Hi & _).
  { assert (still (folder (files w)) (store w) w) as Hw by (by split_and!; [..|intros row Hin|]).
    unfold after_calls. revert Hw. generalize w at 3 6 as w1. induction He as [|entry entries He _ IH]; intros w1 Hw; [done|].
    apply IH. by apply (still_enter _ _ Hset). }
  apply compared_fields in Hc as (_ & Ho & Hin & _). done.
Qed.

End Quiet.
