(* ===== verification/Runtime.v ===== *)
(** * The runtime

    [client-sync/src/runtime.rs]: one supervisor that runs the cycles of the
    registered libraries, at most one per library and a bounded number at a time,
    on wakes, timers and backoff.  Durations and instants are nanoseconds.

    The calls of the control plane, the supervisor, the cycles in flight and the
    clock interleave.  A call holds its locks from the first access to the shared
    state to the last and is one step; the supervisor takes one step from one lock
    or wait to the next ([Stage]).  A permit of [tokio::sync::Notify] is a flag.
    The executor of a library is a type parameter: a cycle is in flight until it
    returns any result or panics. *)

From S2P Require Import Prelude Vocabulary Models Rebaseline SyncTypes ClientPaths ClientStore.
From S2P Require Import SyncWorld Candidates Inbound Cycle Disk OutboundTypes OutboundStore.
From S2P Require Import ObservationStore Watchers Observation.

(** ** Configuration *)

Definition milliseconds (n : Z) : Z := n * 1000000.
Definition seconds (n : Z) : Z := n * 1000000000.

(** [Duration::MAX]. *)
Definition duration_max : Z := 2 ^ 64 * 1000000000 - 1.

Definition DEFAULT_SYNC_RUNTIME_POLL_INTERVAL : Z := seconds 30.
Definition DEFAULT_SYNC_RUNTIME_TRANSIENT_BACKOFF_INITIAL : Z := seconds 1.
Definition DEFAULT_SYNC_RUNTIME_TRANSIENT_BACKOFF_MAX : Z := seconds 60.
Definition DEFAULT_SYNC_RUNTIME_RATE_LIMIT_FALLBACK : Z := seconds 30.
Definition DEFAULT_SYNC_RUNTIME_MAX_CONCURRENT_LIBRARIES : Z := 4.
Definition MIN_SYNC_RUNTIME_POLL_INTERVAL : Z := seconds 1.
Definition MAX_SYNC_RUNTIME_DELAY : Z := seconds (60 * 60).
Definition MAX_SYNC_RUNTIME_CONCURRENT_LIBRARIES : Z := 1024.
Definition MAX_SYNC_RUNTIME_LIBRARIES : Z := 4096.
Definition FAIR_FOLLOW_UP_DELAY : Z := milliseconds 1.
Definition NO_DEADLINE_WAIT : Z := seconds (24 * 60 * 60).

Inductive SyncRuntimeConfigError : Type :=
| PollIntervalTooShort | PollIntervalTooLong | TransientBackoffInitialZero
| TransientBackoffInitialTooLong | TransientBackoffMaximumZero | TransientBackoffMaximumTooLong
| TransientBackoffOrder | RateLimitFallbackZero | RateLimitFallbackTooLong | ConcurrencyZero
| ConcurrencyTooHigh.

Module SyncRuntimeConfig.

Record t := mk {
  poll_interval : Z; transient_backoff_initial : Z; transient_backoff_max : Z;
  rate_limit_fallback : Z; max_concurrent_libraries : Z }.

Definition new (poll initial maximum fallback concurrency : Z) : result t SyncRuntimeConfigError :=
  if poll <? MIN_SYNC_RUNTIME_POLL_INTERVAL then Err PollIntervalTooShort
  else if MAX_SYNC_RUNTIME_DELAY <? poll then Err PollIntervalTooLong
  else if initial =? 0 then Err TransientBackoffInitialZero
  else if MAX_SYNC_RUNTIME_DELAY <? initial then Err TransientBackoffInitialTooLong
  else if maximum =? 0 then Err TransientBackoffMaximumZero
  else if MAX_SYNC_RUNTIME_DELAY <? maximum then Err TransientBackoffMaximumTooLong
  else if maximum <? initial then Err TransientBackoffOrder
  else if fallback =? 0 then Err RateLimitFallbackZero
  else if MAX_SYNC_RUNTIME_DELAY <? fallback then Err RateLimitFallbackTooLong
  else if concurrency =? 0 then Err ConcurrencyZero
  else if MAX_SYNC_RUNTIME_CONCURRENT_LIBRARIES <? concurrency then Err ConcurrencyTooHigh
  else Ok (mk poll initial maximum fallback concurrency).

Definition default : t :=
  mk DEFAULT_SYNC_RUNTIME_POLL_INTERVAL DEFAULT_SYNC_RUNTIME_TRANSIENT_BACKOFF_INITIAL
    DEFAULT_SYNC_RUNTIME_TRANSIENT_BACKOFF_MAX DEFAULT_SYNC_RUNTIME_RATE_LIMIT_FALLBACK
    DEFAULT_SYNC_RUNTIME_MAX_CONCURRENT_LIBRARIES.

End SyncRuntimeConfig.

(** ** Wakes, outcomes and phases *)

Module WakeReason.

Inductive t : Type :=
| Startup | LocalChange | Manual | Periodic | NetworkAvailable | RootAvailable | CredentialChanged
| PreviousProgress.

#[global] Instance t_eq_dec : EqDecision t.
Proof. solve_decision. Defined.

Definition priority (self : t) : Z :=
  match self with
  | Startup => 1
  | PreviousProgress => 2
  | Periodic => 3
  | LocalChange => 4
  | NetworkAvailable => 5
  | RootAvailable => 6
  | Manual => 7
  | CredentialChanged => 8
  end.

End WakeReason.

Definition was_accepted (self : SyncRuntimeWakeResult) : bool :=
  match self with Queued | Coalesced | AlreadyRunningFollowupRecorded => true | _ => false end.

Module RuntimeOutcome.

Inductive t : Type :=
| Idle | Progress | ConflictBlocked | Offline | ServerTransient | RateLimited | AuthBlocked
| RootUnavailable | RecoveryBlocked | FatalLocal | Panicked.

#[global] Instance t_eq_dec : EqDecision t.
Proof. solve_decision. Defined.

End RuntimeOutcome.

Module LibraryPhase.

Inductive t : Type :=
| Idle | Scheduled | Running | BackingOff | AuthBlocked | RootBlocked | Faulted | Stopped.

#[global] Instance t_eq_dec : EqDecision t.
Proof. solve_decision. Defined.

End LibraryPhase.

Inductive SyncRuntimeControlState : Type := ControlRunning | ControlPausedByUser.

Inductive SyncRuntimeEvent : Type :=
| EventStarted | EventStopping | EventStopped | EventTaskFaulted
| EventControlState (state : SyncRuntimeControlState)
| EventCycleStarted (library_id : Z)
| EventCycleFinished (library_id : Z) (outcome : RuntimeOutcome.t)
| EventBackoff (library_id : Z) (outcome : RuntimeOutcome.t) (delay : Z)
| EventAuthBlocked (library_id : Z)
| EventFaulted (library_id : Z).

Inductive SyncRuntimeRegistration : Type := Registered | AlreadyRegistered.
Inductive SyncRuntimeUnregistration : Type := Unregistered | AlreadyUnregistered.

Inductive SyncRuntimeError : Type :=
| AlreadyRunning | StoppingError | NotRunning | NotRegistered | TooManyLibraries
| TokioRuntimeUnavailable | TaskPanicked.

Inductive LifecyclePhase : Type := LifecycleStopped | LifecycleRunning | LifecycleStopping.

#[global] Instance LifecyclePhase_eq_dec : EqDecision LifecyclePhase.
Proof. solve_decision. Defined.

(** ** The state of a library *)

Record LibraryState := mk_LibraryState {
  phase : LibraryPhase.t; running : bool; next_due : option Z;
  pending_wake : option WakeReason.t; transient_failures : Z;
  last_outcome : option RuntimeOutcome.t; first_sync_completed : bool }.

Module LibraryStates.

Definition new : LibraryState := mk_LibraryState LibraryPhase.Stopped false None None 0 None true.

Definition reset_for_start (now : Z) (s : LibraryState) : LibraryState :=
  mk_LibraryState LibraryPhase.Scheduled false (Some now) None 0 None (first_sync_completed s).

(** [state.phase = ..; state.next_due = ..]. *)
Definition scheduled (p : LibraryPhase.t) (due : option Z) (s : LibraryState) : LibraryState :=
  mk_LibraryState p (running s) due (pending_wake s) (transient_failures s) (last_outcome s)
    (first_sync_completed s).

Definition set_pending (pending : option WakeReason.t) (s : LibraryState) : LibraryState :=
  mk_LibraryState (phase s) (running s) (next_due s) pending (transient_failures s)
    (last_outcome s) (first_sync_completed s).

Definition set_failures (failures : Z) (s : LibraryState) : LibraryState :=
  mk_LibraryState (phase s) (running s) (next_due s) (pending_wake s) failures (last_outcome s)
    (first_sync_completed s).

Definition set_first_sync (completed : bool) (s : LibraryState) : LibraryState :=
  mk_LibraryState (phase s) (running s) (next_due s) (pending_wake s) (transient_failures s)
    (last_outcome s) completed.

(** [state.running = false; state.last_outcome = Some(outcome)]. *)
Definition ended (outcome : RuntimeOutcome.t) (s : LibraryState) : LibraryState :=
  mk_LibraryState (phase s) false (next_due s) (pending_wake s) (transient_failures s)
    (Some outcome) (first_sync_completed s).

(** A cycle begins. *)
Definition begun (s : LibraryState) : LibraryState :=
  mk_LibraryState LibraryPhase.Running true None None (transient_failures s) (last_outcome s)
    (first_sync_completed s).

(** The supervisor has ended. *)
Definition stopped (s : LibraryState) : LibraryState :=
  mk_LibraryState LibraryPhase.Stopped false None None (transient_failures s) (last_outcome s)
    (first_sync_completed s).

End LibraryStates.

Import LibraryStates.

(** ** Scheduling decisions *)

Definition merge_wake (existing : option WakeReason.t) (incoming : WakeReason.t) : WakeReason.t :=
  match existing with
  | None => incoming
  | Some current =>
      if WakeReason.priority current <=? WakeReason.priority incoming then incoming else current
  end.

Definition bypasses_transient_backoff (reason : WakeReason.t) : bool :=
  match reason with
  | WakeReason.Manual | WakeReason.NetworkAvailable | WakeReason.CredentialChanged => true
  | _ => false
  end.

Definition bypasses_auth_block (reason : WakeReason.t) : bool :=
  match reason with
  | WakeReason.Manual | WakeReason.CredentialChanged => true
  | _ => false
  end.

Definition checked_double (delay : Z) : option Z :=
  if 2 * delay <=? duration_max then Some (2 * delay) else None.

(** The loop of [exponential_backoff]. *)
Fixpoint doublings (maximum : Z) (n : nat) (delay : Z) : Z :=
  match n with
  | O => Z.min delay maximum
  | S n =>
      let delay := default maximum (checked_double delay) in
      if maximum <=? delay then maximum else doublings maximum n delay
  end.

Definition exponential_backoff (initial maximum failures : Z) : Z :=
  doublings maximum (Z.to_nat (Z.min failures 32 - 1)) initial.

Record ScheduleDecision := mk_ScheduleDecision {
  decided_backoff : option Z; decided_auth_blocked : bool; decided_faulted : bool }.

Section Policy.

Context (config : SyncRuntimeConfig.t).

(** The two outcomes that back off. *)
Definition back_off (pending : option WakeReason.t) (now : Z) (s : LibraryState) :
    LibraryState * ScheduleDecision :=
  let failures := Z.min (transient_failures s + 1) u32_max in
  let delay := exponential_backoff (SyncRuntimeConfig.transient_backoff_initial config)
                 (SyncRuntimeConfig.transient_backoff_max config) failures in
  let s := set_failures failures s in
  (if is_some_and pending bypasses_transient_backoff
   then scheduled LibraryPhase.Scheduled (Some now) s
   else scheduled LibraryPhase.BackingOff (Some (now + delay)) s,
   mk_ScheduleDecision (Some delay) false false).

Definition schedule_after_cycle (outcome : RuntimeOutcome.t) (pending : option WakeReason.t)
    (now : Z) (s : LibraryState) : LibraryState * ScheduleDecision :=
  let no_decision := mk_ScheduleDecision None false false in
  match outcome with
  | RuntimeOutcome.Idle | RuntimeOutcome.ConflictBlocked =>
      let s := set_failures 0 s in
      (if is_some pending
       then scheduled LibraryPhase.Scheduled (Some (now + FAIR_FOLLOW_UP_DELAY)) s
       else scheduled LibraryPhase.Idle (Some (now + SyncRuntimeConfig.poll_interval config)) s,
       no_decision)
  | RuntimeOutcome.Progress =>
      (scheduled LibraryPhase.Scheduled (Some (now + FAIR_FOLLOW_UP_DELAY)) (set_failures 0 s),
       no_decision)
  | RuntimeOutcome.Offline | RuntimeOutcome.ServerTransient | RuntimeOutcome.RecoveryBlocked =>
      back_off pending now s
  | RuntimeOutcome.RateLimited =>
      (scheduled LibraryPhase.BackingOff
         (Some (now + SyncRuntimeConfig.rate_limit_fallback config)) s,
       mk_ScheduleDecision (Some (SyncRuntimeConfig.rate_limit_fallback config)) false false)
  | RuntimeOutcome.AuthBlocked =>
      (if is_some_and pending bypasses_auth_block
       then scheduled LibraryPhase.Scheduled (Some now) s
       else set_pending pending (scheduled LibraryPhase.AuthBlocked None s),
       mk_ScheduleDecision None true false)
  | RuntimeOutcome.RootUnavailable =>
      (if pending == Some WakeReason.RootAvailable
       then set_pending None (scheduled LibraryPhase.Scheduled (Some now) s)
       else set_pending pending (scheduled LibraryPhase.RootBlocked None s),
       no_decision)
  | RuntimeOutcome.FatalLocal | RuntimeOutcome.Panicked =>
      (if pending == Some WakeReason.Manual
       then scheduled LibraryPhase.Scheduled (Some now) s
       else set_pending pending (scheduled LibraryPhase.Faulted None s),
       mk_ScheduleDecision None false true)
  end.

(** Run now, or keep the wake for later. *)
Definition queue_now (now : Z) (s : LibraryState) : LibraryState :=
  set_pending None (scheduled LibraryPhase.Scheduled (Some now) s).

Definition keep_wake (reason : WakeReason.t) (s : LibraryState) : LibraryState :=
  set_pending (Some (merge_wake (pending_wake s) reason)) s.

Definition apply_wake (reason : WakeReason.t) (now : Z) (s : LibraryState) :
    LibraryState * SyncRuntimeWakeResult :=
  let queue_if (b : bool) :=
    if b then (queue_now now s, Queued) else (keep_wake reason s, Coalesced) in
  if running s then (keep_wake reason s, AlreadyRunningFollowupRecorded)
  else match phase s with
       | LibraryPhase.AuthBlocked => queue_if (bypasses_auth_block reason)
       | LibraryPhase.RootBlocked =>
           queue_if (bool_decide (reason ∈ [WakeReason.RootAvailable; WakeReason.Manual]))
       | LibraryPhase.Faulted => queue_if (reason == WakeReason.Manual)
       | LibraryPhase.BackingOff =>
           queue_if ((last_outcome s != Some RuntimeOutcome.RateLimited)
                     && bypasses_transient_backoff reason)
       | _ =>
           let already_scheduled :=
             (phase s == LibraryPhase.Scheduled)
             && is_some_and (next_due s) (fun due => due <=? now) && is_none (pending_wake s) in
           (queue_now now s, if already_scheduled then Coalesced else Queued)
       end.

End Policy.

(** ** Classification of a cycle *)

Inductive CycleExecution : Type :=
| Returned (result : result SyncCycleResult.t ClientSyncError)
| PanickedExecution.

Definition classify_remote_kind (kind : RemoteErrorKind.t) : RuntimeOutcome.t :=
  match kind with
  | RemoteErrorKind.RateLimited => RuntimeOutcome.RateLimited
  | RemoteErrorKind.Offline => RuntimeOutcome.Offline
  | RemoteErrorKind.Unavailable | RemoteErrorKind.Internal | RemoteErrorKind.Timeout =>
      RuntimeOutcome.ServerTransient
  | RemoteErrorKind.AuthRequired | RemoteErrorKind.DeviceRevoked | RemoteErrorKind.Forbidden =>
      RuntimeOutcome.AuthBlocked
  | _ => RuntimeOutcome.FatalLocal
  end.

Definition classify_error (error : ClientSyncError) : RuntimeOutcome.t :=
  match error with
  | AuthenticationRequired => RuntimeOutcome.AuthBlocked
  | RootUnavailable | InvalidRoot | WrongRootBinding => RuntimeOutcome.RootUnavailable
  | HandoffTransport => RuntimeOutcome.Offline
  | Remote remote => classify_remote_kind (error_kind remote)
  | HandoffSnapshotUnavailable | HandoffCheckpointConflict | RebaselineInProgress
  | RebaselinePendingHandoff | CandidateIncomplete => RuntimeOutcome.RecoveryBlocked
  | _ => RuntimeOutcome.FatalLocal
  end.

(** The [match] on the inbound outcome, where it returns. *)
Definition classify_inbound (inbound : InboundCycleOutcome.t) : option RuntimeOutcome.t :=
  match inbound with
  | InboundCycleOutcome.RateLimited => Some RuntimeOutcome.RateLimited
  | InboundCycleOutcome.Offline => Some RuntimeOutcome.Offline
  | InboundCycleOutcome.RemoteFailure kind => Some (classify_remote_kind kind)
  | InboundCycleOutcome.Converged (ConvergenceOutcome.RecoveryBlocked reason) =>
      Some (match reason with
            | BlockedReason.RateLimited => RuntimeOutcome.RateLimited
            | BlockedReason.DidNotConverge => RuntimeOutcome.RecoveryBlocked
            end)
  | InboundCycleOutcome.Converged (ConvergenceOutcome.IncrementalProgress SyncOutcome.Blocked) =>
      Some RuntimeOutcome.FatalLocal
  | _ => None
  end.

Definition classify_outbound (outbound : OutboundCycleOutcome.t) : option RuntimeOutcome.t :=
  match outbound with
  | OutboundCycleOutcome.Attempted SubmissionOutcome.AuthRequired => Some RuntimeOutcome.AuthBlocked
  | OutboundCycleOutcome.Attempted SubmissionOutcome.Offline => Some RuntimeOutcome.Offline
  | OutboundCycleOutcome.Attempted (SubmissionOutcome.Conflict _ _)
  | OutboundCycleOutcome.Attempted (SubmissionOutcome.BlockedByConflict _) =>
      Some RuntimeOutcome.ConflictBlocked
  | OutboundCycleOutcome.Attempted (SubmissionOutcome.Blocked _) => Some RuntimeOutcome.FatalLocal
  | OutboundCycleOutcome.NotAttempted SkipReason.LocalIssue
  | OutboundCycleOutcome.NotAttempted SkipReason.ReplicaNotReady => Some RuntimeOutcome.FatalLocal
  | _ => None
  end.

Definition classify_result (r : SyncCycleResult.t) : RuntimeOutcome.t :=
  if SyncCycleResult.requires_authentication r then RuntimeOutcome.AuthBlocked
  else match classify_inbound (SyncCycleResult.inbound r) with
       | Some outcome => outcome
       | None =>
           match classify_outbound (SyncCycleResult.outbound r) with
           | Some outcome => outcome
           | None =>
               if SyncCycleResult.made_durable_progress r || SyncCycleResult.more_work_likely r
               then RuntimeOutcome.Progress else RuntimeOutcome.Idle
           end
       end.

Definition classify_execution (execution : CycleExecution) : RuntimeOutcome.t :=
  match execution with
  | PanickedExecution => RuntimeOutcome.Panicked
  | Returned (Err error) => classify_error error
  | Returned (Ok r) => classify_result r
  end.

Definition true_idle (execution : CycleExecution) : bool :=
  match execution with
  | Returned (Ok r) => SyncCycleResult.is_idle r
  | _ => false
  end.

(** ** The shared state *)

(** What [finish_cycle] carries from one lock to the next. *)
Record Finish := mk_Finish {
  finish_library : Z; finish_outcome : RuntimeOutcome.t; finish_decision : ScheduleDecision;
  finish_stopping : bool }.

(** Where the supervisor is: at the top of its loop, about to spawn, to plan its
    sleep, asleep until an instant, in [finish_cycle] (before the quiescence is
    recorded, after it was or was not, before it is revoked, before the library is
    told, before the events), or draining the cycles in flight. *)
Inductive Stage : Type :=
| AtTop | Spawning | Planning | Asleep (until : Z)
| Recording (f : Finish) | Checking (f : Finish) | Unproven (f : Finish) | Revoking (f : Finish)
| Settling (f : Finish) (first_sync : bool) | Emitting (f : Finish)
| Draining | Ending.

Record Supervisor := mk_Supervisor { active : Z; round_robin_cursor : option Z; stage : Stage }.

Record Completion := mk_Completion { completed_library : Z; completed_execution : CycleExecution }.

Section Runtime.

(** The executors ([SyncCycleExecutor]). *)
Context {X : Type}.

Record Entry := mk_Entry { runner : X; registered : bool; state : LibraryState }.

(** [libraries] are in the order of their identifiers.  [in_flight] and [completions]
    are the spawned cycles and the channel on which they report. *)
Record Runtime := mk_Runtime {
  libraries : gmap Z Entry; lifecycle : LifecyclePhase; shutdown_requested : bool;
  user_paused : bool; wake_permit : bool; shutdown_permit : bool;
  events : list SyncRuntimeEvent; clock_now : Z; supervisor : option Supervisor;
  in_flight : list Z; completions : list Completion }.

Section Setters.
Context (r : Runtime).

Definition set_libraries v : Runtime :=
  mk_Runtime v (lifecycle r) (shutdown_requested r) (user_paused r) (wake_permit r)
    (shutdown_permit r) (events r) (clock_now r) (supervisor r) (in_flight r) (completions r).
Definition set_lifecycle v requested : Runtime :=
  mk_Runtime (libraries r) v requested (user_paused r) (wake_permit r)
    (shutdown_permit r) (events r) (clock_now r) (supervisor r) (in_flight r) (completions r).
Definition set_paused v : Runtime :=
  mk_Runtime (libraries r) (lifecycle r) (shutdown_requested r) v (wake_permit r)
    (shutdown_permit r) (events r) (clock_now r) (supervisor r) (in_flight r) (completions r).
Definition set_permits wake shutdown : Runtime :=
  mk_Runtime (libraries r) (lifecycle r) (shutdown_requested r) (user_paused r) wake
    shutdown (events r) (clock_now r) (supervisor r) (in_flight r) (completions r).
Definition set_clock v : Runtime :=
  mk_Runtime (libraries r) (lifecycle r) (shutdown_requested r) (user_paused r) (wake_permit r)
    (shutdown_permit r) (events r) v (supervisor r) (in_flight r) (completions r).
Definition set_supervisor v : Runtime :=
  mk_Runtime (libraries r) (lifecycle r) (shutdown_requested r) (user_paused r) (wake_permit r)
    (shutdown_permit r) (events r) (clock_now r) v (in_flight r) (completions r).
Definition set_cycles flying reported : Runtime :=
  mk_Runtime (libraries r) (lifecycle r) (shutdown_requested r) (user_paused r) (wake_permit r)
    (shutdown_permit r) (events r) (clock_now r) (supervisor r) flying reported.
Definition emit_all l : Runtime :=
  mk_Runtime (libraries r) (lifecycle r) (shutdown_requested r) (user_paused r) (wake_permit r)
    (shutdown_permit r) (events r ++ l) (clock_now r) (supervisor r) (in_flight r) (completions r).

(** [wake_notify.notify_one()]. *)
Definition notify_wake : Runtime := set_permits true (shutdown_permit r).

End Setters.

Definition set_state (e : Entry) (s : LibraryState) : Entry := mk_Entry (runner e) (registered e) s.

(** [libraries.get_mut(&id)] and a change of the state found there. *)
Definition alter_state (f : LibraryState -> LibraryState) (id : Z) (libs : gmap Z Entry) :
    gmap Z Entry :=
  alter (fun e => set_state e (f (state e))) id libs.

Definition new_runtime (at_ : Z) : Runtime :=
  mk_Runtime ∅ LifecycleStopped false false false false [] at_ None [] [].

(** *** The control plane *)

Definition with_first_sync (x : X) (start_at : option Z) (first_sync : bool) : Entry :=
  let s := set_first_sync first_sync LibraryStates.new in
  mk_Entry x true (from_option (fun at_ => reset_for_start at_ s) s start_at).

Definition register_executor_with_first_sync (library : X -> Z) (x : X) (first_sync : bool)
    (r : Runtime) : Runtime * result SyncRuntimeRegistration SyncRuntimeError :=
  if lifecycle r == LifecycleStopping then (r, Err StoppingError)
  else
    let started := lifecycle r == LifecycleRunning in
    match libraries r !! library x with
    | Some _ => (r, Ok AlreadyRegistered)
    | None =>
        if MAX_SYNC_RUNTIME_LIBRARIES <=? Z.of_nat (size (libraries r))
        then (r, Err TooManyLibraries)
        else
          let start_at := if (started : bool) then Some (clock_now r) else None in
          let r := set_libraries r
                     (<[library x := with_first_sync x start_at first_sync]> (libraries r)) in
          (if started then notify_wake r else r, Ok Registered)
    end.

Definition unregister_library (id : Z) (r : Runtime) :
    Runtime * result SyncRuntimeUnregistration SyncRuntimeError :=
  if lifecycle r == LifecycleStopping then (r, Err StoppingError)
  else match libraries r !! id with
       | None => (r, Ok AlreadyUnregistered)
       | Some e =>
           if negb (registered e) then (r, Ok AlreadyUnregistered)
           else
             let libs := if running (state e)
                         then <[id := mk_Entry (runner e) false (state e)]> (libraries r)
                         else delete id (libraries r) in
             (notify_wake (set_libraries r libs), Ok Unregistered)
       end.

Definition start (r : Runtime) : Runtime * result unit SyncRuntimeError :=
  match lifecycle r with
  | LifecycleRunning => (r, Err AlreadyRunning)
  | LifecycleStopping => (r, Err StoppingError)
  | LifecycleStopped =>
      let libs := (fun e => set_state e (reset_for_start (clock_now r) (state e)))
                    <$> filter (fun p => registered p.2 = true) (libraries r) in
      let r := set_lifecycle (set_libraries r libs) LifecycleRunning false in
      let r := set_supervisor r (Some (mk_Supervisor 0 None AtTop)) in
      (notify_wake (emit_all r [EventStarted]), Ok tt)
  end.

Definition request_shutdown (r : Runtime) : Runtime :=
  match lifecycle r with
  | LifecycleStopped => r
  | _ => set_permits (set_lifecycle r LifecycleStopping true) true true
  end.

Definition wake_library (id : Z) (reason : WakeReason.t) (r : Runtime) :
    Runtime * SyncRuntimeWakeResult :=
  match lifecycle r with
  | LifecycleStopped | LifecycleStopping => (r, RuntimeStopped)
  | LifecycleRunning =>
      match libraries r !! id with
      | None => (r, UnknownLibrary)
      | Some e =>
          if negb (registered e) then (r, UnknownLibrary)
          else if user_paused r
          then
            (if reason != WakeReason.Manual
             then set_libraries r (<[id := set_state e (keep_wake reason (state e))]> (libraries r))
             else r, PausedByUser)
          else
            let '(s, answer) := apply_wake reason (clock_now r) (state e) in
            (notify_wake (set_libraries r (<[id := set_state e s]> (libraries r))), answer)
      end
  end.

(** The wake that was kept while the user had paused. *)
Definition resume_entry (now : Z) (e : Entry) : Entry :=
  if negb (registered e) || running (state e) then e
  else match pending_wake (state e) with
       | None => e
       | Some reason => set_state e (apply_wake reason now (set_pending None (state e))).1
       end.

Definition set_user_paused (paused : bool) (r : Runtime) : Runtime * SyncRuntimeControlState :=
  let control := if paused then ControlPausedByUser else ControlRunning in
  (if Bool.eqb (user_paused r) paused then r
   else
     let r := set_paused r paused in
     let r := if paused then r
              else set_libraries r (resume_entry (clock_now r) <$> libraries r) in
     notify_wake (emit_all r [EventControlState control]), control).

(** In the order of the identifiers. *)
Definition registered_libraries (r : Runtime) : list Z :=
  merge_sort Z.le (omap (fun p : Z * Entry => if registered p.2 then Some p.1 else None)
                     (map_to_list (libraries r))).

(** [network_available] and [credentials_changed]. *)
Definition wake_all (reason : WakeReason.t) (r : Runtime) :
    Runtime * list (Z * SyncRuntimeWakeResult) :=
  foldl (fun acc id =>
           let '(r, answer) := wake_library id reason acc.1 in (r, acc.2 ++ [(id, answer)]))
    (r, []) (registered_libraries r).

Record LibraryStatus := mk_LibraryStatus {
  status_library_id : Z; status_phase : LibraryPhase.t; status_next_due_in : option Z;
  status_last_outcome : option RuntimeOutcome.t; status_wake_pending : bool;
  status_transient_failures : Z; status_first_sync_completed : bool }.

Definition status_of (id now : Z) (s : LibraryState) : LibraryStatus :=
  mk_LibraryStatus id (phase s)
    ((fun due => if now <? due then due - now else 0) <$> next_due s)
    (last_outcome s) (is_some (pending_wake s)) (transient_failures s) (first_sync_completed s).

Definition status (id : Z) (r : Runtime) : option LibraryStatus :=
  (fun e => status_of id (clock_now r) (state e)) <$> libraries r !! id.

(** *** The supervisor *)

Context (config : SyncRuntimeConfig.t).

Notation capacity := (SyncRuntimeConfig.max_concurrent_libraries config).

(** The identifiers from the one after the cursor on, around the end. *)
Definition start_index (ids : list Z) (cursor : option Z) : nat :=
  match cursor ≫= fun c => fst <$> list_find (eq c) ids with
  | None => 0
  | Some index => (S index) mod (length ids)
  end.

Definition rotation (ids : list Z) (cursor : option Z) : list Z :=
  let n := start_index ids cursor in drop n ids ++ take n ids.

Definition runnable (now : Z) (e : Entry) : bool :=
  registered e && negb (running (state e))
  && is_some_and (next_due (state e)) (fun due => due <=? now).

(** The loop of [spawn_due_cycles]: the libraries, and those whose cycle began. *)
Fixpoint spawn_each (now : Z) (available : nat) (ids : list Z) (libs : gmap Z Entry) :
    gmap Z Entry * list Z :=
  match available, ids with
  | O, _ | _, [] => (libs, [])
  | S n, id :: ids =>
      match libs !! id with
      | Some e =>
          if runnable now e
          then
            let '(libs, begun_ids) := spawn_each now n ids (<[id := set_state e (begun (state e))]> libs) in
            (libs, id :: begun_ids)
          else spawn_each now available ids libs
      | None => spawn_each now available ids libs
      end
  end.

Definition spawn_due_cycles (busy : Z) (cursor : option Z) (r : Runtime) :
    Runtime * list Z * option Z :=
  if shutdown_requested r || user_paused r then (r, [], cursor)
  else
    let available := Z.to_nat (capacity - busy) in
    let '(libs, started) :=
      spawn_each (clock_now r) available (rotation (registered_libraries r) cursor) (libraries r) in
    (set_cycles (emit_all (set_libraries r libs) (map EventCycleStarted started))
       (in_flight r ++ started) (completions r),
     started, match last started with Some id => Some id | None => cursor end).

Definition earliest_due (r : Runtime) : option Z :=
  if user_paused r then None
  else
    let dues := omap (fun p : Z * Entry =>
                        if registered p.2 && negb (running (state p.2))
                        then next_due (state p.2) else None) (map_to_list (libraries r)) in
    match dues with
    | [] => None
    | due :: rest => Some (foldl Z.min due rest)
    end.

(** The timer of one turn. *)
Definition sleep_until (busy : Z) (r : Runtime) : Z :=
  match (if busy <? capacity then earliest_due r else None) with
  | Some deadline => if clock_now r <? deadline then deadline else clock_now r
  | None => clock_now r + NO_DEADLINE_WAIT
  end.

(** The first part of [finish_cycle], and where it goes on; nowhere when the library
    is gone. *)
Definition finish_first (c : Completion) (stopping : bool) (r : Runtime) :
    Runtime * option Stage :=
  let id := completed_library c in
  let outcome := classify_execution (completed_execution c) in
  match libraries r !! id with
  | None => (r, None)
  | Some e =>
      let s := ended outcome (state e) in
      if stopping || negb (registered e)
      then
        let s := set_pending None (scheduled LibraryPhase.Stopped None s) in
        let f := mk_Finish id outcome (mk_ScheduleDecision None false false) stopping in
        (set_libraries r (if registered e then <[id := set_state e s]> (libraries r)
                          else delete id (libraries r)), Some (Emitting f))
      else
        let pending := pending_wake s in
        let '(s, decision) :=
          schedule_after_cycle config outcome pending (clock_now r) (set_pending None s) in
        let f := mk_Finish id outcome decision stopping in
        (set_libraries r (<[id := set_state e s]> (libraries r)),
         Some (if true_idle (completed_execution c) && is_none pending
               then Recording f else Emitting f))
  end.

(** Another wake came in while the quiescence was recorded. *)
Definition follow_up_pending (id : Z) (r : Runtime) : bool :=
  is_some_and (libraries r !! id) (fun e =>
    is_some (pending_wake (state e)) || (phase (state e) == LibraryPhase.Scheduled)).

(** The quiescence could not be recorded. *)
Definition unproven (s : LibraryState) : LibraryState :=
  mk_LibraryState LibraryPhase.Faulted (running s) None (pending_wake s) (transient_failures s)
    (Some RuntimeOutcome.FatalLocal) false.

Definition finish_events (f : Finish) : list SyncRuntimeEvent :=
  let id := finish_library f in
  let d := finish_decision f in
  EventCycleFinished id (finish_outcome f)
    :: match decided_backoff d with
       | Some delay => [EventBackoff id (finish_outcome f) delay]
       | None => []
       end
    ++ (if decided_auth_blocked d then [EventAuthBlocked id] else [])
    ++ (if decided_faulted d then [EventFaulted id] else []).

(** Where the supervisor goes on after [finish_cycle]. *)
Definition after_finish (stopping : bool) : Stage := if stopping then Draining else AtTop.

Definition end_supervisor (r : Runtime) : Runtime :=
  let libs := (fun e => set_state e (stopped (state e)))
                <$> filter (fun p => registered p.2 = true) (libraries r) in
  set_supervisor
    (set_lifecycle (emit_all (set_libraries r libs) [EventStopped]) LifecycleStopped
       (shutdown_requested r)) None.

(** The next completion, if any, taken from the channel. *)
Definition receive (stopping : bool) (sup : Supervisor) (r : Runtime) : option Runtime :=
  match completions r with
  | [] => None
  | c :: rest =>
      let '(r, next) := finish_first c stopping (set_cycles r (in_flight r) rest) in
      Some (set_supervisor r
              (Some (mk_Supervisor (active sup - 1) (round_robin_cursor sup)
                       (default (after_finish stopping) next))))
  end.

(** One step of the supervisor, or none while it waits.  [recorded] is the answer of
    [record_quiescent], should the step be its return. *)
Definition supervise (recorded : bool) (r : Runtime) : option Runtime :=
  let* sup := supervisor r in
  let go (next : Stage) (r : Runtime) :=
    Some (set_supervisor r (Some (mk_Supervisor (active sup) (round_robin_cursor sup) next))) in
  match stage sup with
  | AtTop =>
      if shutdown_requested r then go Draining (emit_all r [EventStopping]) else go Spawning r
  | Spawning =>
      let '(r, started, cursor) := spawn_due_cycles (active sup) (round_robin_cursor sup) r in
      Some (set_supervisor r
              (Some (mk_Supervisor (active sup + len started) cursor
                       (if is_empty started then Planning else AtTop))))
  | Planning => go (Asleep (sleep_until (active sup) r)) r
  | Asleep until =>
      if shutdown_permit r then go AtTop (set_permits r (wake_permit r) false)
      else if (0 <? active sup) && negb (is_empty (completions r)) then receive false sup r
      else if wake_permit r then go AtTop (set_permits r false (shutdown_permit r))
      else if until <=? clock_now r then go AtTop r
      else None
  | Recording f => go (if recorded then Checking f else Unproven f) r
  | Checking f =>
      if follow_up_pending (finish_library f) r then go (Revoking f) r else go (Settling f true) r
  | Revoking f => go (Settling f false) r
  | Settling f first_sync =>
      go (Emitting f)
         (set_libraries r (alter_state (set_first_sync first_sync) (finish_library f) (libraries r)))
  | Unproven f =>
      let d := finish_decision f in
      go (Emitting (mk_Finish (finish_library f) (finish_outcome f)
                      (mk_ScheduleDecision (decided_backoff d) (decided_auth_blocked d) true)
                      (finish_stopping f)))
         (set_libraries r (alter_state unproven (finish_library f) (libraries r)))
  | Emitting f =>
      go (after_finish (finish_stopping f)) (notify_wake (emit_all r (finish_events f)))
  | Draining => if 0 <? active sup then receive true sup r else go Ending r
  | Ending => Some (end_supervisor r)
  end.

(** A cycle in flight returns or panics. *)
Definition complete (id : Z) (execution : CycleExecution) (r : Runtime) : option Runtime :=
  if bool_decide (id ∈ in_flight r)
  then Some (set_cycles r (filter (fun i => i <> id) (in_flight r))
               (completions r ++ [mk_Completion id execution]))
  else None.

(** *** Histories *)

Inductive step (library : X -> Z) (r : Runtime) : Runtime -> Prop :=
| step_register x first_sync :
    step library r (register_executor_with_first_sync library x first_sync r).1
| step_unregister id : step library r (unregister_library id r).1
| step_start : step library r (start r).1
| step_wake id reason : step library r (wake_library id reason r).1
| step_pause paused : step library r (set_user_paused paused r).1
| step_shutdown : step library r (request_shutdown r)
| step_time at_ : clock_now r <= at_ -> step library r (set_clock r at_)
| step_complete id execution r' : complete id execution r = Some r' -> step library r r'
| step_supervise recorded r' : supervise recorded r = Some r' -> step library r r'.

Inductive reachable (library : X -> Z) : Runtime -> Prop :=
| reachable_new at_ : reachable library (new_runtime at_)
| reachable_step r r' : reachable library r -> step library r r' -> reachable library r'.

End Runtime.

Arguments Entry : clear implicits.
Arguments Runtime : clear implicits.
