(* ===== verification/RuntimeFacts.v ===== *)
(** * What the runtime guarantees

    Over every interleaving of the calls, the supervisor, the cycles and the clock:
    the cycles of one library never overlap and their number is bounded; a
    registered library runs, is blocked on someone else, or has a time at which it
    runs next; and the supervisor does not sleep past that time. *)

From S2P Require Import Prelude Vocabulary Models Rebaseline SyncTypes ClientPaths ClientStore.
From S2P Require Import SyncWorld Candidates Inbound Cycle Disk OutboundTypes OutboundStore.
From S2P Require Import ObservationStore Watchers Observation Runtime.
Import LibraryStates.

(** ** Configurations *)

(** What [SyncRuntimeConfig::new] returns on durations, which are not negative. *)
Record valid (config : SyncRuntimeConfig.t) : Prop := {
  valid_initial : 0 <= SyncRuntimeConfig.transient_backoff_initial config;
  valid_maximum : 0 <= SyncRuntimeConfig.transient_backoff_max config;
  valid_concurrency : 0 <= SyncRuntimeConfig.max_concurrent_libraries config;
  valid_new : SyncRuntimeConfig.new (SyncRuntimeConfig.poll_interval config)
      (SyncRuntimeConfig.transient_backoff_initial config)
      (SyncRuntimeConfig.transient_backoff_max config)
      (SyncRuntimeConfig.rate_limit_fallback config)
      (SyncRuntimeConfig.max_concurrent_libraries config) = Ok config }.

(** The bounds it checks. *)
Lemma valid_bounds config :
  valid config ->
  SyncRuntimeConfig.poll_interval config <= MAX_SYNC_RUNTIME_DELAY
  /\ 1 <= SyncRuntimeConfig.transient_backoff_initial config
     <= SyncRuntimeConfig.transient_backoff_max config
  /\ SyncRuntimeConfig.transient_backoff_max config <= MAX_SYNC_RUNTIME_DELAY
  /\ SyncRuntimeConfig.rate_limit_fallback config <= MAX_SYNC_RUNTIME_DELAY
  /\ 1 <= SyncRuntimeConfig.max_concurrent_libraries config.
Proof.
  intros [Hi Hm Hc Hn]. unfold SyncRuntimeConfig.new in Hn.
  repeat match type of Hn with
         | (if ?b then Err _ else _) = Ok _ => destruct b eqn:?; [done|]
         end.
  rewrite ?Z.ltb_ge, ?Z.eqb_neq in *. lia.
Qed.

(** ** Backoff *)

Lemma doublings_exact maximum n : forall delay,
  1 <= delay <= maximum -> maximum <= MAX_SYNC_RUNTIME_DELAY ->
  doublings maximum n delay = Z.min maximum (delay * 2 ^ Z.of_nat n).
Proof.
  induction n as [|n IH]; intros delay Hd Hm; cbn [doublings].
  { change (2 ^ Z.of_nat 0) with 1. lia. }
  assert (checked_double delay = Some (2 * delay)) as ->.
  { unfold checked_double. replace (2 * delay <=? duration_max) with true; [done|].
    symmetry. apply Z.leb_le. unfold duration_max, MAX_SYNC_RUNTIME_DELAY, seconds in *. lia. }
  cbn [default from_option id]. rewrite Nat2Z.inj_succ, Z.pow_succ_r by lia.
  pose proof (Z.pow_pos_nonneg 2 (Z.of_nat n)).
  destruct (maximum <=? 2 * delay) eqn:Hle.
  - apply Z.leb_le in Hle. nia.
  - apply Z.leb_gt in Hle. rewrite IH by lia. f_equal. lia.
Qed.

Lemma backoff_bounded config failures :
  valid config ->
  1 <= exponential_backoff (SyncRuntimeConfig.transient_backoff_initial config)
         (SyncRuntimeConfig.transient_backoff_max config) failures <= MAX_SYNC_RUNTIME_DELAY.
Proof.
  intros Hv. apply valid_bounds in Hv as (_ & Hi & Hm & _). unfold exponential_backoff.
  rewrite doublings_exact by lia.
  pose proof (Z.pow_pos_nonneg 2 (Z.of_nat (Z.to_nat (Z.min failures 32 - 1)))). nia.
Qed.

(** ** The states of a library *)

(** Blocked until someone acts, or due at a known time. *)
Definition timely (now : Z) (s : LibraryState) : Prop :=
  (phase s ∈ [LibraryPhase.AuthBlocked; LibraryPhase.RootBlocked; LibraryPhase.Faulted]
   /\ next_due s = None)
  \/ (phase s ∈ [LibraryPhase.Idle; LibraryPhase.Scheduled; LibraryPhase.BackingOff]
      /\ exists due, next_due s = Some due /\ due <= now + MAX_SYNC_RUNTIME_DELAY).

Lemma timely_later now later s : now <= later -> timely now s -> timely later s.
Proof.
  intros Hl [Hb|(Hp & due & Hd & Hn)]; [by left|]. right. split; [done|]. exists due. split; [done|lia].
Qed.

Lemma timely_at now s p due :
  p ∈ [LibraryPhase.Idle; LibraryPhase.Scheduled; LibraryPhase.BackingOff] ->
  phase s = p -> next_due s = Some due -> due <= now + MAX_SYNC_RUNTIME_DELAY -> timely now s.
Proof. intros Hp <- Hd Hn. right. split; [done|]. by exists due. Qed.

Lemma timely_blocked now s p :
  p ∈ [LibraryPhase.AuthBlocked; LibraryPhase.RootBlocked; LibraryPhase.Faulted] ->
  phase s = p -> next_due s = None -> timely now s.
Proof. intros Hp <- Hd. by left. Qed.

Ltac due_at := eapply timely_at; [|reflexivity|reflexivity|]; [set_solver|].
Ltac blocked := eapply timely_blocked; [|reflexivity|reflexivity]; set_solver.

Lemma max_delay : 0 <= FAIR_FOLLOW_UP_DELAY <= MAX_SYNC_RUNTIME_DELAY.
Proof. done. Qed.

Lemma schedule_timely config outcome pending now s :
  valid config -> timely now (schedule_after_cycle config outcome pending now s).1.
Proof.
  intros Hv. pose proof (valid_bounds _ Hv) as (Hp & _ & _ & Hr & _). pose proof max_delay.
  pose proof (fun n => backoff_bounded config n Hv) as Hb.
  destruct outcome; cbn [schedule_after_cycle]; unfold back_off; cbv zeta; cbn [fst];
    repeat case_match; first [blocked|due_at; try specialize (Hb (Z.min (transient_failures s + 1) u32_max)); lia].
Qed.

Lemma schedule_running config outcome pending now s :
  running (schedule_after_cycle config outcome pending now s).1 = running s.
Proof. destruct outcome; cbn [schedule_after_cycle]; unfold back_off; cbv zeta; cbn [fst]; by repeat case_match. Qed.

Lemma wake_running reason now s : running (apply_wake reason now s).1 = running s.
Proof.
  unfold apply_wake. cbv zeta. destruct (running s) eqn:Hr; [by cbn|].
  destruct (phase s); cbn [fst]; repeat case_match; cbn; done.
Qed.

(** A wake makes the library due now, or leaves its time and phase. *)
Lemma wake_due reason now s :
  let s' := (apply_wake reason now s).1 in
  (phase s' = LibraryPhase.Scheduled /\ next_due s' = Some now)
  \/ (phase s' = phase s /\ next_due s' = next_due s).
Proof.
  cbv zeta. unfold apply_wake. cbv zeta. destruct (running s); [by right|].
  destruct (phase s) eqn:Hp; cbn [fst]; repeat case_match; cbn; auto.
Qed.

Lemma wake_timely reason now s : timely now s -> timely now (apply_wake reason now s).1.
Proof.
  intros Hs. destruct (wake_due reason now s) as [[Hp Hd]|[Hp Hd]].
  - eapply timely_at; [|done|done|]; [set_solver|]. pose proof max_delay. lia.
  - unfold timely. rewrite Hp, Hd. done.
Qed.

(** ** Cycles and libraries *)

Section Histories.

Context {X : Type} (library : X -> Z) (config : SyncRuntimeConfig.t) (Hvalid : valid config).

Notation capacity := (SyncRuntimeConfig.max_concurrent_libraries config).
Implicit Types (r : Runtime X) (e : Entry X) (libs : gmap Z (Entry X)).

(** The libraries whose cycle runs or has reported and waits to be finished. *)
Definition cycles r : list Z := in_flight r ++ map completed_library (completions r).

(** What an entry is, given whether a cycle of its library is out ([busy]) and whether
    the runtime is running ([live]). *)
Definition fits (live : Prop) (now : Z) (busy : Prop) (o : option (Entry X)) : Prop :=
  match o with
  | None => ~ busy
  | Some e =>
      (busy <-> running (state e) = true)
      /\ (registered e = false -> running (state e) = true)
      /\ (live -> running (state e) = false -> timely now (state e))
  end.

Definition fitting (live : Prop) (now : Z) (cs : list Z) libs : Prop :=
  forall id, fits live now (id ∈ cs) (libs !! id).

(** The stages entered once shutdown was requested, and those it interrupts. *)
Definition stage_fits (sup : Supervisor) r : Prop :=
  match stage sup with
  | AtTop => True
  | Spawning | Planning | Asleep _ => shutdown_requested r = true -> shutdown_permit r = true
  | Recording f | Checking f | Unproven f | Revoking f | Settling f _ | Emitting f =>
      finish_stopping f = true -> shutdown_requested r = true
  | Draining => shutdown_requested r = true
  | Ending => shutdown_requested r = true /\ cycles r = []
  end.

(** The supervisor and what it counts. *)
Definition supervised r : Prop :=
  match supervisor r with
  | None => lifecycle r = LifecycleStopped /\ cycles r = []
  | Some sup =>
      lifecycle r <> LifecycleStopped
      /\ (shutdown_requested r = true <-> lifecycle r = LifecycleStopping)
      /\ active sup = len (cycles r) /\ active sup <= capacity
      /\ stage_fits sup r
  end.

Definition sound r : Prop :=
  NoDup (cycles r) /\ fitting (lifecycle r = LifecycleRunning) (clock_now r) (cycles r) (libraries r)
  /\ supervised r.

(** *** Entries *)

Lemma fits_same (live live' : Prop) now now' (busy busy' : Prop) o :
  (live' -> live) -> now <= now' -> (busy <-> busy') -> fits live now busy o -> fits live' now' busy' o.
Proof.
  intros Hl Hn Hb. destruct o as [e|]; cbn; [|tauto]. intros (Hr & Hu & Ht).
  split_and!; [tauto|done|]. intros H1 H2. eapply timely_later; [done|]. auto.
Qed.

Lemma fitting_insert live now cs libs id e :
  fitting live now cs libs -> fits live now (id ∈ cs) (Some e) ->
  fitting live now cs (<[id := e]> libs).
Proof.
  intros Hf He i. destruct (decide (i = id)) as [->|Hne].
  - by rewrite lookup_insert_eq.
  - by rewrite lookup_insert_ne.
Qed.

Lemma fitting_delete live now cs libs id :
  fitting live now cs libs -> id ∉ cs -> fitting live now cs (delete id libs).
Proof.
  intros Hf He i. destruct (decide (i = id)) as [->|Hne].
  - by rewrite lookup_delete_eq.
  - by rewrite lookup_delete_ne.
Qed.

(** A change of the state of an entry that leaves its cycle. *)
Lemma fits_state live now busy e s :
  fits live now busy (Some e) -> running s = running (state e) ->
  (live -> timely now (state e) -> timely now s) ->
  fits live now busy (Some (set_state e s)).
Proof.
  intros (Hb & Hu & Ht) Hr Hs. cbn. rewrite Hr. split_and!; [done..|]. auto.
Qed.

Lemma timely_keep_wake now reason s : timely now s -> timely now (keep_wake reason s).
Proof. done. Qed.

(** Cycles that are not those of [id] concern other entries. *)
Lemma fitting_cycles live now cs cs' libs :
  (forall id, id ∈ cs <-> id ∈ cs') -> fitting live now cs libs -> fitting live now cs' libs.
Proof. intros He Hf id. eapply fits_same; [| |apply He|apply Hf]; [done|lia]. Qed.

Lemma fitting_fmap live live' now cs libs (f : Entry X -> Entry X) :
  fitting live now cs libs ->
  (forall id e, fits live now (id ∈ cs) (Some e) -> fits live' now (id ∈ cs) (Some (f e))) ->
  fitting live' now cs (f <$> libs).
Proof.
  intros Hf Hs id. rewrite lookup_fmap. specialize (Hf id).
  destruct (libs !! id) as [e|]; [by apply Hs|done].
Qed.

(** Between supervisors only the registered entries are kept. *)
Lemma fitting_registered live live' now libs f :
  fitting live now [] libs ->
  (forall s, running s = false -> running (f s) = false /\ (live' -> timely now (f s))) ->
  fitting live' now []
    ((fun e => set_state e (f (state e))) <$> filter (fun p => registered p.2 = true) libs).
Proof.
  intros Hf Hs id. rewrite lookup_fmap. specialize (Hf id).
  destruct (filter _ _ !! id) as [e|] eqn:He; [|by intros ?%elem_of_nil].
  apply map_lookup_filter_Some in He as [He Hr]. cbn in Hr. rewrite He in Hf.
  destruct Hf as (Hb & _ & _).
  assert (running (state e) = false) as Hrun.
  { destruct (running (state e)); [|done]. exfalso. eapply not_elem_of_nil, Hb. done. }
  destruct (Hs _ Hrun) as [Hs1 Hs2]. cbn. rewrite Hs1, Hr.
  split_and!; [|done|auto]. split; [by intros ?%elem_of_nil|done].
Qed.

(** *** Calls *)

Lemma reset_timely now s : timely now (reset_for_start now s).
Proof. due_at. pose proof max_delay. lia. Qed.

Lemma register_sound x first_sync r :
  sound r -> sound (register_executor_with_first_sync library x first_sync r).1.
Proof.
  intros Hs. unfold register_executor_with_first_sync.
  destruct (lifecycle r == LifecycleStopping) eqn:Hst; [done|].
  destruct (libraries r !! library x) as [e|] eqn:He; [done|].
  destruct (_ <=? _) eqn:Hmax; [done|]. destruct Hs as (Hn & Hf & Hsup).
  assert (sound (set_libraries r
    (<[library x := with_first_sync x
        (if lifecycle r == LifecycleRunning then Some (clock_now r) else None) first_sync]>
       (libraries r)))) as Hr.
  { split_and!; [done| |done]. apply fitting_insert; [done|].
    pose proof (Hf (library x)) as Hx. rewrite He in Hx. cbn in Hx |- *.
    clear Hst. case_bool_decide as Hl; cbn; (split; [by split; [intros ?%Hx|]|split; [done|]]).
    - intros _ _. apply reset_timely.
    - done. }
  by destruct (lifecycle r == LifecycleRunning).
Qed.

Lemma unregister_sound id r : sound r -> sound (unregister_library id r).1.
Proof.
  intros Hs. unfold unregister_library.
  destruct (lifecycle r == LifecycleStopping) eqn:Hst; [done|].
  destruct (libraries r !! id) as [e|] eqn:He; [|done].
  destruct (registered e) eqn:Hreg; [|done]. destruct Hs as (Hn & Hf & Hsup).
  pose proof (Hf id) as Hx. rewrite He in Hx. destruct Hx as (Hb & _ & _).
  split_and!; [done| |done]. cbn. destruct (running (state e)) eqn:Hrun.
  - apply fitting_insert; [done|]. cbn. by rewrite Hrun.
  - apply fitting_delete; [done|]. by intros ?%Hb.
Qed.

Lemma start_sound r : sound r -> sound (start r).1.
Proof.
  intros Hs. unfold start. destruct (lifecycle r) eqn:Hl; [|done..].
  destruct Hs as (Hn & Hf & Hsup). unfold supervised in Hsup. rewrite Hl in *.
  destruct (supervisor r) as [sup|]; [by destruct Hsup|]. destruct Hsup as [_ Hc].
  pose proof (valid_bounds _ Hvalid) as (_ & _ & _ & _ & Hcap).
  split_and!; [done| |].
  - change (cycles _) with (cycles r). rewrite Hc in *. cbn. eapply fitting_registered; [done|].
    intros s _. split; [done|]. intros _. apply reset_timely.
  - unfold supervised. cbn -[cycles]. change (cycles _) with (cycles r). rewrite Hc. cbn.
    split_and!; try done. lia.
Qed.

Lemma wake_sound id reason r : sound r -> sound (wake_library id reason r).1.
Proof.
  intros Hs. unfold wake_library. destruct (lifecycle r) eqn:Hl; [done| |done].
  destruct (libraries r !! id) as [e|] eqn:He; [|done]. destruct (registered e); [|done].
  destruct Hs as (Hn & Hf & Hsup). pose proof (Hf id) as Hx. rewrite He in Hx.
  cbn [negb]. destruct (user_paused r).
  - cbn [fst]. destruct (reason != WakeReason.Manual); [|done].
    split_and!; [done| |done]. apply fitting_insert; [done|]. by apply fits_state.
  - destruct (apply_wake reason (clock_now r) (state e)) as [s answer] eqn:Hw. cbn [fst].
    split_and!; [done| |done]. apply fitting_insert; [done|].
    apply (f_equal fst) in Hw. cbn in Hw. subst s.
    apply fits_state; [done|apply wake_running|]. intros _. apply wake_timely.
Qed.

Lemma resume_fits live now busy e :
  fits live now busy (Some e) -> fits live now busy (Some (resume_entry now e)).
Proof.
  intros Hf. unfold resume_entry. destruct (_ || _); [done|].
  destruct (pending_wake (state e)); [|done].
  apply fits_state; [done|by rewrite wake_running|]. intros _ Ht. by apply wake_timely.
Qed.

Lemma pause_sound paused r : sound r -> sound (set_user_paused paused r).1.
Proof.
  intros Hs. unfold set_user_paused. destruct (Bool.eqb _ _); [done|].
  destruct paused; cbn [fst]; destruct Hs as (Hn & Hf & Hsup); split_and!; try done.
  cbn. eapply fitting_fmap; [done|]. intros id e. apply resume_fits.
Qed.

Lemma shutdown_sound r : sound r -> sound (request_shutdown r).
Proof.
  intros Hs. unfold request_shutdown. destruct (lifecycle r) eqn:Hl; [done| |];
  (destruct Hs as (Hn & Hf & Hsup); rewrite Hl in Hf);
  (split_and!; [done|intros id; eapply fits_same; [| | |apply Hf]; [done|reflexivity|done]|];
   unfold supervised, stage_fits in *; cbn -[cycles];
   destruct (supervisor r) as [sup|]; [|by destruct Hsup; congruence];
   destruct Hsup as (H1 & H2 & H3 & H4 & H5); split_and!; try done;
   destruct (stage sup); tauto).
Qed.

Lemma time_sound at_ r : clock_now r <= at_ -> sound r -> sound (set_clock r at_).
Proof.
  intros Ha (Hn & Hf & Hsup). split_and!; [done| |done].
  intros id. eapply fits_same; [| | |apply Hf]; done.
Qed.

(** *** Cycles *)

Lemma complete_cycles id execution r r' :
  NoDup (cycles r) -> complete id execution r = Some r' -> cycles r' ≡ₚ cycles r.
Proof.
  intros Hn. unfold complete. case_bool_decide as Hin; [|done]. intros [= <-].
  unfold cycles in *. cbn. rewrite map_app. cbn.
  apply NoDup_app in Hn as (Hn & _ & _).
  assert (in_flight r ≡ₚ id :: filter (fun i => i <> id) (in_flight r)) as Hp.
  { apply NoDup_Permutation; [done| |].
    - constructor; [|by apply NoDup_filter]. intros [? _]%list_elem_of_filter. done.
    - intros i. rewrite elem_of_cons, list_elem_of_filter. destruct (decide (i = id)); naive_solver. }
  rewrite Hp at 2. rewrite (app_assoc _ _ [id]). rewrite (comm (++) _ [id]). done.
Qed.

Lemma supervised_cycles r r' :
  cycles r' ≡ₚ cycles r -> lifecycle r' = lifecycle r ->
  shutdown_requested r' = shutdown_requested r -> shutdown_permit r' = shutdown_permit r ->
  supervisor r' = supervisor r -> supervised r -> supervised r'.
Proof.
  intros Hp Hl Hd Hs Hv. unfold supervised, stage_fits, len.
  rewrite Hl, Hd, Hs, Hv, (Permutation_length Hp).
  assert (cycles r = [] -> cycles r' = []) as Hnil.
  { intros Hc. rewrite Hc in Hp. by apply Permutation_nil_r. }
  destruct (supervisor r) as [sup|]; [destruct (stage sup)|]; tauto.
Qed.

Lemma complete_sound id execution r r' :
  complete id execution r = Some r' -> sound r -> sound r'.
Proof.
  intros Hc (Hn & Hf & Hsup). pose proof (complete_cycles _ _ _ _ Hn Hc) as Hp.
  unfold complete in Hc. case_bool_decide as Hin; [|done].
  injection Hc as <-.
  split_and!; [by rewrite Hp| |].
  - cbn. eapply fitting_cycles; [|apply Hf]. intros i. by rewrite Hp.
  - by eapply supervised_cycles.
Qed.

(** *** Spawning *)

Lemma spawn_each_sub now ids : forall n libs,
  sublist (spawn_each now n ids libs).2 ids /\ (length (spawn_each now n ids libs).2 <= n)%nat.
Proof.
  induction ids as [|id ids IH]; intros [|n] libs; cbn; try by (split; [apply sublist_nil_l|lia]).
  assert (Hskip : sublist (spawn_each now (S n) ids libs).2 (id :: ids)
    /\ (length (spawn_each now (S n) ids libs).2 <= S n)%nat).
  { destruct (IH (S n) libs). split; [by apply sublist_cons|done]. }
  destruct (libs !! id) as [e|]; [|done]. destruct (runnable now e); [|done].
  destruct (IH n (<[id := set_state e (begun (state e))]> libs)) as [H1 H2].
  clear Hskip. destruct (spawn_each _ _ _ _) as [libs' begun_ids]. cbn in *. split; [by apply sublist_skip|lia].
Qed.

(** The entries of the started libraries, and the others. *)
Lemma spawn_each_lookup now ids : forall n libs,
  NoDup ids -> forall id,
  let '(libs', started) := spawn_each now n ids libs in
  (id ∈ started -> exists e, libs !! id = Some e /\ runnable now e = true
                             /\ libs' !! id = Some (set_state e (begun (state e))))
  /\ (id ∉ started -> libs' !! id = libs !! id).
Proof.
  induction ids as [|j ids IH]; intros [|n] libs Hn id; cbn;
    try by (split; [intros ?%elem_of_nil|]).
  apply NoDup_cons in Hn as [Hj Hn]. specialize (IH (S n) libs Hn id) as Hskip.
  destruct (libs !! j) as [e|] eqn:He; [|done]. destruct (runnable now e) eqn:Hr; [|done].
  specialize (IH n (<[j := set_state e (begun (state e))]> libs) Hn id).
  pose proof (spawn_each_sub now ids n (<[j := set_state e (begun (state e))]> libs)) as [Hsub _].
  destruct (spawn_each now n ids _) as [libs' begun_ids]. cbn in Hsub. destruct IH as [IH1 IH2].
  destruct (decide (id = j)) as [->|Hne].
  - assert (j ∉ begun_ids) as Hj' by (intros ?; eapply Hj, elem_of_sublist; eauto).
    rewrite (IH2 Hj'), lookup_insert_eq. split; [by eauto|]. intros []. by left.
  - rewrite lookup_insert_ne in IH1, IH2 by done. rewrite elem_of_cons. split; [|tauto].
    intros [?|Hin]; [done|]. auto.
Qed.

(** A library that is due is started, or those before it have filled every slot. *)
Lemma spawn_each_fair now ids : forall n libs i id e,
  NoDup ids -> ids !! i = Some id -> libs !! id = Some e -> runnable now e = true ->
  let started := (spawn_each now n ids libs).2 in
  id ∈ started \/ (length started = n
                   /\ forall c, c ∈ started -> exists j, (j < i)%nat /\ ids !! j = Some c).
Proof.
  induction ids as [|j ids IH]; intros [|n] libs i id e Hn Hi He Hr; cbn; try done.
  { right. split; [done|]. by intros ? ?%elem_of_nil. }
  apply NoDup_cons in Hn as [Hj Hn].
  assert (Hskip : forall m libs, (exists k, i = S k) -> libs !! id = Some e ->
    let started := (spawn_each now m ids libs).2 in
    id ∈ started \/ (length started = m
      /\ forall c, c ∈ started -> exists q, (q < i)%nat /\ (j :: ids) !! q = Some c)).
  { intros m libs0 [k ->] He0. destruct (IH m libs0 k id e Hn Hi He0 Hr) as [?|[Hl Hc]]; [by left|].
    right. split; [done|]. intros c (q & Hq & Hc')%Hc. exists (S q). split; [lia|done]. }
  destruct i as [|i].
  { injection Hi as ->. rewrite He, Hr. left. destruct (spawn_each now n ids _). by left. }
  destruct (libs !! j) as [e'|] eqn:He'; [|by apply Hskip; eauto].
  destruct (runnable now e'); [|by apply Hskip; eauto].
  assert (id <> j) by (intros ->; by eapply Hj, list_elem_of_lookup_2).
  destruct (Hskip n (<[j := set_state e' (begun (state e'))]> libs)) as [Hin|[Hl Hc]];
    [eauto|by rewrite lookup_insert_ne| |]; clear Hskip;
  destruct (spawn_each _ _ _ _) as [libs' begun_ids]; cbn in *; [left; by right|right].
  split; [lia|]. intros c [->|Hin]%elem_of_cons; [|auto]. exists 0%nat. split; [lia|done].
Qed.

Lemma registered_sublist (l : list (Z * Entry X)) :
  sublist (omap (fun p : Z * Entry X => if registered p.2 then Some p.1 else None) l) l.*1.
Proof.
  induction l as [|[id e] l IH]; cbn; [done|].
  destruct (registered e); [by apply sublist_skip|by apply sublist_cons].
Qed.

Lemma registered_nodup r : NoDup (registered_libraries r).
Proof.
  unfold registered_libraries. rewrite merge_sort_Permutation.
  pose proof (NoDup_fst_map_to_list (libraries r)). eapply sublist_NoDup; [done|].
  apply registered_sublist.
Qed.

Lemma registered_elem r id :
  id ∈ registered_libraries r <-> exists e, libraries r !! id = Some e /\ registered e = true.
Proof.
  unfold registered_libraries. rewrite merge_sort_Permutation, list_elem_of_omap. split.
  - intros ([i e] & Hi%elem_of_map_to_list & Hr). cbn in Hr.
    destruct (registered e) eqn:?; [|done]. injection Hr as <-. eauto.
  - intros (e & He & Hr). exists (id, e). rewrite elem_of_map_to_list. cbn. by rewrite Hr.
Qed.

Lemma rotation_perm ids cursor : rotation ids cursor ≡ₚ ids.
Proof. unfold rotation. cbv zeta. rewrite (comm (++)). by rewrite take_drop. Qed.

(** The libraries whose cycle begins were not running. *)
Lemma spawn_fitting live now n ids cs libs :
  NoDup ids -> NoDup cs -> fitting live now cs libs ->
  let '(libs', started) := spawn_each now n ids libs in
  NoDup (cs ++ started) /\ fitting live now (cs ++ started) libs'.
Proof.
  intros Hn Hcs Hf. pose proof (spawn_each_lookup now ids n libs Hn) as Hl.
  destruct (spawn_each_sub now ids n libs) as [Hsub _].
  destruct (spawn_each now n ids libs) as [libs' started]. cbn in Hsub.
  assert (forall id, id ∈ started -> id ∉ cs) as Hdis.
  { intros id Hin. destruct (Hl id) as [(e & He & Hr & _) _]; [done|].
    pose proof (Hf id) as Hid. rewrite He in Hid. destruct Hid as (Hb & _ & _).
    unfold runnable in Hr. destruct (running (state e)); [by rewrite andb_false_r in Hr|].
    by intros ?%Hb. }
  split.
  - apply NoDup_app. split_and!; [done|by intros id Hc ?%Hdis|by eapply sublist_NoDup; [exact Hn|]].
  - intros id. destruct (Hl id) as [H1 H2]. destruct (decide (id ∈ started)) as [Hin|Hin].
    + destruct (H1 Hin) as (e & He & _ & ->). cbn.
      split; [|done]. rewrite elem_of_app. tauto.
    + rewrite (H2 Hin). eapply fits_same; [| | |apply Hf]; [done|reflexivity|].
      rewrite elem_of_app. tauto.
Qed.

Lemma spawn_sound sup r :
  sound r -> supervisor r = Some sup -> stage sup = Spawning ->
  let '(r', started, cursor) := spawn_due_cycles config (active sup) (round_robin_cursor sup) r in
  sound (set_supervisor r' (Some (mk_Supervisor (active sup + len started) cursor
                              (if is_empty started then Planning else AtTop)))).
Proof.
  intros (Hn & Hf & Hsup) Hs Hst. unfold supervised, stage_fits in Hsup. rewrite Hs, Hst in Hsup.
  destruct Hsup as (H1 & H2 & H3 & H4 & H5). unfold spawn_due_cycles.
  destruct (_ || _); [split_and!; [done..|]; unfold supervised; cbn -[cycles];
    change (cycles (set_supervisor _ _)) with (cycles r); change (len []) with 0;
    split_and!; [done..|lia|lia|done]|].
  set (n := Z.to_nat _). set (ids := rotation _ _).
  assert (NoDup ids) as Hids by (unfold ids; rewrite rotation_perm; apply registered_nodup).
  pose proof (spawn_fitting _ _ n ids _ _ Hids Hn Hf) as Hsp.
  destruct (spawn_each_sub (clock_now r) ids n (libraries r)) as [_ Hle].
  destruct (spawn_each (clock_now r) n ids (libraries r)) as [libs started]. cbn in Hle.
  destruct Hsp as [Hn' Hf'].
  set (r' := set_supervisor _ _).
  assert (cycles r' ≡ₚ cycles r ++ started) as Hp.
  { unfold cycles. cbn. rewrite <- !app_assoc. by rewrite (comm (++) started). }
  split_and!; [by rewrite Hp| |].
  - eapply fitting_cycles; [|apply Hf']. intros i. by rewrite Hp.
  - unfold supervised, stage_fits, len. rewrite (Permutation_length Hp), app_length.
    unfold r'. cbn -[cycles]. unfold len in *. split_and!; [done..| | |]; try lia.
    destruct started; cbn; done.
Qed.

(** *** Finishing *)

(** The entry of the library whose cycle is finished, and where the supervisor goes on. *)
Lemma finish_first_fits live c stopping cs r :
  fitting live (clock_now r) (completed_library c :: cs) (libraries r) ->
  completed_library c ∉ cs -> (stopping = true -> ~ live) ->
  exists libs, (finish_first config c stopping r).1 = set_libraries r libs
    /\ fitting live (clock_now r) cs libs
    /\ exists f, finish_stopping f = stopping
       /\ ((finish_first config c stopping r).2 = Some (Emitting f)
           \/ (finish_first config c stopping r).2 = Some (Recording f)).
Proof.
  intros Hf Hni Hstop. set (id := completed_library c) in *. unfold finish_first. cbv zeta. fold id.
  pose proof (Hf id) as Hid.
  destruct (libraries r !! id) as [e|] eqn:He; [|by destruct Hid; left].
  assert (forall i, i <> id -> fits live (clock_now r) (i ∈ cs) (libraries r !! i)) as Hothers.
  { intros i Hi. eapply fits_same; [| | |apply Hf]; [done|reflexivity|]. rewrite elem_of_cons. tauto. }
  assert (forall e', running (state e') = false -> registered e' = true ->
    (live -> timely (clock_now r) (state e')) ->
    fitting live (clock_now r) cs (<[id := e']> (libraries r))) as Hins.
  { intros e' Hr Hg Ht i. destruct (decide (i = id)) as [->|Hi].
    - rewrite lookup_insert_eq. cbn. rewrite Hr, Hg. split; [by split|]. by split; [|auto].
    - rewrite lookup_insert_ne by done. by apply Hothers. }
  destruct (stopping || negb (registered e)) eqn:Hs.
  - eexists. split; [reflexivity|]. split; [|eexists; split; [|by left]; done].
    destruct (registered e) eqn:Hg.
    + apply Hins; [done|done|]. destruct stopping; [by intros ?%Hstop|done].
    + intros i. destruct (decide (i = id)) as [->|Hi].
      * by rewrite lookup_delete_eq.
      * rewrite lookup_delete_ne by done. by apply Hothers.
  - apply orb_false_elim in Hs as [Hs Hg%negb_false_iff].
    set (outcome := classify_execution _). set (s0 := set_pending None _).
    pose proof (schedule_timely config outcome (pending_wake (ended outcome (state e)))
                  (clock_now r) s0 Hvalid) as Ht.
    pose proof (schedule_running config outcome (pending_wake (ended outcome (state e)))
                  (clock_now r) s0) as Hr.
    destruct (schedule_after_cycle _ _ _ _ _) as [s decision]. cbn in Ht, Hr.
    eexists. split; [reflexivity|]. split; [by apply Hins|].
    eexists (mk_Finish id outcome decision stopping). split; [done|]. cbn. destruct (_ && _); auto.
Qed.

Lemma receive_sound stopping sup r r' :
  sound r -> supervisor r = Some sup -> (stopping = true -> shutdown_requested r = true) ->
  receive config stopping sup r = Some r' -> sound r'.
Proof.
  intros (Hn & Hf & Hsup) Hs Hstop. unfold supervised in Hsup. rewrite Hs in Hsup.
  destruct Hsup as (H1 & H2 & H3 & H4 & _). unfold receive.
  destruct (completions r) as [|c rest] eqn:Hc; [done|].
  set (r0 := set_cycles r (in_flight r) rest).
  assert (cycles r ≡ₚ completed_library c :: cycles r0) as Hp.
  { unfold cycles. cbn. rewrite Hc. cbn. by rewrite Permutation_middle. }
  rewrite Hp in Hn. apply NoDup_cons in Hn as [Hni Hn].
  destruct (finish_first_fits (lifecycle r = LifecycleRunning) c stopping (cycles r0) r0)
    as (libs & Hr0 & Hl & f & Hst & Hnext).
  { eapply fitting_cycles; [|apply Hf]. intros i. by rewrite Hp. }
  { done. }
  { intros Hb. apply Hstop, H2 in Hb. by rewrite Hb. }
  destruct (finish_first config c stopping r0) as [r1 next]. cbn in Hr0, Hnext. subst r1.
  intros [= <-]. split_and!; [done|done|].
  unfold supervised, stage_fits. cbn -[cycles].
  change (cycles (set_supervisor _ _)) with (cycles r0).
  pose proof (Permutation_length Hp) as Hlen. unfold len in *. cbn [length] in Hlen.
  split_and!; [done..|lia|lia|].
  destruct Hnext as [->| ->]; cbn; by rewrite Hst.
Qed.

(** *** The supervisor *)

Lemma go_sound sup next r r' :
  sound r -> supervisor r = Some sup -> cycles r' = cycles r -> lifecycle r' = lifecycle r ->
  shutdown_requested r' = shutdown_requested r -> clock_now r' = clock_now r ->
  fitting (lifecycle r = LifecycleRunning) (clock_now r) (cycles r) (libraries r') ->
  stage_fits (mk_Supervisor (active sup) (round_robin_cursor sup) next) r' ->
  sound (set_supervisor r' (Some (mk_Supervisor (active sup) (round_robin_cursor sup) next))).
Proof.
  intros (Hn & Hf & Hsup) Hs Hc Hl Hd Hcl Hf' Hst. unfold supervised in Hsup. rewrite Hs in Hsup.
  destruct Hsup as (H1 & H2 & H3 & H4 & _).
  change (NoDup (cycles r')
    /\ fitting (lifecycle r' = LifecycleRunning) (clock_now r') (cycles r') (libraries r')
    /\ lifecycle r' <> LifecycleStopped
    /\ (shutdown_requested r' = true <-> lifecycle r' = LifecycleStopping)
    /\ active sup = len (cycles r') /\ active sup <= capacity
    /\ stage_fits (mk_Supervisor (active sup) (round_robin_cursor sup) next) r').
  rewrite Hl, Hd, Hc, Hcl. by split_and!.
Qed.

Lemma alter_fitting live now cs libs id f :
  (forall s, running (f s) = running s) -> (forall s, timely now s -> timely now (f s)) ->
  fitting live now cs libs -> fitting live now cs (alter_state f id libs).
Proof.
  intros Hr Ht Hf i. unfold alter_state. destruct (decide (i = id)) as [->|Hi].
  - rewrite lookup_alter_eq. specialize (Hf id). destruct (libs !! id) as [e|]; [|done].
    cbn [fmap option_map option_fmap]. apply fits_state; auto.
  - by rewrite lookup_alter_ne.
Qed.

#[local] Ltac goes :=
  match goal with H : Some _ = Some _ |- _ => injection H as <- end; eapply go_sound; eauto.

Lemma supervise_sound recorded r r' :
  supervise config recorded r = Some r' -> sound r -> sound r'.
Proof.
  intros Hstep Hsound. pose proof Hsound as (Hn & Hf & Hsup). unfold supervise in Hstep.
  destruct (supervisor r) as [sup|] eqn:Hs; [|done]. cbn in Hstep.
  unfold supervised, stage_fits in Hsup. rewrite Hs in Hsup.
  destruct Hsup as (H1 & H2 & H3 & H4 & H5).
  destruct (stage sup) as [| | |until|f|f|f|f|f fs|f| |] eqn:Hst.
  - destruct (shutdown_requested r) eqn:Hd; goes. unfold stage_fits. cbn. by rewrite Hd.
  - pose proof (spawn_sound sup r Hsound Hs Hst) as Hsp.
    destruct (spawn_due_cycles _ _ _ _) as [[r1 started] cursor]. by injection Hstep as <-.
  - goes.
  - destruct (shutdown_permit r) eqn:Hp; [goes; done|].
    destruct (_ && _); [by apply (receive_sound false sup r)|].
    destruct (wake_permit r); [goes; done|]. destruct (_ <=? _); [goes; done|done].
  - goes. by destruct recorded.
  - destruct (follow_up_pending _ _); goes.
  - goes. apply alter_fitting; [done| |done]. intros s _. by blocked.
  - goes.
  - goes. by apply alter_fitting.
  - goes. unfold stage_fits, after_finish. cbn. destruct (finish_stopping f); auto.
  - destruct (0 <? active sup) eqn:Ha; [by apply (receive_sound true sup r)|]. goes.
    unfold stage_fits. cbn -[cycles]. split; [done|]. apply Z.ltb_ge in Ha.
    apply length_zero_iff_nil. unfold len in *. lia.
  - destruct H5 as [Hd Hc]. injection Hstep as <-. rewrite Hc in Hf.
    split_and!; [done| |done]. change (cycles (end_supervisor r)) with (cycles r). rewrite Hc.
    eapply fitting_registered; [done|]. intros s _. split; done.
Qed.

(** Every reachable runtime is sound. *)
Lemma reachable_sound r : reachable config library r -> sound r.
Proof.
  induction 1 as [at_|r r' _ IH Hstep].
  - split_and!; [by constructor| |done]. intros id. cbn. rewrite lookup_empty. cbn. by intros ?%elem_of_nil.
  - destruct Hstep; eauto using register_sound, unregister_sound, start_sound, wake_sound,
      pause_sound, shutdown_sound, time_sound, complete_sound, supervise_sound.
Qed.

(** ** Sleeping *)

Definition waits_for (id due : Z) r : Prop :=
  exists e, libraries r !! id = Some e /\ registered e = true /\ running (state e) = false
    /\ next_due (state e) = Some due.

(** A sleeping supervisor is woken, has nothing to start, or wakes in time. *)
Definition vigilant r : Prop :=
  forall sup until, supervisor r = Some sup -> stage sup = Asleep until ->
  wake_permit r = true \/ user_paused r = true \/ capacity <= active sup
  \/ forall id due, waits_for id due r -> until <= Z.max due (clock_now r).

Lemma fold_min_le l : forall a x, x ∈ a :: l -> foldl Z.min a l <= x.
Proof.
  induction l as [|b l IH]; intros a x Hx; cbn.
  - apply list_elem_of_singleton in Hx. lia.
  - apply elem_of_cons in Hx as [->|Hx].
    + specialize (IH (Z.min a b) (Z.min a b)). pose proof (IH (list_elem_of_here _ _)). lia.
    + apply elem_of_cons in Hx as [->|Hx].
      * pose proof (IH (Z.min a b) (Z.min a b) (list_elem_of_here _ _)). lia.
      * apply IH. by right.
Qed.

Lemma earliest_due_le id due r :
  user_paused r = false -> waits_for id due r ->
  exists d, earliest_due r = Some d /\ d <= due.
Proof.
  intros Hp (e & He & Hg & Hr & Hd). unfold earliest_due. rewrite Hp.
  set (dues := omap _ _).
  assert (due ∈ dues) as Hin.
  { apply list_elem_of_omap. exists (id, e). rewrite elem_of_map_to_list. cbn. by rewrite Hg, Hr. }
  destruct dues as [|d rest]; [by apply elem_of_nil in Hin|].
  eexists. split; [done|]. by apply fold_min_le.
Qed.

(** A change that wakes the supervisor or leaves what it waits for. *)
Lemma vigilant_woken r : wake_permit r = true -> vigilant r.
Proof. intros Hw sup until _ _. by left. Qed.

Lemma vigilant_kept r r' :
  vigilant r -> supervisor r' = supervisor r -> wake_permit r' = wake_permit r ->
  user_paused r' = user_paused r -> clock_now r <= clock_now r' ->
  (forall id due, waits_for id due r' -> waits_for id due r) -> vigilant r'.
Proof.
  intros Hv Hs Hw Hp Hc Hl sup until Hs' Hst. rewrite Hw, Hp. rewrite Hs in Hs'.
  destruct (Hv sup until Hs' Hst) as [?|[?|[?|Ht]]]; [by left|auto..|].
  do 3 right. intros id due Hwait. specialize (Ht id due (Hl _ _ Hwait)). lia.
Qed.

Lemma vigilant_elsewhere r :
  (forall sup until, supervisor r = Some sup -> stage sup <> Asleep until) -> vigilant r.
Proof. intros Hn sup until Hs Hst. by destruct (Hn sup until Hs). Qed.

Lemma supervise_vigilant recorded r r' :
  supervise config recorded r = Some r' -> vigilant r'.
Proof.
  unfold supervise. destruct (supervisor r) as [sup|] eqn:Hs; [|done]. cbn.
  assert (forall next r1, (forall until, next <> Asleep until) ->
    vigilant (set_supervisor r1 (Some (mk_Supervisor (active sup) (round_robin_cursor sup) next))))
    as Hgo.
  { intros next r1 Hn. apply vigilant_elsewhere. intros sup' u [= <-]. apply Hn. }
  assert (forall stopping r1, receive config stopping sup r = Some r1 -> vigilant r1) as Hreceive.
  { intros stopping r1. unfold receive. destruct (completions r) as [|c rest]; [done|].
    destruct (finish_first _ _ _ _) as [r2 next] eqn:Hf. intros [= <-]. apply vigilant_elsewhere.
    intros sup' u [= <-]. unfold finish_first in Hf. cbv zeta in Hf.
    repeat case_match; simplify_eq; cbn; by destruct stopping. }
  destruct (stage sup) as [| | |until|f|f|f|f|f fs|f| |].
  - destruct (shutdown_requested r); intros [= <-]; by apply Hgo.
  - destruct (spawn_due_cycles _ _ _ _) as [[r1 started] cursor]. intros [= <-].
    apply vigilant_elsewhere. intros sup' u [= <-]. by destruct started.
  - intros [= <-] sup' u [= <-] [= <-]. cbn.
    destruct (user_paused r) eqn:Hp; [auto|]. destruct (Z.le_gt_cases capacity (active sup)); [auto|].
    do 3 right. intros id due Hw. unfold sleep_until.
    assert (active sup <? capacity = true) as -> by lia.
    destruct (earliest_due_le id due r Hp Hw) as (d & -> & Hd).
    destruct (_ <? d); lia.
  - destruct (shutdown_permit r); [intros [= <-]; by apply Hgo|].
    destruct (_ && _); [apply Hreceive|]. destruct (wake_permit r); [intros [= <-]; by apply Hgo|].
    destruct (_ <=? _); [intros [= <-]; by apply Hgo|done].
  - intros [= <-]. by destruct recorded; apply Hgo.
  - destruct (follow_up_pending _ _); intros [= <-]; by apply Hgo.
  - intros [= <-]. by apply Hgo.
  - intros [= <-]. by apply Hgo.
  - intros [= <-]. by apply Hgo.
  - intros [= <-]. apply Hgo. intros u. by destruct (finish_stopping f).
  - destruct (0 <? _); [apply Hreceive|]. intros [= <-]. by apply Hgo.
  - intros [= <-]. by apply vigilant_elsewhere.
Qed.

Lemma step_vigilant r r' : sound r -> vigilant r -> step config library r r' -> vigilant r'.
Proof.
  intros Hs Hv Hstep. destruct Hstep as [x first_sync|id| |id reason|paused| |at_ Ha|id execution r' Hc|];
    [..|by eapply supervise_vigilant].
  - unfold register_executor_with_first_sync. destruct (_ == LifecycleStopping) eqn:Hst; [done|].
    destruct (libraries r !! _); [done|]. destruct (_ <=? _); [done|].
    destruct (lifecycle r == LifecycleRunning) eqn:Hl; [by apply vigilant_woken|].
    apply vigilant_elsewhere. intros sup until Hsup. destruct Hs as (_ & _ & Hs).
    unfold supervised in Hs. cbn in Hsup. rewrite Hsup in Hs. destruct Hs as [Hs _].
    destruct (lifecycle r); done.
  - unfold unregister_library. destruct (_ == LifecycleStopping); [done|].
    destruct (libraries r !! id) as [e|]; [|done].
    destruct (registered e); [by apply vigilant_woken|done].
  - unfold start. destruct (lifecycle r); [by apply vigilant_woken|done..].
  - unfold wake_library. destruct (lifecycle r); [done| |done].
    destruct (libraries r !! id) as [e|]; [|done]. destruct (registered e); [|done].
    cbn [negb]. destruct (user_paused r) eqn:Hp.
    + destruct (_ != _); [|done]. intros sup until _ _. right. by left.
    + destruct (apply_wake _ _ _). by apply vigilant_woken.
  - unfold set_user_paused. destruct (Bool.eqb _ _); [done|]. by apply vigilant_woken.
  - unfold request_shutdown. destruct (lifecycle r); [done|by apply vigilant_woken..].
  - by eapply vigilant_kept.
  - unfold complete in Hc. case_bool_decide; [|done]. injection Hc as <-.
    eapply vigilant_kept; done.
Qed.

Lemma reachable_vigilant r : reachable config library r -> vigilant r.
Proof.
  induction 1 as [at_|r r' Hr IH Hstep]; [by apply vigilant_elsewhere|].
  eapply step_vigilant; eauto using reachable_sound.
Qed.

(** ** Guarantees *)

(** C9: in every reachable runtime no library has two cycles out at once, a library is
    marked running exactly while its one cycle runs or waits to be finished, and no
    more cycles are out than the configuration allows. *)
Theorem cycles_exclusive r :
  reachable config library r ->
  NoDup (cycles r) /\ len (cycles r) <= capacity
  /\ forall id, id ∈ cycles r <->
       exists e, libraries r !! id = Some e /\ running (state e) = true.
Proof.
  intros (Hn & Hf & Hs)%reachable_sound. split; [done|]. split.
  - unfold supervised in Hs. destruct (supervisor r); [lia|]. destruct Hs as [_ ->].
    pose proof (valid_bounds _ Hvalid) as (_ & _ & _ & _ & Hcap). unfold len. cbn. lia.
  - intros id. specialize (Hf id). destruct (libraries r !! id) as [e|]; cbn in Hf.
    + destruct Hf as (Hb & _ & _). rewrite Hb. naive_solver.
    + naive_solver.
Qed.

(** C19: while the runtime runs, no registered library is forgotten: its cycle is out,
    or it is blocked on its credentials, its root or a fault, or it has a time at which
    it is due, and that time is at most an hour away. *)
Theorem never_forgotten r id e :
  reachable config library r -> lifecycle r = LifecycleRunning -> libraries r !! id = Some e ->
  id ∈ cycles r \/ timely (clock_now r) (state e).
Proof.
  intros (_ & Hf & _)%reachable_sound Hl He. specialize (Hf id). rewrite He in Hf.
  destruct Hf as (Hb & _ & Ht). destruct (running (state e)); [left; tauto|right; auto].
Qed.

End Histories.
