(* ===== verification/RuntimeLiveness.v ===== *)
(** * How the runtime serves the libraries

    The supervisor, left alone, comes to rest; at rest every report is handled and
    every library that is due has its cycle out, unless the user has paused, the
    runtime shuts down, or every slot is taken; and slots are given in turn. *)

From S2P Require Import Prelude Vocabulary Models Rebaseline SyncTypes ClientPaths ClientStore.
From S2P Require Import SyncWorld Candidates Inbound Cycle Disk OutboundTypes OutboundStore.
From S2P Require Import ObservationStore Watchers Observation Runtime RuntimeFacts.
Import LibraryStates.

Section Liveness.

Context {X : Type} (library : X -> Z) (config : SyncRuntimeConfig.t) (Hvalid : valid config).

Notation capacity := (SyncRuntimeConfig.max_concurrent_libraries config).
Implicit Types (r : Runtime X) (e : Entry X) (libs : gmap Z (Entry X)).

(** ** At rest *)

Lemma receive_none stopping sup r : receive config stopping sup r = None -> completions r = [].
Proof. unfold receive. destruct (completions r); [done|]. by destruct (finish_first _ _ _ _). Qed.

(** Where the supervisor waits, and for what. *)
Lemma waiting_stages recorded r sup :
  supervisor r = Some sup -> supervise config recorded r = None ->
  (stage sup = Draining /\ 0 < active sup /\ completions r = [])
  \/ (exists until, stage sup = Asleep until /\ shutdown_permit r = false /\ wake_permit r = false
        /\ (active sup <= 0 \/ completions r = []) /\ clock_now r < until).
Proof.
  intros Hs Hrest. unfold supervise in Hrest. rewrite Hs in Hrest. cbn in Hrest.
  destruct (stage sup) as [| | |u|f|f|f|f|f fs|f| |]; try done.
  - by destruct (shutdown_requested r).
  - by destruct (spawn_due_cycles _ _ _ _) as [[r1 started] cursor].
  - right. exists u. destruct (shutdown_permit r); [done|].
    destruct (_ && _) eqn:Hc; [apply receive_none in Hrest; rewrite Hrest, andb_false_r in Hc; done|].
    destruct (wake_permit r); [done|]. destruct (_ <=? _) eqn:Hu; [done|].
    apply Z.leb_gt in Hu. split_and!; [done..| |done].
    apply andb_false_iff in Hc as [Hc%Z.ltb_ge|Hc]; [by left|right]. by destruct (completions r).
  - by destruct (follow_up_pending _ _).
  - left. destruct (_ <? _) eqn:Ha; [|done]. apply Z.ltb_lt in Ha. by apply receive_none in Hrest.
Qed.

(** C10: when the supervisor waits, it has handled every report; if a shutdown was
    requested, a cycle is still running; and every registered library that is due has
    its cycle out, unless the user has paused, a shutdown was requested or all slots
    are taken.  So no wake and no timer is lost. *)
Theorem rest_leaves_nothing_due r sup recorded :
  reachable config library r -> supervisor r = Some sup -> supervise config recorded r = None ->
  completions r = []
  /\ (shutdown_requested r = true -> in_flight r <> [])
  /\ forall id e, libraries r !! id = Some e -> runnable (clock_now r) e = true ->
       user_paused r = true \/ shutdown_requested r = true \/ len (in_flight r) = capacity.
Proof.
  intros Hr Hs Hrest. pose proof (reachable_sound library config Hvalid r Hr) as (_ & _ & Hsup).
  pose proof (reachable_vigilant library config Hvalid r Hr sup) as Hv.
  unfold supervised, stage_fits in Hsup. rewrite Hs in Hsup.
  destruct Hsup as (_ & _ & Ha & Hcap & Hst).
  assert (completions r = [] /\ active sup = len (in_flight r)) as [Hc Hlen].
  { assert (completions r = []) as Hc.
    { destruct (waiting_stages _ _ _ Hs Hrest) as [(_ & _ & ?)|(u & _ & _ & _ & [Hle|?] & _)]; try done.
      unfold cycles, len in Ha. rewrite app_length, map_length in Ha.
      apply length_zero_iff_nil. lia. }
    split; [done|]. rewrite Ha. unfold cycles. by rewrite Hc, app_nil_r. }
  split; [done|].
  destruct (waiting_stages _ _ _ Hs Hrest) as [(Hd & Hpos & _)|(u & Hu & Hsp & Hwp & _ & Hlt)].
  - rewrite Hd in Hst. split; [|by auto]. intros _ Hnil. rewrite Hnil in Hlen. unfold len in *. cbn in *. lia.
  - rewrite Hu in Hst. split; [intros ?%Hst; congruence|]. intros id e He Hrun.
    destruct (Hv u Hs Hu) as [?|[?|[?|Ht]]]; [congruence|by left|right; right; lia|].
    unfold runnable in Hrun. apply andb_true_iff in Hrun as [[Hg Hn]%andb_true_iff Hdue].
    apply negb_true_iff in Hn. destruct (next_due (state e)) as [due|] eqn:Hd; [|done].
    apply Z.leb_le in Hdue. specialize (Ht id due ltac:(by exists e)). lia.
Qed.

(** ** Taking turns *)

Lemma rotation_lookup (ids : list Z) cursor i :
  (i < length ids)%nat ->
  rotation ids cursor !! i = ids !! ((start_index ids cursor + i) mod length ids)%nat.
Proof.
  intros Hi. unfold rotation. cbv zeta. set (k := start_index ids cursor).
  assert (k < length ids)%nat as Hk.
  { unfold k, start_index. destruct (_ ≫= _); [apply Nat.mod_upper_bound|]; lia. }
  destruct (decide (i < length ids - k)%nat) as [Hl|Hl].
  - rewrite lookup_app_l by (rewrite length_drop; lia). rewrite lookup_drop.
    rewrite Nat.mod_small by lia. done.
  - rewrite lookup_app_r by (rewrite length_drop; lia). rewrite length_drop.
    rewrite lookup_take_lt by lia.
    replace (k + i)%nat with ((i - (length ids - k)) + 1 * length ids)%nat by lia.
    rewrite Nat.Div0.mod_add, Nat.mod_small by lia. done.
Qed.

(** The rotation that begins after its [j]-th identifier. *)
Lemma rotation_after (ids : list Z) cursor j c i id :
  NoDup ids -> rotation ids cursor !! j = Some c -> rotation ids cursor !! i = Some id ->
  (j < i)%nat -> rotation ids (Some c) !! (i - S j)%nat = Some id.
Proof.
  intros Hn Hj Hi Hlt.
  assert (i < length ids)%nat as Hil.
  { apply lookup_lt_Some in Hi. by rewrite (Permutation_length (rotation_perm _ _)) in Hi. }
  rewrite rotation_lookup in Hj, Hi by lia. rewrite rotation_lookup by lia.
  set (k := start_index ids cursor) in *. set (n := length ids) in *.
  assert (start_index ids (Some c) = S ((k + j) mod n) mod n)%nat as ->.
  { unfold start_index. cbn.
    destruct (list_find_elem_of (eq c) ids c) as [[q c'] Hq];
      [by eapply list_elem_of_lookup_2|done|].
    rewrite Hq. cbn. apply list_find_Some in Hq as (Hq & <- & _).
    by rewrite (NoDup_lookup _ _ _ _ Hn Hj Hq). }
  rewrite <- Hi. f_equal.
  rewrite <- Nat.add_1_r, Nat.Div0.add_mod_idemp_l, <- Nat.add_assoc, Nat.Div0.add_mod_idemp_l.
  f_equal. lia.
Qed.

(** The registered libraries, by what is registered. *)
Lemma registered_unchanged r r' :
  (forall id, registered <$> libraries r' !! id = registered <$> libraries r !! id) ->
  registered_libraries r' = registered_libraries r.
Proof.
  intros He. apply (StronglySorted_unique Z.le).
  - apply (StronglySorted_merge_sort Z.le).
  - apply (StronglySorted_merge_sort Z.le).
  - apply NoDup_Permutation; [apply registered_nodup..|]. intros id. rewrite !registered_elem.
    specialize (He id). destruct (libraries r' !! id), (libraries r !! id); naive_solver.
Qed.

(** C21: libraries are served in turn.  When a slot is free, a library that is due and
    at position [i] of the rotation is started; or the libraries before it take every
    free slot, it stays due, and its next position is smaller.  So a due library is
    passed over at most [i] times. *)
Theorem turns_are_bounded busy cursor r i id e :
  shutdown_requested r = false -> user_paused r = false -> busy < capacity ->
  rotation (registered_libraries r) cursor !! i = Some id ->
  libraries r !! id = Some e -> runnable (clock_now r) e = true ->
  let '(r', started, cursor') := spawn_due_cycles config busy cursor r in
  id ∈ started
  \/ (len started = capacity - busy /\ libraries r' !! id = Some e
      /\ exists k, (k < i)%nat /\ rotation (registered_libraries r') cursor' !! k = Some id).
Proof.
  intros Hd Hp Hb Hi He Hr. unfold spawn_due_cycles. rewrite Hd, Hp. cbn [orb].
  set (ids := rotation (registered_libraries r) cursor) in *. set (n := Z.to_nat _).
  assert (NoDup ids) as Hids by (unfold ids; rewrite rotation_perm; apply registered_nodup).
  pose proof (spawn_each_fair (clock_now r) ids n (libraries r) i id e Hids Hi He Hr) as Hfair.
  pose proof (spawn_each_lookup (clock_now r) ids n (libraries r) Hids) as Hl.
  destruct (spawn_each _ _ _ _) as [libs started] eqn:Hspawn. cbn in Hfair.
  destruct (decide (id ∈ started)) as [?|Hni]; [by left|right].
  destruct Hfair as [?|[Hlen Hbefore]]; [done|].
  assert (registered_libraries (set_cycles (emit_all (set_libraries r libs)
    (map EventCycleStarted started)) (in_flight r ++ started) (completions r))
    = registered_libraries r) as ->.
  { apply registered_unchanged. intros j. cbn. destruct (Hl j) as [H1 H2].
    destruct (decide (j ∈ started)) as [Hj|Hj]; [|by rewrite (H2 Hj)].
    destruct (H1 Hj) as (e' & -> & _ & ->). done. }
  split; [unfold len; lia|]. split; [cbn; by rewrite (proj2 (Hl id) Hni)|].
  destruct (last started) as [c|] eqn:Hlast.
  - destruct (Hbefore c) as (j & Hj & Hc); [by apply last_Some_elem_of|].
    exists (i - S j)%nat. split; [lia|]. eapply rotation_after; eauto using registered_nodup.
  - apply last_None in Hlast as ->. cbn in Hlen. lia.
Qed.

(** ** Coming to rest *)

Definition due_now (now : Z) libs : gset Z :=
  dom (filter (fun p : Z * Entry X => runnable now p.2 = true) libs).

Lemma due_now_elem now libs id :
  id ∈ due_now now libs <-> exists e, libs !! id = Some e /\ runnable now e = true.
Proof. unfold due_now. rewrite elem_of_dom. unfold is_Some. by setoid_rewrite map_lookup_filter_Some. Qed.

(** Another entry at one identifier. *)
Lemma due_now_others now libs libs' id :
  (forall i, i <> id -> libs' !! i = libs !! i) ->
  (size (due_now now libs') <= S (size (due_now now libs)))%nat.
Proof.
  intros He. transitivity (size ({[id]} ∪ due_now now libs)).
  - apply subseteq_size. intros i. rewrite elem_of_union, elem_of_singleton, !due_now_elem.
    destruct (decide (i = id)); [by left|]. rewrite He by done. by right.
  - rewrite size_union_alt, size_singleton. apply le_n_S, subseteq_size. set_solver.
Qed.

Lemma due_now_subset now libs libs' :
  (forall id, id ∈ due_now now libs' -> id ∈ due_now now libs) ->
  (size (due_now now libs') <= size (due_now now libs))%nat.
Proof. intros Hs. by apply subseteq_size. Qed.

(** A cycle begins for libraries that were due and are no longer. *)
Lemma due_now_spawn now n ids libs :
  NoDup ids ->
  (size (due_now now (spawn_each now n ids libs).1) + length (spawn_each now n ids libs).2
   <= size (due_now now libs))%nat.
Proof.
  intros Hn. pose proof (spawn_each_lookup now ids n libs Hn) as Hl.
  destruct (spawn_each_sub now ids n libs) as [Hsub _].
  destruct (spawn_each now n ids libs) as [libs' started]. cbn in *.
  assert (NoDup started) as Hns by (eapply sublist_NoDup; [exact Hn|done]).
  rewrite <- (size_list_to_set (C := gset Z) started Hns), <- size_union.
  - apply subseteq_size. intros id. rewrite elem_of_union, elem_of_list_to_set, !due_now_elem.
    destruct (Hl id) as [H1 H2]. destruct (decide (id ∈ started)) as [Hin|Hin].
    + destruct (H1 Hin) as (e & He & Hr & _). eauto.
    + rewrite (H2 Hin). naive_solver.
  - intros id. rewrite elem_of_list_to_set, due_now_elem. intros (e & He & Hr) Hin.
    destruct (Hl id) as [H1 _]. destruct (H1 Hin) as (e' & _ & _ & He'). rewrite He in He'.
    injection He' as ->. unfold runnable in Hr. cbn in Hr. by rewrite andb_false_r in Hr.
Qed.

(** How far a stage is from the next wait. *)
Definition rank (s : Stage) : nat :=
  match s with
  | Asleep _ => 0 | Planning => 1 | Spawning => 2 | AtTop => 3
  | Ending => 1 | Draining => 2
  | Emitting _ => 10 | Settling _ _ => 11 | Unproven _ => 11 | Revoking _ => 12 | Checking _ => 13
  | Recording _ => 14
  end.

(** The timer of this turn goes off at once. *)
Definition expired (sup : Supervisor) r : bool :=
  negb (shutdown_permit r)
  && match stage sup with
     | Planning => sleep_until config (active sup) r <=? clock_now r
     | Asleep until => until <=? clock_now r
     | _ => false
     end.

Definition weight r : nat :=
  30 * length (completions r) + 12 * size (due_now (clock_now r) (libraries r))
  + 6 * Nat.b2n (shutdown_permit r) + 6 * Nat.b2n (wake_permit r)
  + match supervisor r with
    | None => 0
    | Some sup => 6 * Nat.b2n (expired sup r) + rank (stage sup)
    end.

Lemma fold_min_elem l : forall a, foldl Z.min a l ∈ a :: l.
Proof.
  induction l as [|b l IH]; intros a; cbn; [by left|].
  specialize (IH (Z.min a b)). apply elem_of_cons in IH as [->|IH]; [|by right; right].
  destruct (Z.min_spec a b) as [[_ ->]|[_ ->]]; [by left|right; by left].
Qed.

Lemma earliest_due_waits d r : earliest_due r = Some d -> exists id, waits_for id d r.
Proof.
  unfold earliest_due. destruct (user_paused r); [done|].
  destruct (omap _ _) as [|a l] eqn:Hdues; [done|]. intros [= <-].
  pose proof (fold_min_elem l a) as Hin. rewrite <- Hdues in Hin.
  apply list_elem_of_omap in Hin as ([id e] & He%elem_of_map_to_list & Hd). cbn in Hd.
  exists id, e. destruct (registered e), (running (state e)); done.
Qed.

(** With nothing to start, the timer of the turn is in the future. *)
Lemma nothing_due_sleeps busy r :
  (busy < capacity -> user_paused r = false -> due_now (clock_now r) (libraries r) = ∅) ->
  clock_now r < sleep_until config busy r.
Proof.
  intros Hnone. assert (0 < NO_DEADLINE_WAIT) by done. unfold sleep_until.
  destruct (busy <? capacity) eqn:Hb; [|lia]. apply Z.ltb_lt in Hb.
  destruct (earliest_due r) as [d|] eqn:Hd; [|lia].
  destruct (clock_now r <? d) eqn:Hlt; [by apply Z.ltb_lt|]. apply Z.ltb_ge in Hlt.
  destruct (user_paused r) eqn:Hp; [unfold earliest_due in Hd; by rewrite Hp in Hd|].
  destruct (earliest_due_waits _ _ Hd) as (id & e & He & Hg & Hr & Hdue).
  assert (id ∈ due_now (clock_now r) (libraries r)) as Hin.
  { apply due_now_elem. exists e. split; [done|]. unfold runnable. rewrite Hg, Hr, Hdue. cbn.
    by apply Z.leb_le. }
  rewrite Hnone in Hin by done. set_solver.
Qed.

Lemma due_now_alter now libs id f :
  (forall e, runnable now (set_state e (f (state e))) = true -> runnable now e = true) ->
  (size (due_now now (alter_state f id libs)) <= size (due_now now libs))%nat.
Proof.
  intros Hr. apply due_now_subset. intros i. rewrite !due_now_elem. intros (e & He & Hrun).
  unfold alter_state in He. destruct (decide (i = id)) as [->|Hi].
  - rewrite lookup_alter_eq in He. destruct (libs !! id) as [e'|]; [|done].
    injection He as <-. eauto.
  - rewrite lookup_alter_ne in He by done. eauto.
Qed.

(** *** Each step *)

(** The first part of [finish_cycle] changes one entry. *)
Lemma finish_first_frame c stopping r :
  exists libs, (finish_first config c stopping r).1 = set_libraries r libs
    /\ (forall i, i <> completed_library c -> libs !! i = libraries r !! i)
    /\ (rank (default (after_finish stopping) (finish_first config c stopping r).2) <= 14)%nat
    /\ forall u, default (after_finish stopping) (finish_first config c stopping r).2
                 ∉ [Planning; Asleep u].
Proof.
  unfold finish_first. cbv zeta. destruct (libraries r !! _) as [e|] eqn:He.
  - destruct (stopping || negb (registered e)).
    + eexists. split; [reflexivity|]. split; [|split; [cbn; lia|set_solver]].
      intros i Hi. destruct (registered e); [by rewrite lookup_insert_ne|by rewrite lookup_delete_ne].
    + destruct (schedule_after_cycle _ _ _ _ _) as [s decision]. eexists. split; [reflexivity|].
      split; [|split; [|intros u]; cbn; destruct (_ && _); cbn; first [lia|set_solver]].
      intros i Hi. by rewrite lookup_insert_ne.
  - exists (libraries r). split; [by destruct r|]. split; [done|].
    split; [|intros u]; destruct stopping; cbn; first [lia|set_solver].
Qed.

Lemma receive_lighter stopping sup r r' :
  supervisor r = Some sup -> receive config stopping sup r = Some r' -> (weight r' < weight r)%nat.
Proof.
  intros Hs. unfold receive. destruct (completions r) as [|c rest] eqn:Hc; [done|].
  destruct (finish_first_frame c stopping (set_cycles r (in_flight r) rest))
    as (libs & H1 & H2 & H3 & H4).
  destruct (finish_first _ _ _ _) as [r1 next]. cbn in H1. subst r1. cbn in H2, H3, H4.
  intros [= <-]. unfold weight. rewrite Hs, Hc. cbn -[Nat.mul due_now].
  pose proof (due_now_others (clock_now r) _ _ _ H2).
  unfold expired. cbn [stage shutdown_permit set_supervisor set_libraries set_cycles].
  destruct (default (after_finish stopping) next) as [| | |u|f|f|f|f|f fs|f| |] eqn:Hn;
    first [destruct (H4 0); set_solver|destruct (H4 u); set_solver
          |rewrite andb_false_r; cbn [Nat.b2n] in *; lia].
Qed.

(** A turn that starts nothing found nothing due. *)
Lemma nothing_spawned now n ids libs :
  NoDup ids -> (0 < n)%nat -> (forall id e, libs !! id = Some e -> registered e = true -> id ∈ ids) ->
  (spawn_each now n ids libs).2 = [] -> due_now now (spawn_each now n ids libs).1 = ∅.
Proof.
  intros Hn Hpos Hids Hnil. apply set_eq. intros id. split; [|set_solver].
  intros (e & He & Hr)%due_now_elem. pose proof (spawn_each_lookup now ids n libs Hn id) as Hl.
  pose proof (spawn_each_fair now ids n libs) as Hfair.
  destruct (spawn_each now n ids libs) as [libs' started]. cbn in *. subst started.
  rewrite (proj2 Hl) in He by set_solver.
  assert (registered e = true) as Hg by (unfold runnable in Hr; by destruct (registered e)).
  destruct (list_elem_of_lookup_1 _ _ (Hids _ _ He Hg)) as [i Hi].
  destruct (Hfair i id e Hn Hi He Hr) as [?|[Hlen _]]; [set_solver|cbn in Hlen; lia].
Qed.

Lemma planning_lighter sup cursor busy r r' :
  supervisor r = Some sup -> stage sup = Spawning -> completions r' = completions r ->
  clock_now r' = clock_now r -> shutdown_permit r' = shutdown_permit r ->
  wake_permit r' = wake_permit r ->
  (size (due_now (clock_now r) (libraries r')) <= size (due_now (clock_now r) (libraries r)))%nat ->
  shutdown_permit r = true \/ clock_now r' < sleep_until config busy r' ->
  (weight (set_supervisor r' (Some (mk_Supervisor busy cursor Planning))) < weight r)%nat.
Proof.
  intros Hs Hst Hc Hcl Hsp Hw Hle Hsleep. unfold weight. rewrite Hs, Hst.
  unfold expired. rewrite Hst. cbn -[Nat.mul due_now sleep_until].
  change (sleep_until config busy (set_supervisor r' _)) with (sleep_until config busy r').
  rewrite Hc, Hcl, Hsp, Hw.
  replace (negb (shutdown_permit r) && _) with false; [cbn [Nat.b2n andb]; lia|].
  destruct Hsleep as [->|Hlt]; [done|]. rewrite Hcl in Hlt. symmetry. apply andb_false_intro2. by apply Z.leb_gt.
Qed.

Lemma spawn_lighter sup r :
  supervised config r -> supervisor r = Some sup -> stage sup = Spawning ->
  let '(r', started, cursor) := spawn_due_cycles config (active sup) (round_robin_cursor sup) r in
  (weight (set_supervisor r' (Some (mk_Supervisor (active sup + len started) cursor
             (if is_empty started then Planning else AtTop)))) < weight r)%nat.
Proof.
  intros Hsup Hs Hst. unfold supervised, stage_fits in Hsup. rewrite Hs, Hst in Hsup.
  destruct Hsup as (_ & _ & _ & _ & Hperm). unfold spawn_due_cycles.
  destruct (shutdown_requested r || user_paused r) eqn:Hb.
  { eapply planning_lighter; try done. apply orb_true_iff in Hb as [Hb|Hb]; [by left; auto|right].
    apply nothing_due_sleeps. by rewrite Hb. }
  set (n := Z.to_nat _). set (ids := rotation _ _).
  assert (NoDup ids) as Hids by (unfold ids; rewrite rotation_perm; apply registered_nodup).
  pose proof (due_now_spawn (clock_now r) n ids (libraries r) Hids) as Hsize.
  pose proof (nothing_spawned (clock_now r) n ids (libraries r) Hids) as Hnothing.
  destruct (spawn_each _ _ _ _) as [libs [|c started]] eqn:Hspawn; cbn [fst snd length] in *.
  - apply planning_lighter with sup; try done; [cbn; lia|]. right. apply nothing_due_sleeps.
    change (len []) with 0. intros Hcap _. apply Hnothing; [lia| |done].
    intros id e He Hg. unfold ids. rewrite rotation_perm. apply registered_elem. eauto.
  - unfold weight, expired. rewrite Hs, Hst. cbn -[Nat.mul due_now]. rewrite andb_false_r. cbn [Nat.b2n]. lia.
Qed.

#[local] Ltac goes_on Hs Hst :=
  match goal with H : Some _ = Some _ |- _ => injection H as <- end;
  unfold weight, expired; rewrite Hs, Hst; cbn -[Nat.mul due_now sleep_until];
  rewrite ?andb_false_r; cbn [Nat.b2n]; try lia.

(** Each step of the supervisor brings it nearer to its next wait. *)
Lemma supervise_lighter recorded r r' :
  supervised config r -> supervise config recorded r = Some r' -> (weight r' < weight r)%nat.
Proof.
  intros Hsup Hstep. unfold supervise in Hstep.
  destruct (supervisor r) as [sup|] eqn:Hs; [|done]. cbn in Hstep.
  destruct (stage sup) as [| | |u|f|f|f|f|f fs|f| |] eqn:Hst.
  - destruct (shutdown_requested r); goes_on Hs Hst.
  - pose proof (spawn_lighter sup r Hsup Hs Hst) as Hsp.
    destruct (spawn_due_cycles _ _ _ _) as [[r1 started] cursor]. by injection Hstep as <-.
  - goes_on Hs Hst.
  - destruct (shutdown_permit r) eqn:Hp; [goes_on Hs Hst; rewrite Hp; cbn; lia|].
    destruct (_ && _); [by eapply receive_lighter|].
    destruct (wake_permit r) eqn:Hw; [goes_on Hs Hst; rewrite Hw; cbn; lia|].
    destruct (_ <=? _) eqn:Hu; [|done]. goes_on Hs Hst. rewrite Hp, Hu. cbn. lia.
  - destruct recorded; goes_on Hs Hst.
  - destruct (follow_up_pending _ _); goes_on Hs Hst.
  - goes_on Hs Hst.
    pose proof (due_now_alter (clock_now r) (libraries r) (finish_library f) unproven) as Hle.
    cut (forall e, runnable (clock_now r) (set_state e (unproven (state e))) = true ->
                   runnable (clock_now r) e = true); [intros ?%Hle; lia|].
    intros e. unfold runnable. cbn. by rewrite andb_false_r.
  - goes_on Hs Hst.
  - goes_on Hs Hst.
    pose proof (due_now_alter (clock_now r) (libraries r) (finish_library f) (set_first_sync fs)
                  (fun e H => H)). lia.
  - destruct (finish_stopping f); goes_on Hs Hst.
  - destruct (0 <? active sup); [by eapply receive_lighter|]. goes_on Hs Hst.
  - injection Hstep as <-. unfold weight. rewrite Hs, Hst. cbn -[Nat.mul due_now].
    cut (size (due_now (clock_now r) (libraries (end_supervisor r)))
         <= size (due_now (clock_now r) (libraries r)))%nat; [cbn -[Nat.mul due_now]; lia|].
    apply due_now_subset. intros id (e & He & Hr)%due_now_elem. cbn in He.
    rewrite lookup_fmap in He. destruct (filter _ _ !! id); [|done]. injection He as <-.
    unfold runnable in Hr. cbn in Hr. by rewrite andb_false_r in Hr.
Qed.

(** C20: left alone, the supervisor comes to rest: from any reachable runtime, whatever
    the executors answer to [record_quiescent], it takes finitely many steps before it
    waits for a call, a cycle or the clock.  It never spins. *)
Theorem supervisor_rests r :
  reachable config library r ->
  Acc (fun r' r => exists recorded, supervise config recorded r = Some r') r.
Proof.
  intros Hs%(reachable_sound library config Hvalid).
  remember (weight r) as w eqn:Hw. revert r Hw Hs.
  induction w as [w IH] using lt_wf_ind. intros r -> Hs. constructor. intros r' [recorded Hstep].
  eapply IH; [|reflexivity|by eapply supervise_sound].
  destruct Hs as (_ & _ & Hsup). by eapply supervise_lighter.
Qed.

End Liveness.
