(* ===== verification/SubmissionFacts.v ===== *)
(** * What outbound submission guarantees

    The engine against any clock, any database fault, any folder and any server,
    within whole synchronisation cycles: a mutation is durable before it is sent
    and is the same on every retry. *)

From S2P Require Import Prelude Vocabulary Values Models Requests Rebaseline SyncTypes ClientPaths.
From S2P Require Import ClientStore FeedProtocol StoreFacts SyncWorld Candidates SnapshotFacts.
From S2P Require Import Inbound Cycle InboundFacts Disk OutboundTypes OutboundStore Submission.
From S2P Require Import Conflicts Materialize MaterializeFacts EditFacts SyncFacts ConvergenceFacts.
From S2P Require Import CycleFrame.

(** ** Mutations are durable before they are sent *)

Section Ledger.

Context {F : Type} `{U : Unicode} `{E : Env} `{I : Identifiers} `{H : Sha} `{S : Serde}.

(** The request of an intent in the table of mutation requests. *)
Definition request_in (rows : gmap Z MutationRow) (id : Z) : option Mutation.Request :=
  match rows !! id with
  | Some row =>
      match OutboundStore.decode_mutation_record id row with
      | Ok record => Some (OutboundStore.record_request record)
      | Err _ => None
      end
  | None => None
  end.

(** The unique index of [mutation_id]. *)
Definition unique_mutations (rows : gmap Z MutationRow) : Prop :=
  forall i j a b, rows !! i = Some a -> rows !! j = Some b ->
    mutation_row_id a = mutation_row_id b -> i = j.

(** A mutation that was sent is, since before it was sent, the request of an
    intent. *)
Definition durable_send (rows : gmap Z MutationRow) (p : Store * request) : Prop :=
  match p.2 with
  | SentMutation r =>
      outbound_mutation_requests p.1 ⊆ rows
      /\ exists id, request_in (outbound_mutation_requests p.1) id = Some r
  | _ => True
  end.

Definition ledger (X : gmap Z MutationRow -> Prop) (w : World F) : Prop :=
  let rows := outbound_mutation_requests (store w) in
  unique_mutations rows /\ Forall (durable_send rows) (sent w) /\ X rows.

Lemma ledger_call {A} X (t : tx A) :
  keeps outbound_mutation_requests t -> calm (ledger X) (call t).
Proof.
  intros Ht. apply calm_call; [|done]. intros w s a Hw Hr.
  unfold ledger in *. cbn. by rewrite (Ht _ _ _ _ Hr).
Qed.

Definition is_mutation (q : request) : bool :=
  match q with SentMutation _ => true | _ => false end.

Lemma ledger_sent X w q :
  ledger X w ->
  (forall r, q = SentMutation r ->
     exists id, request_in (outbound_mutation_requests (store w)) id = Some r) ->
  Forall (durable_send (outbound_mutation_requests (store w))) (sent w ++ [(store w, q)]).
Proof.
  intros (_ & Hs & _) Hq. apply Forall_app. split; [done|]. apply Forall_singleton.
  unfold durable_send. cbn. destruct q; try done. split; [done|by apply Hq].
Qed.

Lemma ledger_send {A} X q (answer : nat -> result A RemoteError) :
  is_mutation q = false -> calm (ledger X) (send q answer).
Proof.
  intros Hq w Hw. split_and!; [apply Hw| |apply Hw]. apply (ledger_sent X w); [done|].
  intros r ->. done.
Qed.

Lemma ledger_send_or_fail {A} X q (answer : nat -> result A RemoteError) :
  is_mutation q = false -> calm (ledger X) (send_or_fail q answer).
Proof.
  intros Hq w Hw. split_and!; [apply Hw| |apply Hw]. apply (ledger_sent X w); [done|].
  intros r ->. done.
Qed.

Lemma ledger_send_mutation {A} id r (answer : nat -> result A RemoteError) :
  calm (ledger (fun rows => request_in rows id = Some r)) (send (SentMutation r) answer).
Proof.
  intros w Hw. split_and!; [apply Hw| |apply Hw]. eapply (ledger_sent _ w); [done|].
  intros r' [= ->]. exists id. apply Hw.
Qed.

Lemma ledger_outward X : Outward (ledger X).
Proof.
  split.
  - intros w w' Hs Hl. unfold ledger. by rewrite Hs, Hl.
  - intros w w' q Hq Hs Hl Hw. unfold ledger. rewrite Hs, Hl.
    split_and!; [apply Hw| |apply Hw]. apply (ledger_sent X w); [done|]. by intros r ->.
  - intros A t Ht. apply ledger_call. intros now s s' a Hr. by injection (Ht _ _ _ _ Hr).
  - intros. apply ledger_call. unfold Outbound.require_rebase. frame.
  - intros. apply ledger_call. unfold Outbound.reconcile_server_applied_intents. frame.
  - intros. apply ledger_call. unfold Ops.insert_observation_issue. frame.
Qed.

(** The one statement that writes the table only adds to it. *)
Lemma insert_mutation_extends id request json now s s' u :
  OutboundStore.insert_mutation_request id request json now s = Ok (s', u) ->
  unique_mutations (outbound_mutation_requests s) ->
  outbound_mutation_requests s ⊆ outbound_mutation_requests s'
  /\ unique_mutations (outbound_mutation_requests s').
Proof.
  intros Hr Hu. unfold OutboundStore.insert_mutation_request in Hr. repeat tx_step Hr.
  destruct (is_some (outbound_mutation_requests s !! id)) eqn:Hex.
  { injection Hr as <-. done. }
  repeat tx_step Hr. injection Hr as <-. cbn.
  assert (outbound_mutation_requests s !! id = None) as Hn.
  { destruct (outbound_mutation_requests s !! id); done. }
  split; [by apply insert_subseteq|].
  assert (forall j b, outbound_mutation_requests s !! j = Some b ->
            mutation_row_id b <> Mutation.mutation_id request) as Hfresh.
  { intros j b Hj Heq. apply negb_true_iff in Hb0.
    assert (existsb (fun p : Z * MutationRow => mutation_row_id p.2 =? Mutation.mutation_id request)
              (map_to_list (outbound_mutation_requests s)) = true) as Ht; [|congruence].
    apply existsb_exists. exists (j, b). split; [|cbn; lia].
    by apply list_elem_of_In, elem_of_map_to_list. }
  intros i j x y Hi Hj Hxy.
  apply lookup_insert_Some in Hi as [[<- <-]|[Hi1 Hi]];
    apply lookup_insert_Some in Hj as [[<- <-]|[Hj1 Hj]]; try done.
  - by destruct (Hfresh _ _ Hj).
  - by destruct (Hfresh _ _ Hi).
  - by eapply Hu.
Qed.

End Ledger.

#[export] Existing Instance ledger_outward.
#[export] Hint Extern 1 (calm (ledger _) (send _ _)) => by apply ledger_send : calms.
#[export] Hint Extern 1 (calm (ledger _) (send_or_fail _ _)) => by apply ledger_send_or_fail : calms.

Ltac ledgered := walk ltac:(apply ledger_call).

Section Engine.

Context {F : Type} `{U : Unicode} `{E : Env} `{R : SyncRemote} `{W : UploadRemote}
  `{L : LocalReplica F} `{C : ContentReader F} `{I : Identifiers} `{H : Sha} `{S : Serde}.
Context (scope : ReplicaScope).

Notation recorded := (ledger (F := F) (fun _ => True)).

Lemma ledger_revalidate X intent : calm (ledger (F:=F) X) (Submission.revalidate_namespace intent).
Proof. ledgered. Qed.

Lemma ledger_applied X id result :
  calm (ledger (F:=F) X) (OutboundStore.record_mutation_applied id result).
Proof. ledgered. Qed.

Lemma ledger_conflict X id mutation conflict :
  calm (ledger (F:=F) X) (OutboundStore.record_mutation_conflict id mutation conflict).
Proof. ledgered. Qed.

Lemma ledger_chunks X fuel id session staging length offset :
  calm (ledger (F:=F) X) (Submission.upload_chunks scope fuel id session staging length offset).
Proof.
  revert offset. induction fuel as [|fuel IH]; intros offset; cbn [Submission.upload_chunks].
  - ledgered.
  - ledgered.
Qed.

Lemma ledger_resume X intent upload :
  calm (ledger (F:=F) X) (Submission.resume_upload scope intent upload).
Proof. pose proof (ledger_chunks X). unfold Submission.resume_upload. ledgered. Qed.

Lemma ledger_upload X intent :
  calm (ledger (F:=F) X) (Submission.submit_upload_intent scope intent).
Proof. pose proof (ledger_resume X). unfold Submission.submit_upload_intent. ledgered. Qed.

(** The record a submission works with is durable when it is returned. *)
Lemma mutation_record_ok intent (w w' : World F) record :
  Submission.mutation_record intent w = (w', Ok record) ->
  request_in (outbound_mutation_requests (store w')) intent.1
  = Some (OutboundStore.record_request record).
Proof.
  assert (forall s, OutboundStore.durable_mutation_request intent.1 s = Ok (Some record) ->
            request_in (outbound_mutation_requests s) intent.1
            = Some (OutboundStore.record_request record)) as Hd.
  { intros s Hs. unfold OutboundStore.durable_mutation_request in Hs. unfold request_in.
    destruct (_ !! _); [|done]. by destruct (OutboundStore.decode_mutation_record _ _);
      simplify_eq. }
  intros Hr. apply bind_ok in Hr as (w1 & found & H1 & Hr). apply read_ok in H1 as [H1 ->].
  destruct found as [found|]; [injection Hr as <- ->; by apply Hd|].
  apply bind_ok in Hr as (w2 & mutation_id & _ & Hr).
  apply bind_ok in Hr as (w3 & request & _ & Hr).
  unfold OutboundStore.persist_mutation_request in Hr.
  do 2 (apply bind_ok in Hr as (? & ? & _ & Hr)).
  apply bind_ok in Hr as (w4 & persisted & H4 & Hr). apply read_ok in H4 as [H4 ->].
  destruct persisted as [persisted|]; [|done].
  apply bind_ok in Hr as (w5 & [] & H5 & Hr). apply reject_ok in H5 as [_ ->].
  injection Hr as <- <-. by apply Hd.
Qed.

Lemma ledger_persist id request json :
  calm recorded (OutboundStore.persist_mutation_request id request json).
Proof.
  unfold OutboundStore.persist_mutation_request. apply calm_bind; [auto with calms|intros _].
  apply calm_bind; [|intros ?; ledgered]. apply calm_call; [|done]. intros w s' u (Hu & Hs & _) Hr.
  tx_step Hr. apply insert_mutation_extends in Hr as [Hsub Hu']; [|done].
  split_and!; [done| |done]. cbn. eapply Forall_impl; [done|]. intros [s0 q].
  unfold durable_send. cbn. destruct q; try done. intros [Hsub0 Hid]. split; [|done].
  by etransitivity.
Qed.

Lemma ledger_record intent : calm recorded (Submission.mutation_record intent).
Proof. pose proof ledger_persist. unfold Submission.mutation_record. ledgered. Qed.

Lemma ledger_namespace intent : calm recorded (Submission.submit_namespace_intent scope intent).
Proof.
  apply calm_bind; [apply ledger_revalidate|intros _]. intros w Hw. unfold bind at 1.
  pose proof (ledger_record intent w Hw) as Hw1.
  destruct (Submission.mutation_record intent w) as [w1 [record|e]] eqn:Hr; [|done].
  apply mutation_record_ok in Hr. set (r := OutboundStore.record_request record) in *.
  set (X := fun rows => request_in rows intent.1 = Some r).
  match goal with |- recorded (?m w1).1 => assert (calm (ledger X) m) as Hm end.
  - apply calm_bind; [ledgered|intros _]. apply calm_bind; [apply ledger_send_mutation|intros ?].
    pose proof (ledger_applied X). pose proof (ledger_conflict X). ledgered.
  - cbn in Hw1. destruct Hw1 as (? & ? & _). by destruct (Hm w1) as (? & ? & _).
Qed.

Lemma ledger_process : calm recorded (Submission.process_next_ready_intent scope).
Proof.
  pose proof ledger_namespace. pose proof (ledger_upload (fun _ => True)).
  unfold Submission.process_next_ready_intent, Submission.submit_intent. ledgered.
Qed.

End Engine.

(** ** Whole cycles *)

Section Cycles.

Context {F : Type} `{U : Unicode} `{E : Env} `{R : SyncRemote} `{P : SnapshotRemote}
  `{W : UploadRemote} `{L : LocalReplica F} `{C : ContentReader F} `{I : Identifiers} `{H : Sha}
  `{S : Serde}.
Context (scope : ReplicaScope) (profile : option Z) (config : EngineConfig.t) (page_limit : Z).

Notation recorded := (ledger (F := F) (fun _ => True)).

(** The commits of other components do not write the table of mutation requests. *)
Definition same_requests (s s' : Store) : Prop :=
  outbound_mutation_requests s' = outbound_mutation_requests s.

Notation history := (client_history scope profile config page_limit same_requests).

Lemma ledger_history w w' : recorded w -> history w w' -> recorded w'.
Proof.
  intros Hw. apply client_invariant; [..|done].
  - intros t. apply outward_cycle; [apply _|apply ledger_process].
  - intros intent. ledgered.
  - intros source intent. ledgered.
  - intros node. ledgered.
  - intros path. ledgered.
  - intros node. ledgered.
  - intros c x r d. ledgered.
  - done.
  - intros v s Hv Hs. unfold ledger in *. cbn. by rewrite Hs.
Qed.

(** The request of a row carries the mutation identifier of the row. *)
Lemma request_in_row rows id r :
  request_in rows id = Some r ->
  exists row, rows !! id = Some row /\ mutation_row_id row = Mutation.mutation_id r.
Proof.
  unfold request_in. destruct (rows !! id) as [row|]; [|done]. intros Hr. exists row.
  split; [done|]. unfold OutboundStore.decode_mutation_record in Hr.
  destruct (mutation_request_from_json _) as [q|]; [|done]. cbn in Hr.
  destruct (decide (Mutation.mutation_id q = mutation_row_id row)) as [Hq|Hq].
  - by repeat case_match; simplify_eq.
  - by rewrite (bool_decide_false _ Hq) in Hr.
Qed.

Lemma request_in_mono rows rows' id r :
  rows ⊆ rows' -> request_in rows id = Some r -> request_in rows' id = Some r.
Proof.
  unfold request_in. intros Hsub. destruct (rows !! id) as [row|] eqn:Hr; [|done].
  by rewrite (lookup_weaken _ _ _ _ Hr Hsub).
Qed.

(** C2: A mutation is decided once. Over any history of the client, with lost
    answers, database faults and crashes between any two statements, every
    mutation the server receives was durable as the request of one intent before
    it was sent; two submissions belong to the same intent exactly when they
    carry the same mutation identifier, and then they are the same request. *)
Theorem mutation_requests_stable w w' :
  sent w = [] -> unique_mutations (outbound_mutation_requests (store w)) ->
  history w w' ->
  forall s1 r1 s2 r2,
    (s1, SentMutation r1) ∈ sent w' -> (s2, SentMutation r2) ∈ sent w' ->
    exists i1 i2,
      request_in (outbound_mutation_requests s1) i1 = Some r1
      /\ request_in (outbound_mutation_requests s2) i2 = Some r2
      /\ (i1 = i2 <-> Mutation.mutation_id r1 = Mutation.mutation_id r2)
      /\ (i1 = i2 -> r1 = r2).
Proof.
  intros Hs Hu Hh s1 r1 s2 r2 H1 H2.
  destruct (ledger_history w w') as (Hu' & Hsent & _); [|done|].
  { split_and!; [done|by rewrite Hs|done]. }
  rewrite Forall_forall in Hsent.
  destruct (Hsent _ H1) as [Hsub1 [i1 Hi1]], (Hsent _ H2) as [Hsub2 [i2 Hi2]]. cbn in *.
  exists i1, i2. split_and!; [done..| |].
  - pose proof (request_in_mono _ _ _ _ Hsub1 Hi1) as Hc1.
    pose proof (request_in_mono _ _ _ _ Hsub2 Hi2) as Hc2. split.
    + intros ->. rewrite Hc1 in Hc2. congruence.
    + intros Hid. apply request_in_row in Hc1 as (a & Ha & Hia), Hc2 as (b & Hb & Hib).
      eapply Hu'; [done..|congruence].
  - intros ->. pose proof (request_in_mono _ _ _ _ Hsub1 Hi1) as Hc1.
    pose proof (request_in_mono _ _ _ _ Hsub2 Hi2) as Hc2. congruence.
Qed.

End Cycles.
