(* ===== verification/UploadFacts.v ===== *)
(** * What the chunk loop of an upload guarantees

    The chunks of an upload are slices of the staged file, in order and without
    gap, and their loop ends whatever the server answers. *)

From S2P Require Import Prelude Values Requests SyncTypes ClientPaths ClientStore SyncWorld Disk.
From S2P Require Import OutboundTypes OutboundStore Submission.

(** ** Uploads *)

(** The requests of a chunk loop from one offset to another: each chunk is the
    slice of the content at its offset, and the last one may stay unanswered. *)
Inductive appends (session length : Z) (content : rstring) : Z -> list request -> Z -> Prop :=
| appends_done o : appends session length content o [] o
| appends_last o chunk :
    o < length -> chunk <> [] -> chunk `prefix_of` drop_z o content ->
    appends session length content o [SentAppendChunk session o chunk] o
| appends_more o chunk next l o' :
    o < length -> chunk <> [] -> chunk `prefix_of` drop_z o content -> o < next <= length ->
    appends session length content next l o' ->
    appends session length content o (SentAppendChunk session o chunk :: l) o'.

Definition chunk_of (q : request) : rstring :=
  match q with SentAppendChunk _ _ chunk => chunk | _ => [] end.

Section Chunks.

Context {F : Type} `{U : Unicode} `{E : Env} `{W : UploadRemote} `{C : ContentReader F}
  `{I : Identifiers} `{H : Sha}.
Context (scope : ReplicaScope) (id session : Z) (staging : rstring) (length : Z).

Notation loop := (Submission.upload_chunks (F := F) scope).

Lemma call_frame {A} (t : tx A) (w : World F) :
  sent (call t w).1 = sent w /\ files (call t w).1 = files w.
Proof.
  unfold call. destruct (db_fault (tick w)); [|done|];
    by destruct (t (clock (tick w)) (store w)) as [[s a]|e].
Qed.

(** What a turn needs is that the offset has not reached the length. *)
Lemma chunks_stable fuel offset (w : World F) :
  (Submission.chunk_fuel length offset <= fuel)%nat ->
  (loop fuel id session staging length offset w).2 <> Ok OutOfFuel
  /\ forall more, loop (fuel + more)%nat id session staging length offset w
                  = loop fuel id session staging length offset w.
Proof.
  unfold Submission.chunk_fuel. revert offset w.
  induction fuel as [|fuel IH]; intros offset w Hf.
  { split; [|intros more; destruct more]; cbn; destruct (Z.leb_spec length offset); done || lia. }
  cbn [Submission.upload_chunks Nat.add]. destruct (Z.leb_spec length offset) as [Hl|Hl]; [done|].
  unfold bind. destruct (fs _ w) as [w1 [chunk|e]]; [|done].
  destruct (send_or_fail _ _ w1) as [w2 [next|e]]; [|done].
  destruct ((next <=? offset) || (length <? next)) eqn:Hn.
  { unfold ret. destruct (Submission.block id w2) as [w3 [u|e]]; done. }
  destruct (call _ w2) as [w3 [u|e]]; [|done]. apply IH.
  apply orb_false_iff in Hn as [Hn _]. lia.
Qed.

(** The chunk loop of an upload ends: with as many turns as bytes are missing
    it has met an error, been stopped by an offset the server may not answer, or
    reached the expected length, and more turns change nothing.  The server may
    answer any offset. *)
Theorem upload_loop_terminates fuel offset (w : World F) :
  (Submission.chunk_fuel length offset <= fuel)%nat ->
  (loop fuel id session staging length offset w).2 <> Ok OutOfFuel
  /\ loop fuel id session staging length offset w
     = loop (Submission.chunk_fuel length offset) id session staging length offset w.
Proof.
  intros Hf. destruct (chunks_stable (Submission.chunk_fuel length offset) offset w) as [Hne Hst];
    [done|].
  specialize (Hst (fuel - Submission.chunk_fuel length offset)%nat).
  replace (Submission.chunk_fuel length offset + (fuel - Submission.chunk_fuel length offset))%nat
    with fuel in Hst by lia.
  by rewrite Hst.
Qed.

(** The folder while the loop runs: the staged file keeps its content and a read
    returns a piece of it. *)
Context (content : rstring) (holds : F -> Prop).
Hypothesis reads : forall f o max, holds f ->
  holds (read_staged_chunk staging o max f).1
  /\ forall chunk, (read_staged_chunk staging o max f).2 = Ok chunk ->
       chunk <> [] /\ chunk `prefix_of` drop_z o content.

(** A server that appends what it is sent. *)
Definition honest : Prop :=
  forall t s o chunk, append_upload_chunk t scope s o chunk = Ok (o + len chunk).

(** What the run of a loop from [offset] sent, and what it means that it finished. *)
Definition chunk_run (offset : Z) (w : World F) (out : World F * result Progress ClientSyncError) :
  Prop :=
  exists l o, map snd (sent out.1) = map snd (sent w) ++ l
    /\ appends session length content offset l o
    /\ forall n, out.2 = Ok (Finished n) ->
         n = length /\ o = length
         /\ (honest -> len (concat (map chunk_of l)) = length - offset
                       /\ concat (map chunk_of l) `prefix_of` drop_z offset content).

Lemma run_nothing offset w out :
  sent out.1 = sent w -> (forall n, out.2 = Ok (Finished n) -> n = length /\ offset = length) ->
  chunk_run offset w out.
Proof.
  intros Hs Hf. exists [], offset. rewrite Hs, app_nil_r. split_and!; [done|constructor|].
  intros n Hn. destruct (Hf n Hn) as [-> ->]. split_and!; [done..|]. intros _. cbn.
  split; [unfold len; cbn; lia|apply prefix_nil].
Qed.

Lemma run_one offset chunk w out :
  offset < length -> chunk <> [] -> chunk `prefix_of` drop_z offset content ->
  map snd (sent out.1) = map snd (sent w) ++ [SentAppendChunk session offset chunk] ->
  (forall n, out.2 <> Ok (Finished n)) -> chunk_run offset w out.
Proof.
  intros ? ? ? Hs Hf. eexists _, offset. split_and!; [exact Hs|by constructor|].
  intros n Hn. by destruct (Hf n).
Qed.

Lemma run_more offset chunk next w w1 out :
  offset < length -> chunk <> [] -> chunk `prefix_of` drop_z offset content ->
  0 <= offset -> offset < next <= length -> (honest -> next = offset + len chunk) ->
  map snd (sent w1) = map snd (sent w) ++ [SentAppendChunk session offset chunk] ->
  chunk_run next w1 out -> chunk_run offset w out.
Proof.
  intros ? ? Hp H0 ? Hh Hs (l & o & Hl & Ha & Hf).
  exists (SentAppendChunk session offset chunk :: l), o. split_and!.
  - by rewrite Hl, Hs, <- app_assoc.
  - by econstructor.
  - intros n Hn. destruct (Hf n Hn) as (-> & -> & Ht). split_and!; [done..|]. intros Hserver.
    destruct (Ht Hserver) as [Hlen Hpre]. specialize (Hh Hserver). cbn [map concat chunk_of].
    split; [unfold len in *; rewrite length_app; lia|].
    destruct Hp as [rest Hrest]. rewrite Hrest. apply prefix_app.
    rewrite drop_z_drop in *. replace rest with (drop (Z.to_nat next) content); [done|].
    subst next. unfold len. rewrite Z2Nat.inj_add, Nat2Z.id, <- drop_drop, Hrest by lia.
    apply drop_app_length.
Qed.

Lemma chunks_sent fuel offset (w : World F) :
  holds (files w) -> 0 <= offset <= length ->
  chunk_run offset w (loop fuel id session staging length offset w).
Proof.
  revert offset w. induction fuel as [|fuel IH]; intros offset w Hh Ho;
    cbn [Submission.upload_chunks]; destruct (Z.leb_spec length offset) as [Hl|Hl];
    try (apply run_nothing; [done|]; intros n [=]; lia).
  destruct (reads (files w) offset MAX_UPLOAD_CHUNK_BYTES Hh) as [Hh1 Hc].
  unfold bind at 1, fs. destruct (read_staged_chunk _ _ _ _) as [f1 [chunk|e]];
    [|by apply run_nothing]. destruct (Hc chunk) as [Hne Hp]; [done|].
  unfold bind at 1, send_or_fail. cbn.
  destruct (append_upload_chunk _ _ _ _ _) as [next|e] eqn:Hans; cbn [map_err];
    [|apply (run_one _ chunk); [done..|by cbn; rewrite map_app|done]].
  destruct ((next <=? offset) || (length <? next)) eqn:Hn.
  - apply (run_one _ chunk); [done..| |]; unfold bind, Submission.block;
      match goal with |- context [call ?t ?w0] =>
        destruct (call_frame t w0) as [Hs _]; destruct (call t w0) as [w3 [u|e]] end;
      cbn in *; try done; rewrite Hs, map_app; done.
  - unfold bind.
    match goal with |- context [call ?t ?w0] =>
      destruct (call_frame t w0) as [Hs Hf]; destruct (call t w0) as [w3 [u|e]] end; cbn in Hs, Hf.
    + apply orb_false_iff in Hn as [? ?].
      apply (run_more _ chunk next _ w3); [done..|lia|lia| |by rewrite Hs, map_app|].
      * intros Hserver. rewrite Hserver in Hans. congruence.
      * apply IH; [by rewrite Hf|lia].
    + apply (run_one _ chunk); [done..|by cbn; rewrite Hs, map_app|done].
Qed.


End Chunks.
