(* ===== verification/IntentFacts.v ===== *)
(** * The life of an intent

    An intent moves in one direction: from the states in which it may be
    submitted into the others, from which it never returns.  Whatever the
    components of the client do, and whatever fails, the engine does not submit
    it again; a retry after a conflict is a new intent. *)

From S2P Require Import Prelude Vocabulary Values Models Requests Rebaseline SyncTypes ClientPaths.
From S2P Require Import ClientStore FeedProtocol StoreFacts SyncWorld Candidates SnapshotFacts.
From S2P Require Import Inbound Cycle InboundFacts Disk OutboundTypes OutboundStore Submission.
From S2P Require Import Conflicts Materialize MaterializeFacts EditFacts SyncFacts ConvergenceFacts.
From S2P Require Import CycleFrame SubmissionFacts.

(** ** Transactions that keep an invariant of the store *)

Definition keeping {A} (J : Store -> Prop) (t : tx A) : Prop :=
  forall now s s' a, t now s = Ok (s', a) -> J s -> J s'.

Section Keeping.

Context (J : Store -> Prop).

Lemma keeping_bind {A B} (m : tx A) (k : A -> tx B) :
  keeping J m -> (forall a, keeping J (k a)) -> keeping J (tx_bind m k).
Proof.
  intros Hm Hk now s s' b Hr Hs. apply tx_bind_ok in Hr as (s1 & a & H1 & H2).
  eapply Hk; [done|]. by eapply Hm.
Qed.

Lemma keeping_keeps {A V} (g : Store -> V) (X : V -> Prop) (t : tx A) :
  (forall s, J s <-> X (g s)) -> keeps g t -> keeping J t.
Proof.
  intros HJ Ht now s s' a Hr Hs. apply HJ. rewrite (Ht _ _ _ _ Hr). by apply HJ.
Qed.

Lemma keeping_each {A} (f : A -> tx unit) l :
  (forall a, keeping J (f a)) -> keeping J (tx_each f l).
Proof.
  intros Hf. induction l as [|a l IH]; cbn [tx_each]; [by intros now s s' u [= <-]|].
  by apply keeping_bind.
Qed.

End Keeping.

(** ** Intents that are no longer submittable *)

Section Retired.

Context `{U : Unicode} `{I : Identifiers} `{H : Sha} (id : Z).

(** The intent is there, in a state that satisfies [Q]. *)
Definition state_in (Q : IntentState -> Prop) (s : Store) : Prop :=
  exists row, outbound_intents s !! id = Some row /\ Q (intent_state row).

(** The intent is there and cannot be submitted. *)
Definition retired : Store -> Prop :=
  state_in (fun state => state ∉ OutboundStore.submittable_states).

Lemma state_frame {A} Q (t : tx A) : keeps outbound_intents t -> keeping (state_in Q) t.
Proof.
  by apply (keeping_keeps (state_in Q) outbound_intents
    (fun m => exists row, m !! id = Some row /\ Q (intent_state row))).
Qed.

Lemma retired_frame {A} (t : tx A) : keeps outbound_intents t -> keeping retired t.
Proof. apply state_frame. Qed.

(** Writing a row of another intent, or one that satisfies [Q]. *)
Lemma write_ok j row now s s' u :
  OutboundStore.write_intent j row now s = Ok (s', u) ->
  s' = set_outbound_intents s (<[j := row]> (outbound_intents s)).
Proof.
  intros Hr. unfold OutboundStore.write_intent in Hr. repeat tx_step Hr.
  by injection Hr as <-.
Qed.

Lemma state_insert Q j row s :
  (j = id -> Q (intent_state row)) -> state_in Q s ->
  state_in Q (set_outbound_intents s (<[j := row]> (outbound_intents s))).
Proof.
  intros Hrow (old & Ho & Hst). unfold state_in. cbn. destruct (decide (j = id)) as [->|Hne].
  - exists row. rewrite lookup_insert_eq. auto.
  - exists old. rewrite lookup_insert_ne by done. auto.
Qed.

(** Merging an observation keeps the state. *)
Lemma state_update Q existing guard intent :
  keeping (state_in Q) (OutboundStore.update_intent existing guard intent).
Proof.
  intros now s s' u Hr Hs. unfold OutboundStore.update_intent in Hr. repeat tx_step Hr.
  destruct (outbound_intents s !! existing) as [row|] eqn:Hrow; [|done]. repeat tx_step Hr.
  apply write_ok in Hr as ->. apply state_insert; [|done]. intros ->.
  destruct Hs as (old & Ho & Hst). rewrite Ho in Hrow. by injection Hrow as <-.
Qed.

Lemma state_new Q now0 intent : keeping (state_in Q) (OutboundStore.insert_intent now0 intent).
Proof.
  intros now s s' u Hr Hs. unfold OutboundStore.insert_intent in Hr. repeat tx_step Hr.
  apply write_ok in Hr as ->. apply state_insert; [|done]. intros Heq.
  destruct Hs as (old & Ho & _). rewrite Heq, Ho in Hb. done.
Qed.

Lemma retired_update existing guard intent :
  keeping retired (OutboundStore.update_intent existing guard intent).
Proof. apply state_update. Qed.

Lemma retired_new now0 intent : keeping retired (OutboundStore.insert_intent now0 intent).
Proof. apply state_new. Qed.

Lemma retired_supersede j : keeping retired (OutboundStore.supersede j).
Proof.
  intros now s s' u Hr Hs. unfold OutboundStore.supersede in Hr. repeat tx_step Hr.
  destruct (outbound_intents s !! j) as [row|]; [|done]. repeat tx_step Hr.
  apply write_ok in Hr as ->. apply state_insert; [|done]. intros _. cbn.
  unfold OutboundStore.submittable_states. set_solver.
Qed.

Lemma retired_state j from to :
  to ∉ OutboundStore.submittable_states \/ from ⊆ OutboundStore.submittable_states ->
  keeping retired (OutboundStore.update_state j from to).
Proof.
  intros Hto now s s' u Hr Hs. unfold OutboundStore.update_state in Hr. tx_step Hr.
  destruct (outbound_intents s !! j) as [row|] eqn:Hrow; [|by injection Hr as <-].
  case_bool_decide as Hin; [|by injection Hr as <-]. tx_step Hr.
  apply write_ok in Hm as ->. injection Hr as <-. apply state_insert; [|done]. intros ->.
  destruct Hto as [Hto|Hto]; [done|]. destruct Hs as (old & Ho & Hst). rewrite Ho in Hrow.
  injection Hrow as <-. by destruct (Hst (Hto _ Hin)).
Qed.

Lemma retired_map (f : Z -> IntentRow -> IntentRow) s :
  (forall row, intent_state row ∉ OutboundStore.submittable_states ->
     intent_state (f id row) ∉ OutboundStore.submittable_states) ->
  retired s ->
  retired (set_outbound_intents s (map_imap (fun j row => Some (f j row)) (outbound_intents s))).
Proof.
  intros Hf (row & Hrow & Hst). exists (f id row). cbn.
  by rewrite map_lookup_imap, Hrow; auto.
Qed.

Lemma retired_states which to :
  to ∉ OutboundStore.submittable_states -> keeping retired (OutboundStore.update_states which to).
Proof.
  intros Hto now s s' b Hr Hs. unfold OutboundStore.update_states in Hr. repeat tx_step Hr.
  injection Hr as <- _.
  apply (retired_map (fun j row => if which j row then set_intent_state row to else row)); [|done].
  intros row Hrow. by destruct (which id row).
Qed.

Lemma retired_rebase library node target :
  keeping retired (Outbound.require_rebase library node target).
Proof.
  intros now s s' u Hr Hs. unfold Outbound.require_rebase in Hr. tx_step Hr. injection Hr as <-.
  apply (retired_map (fun j row => if Outbound.affects _ _ _ _ s j row then _ else row)); [|done].
  intros row Hrow. case_match; [|done]. cbn. unfold OutboundStore.submittable_states. set_solver.
Qed.

Lemma retired_reconcile library :
  keeping retired (Outbound.reconcile_server_applied_intents library).
Proof.
  intros now s s' u Hr Hs. unfold Outbound.reconcile_server_applied_intents in Hr. tx_step Hr.
  injection Hr as <-. destruct Hs as (row & Hrow & Hst). cbn.
  unfold retired, state_in. cbn. rewrite map_lookup_imap, Hrow. cbn. eexists. split; [done|].
  case_match; [|done].
  cbn. unfold OutboundStore.submittable_states. set_solver.
Qed.

(** The first row of a selection is one of the table that is kept. *)
Lemma first_intent_ok keep s p :
  OutboundStore.first_intent keep s = Some p ->
  outbound_intents s !! p.1 = Some p.2 /\ keep p = true.
Proof.
  unfold OutboundStore.first_intent. intros Hp. apply head_Some_elem_of in Hp.
  rewrite merge_sort_Permutation in Hp. apply list_elem_of_filter in Hp as [Hk Hp].
  destruct p as [j row]. by apply elem_of_map_to_list in Hp.
Qed.

End Retired.

Create HintDb retirement.
#[export] Hint Resolve retired_update retired_supersede retired_new retired_rebase retired_reconcile : retirement.
#[export] Hint Extern 1 (keeping (retired _) (OutboundStore.update_state _ _ _)) =>
  apply retired_state; first
    [ left; repeat case_match; unfold OutboundStore.submittable_states; set_solver
    | right; unfold OutboundStore.submittable_states; set_solver ] : retirement.
#[export] Hint Extern 1 (keeping (retired _) (OutboundStore.update_states _ _)) =>
  apply retired_states; unfold OutboundStore.submittable_states; set_solver : retirement.

Ltac open_keeping := match goal with |- keeping _ ?m => let h := head_of m in unfold h end.

(** Goes through a computation: what does not write intents is framed, what writes
    them is in the database. *)
Ltac retire rule :=
  repeat first
    [ progress (auto with calms)
    | apply calm_bind; [|intros ?]
    | apply calm_inspecting; [|intros ?]
    | apply calm_each; intros ?
    | rule
    | solve [auto with retirement]
    | solve [apply retired_frame; walk fail]
    | apply keeping_bind; [|intros ?]
    | apply keeping_each; intros ?
    | progress cbv zeta
    | progress case_match
    | open_calm
    | open_keeping ].

Section Histories.

Context {F : Type} `{U : Unicode} `{E : Env} `{R : SyncRemote} `{D : SnapshotRemote}
  `{W : UploadRemote} `{L : LocalReplica F} `{C : ContentReader F} `{I : Identifiers} `{H : Sha}
  `{S : Serde}.
Context (scope : ReplicaScope) (profile : option Z) (config : EngineConfig.t) (page_limit : Z).
Context (id : Z).

Notation gone := (fun w : World F => retired id (store w)).

Lemma retired_call {A} (t : tx A) : keeping (retired id) t -> calm gone (call t).
Proof. intros Ht. apply calm_call; [|done]. intros w s a Hw Hr. by eapply Ht. Qed.

#[local] Instance retired_outward : Outward gone.
Proof.
  split.
  - by intros w w' -> _.
  - by intros w w' q _ -> _.
  - intros A t Ht. apply retired_call, retired_frame. intros now s s' a Hr.
    by injection (Ht _ _ _ _ Hr).
  - intros. apply retired_call, retired_rebase.
  - intros. apply retired_call, retired_reconcile.
  - intros. apply retired_call, retired_frame. unfold Ops.insert_observation_issue. frame.
Qed.

Lemma retired_send {A} q (answer : nat -> result A RemoteError) : calm gone (send q answer).
Proof. by intros w. Qed.

Lemma retired_send_or_fail {A} q (answer : nat -> result A RemoteError) :
  calm gone (send_or_fail q answer).
Proof. by intros w. Qed.

#[local] Hint Resolve retired_send retired_send_or_fail : calms.

Lemma retired_upsert intent : calm gone (OutboundStore.upsert_outbound_intent_with_result intent).
Proof. retire ltac:(apply retired_call). Qed.

#[local] Hint Resolve retired_upsert : calms.

Lemma retired_move source replacement :
  calm gone (OutboundStore.move_pending_create source replacement).
Proof. retire ltac:(apply retired_call). Qed.

Lemma retired_block i : calm gone (Submission.block i).
Proof. retire ltac:(apply retired_call). Qed.

#[local] Hint Resolve retired_block : calms.

Lemma retired_completed i completion :
  calm gone (call (OutboundStore.record_upload_completed i completion)).
Proof. retire ltac:(apply retired_call). Qed.

Lemma retired_upload_conflict i revision : calm gone (Submission.upload_conflict i revision).
Proof. retire ltac:(apply retired_call). Qed.

#[local] Hint Resolve retired_completed retired_upload_conflict : calms.

Lemma retired_chunks fuel i session staging length offset :
  calm gone (Submission.upload_chunks scope fuel i session staging length offset).
Proof.
  revert offset. induction fuel as [|fuel IH]; intros offset; cbn [Submission.upload_chunks];
    retire ltac:(apply retired_call).
Qed.

#[local] Hint Resolve retired_chunks : calms.

Lemma retired_process : calm gone (Submission.process_next_ready_intent scope).
Proof. retire ltac:(apply retired_call). Qed.

Lemma retired_resolve conflict expected resolution duplicate :
  calm gone (Conflicts.resolve_conflict_inner conflict expected resolution duplicate).
Proof. retire ltac:(apply retired_call). Qed.

(** The commits of other components do not write intents. *)
Definition same_intents (s s' : Store) : Prop := outbound_intents s' = outbound_intents s.

Notation history := (client_history scope profile config page_limit same_intents).

Lemma retired_history w w' : gone w -> history w w' -> gone w'.
Proof.
  intros Hw. apply client_invariant; [..|done].
  - intros t. apply outward_cycle; [apply _|apply retired_process].
  - apply retired_upsert.
  - apply retired_move.
  - intros node. apply retired_call. retire fail.
  - intros path. apply retired_call. retire fail.
  - intros node. apply retired_call. retire fail.
  - apply retired_resolve.
  - done.
  - intros v s Hv Hs. unfold retired, state_in in *. cbn. by rewrite Hs.
Qed.

(** A retired intent is not the next one to submit. *)
Lemma retired_not_next library s row :
  OutboundStore.next_submittable_intent library s = Ok (Some (id, row)) -> ~ retired id s.
Proof.
  unfold OutboundStore.next_submittable_intent, OutboundStore.decode_optional. intros Hn Hr.
  destruct (OutboundStore.first_intent _ s) as [[j row0]|] eqn:Hf; [|done].
  apply first_intent_ok in Hf as [Hj Hk]. cbn in Hj. unfold OutboundStore.decode in Hn.
  destruct (Candidates.decode_outbound_intent _); [|done]. injection Hn as -> _.
  destruct Hr as (old & Ho & Hst). rewrite Ho in Hj. injection Hj as <-. cbn in Hk.
  destruct Hst. by rust_bool; case_bool_decide.
Qed.

(** C14: An intent that has left the submittable states, because it was applied,
    blocked, in conflict, superseded, cancelled or needs a new base, never returns
    to them: whatever cycles, observations, resolutions and edits follow, and
    whatever of it fails, the engine never picks it again. *)
Theorem retired_forever w w' :
  retired id (store w) -> history w w' ->
  retired id (store w')
  /\ forall row, OutboundStore.next_submittable_intent (library_id scope) (store w')
                 <> Ok (Some (id, row)).
Proof.
  intros Hw Hh. assert (gone w') as Hw' by (by eapply retired_history).
  split; [done|]. intros row Hn. by apply retired_not_next in Hn.
Qed.

End Histories.
