(* ===== verification/OutcomeFacts.v ===== *)
(** * One call of the submission engine

    A call concerns one intent, the oldest submittable one; every request it
    sends is for that intent and for its durable session, and its outcome is
    what the database records. *)

From S2P Require Import Prelude Vocabulary Values Models Requests Rebaseline SyncTypes ClientPaths.
From S2P Require Import ClientStore FeedProtocol StoreFacts SyncWorld Candidates SnapshotFacts.
From S2P Require Import Inbound Cycle InboundFacts Disk OutboundTypes OutboundStore Submission.
From S2P Require Import Conflicts Materialize MaterializeFacts EditFacts SyncFacts ConvergenceFacts.
From S2P Require Import CycleFrame SubmissionFacts IntentFacts.

Section OneCall.

Context {F : Type} `{U : Unicode} `{E : Env} `{R : SyncRemote} `{W : UploadRemote}
  `{L : LocalReplica F} `{C : ContentReader F} `{I : Identifiers} `{H : Sha} `{S : Serde}.
Context (scope : ReplicaScope).

Notation lib := (library_id scope).

(** The durable session of an intent. *)
Definition session_of (s : Store) (id session : Z) : Prop :=
  exists u, outbound_upload_sessions s !! id = Some u /\ upload_session_id u = Some session.

(** A request made for an intent. *)
Definition sent_for (id : Z) (p : Store * request) : Prop :=
  match p.2 with
  | SentGetCheckpoint => True
  | SentMutation r => request_in (outbound_mutation_requests p.1) id = Some r
  | SentCreateUpload key _ _ _ => key = id
  | SentGetUpload session | SentAppendChunk session _ _ | SentCompleteUpload session =>
      session_of p.1 id session
  | _ => False
  end.

Section About.

Context (base : list (Store * request)) (id : Z).

(** Since [base] only requests for the intent were sent, and [Y] holds. *)
Definition about (Y : Store -> Prop) (w : World F) : Prop :=
  Y (store w) /\ exists l, sent w = base ++ l /\ Forall (sent_for id) l.

Lemma about_weaken (Y Y' : Store -> Prop) w : (forall s, Y s -> Y' s) -> about Y w -> about Y' w.
Proof. intros HY [Hy Hl]. split; auto. Qed.

Lemma about_read {A} Y (q : Store -> result A ClientSyncError) : calm (about Y) (read q).
Proof. by intros w. Qed.

Lemma about_uuid Y : calm (about Y) uuid.
Proof. by intros w. Qed.

Lemma about_fs {A} Y (op : F -> F * result A ClientSyncError) : calm (about Y) (fs op).
Proof. intros w. unfold fs. by destruct (op (files w)). Qed.

Lemma about_call {A} Y (t : tx A) : keeping Y t -> calm (about Y) (call t).
Proof. intros Ht. apply calm_call; [|done]. intros w s a [Hy Hl] Hr. split; [by eapply Ht|done]. Qed.

Lemma about_sent Y w q :
  (forall s, Y s -> sent_for id (s, q)) -> about Y w ->
  exists l, sent w ++ [(store w, q)] = base ++ l /\ Forall (sent_for id) l.
Proof.
  intros Hq [Hy (l & -> & Hl)]. exists (l ++ [(store w, q)]). rewrite app_assoc. split; [done|].
  apply Forall_app. split; [done|]. apply Forall_singleton. auto.
Qed.

Lemma about_send {A} Y q (answer : nat -> result A RemoteError) :
  (forall s, Y s -> sent_for id (s, q)) -> calm (about Y) (send q answer).
Proof. intros Hq w Hw. split; [apply Hw|by eapply about_sent]. Qed.

Lemma about_send_or_fail {A} Y q (answer : nat -> result A RemoteError) :
  (forall s, Y s -> sent_for id (s, q)) -> calm (about Y) (send_or_fail q answer).
Proof. intros Hq w Hw. split; [apply Hw|by eapply about_sent]. Qed.

End About.

Notation any := (fun _ : Store => True).

Lemma keeping_any {A} (t : tx A) : keeping any t.
Proof. done. Qed.

#[local] Hint Resolve about_read about_uuid about_fs : calms.

Ltac about rule :=
  repeat first
    [ progress (auto with calms)
    | apply calm_bind; [|intros ?]
    | apply calm_each; intros ?
    | apply about_call; rule
    | apply about_send; by eauto
    | apply about_send_or_fail; by eauto
    | progress cbv zeta
    | progress case_match
    | open_calm ].

Lemma calm_known {A B} (P : World F -> Prop) (a : A) (k : A -> M F B) :
  calm P (k a) -> calm P (bind (lift (Ok a)) k).
Proof. intros Hk w. apply Hk. Qed.

(** *** Mutations *)

Lemma about_applied base id Y i result :
  (forall A (t : tx A), keeps outbound_mutation_requests t -> keeping Y t) ->
  calm (about base id Y) (OutboundStore.record_mutation_applied i result).
Proof. intros HY. about ltac:(apply HY; ledgered). Qed.

Lemma about_namespace base intent :
  calm (about base intent.1 any) (Submission.submit_namespace_intent scope intent).
Proof.
  apply calm_bind; [about ltac:(apply keeping_any)|intros _]. intros w Hw. unfold bind at 1.
  assert (calm (about base intent.1 any) (Submission.mutation_record intent)) as Hm
    by about ltac:(apply keeping_any).
  specialize (Hm w Hw).
  destruct (Submission.mutation_record intent w) as [w1 [record|e]] eqn:Hr; [|done].
  apply mutation_record_ok in Hr. set (r := OutboundStore.record_request record) in *.
  set (Y := fun s => request_in (outbound_mutation_requests s) intent.1 = Some r).
  assert (forall A (t : tx A), keeps outbound_mutation_requests t -> keeping Y t) as HY.
  { intros A t. by apply (keeping_keeps Y outbound_mutation_requests
      (fun m => request_in m intent.1 = Some r)). }
  match goal with |- about _ _ _ (?m w1).1 => assert (calm (about base intent.1 Y) m) as Hk end.
  - about ltac:(apply HY; ledgered).
  - eapply (about_weaken _ _ Y); [done|]. apply Hk. split; [done|apply Hm].
Qed.

(** *** Uploads *)

Lemma durable_session_ok id s row :
  OutboundStore.durable_upload_session id s = Ok (Some row) ->
  outbound_upload_sessions s !! id = Some row.
Proof.
  unfold OutboundStore.durable_upload_session. intros Hs. destruct (_ !! _); [|done].
  by destruct (Path.new _); simplify_eq.
Qed.

Lemma required_session_ok id s row :
  OutboundStore.required_upload_session id s = Ok row ->
  outbound_upload_sessions s !! id = Some row.
Proof.
  unfold OutboundStore.required_upload_session. intros Hs.
  destruct (OutboundStore.durable_upload_session id s) as [[u|]|] eqn:Hd; try done.
  injection Hs as <-. by apply durable_session_ok.
Qed.

(** The upload a submission works with is the durable one. *)
Lemma upload_record_ok intent length digest (w w' : World F) row :
  Submission.upload_record intent length digest w = (w', Ok row) ->
  outbound_upload_sessions (store w') !! intent.1 = Some row.
Proof.
  intros Hr. apply bind_ok in Hr as (w1 & found & H1 & Hr). apply read_ok in H1 as [H1 ->].
  destruct found as [found|]; [injection Hr as <- ->; by apply durable_session_ok|].
  apply bind_ok in Hr as (w2 & staged & _ & Hr). unfold OutboundStore.persist_staged_upload in Hr.
  do 2 (apply bind_ok in Hr as (? & ? & _ & Hr)).
  apply bind_ok in Hr as (w3 & persisted & H3 & Hr). apply read_ok in H3 as [H3 ->].
  apply bind_ok in Hr as (w4 & [] & H4 & Hr). apply reject_ok in H4 as [_ ->].
  injection Hr as <- <-. by apply required_session_ok.
Qed.

Lemma upload_session_ok intent row (w w' : World F) row' :
  outbound_upload_sessions (store w) !! intent.1 = Some row ->
  Submission.upload_session scope intent row w = (w', Ok (inl row')) ->
  outbound_upload_sessions (store w') !! intent.1 = Some row'.
Proof.
  intros Hrow Hr. unfold Submission.upload_session in Hr.
  destruct (upload_session_id row); [by injection Hr as <- <-|].
  apply bind_ok in Hr as (w1 & target & _ & Hr). apply bind_ok in Hr as (w2 & answer & _ & Hr).
  destruct answer as [status|error].
  - do 2 (apply bind_ok in Hr as (? & ? & _ & Hr)).
    apply bind_ok in Hr as (w3 & persisted & H3 & Hr). apply read_ok in H3 as [H3 ->].
    injection Hr as <- <-. by apply required_session_ok.
  - repeat (case_match || apply bind_ok in Hr as (? & ? & _ & Hr)); done.
Qed.

Section Session.

Context (id session : Z).

Notation Y := (fun s => session_of s id session).

Lemma session_frame {A} (t : tx A) : keeps outbound_upload_sessions t -> keeping Y t.
Proof.
  apply (keeping_keeps Y outbound_upload_sessions (fun m => exists u, m !! id = Some u
    /\ upload_session_id u = Some session)). done.
Qed.

Lemma session_written i row offset state now s s' u :
  outbound_upload_sessions s !! i = Some row -> Y s ->
  OutboundStore.write_upload i
    (OutboundStore.set_upload row (upload_session_id row) offset state) now s = Ok (s', u) -> Y s'.
Proof.
  intros Hrow (old & Ho & Hses) Hr. unfold OutboundStore.write_upload in Hr. repeat tx_step Hr.
  injection Hr as <-. unfold session_of. cbn. destruct (decide (i = id)) as [->|Hne].
  - rewrite lookup_insert_eq. eexists. split; [done|]. cbn. congruence.
  - rewrite lookup_insert_ne by done. eauto.
Qed.

Lemma session_offset i offset state : keeping Y (OutboundStore.update_upload_offset i offset state).
Proof.
  intros now s s' u Hr Hs. unfold OutboundStore.update_upload_offset in Hr. repeat tx_step Hr.
  destruct (outbound_upload_sessions s !! i) as [row|] eqn:Hrow; [|done]. repeat tx_step Hr.
  by eapply session_written.
Qed.

Lemma session_completed i completion :
  keeping Y (OutboundStore.record_upload_completed i completion).
Proof.
  unfold OutboundStore.record_upload_completed.
  do 4 (apply keeping_bind; [apply session_frame; walk fail|intros ?]).
  intros now s s' b Hr Hs. tx_step Hr. revert Hr.
  destruct (outbound_upload_sessions s !! i) as [row|] eqn:Hrow; intros Hr.
  - tx_step Hr. eapply session_written in Hm; [|done..]. revert Hr Hm. apply session_frame. walk fail.
  - revert Hr Hs. apply session_frame. walk fail.
Qed.

Lemma about_chunks base fuel staging length offset :
  calm (about base id Y) (Submission.upload_chunks scope fuel id session staging length offset).
Proof.
  revert offset. induction fuel as [|fuel IH]; intros offset; cbn [Submission.upload_chunks];
    about ltac:(first [apply session_offset | apply session_frame; walk fail]).
Qed.

Lemma about_resume base intent upload :
  intent.1 = id -> upload_session_id upload = Some session ->
  calm (about base id Y) (Submission.resume_upload scope intent upload).
Proof.
  intros Hid Hs. pose proof (about_chunks base). unfold Submission.resume_upload. rewrite Hs, Hid.
  apply (calm_known _ session).
  about ltac:(first [apply session_offset | apply session_completed | apply session_frame; walk fail]).
Qed.

End Session.

Lemma about_upload base intent :
  calm (about base intent.1 any) (Submission.submit_upload_intent scope intent).
Proof.
  unfold Submission.submit_upload_intent. do 4 (apply calm_bind; [about ltac:(apply keeping_any)|intros ?]).
  intros w Hw. unfold bind at 1.
  assert (calm (about base intent.1 any) (Submission.upload_record intent a1 a2)) as Hm
    by about ltac:(apply keeping_any).
  specialize (Hm w Hw). destruct (Submission.upload_record intent a1 a2 w) as [w1 [row|e]] eqn:Hr;
    [|done]. apply upload_record_ok in Hr. cbn [fst] in Hm. unfold bind at 1.
  assert (calm (about base intent.1 any) (Submission.upload_session scope intent row)) as Hm2
    by about ltac:(apply keeping_any).
  specialize (Hm2 w1 Hm).
  destruct (Submission.upload_session scope intent row w1) as [w2 [[row2|o]|e]] eqn:Hr2; try done.
  apply upload_session_ok in Hr2; [|done]. cbn [fst] in Hm2.
  destruct (upload_session_id row2) as [session|] eqn:Hs.
  - eapply (about_weaken _ _ (fun s => session_of s intent.1 session)); [done|].
    apply about_resume; [done..|]. split; [by exists row2|apply Hm2].
  - unfold Submission.resume_upload. by rewrite Hs.
Qed.

Lemma about_submit base intent :
  calm (about base intent.1 any) (Submission.submit_intent scope intent).
Proof.
  pose proof (about_namespace base). pose proof (about_upload base).
  about ltac:(apply keeping_any).
Qed.

(** *** The choice of the intent *)

(** What [next_submittable_intent] selects from. *)
Definition ready_intent (row : IntentRow) : Prop :=
  intent_library_id row = lib /\ intent_state row ∈ OutboundStore.submittable_states
  /\ (intent_kind row ∈ [OutboundIntentKind.CreateDirectory; OutboundIntentKind.CreateFile] ->
      intent_parent_node_id row <> None).

(** The oldest intent that is ready. *)
Definition oldest_ready (s : Store) (id : Z) : Prop :=
  exists row, outbound_intents s !! id = Some row /\ ready_intent row
    /\ forall j other, outbound_intents s !! j = Some other -> ready_intent other ->
         Candidates.intent_first (id, row) (j, other).

Lemma ready_spec row :
  (intent_library_id row =? lib) && bool_decide (intent_state row ∈ OutboundStore.submittable_states)
    && negb (bool_decide (intent_kind row ∈
                [OutboundIntentKind.CreateDirectory; OutboundIntentKind.CreateFile])
             && is_none (intent_parent_node_id row)) = true <-> ready_intent row.
Proof.
  unfold ready_intent. rewrite !andb_true_iff, Z.eqb_eq, bool_decide_eq_true, negb_true_iff, andb_false_iff,
    bool_decide_eq_false. destruct (intent_parent_node_id row); cbn.
  - split; [intros [[? ?] _]; done|]. intros (? & ? & _). auto.
  - split; [intros [[? ?] [?|?]]; done|]. intros (? & ? & Hn). split; [done|]. left. intros Hk.
    by apply Hn.
Qed.

#[local] Instance intent_first_total : Total Candidates.intent_first.
Proof. intros [i a] [j b]. unfold Candidates.intent_first. cbn. lia. Qed.

#[local] Instance intent_first_trans : Transitive Candidates.intent_first.
Proof. intros [i a] [j b] [k c]. unfold Candidates.intent_first. cbn. lia. Qed.

Lemma first_intent_least keep s p q :
  OutboundStore.first_intent keep s = Some p ->
  outbound_intents s !! q.1 = Some q.2 -> keep q = true -> Candidates.intent_first p q.
Proof.
  unfold OutboundStore.first_intent. set (l := filter _ _). intros Hp Hq Hk.
  assert (q ∈ merge_sort Candidates.intent_first l) as Hin.
  { rewrite merge_sort_Permutation. apply list_elem_of_filter. split; [done|].
    destruct q. by apply elem_of_map_to_list. }
  pose proof (StronglySorted_merge_sort Candidates.intent_first l) as Hs.
  destruct (merge_sort _ l) as [|x rest]; [done|]. injection Hp as ->.
  apply elem_of_cons in Hin as [->|Hin]; [unfold Candidates.intent_first; lia|].
  apply StronglySorted_inv in Hs as [_ Hs]. rewrite Forall_forall in Hs. auto.
Qed.

Lemma next_oldest s id row :
  OutboundStore.next_submittable_intent lib s = Ok (Some (id, row)) -> oldest_ready s id.
Proof.
  unfold OutboundStore.next_submittable_intent. intros Hn.
  destruct (OutboundStore.first_intent _ s) as [[j r]|] eqn:Hf; [|done].
  pose proof (first_intent_ok _ _ _ Hf) as [Hj Hk]. cbn in Hn. unfold OutboundStore.decode in Hn.
  destruct (Candidates.decode_outbound_intent _); [|done]. injection Hn as -> _.
  exists r. split_and!; [done|by apply ready_spec|]. intros k other Ho Hr.
  eapply first_intent_least; [done|done|]. by apply ready_spec.
Qed.

(** Reconciliation does not touch what is ready. *)
Lemma oldest_reconciled library now s s' u id :
  Outbound.reconcile_server_applied_intents library now s = Ok (s', u) ->
  oldest_ready s' id -> oldest_ready s id.
Proof.
  intros Hr. assert (forall j row, ready_intent row ->
    outbound_intents s' !! j = Some row <-> outbound_intents s !! j = Some row) as Hsame.
  { unfold Outbound.reconcile_server_applied_intents in Hr. tx_step Hr. injection Hr as <-.
    intros j row (_ & Hst & _). cbn. rewrite map_lookup_imap.
    destruct (outbound_intents s !! j) as [old|]; [|done]. cbn. case_match eqn:Hc; [|done].
    assert (intent_state old = IntentServerApplied) as Hs by (clear -Hc; by rust_bool).
    split; intros [= <-]; exfalso; revert Hst; cbn.
    - unfold OutboundStore.submittable_states. set_solver.
    - rewrite Hs. unfold OutboundStore.submittable_states. set_solver. }
  intros (row & Hrow & Hready & Hleast). exists row. split_and!; [by apply Hsame|done|].
  intros j other Ho Hother. apply Hleast; [by apply Hsame|done].
Qed.

(** *** The call *)

(** Nothing stands in the way of submission. *)
Definition unfenced (s : Store) : Prop :=
  Ops.unresolved_issues lib s = Ok [] /\ Runner.unresolved_observation_issues scope s = Ok []
  /\ Runner.first_unresolved_conflict scope s = None.

Lemma reconcile_conflict library now s s' u :
  Outbound.reconcile_server_applied_intents library now s = Ok (s', u) ->
  Runner.first_unresolved_conflict scope s' = Runner.first_unresolved_conflict scope s.
Proof.
  intros Hr. unfold Outbound.reconcile_server_applied_intents in Hr. tx_step Hr. by injection Hr as <-.
Qed.

(** From [P] a computation reaches [T], whether it succeeds or fails. *)
Definition leads {A} (P T : World F -> Prop) (m : M F A) : Prop := forall w, P w -> T (m w).1.

Lemma leads_bind {A B} P T (m : M F A) (k : A -> M F B) Q :
  (forall w, P w -> T w) -> gives P m Q -> (forall a, Q a -> leads P T (k a)) ->
  leads P T (bind m k).
Proof.
  intros HPT Hm Hk w Hw. destruct (Hm w Hw) as [Hw1 HQ]. unfold bind.
  destruct (m w) as [w1 [a|e]]; [by apply Hk; [apply HQ|]|by apply HPT].
Qed.

Lemma gives_query {A} s base (q : Store -> result A ClientSyncError) :
  gives (fun w : World F => store w = s /\ sent w = base) (read q) (fun a => q s = Ok a).
Proof.
  intros w [Hs Hb]. split; [done|]. intros a Ha. unfold read in Ha. cbn in Ha.
  destruct (db_fault (tick w)); [|done..]. by rewrite <- Hs.
Qed.

Section Call.

Context (s0 : Store) (base : list (Store * request)).

(** Nothing was sent yet. *)
Definition still (s : Store) (w : World F) : Prop := store w = s /\ sent w = base.

(** What the call may have sent. *)
Definition one_intent (w : World F) : Prop :=
  exists l, sent w = base ++ l
    /\ (l = [] \/ unfenced s0 /\ exists id, oldest_ready s0 id /\ Forall (sent_for id) l).

Lemma still_one s w : still s w -> one_intent w.
Proof. intros [_ Hs]. exists []. rewrite app_nil_r. auto. Qed.

Lemma leads_still {A} s (a : A) : leads (still s) one_intent (ret a).
Proof. intros w. apply still_one. Qed.

Lemma leads_submit s intent :
  unfenced s0 -> oldest_ready s0 intent.1 ->
  leads (still s) one_intent (Submission.submit_intent scope intent).
Proof.
  intros Hu Ho w [_ Hs]. destruct (about_submit base intent w) as [_ (l & Hl & Hf)].
  - split; [done|]. exists []. by rewrite app_nil_r.
  - exists l. eauto 6.
Qed.

Lemma leads_choice s :
  unfenced s0 -> (forall id, oldest_ready s id -> oldest_ready s0 id) ->
  leads (still s) one_intent (
    let! next := read (OutboundStore.next_submittable_intent lib) in
    match next with
    | None => ret SubmissionOutcome.NoReadyIntent
    | Some intent =>
        if intent_state intent.2 == IntentNeedsRebaseValidation
        then ret SubmissionOutcome.NoReadyIntent
        else Submission.submit_intent scope intent
    end).
Proof.
  intros Hu Ho. eapply leads_bind; [apply still_one|apply gives_query|].
  intros [[id row]|] Hn; [|apply leads_still]. case_match; [apply leads_still|].
  apply leads_submit; [done|]. apply Ho. by eapply next_oldest.
Qed.

End Call.

(** C5: One call, one intent. A call of the engine sends nothing, or nothing
    stands in the way (no open issue, no unresolved conflict) and every request
    it sends is for one intent, the oldest one that is ready: its mutation is the
    durable request of the intent, its upload is created under the key of the
    intent, and chunks go to the durable session of the intent. *)
Theorem submission_one_intent w :
  one_intent (store w) (sent w) (Submission.process_next_ready_intent scope w).1.
Proof.
  set (s := store w). set (base := sent w). revert w s base.
  enough (forall s base, leads (still base s) (one_intent s base)
            (Submission.process_next_ready_intent scope)) as Hp by (intros w; by apply Hp).
  intros s base. unfold Submission.process_next_ready_intent.
  apply (leads_bind _ _ _ _ (fun _ => True)); [apply still_one| |].
  { intros w Hw. unfold fs. by destruct (validate_root (files w)). }
  intros _ _. eapply leads_bind; [apply still_one|apply gives_query|]. intros issues Hissues.
  apply (leads_bind _ _ _ _ (fun b => b = false -> issues = []
           /\ Runner.unresolved_observation_issues scope s = Ok [])); [apply still_one| |].
  { destruct issues as [|x issues]; [|by apply gives_ret].
    eapply gives_bind; [apply gives_query|]. intros o Ho. apply gives_ret. by destruct o. }
  intros b Hb. destruct b; [by apply leads_still|]. destruct Hb as [-> Hobs]; [done|].
  intros w [Hs Hl]. unfold bind at 1, call.
  destruct (db_fault (tick w)); [| by apply (still_one _ _ s)|].
  all: destruct (Outbound.reconcile_server_applied_intents _ _ (store w)) as [[s1 u]|e] eqn:Hr;
    [|by apply (still_one _ _ s)]; rewrite Hs in Hr.
  2: by apply (still_one _ _ s1).
  match goal with |- one_intent _ _ (?m ?w1).1 =>
    enough (leads (still base s1) (one_intent s base) m) as Hm by (by apply (Hm w1)) end.
  eapply leads_bind; [apply still_one|apply gives_query|]. intros c [= <-].
  rewrite (reconcile_conflict _ _ _ _ _ Hr).
  destruct (Runner.first_unresolved_conflict scope s) as [[c row]|] eqn:Hc; [apply leads_still|].
  apply leads_choice; [done|]. intros id. by eapply oldest_reconciled.
Qed.

End OneCall.

(** ** The outcome is what the database records *)

Section Outcome.

Context {F : Type} `{U : Unicode} `{E : Env} `{R : SyncRemote} `{W : UploadRemote}
  `{L : LocalReplica F} `{C : ContentReader F} `{I : Identifiers} `{H : Sha} `{S : Serde}.
Context (scope : ReplicaScope).

Notation lib := (library_id scope).

Definition state_is (id : Z) (state : IntentState) : Store -> Prop :=
  state_in id (fun current => current = state).

(** The intent is applied, with its result. *)
Definition applied (id : Z) (s : Store) : Prop :=
  state_is id IntentServerApplied s
  /\ exists r, outbound_submission_results s !! id = Some r /\ result_outcome r = OutcomeServerApplied.

(** The intent is in conflict, with its conflict and its result. *)
Definition conflicted (id conflict : Z) (s : Store) : Prop :=
  state_is id IntentConflict s
  /\ (exists row, sync_conflicts s !! conflict = Some row /\ conflict_intent_id row = id
        /\ conflict_unresolved row = true)
  /\ exists r, outbound_submission_results s !! id = Some r /\ result_outcome r = OutcomeConflict
       /\ result_conflict_id r = Some conflict.

Definition outcome_recorded (s : Store) (outcome : SubmissionOutcome.t) : Prop :=
  match outcome with
  | SubmissionOutcome.Submitted id => applied id s
  | SubmissionOutcome.Conflict id conflict => conflicted id conflict s
  | SubmissionOutcome.Blocked id => state_is id IntentBlocked s
  | SubmissionOutcome.BlockedByConflict conflict =>
      exists row, sync_conflicts s !! conflict = Some row /\ conflict_library_id row = lib
        /\ conflict_unresolved row = true
  | SubmissionOutcome.NoReadyIntent | SubmissionOutcome.Offline | SubmissionOutcome.AuthRequired =>
      True
  end.

(** *** Statements *)

Lemma all_states_all (state : IntentState) : state ∈ OutboundStore.all_states.
Proof. unfold OutboundStore.all_states. destruct state; set_solver. Qed.

Lemma update_state_ok id from to now s s' :
  OutboundStore.update_state id from to now s = Ok (s', true) -> state_is id to s'.
Proof.
  intros Hr. unfold OutboundStore.update_state in Hr. tx_step Hr.
  destruct (outbound_intents s !! id) as [row|]; [|done]. case_bool_decide; [|done].
  tx_step Hr. apply write_ok in Hm as ->. injection Hr as <-. exists (set_intent_state row to). cbn.
  by rewrite lookup_insert_eq.
Qed.

Lemma update_any_ok id to now s s' b :
  outbound_intents s !! id <> None ->
  OutboundStore.update_state id OutboundStore.all_states to now s = Ok (s', b) -> state_is id to s'.
Proof.
  intros Hrow Hr. destruct b; [by eapply update_state_ok|]. exfalso.
  unfold OutboundStore.update_state in Hr. tx_step Hr.
  destruct (outbound_intents s !! id) as [row|]; [|done]. case_bool_decide as Hin.
  - by tx_step Hr.
  - apply Hin, all_states_all.
Qed.

Lemma blocked_ok id now s s' u :
  OutboundStore.mark_intent_blocked id now s = Ok (s', u) -> state_is id IntentBlocked s'.
Proof.
  intros Hr. unfold OutboundStore.mark_intent_blocked in Hr. repeat tx_step Hr.
  unfold ensure in Hr. destruct a; [|done]. injection Hr as <-. by eapply update_state_ok.
Qed.

Lemma result_ok id row merge now s s' u :
  OutboundStore.upsert_result id row merge now s = Ok (s', u) ->
  outbound_intents s' = outbound_intents s /\ outbound_intents s !! id <> None
  /\ sync_conflicts s' = sync_conflicts s
  /\ exists r, outbound_submission_results s' !! id = Some r
       /\ (r = row \/ exists old, r = merge old).
Proof.
  intros Hr. unfold OutboundStore.upsert_result in Hr. tx_step Hr. injection Hr as <-. cbn.
  rewrite lookup_insert_eq, Hrow. split_and!; [done..|]. eexists. split; [done|].
  destruct (outbound_submission_results s !! id); eauto.
Qed.

Lemma insert_applied_ok id result now s s' u :
  OutboundStore.insert_applied id result now s = Ok (s', u) -> applied id s'.
Proof.
  intros Hr. unfold OutboundStore.insert_applied in Hr. repeat tx_step Hr.
  apply result_ok in Hm as (Hi & Hrow & _ & r & Hres & Hor). injection Hr as <-.
  rewrite <- Hi in Hrow. split; [by eapply update_any_ok|]. exists r. split.
  - assert (keeps outbound_submission_results (OutboundStore.update_state id
      OutboundStore.all_states IntentServerApplied)) as Hk by walk fail.
    by rewrite (Hk _ _ _ _ Hm0).
  - by destruct Hor as [->|[old ->]].
Qed.

Lemma record_completed_ok id completion now s s' u :
  OutboundStore.record_upload_completed id completion now s = Ok (s', u) -> applied id s'.
Proof.
  intros Hr. unfold OutboundStore.record_upload_completed in Hr. repeat tx_step Hr.
  apply result_ok in Hm as (Hi & Hrow & _ & r & Hres & Hor). injection Hr as <-.
  match type of Hm0 with ?t _ _ = _ =>
    assert (keeps (fun s => (outbound_intents s, outbound_submission_results s)) t) as Hk
      by (case_match; walk fail) end.
  specialize (Hk _ _ _ _ Hm0). cbv beta in Hk. injection Hk as Hki Hkr.
  rewrite <- Hi, <- Hki in Hrow. split; [by eapply update_any_ok|]. exists r. split.
  - assert (keeps outbound_submission_results (OutboundStore.update_state id
      OutboundStore.all_states IntentServerApplied)) as Hu by walk fail.
    by rewrite (Hu _ _ _ _ Hm1), Hkr.
  - by destruct Hor as [->|[old ->]].
Qed.

Lemma conflict_of_ok id s c row :
  OutboundStore.conflict_of_intent id s = Some (c, row) ->
  sync_conflicts s !! c = Some row /\ conflict_intent_id row = id.
Proof.
  unfold OutboundStore.conflict_of_intent. intros Hf. apply find_some in Hf as [Hin Heq].
  cbn in Heq. split; [|lia]. by apply elem_of_map_to_list, list_elem_of_In.
Qed.

(** The conflict of an intent is unresolved once it is recorded. *)
Lemma record_unresolved c evidence now s s' u row :
  conflict_unresolved evidence = true ->
  Candidates.record_conflict_tx c evidence now s = Ok (s', u) ->
  OutboundStore.conflict_of_intent (conflict_intent_id evidence) s' = Some row ->
  conflict_unresolved row.2 = true.
Proof.
  intros He Hr Hf. unfold Candidates.record_conflict_tx in Hr. repeat tx_step Hr.
  destruct (List.find _ _) as [[i existing]|] eqn:Hsame.
  - unfold ensure in Hr. destruct (conflict_unresolved existing) eqn:Hu; [|done].
    injection Hr as <-. unfold OutboundStore.conflict_of_intent in Hf. rewrite Hsame in Hf.
    by injection Hf as <-.
  - tx_step Hr. injection Hr as <-. destruct row as [i row].
    apply conflict_of_ok in Hf as [Hi Hid]. cbn in Hi |- *.
    apply lookup_insert_Some in Hi as [[_ <-]|[_ Hi]]; [done|]. exfalso.
    eapply find_none in Hsame; [|by apply list_elem_of_In, elem_of_map_to_list]. cbn in Hsame. lia.
Qed.

Lemma record_conflict_ok c evidence now s s' conflict :
  conflict_unresolved evidence = true ->
  OutboundStore.record_conflict c evidence now s = Ok (s', conflict) ->
  state_is (conflict_intent_id evidence) IntentConflict s'
  /\ exists row, sync_conflicts s' !! conflict = Some row
       /\ conflict_intent_id row = conflict_intent_id evidence /\ conflict_unresolved row = true.
Proof.
  intros He Hr. unfold OutboundStore.record_conflict in Hr. repeat tx_step Hr.
  destruct a0; [|done]. injection Hr as <- <-. split; [by eapply update_state_ok|].
  destruct row as [i row]. pose proof (record_unresolved _ _ _ _ _ _ _ He Hm Hrow) as Hu.
  apply conflict_of_ok in Hrow as [Hi Hid]. exists row. split_and!; [|done..]. cbn.
  assert (keeps sync_conflicts (OutboundStore.update_state (conflict_intent_id evidence)
    OutboundStore.conflict_states IntentConflict)) as Hk by walk fail.
  by rewrite (Hk _ _ _ _ Hm0).
Qed.

(** A recorded conflict with the result that names it. *)
Lemma conflicted_ok id c s s' row merge now u :
  state_is id IntentConflict s ->
  (exists row, sync_conflicts s !! c = Some row /\ conflict_intent_id row = id
     /\ conflict_unresolved row = true) ->
  (forall r, r = row \/ (exists old, r = merge old) ->
     result_outcome r = OutcomeConflict /\ result_conflict_id r = Some c) ->
  OutboundStore.upsert_result id row merge now s = Ok (s', u) -> conflicted id c s'.
Proof.
  intros Hst Hc Hrow Hr. apply result_ok in Hr as (Hi & _ & Hs & r & Hres & Hor).
  split_and!.
  - unfold state_is, state_in. by rewrite Hi.
  - by rewrite Hs.
  - exists r. split; [done|]. by apply Hrow.
Qed.

Lemma mutation_conflict_ok id mutation conflict (w w' : World F) c :
  OutboundStore.record_mutation_conflict id mutation conflict w = (w', Ok c) ->
  conflicted id c (store w').
Proof.
  intros Hr. apply bind_ok in Hr as (w1 & intent & _ & Hr). apply call_ok in Hr as (s & Hr & ->).
  repeat tx_step Hr. injection Hr as <- <-. apply record_conflict_ok in Hm as [Hst Hc]; [|done].
  eapply conflicted_ok; [done..| |done]. by intros r [->|[old ->]].
Qed.

Lemma upload_conflict_ok id revision (w w' : World F) o :
  Submission.upload_conflict id revision w = (w', Ok o) -> outcome_recorded (store w') o.
Proof.
  intros Hr. apply bind_ok in Hr as (w1 & c & Hr & Ho). injection Ho as <- <-.
  do 3 (apply bind_ok in Hr as (? & ? & _ & Hr)). apply call_ok in Hr as (s & Hr & ->).
  repeat tx_step Hr. injection Hr as <- <-. apply record_conflict_ok in Hm as [Hst Hc]; [|done].
  eapply conflicted_ok; [done..| |done]. by intros r [->|[old ->]].
Qed.

(** *** The engine *)

(** Every outcome of a computation is recorded. *)
Definition yields {A} (Q : Store -> A -> Prop) (m : M F A) : Prop :=
  forall w w' a, m w = (w', Ok a) -> Q (store w') a.

Lemma yields_bind {A B} (Q : Store -> B -> Prop) (m : M F A) (k : A -> M F B) :
  (forall a, yields Q (k a)) -> yields Q (bind m k).
Proof. intros Hk w w' b Hr. apply bind_ok in Hr as (w1 & a & _ & Hr). by eapply Hk. Qed.

Lemma yields_then {A B} (T : Store -> A -> Prop) (Q : Store -> B -> Prop) (m : M F A) (f : A -> B) :
  yields T m -> (forall s a, T s a -> Q s (f a)) -> yields Q (let! a := m in ret (f a)).
Proof.
  intros Hm HQ w w' b Hr. apply bind_ok in Hr as (w1 & a & Ha & Hr). injection Hr as <- <-.
  by eapply HQ, Hm.
Qed.

Lemma yields_ret {A} (Q : Store -> A -> Prop) a : (forall s, Q s a) -> yields Q (ret a).
Proof. intros HQ w w' b [= <- <-]. auto. Qed.

Lemma yields_raise {A} (Q : Store -> A -> Prop) e : yields Q (raise e).
Proof. done. Qed.

Lemma yields_block id : yields (fun s (_ : unit) => state_is id IntentBlocked s) (Submission.block id).
Proof. intros w w' u Hr. apply call_ok in Hr as (s & Hr & ->). by apply blocked_ok in Hr. Qed.

Lemma yields_blocked id : yields outcome_recorded (Submission.blocked id).
Proof. by eapply (yields_then _ _ _ (fun _ => _)); [apply yields_block|]. Qed.

Lemma yields_completed id completion :
  yields outcome_recorded (
    let! _ := call (OutboundStore.record_upload_completed id completion) in
    ret (SubmissionOutcome.Submitted id)).
Proof.
  apply (yields_then (fun s _ => applied id s) _ _ (fun _ => _)); [|done].
  intros w w' u Hr. apply call_ok in Hr as (s & Hr & ->). by eapply record_completed_ok.
Qed.

Lemma applied_call {A} id (t : tx A) :
  keeping (state_is id IntentServerApplied) t -> keeps outbound_submission_results t ->
  calm (fun w : World F => applied id (store w)) (call t).
Proof.
  intros Hst Hres. apply calm_call; [|done]. intros w s a [Hs Hr] Ht. split; cbn.
  - by eapply Hst.
  - by rewrite (Hres _ _ _ _ Ht).
Qed.

(** Recording the children of a directory leaves its own result. *)
Lemma applied_upsert id intent :
  calm (fun w : World F => applied id (store w))
    (OutboundStore.upsert_outbound_intent_with_result intent).
Proof.
  assert (forall A (q : Store -> result A ClientSyncError),
    calm (fun w : World F => applied id (store w)) (read q)) as Hread by (by intros A q w).
  unfold OutboundStore.upsert_outbound_intent_with_result.
  repeat first [progress auto with calms | apply calm_bind; [|intros ?] | case_match].
  - apply applied_call; [apply state_update|walk fail].
  - apply applied_call; [|walk fail]. apply keeping_bind; [apply state_frame; walk fail|].
    intros now. apply state_new.
Qed.

Lemma applied_children id library path node revision :
  calm (fun w : World F => applied id (store w))
    (OutboundStore.resolve_pending_create_children library path node revision).
Proof.
  pose proof (applied_upsert id). unfold OutboundStore.resolve_pending_create_children.
  repeat first [progress auto with calms | apply calm_bind; [|intros ?] | apply calm_each; intros ?
               | case_match | by intros w].
Qed.

Lemma yields_applied id result :
  yields outcome_recorded (
    let! _ := OutboundStore.record_mutation_applied id result in
    ret (SubmissionOutcome.Submitted id)).
Proof.
  apply (yields_then (fun s _ => applied id s) _ _ (fun _ => _)); [|done].
  intros w w' u Hr. apply bind_ok in Hr as (w1 & [] & H1 & Hr). apply call_ok in H1 as (s & H1 & ->).
  apply insert_applied_ok in H1. change w' with (w', Ok (E := ClientSyncError) u).1. rewrite <- Hr.
  match goal with |- applied _ (store (?m ?v).1) =>
    enough (calm (fun w : World F => applied id (store w)) m) as Hm by (by apply (Hm v)) end.
  pose proof (applied_children id). apply calm_bind; [by intros v|]. intros found.
  repeat case_match; auto with calms.
Qed.

Lemma yields_conflict id mutation conflict :
  yields outcome_recorded (
    let! durable := OutboundStore.record_mutation_conflict id mutation conflict in
    ret (SubmissionOutcome.Conflict id durable)).
Proof.
  apply (yields_then (fun s c => conflicted id c s)); [|done].
  intros w w' c. apply mutation_conflict_ok.
Qed.

Lemma yields_upload_conflict id revision :
  yields outcome_recorded (Submission.upload_conflict id revision).
Proof. intros w w' o. apply upload_conflict_ok. Qed.

(** Goes through a computation to the outcomes it ends with. *)
Ltac outcomes :=
  repeat first
    [ assumption
    | apply yields_raise
    | apply yields_blocked
    | apply yields_completed
    | apply yields_applied
    | apply yields_conflict
    | apply yields_upload_conflict
    | apply yields_ret; by intros
    | progress cbv zeta
    | case_match
    | apply yields_bind; intros ? ].

Lemma yields_namespace intent :
  yields outcome_recorded (Submission.submit_namespace_intent scope intent).
Proof.
  unfold Submission.submit_namespace_intent.
  do 4 (apply yields_bind; intros ?). destruct a2 as [[]|]; outcomes.
Qed.

(** An upload that ends early has a recorded outcome. *)
Definition session_recorded (s : Store) (result : UploadRow + SubmissionOutcome.t) : Prop :=
  match result with inl _ => True | inr outcome => outcome_recorded s outcome end.

Lemma yields_session intent upload :
  yields session_recorded (Submission.upload_session scope intent upload).
Proof.
  unfold Submission.upload_session. destruct (upload_session_id upload); [by apply yields_ret|].
  do 2 (apply yields_bind; intros ?). destruct a0 as [status|error]; [outcomes|].
  repeat (case_match; [by apply yields_ret|]). case_match.
  - by eapply yields_then; [apply yields_upload_conflict|].
  - case_match; [outcomes|]. by eapply (yields_then _ _ _ (fun _ => _)); [apply yields_block|].
Qed.

(** The chunk loop stalls only on a blocked intent. *)
Lemma yields_chunks fuel id session staging length offset :
  yields (fun s progress => progress = Stalled -> state_is id IntentBlocked s)
    (Submission.upload_chunks scope fuel id session staging length offset).
Proof.
  revert offset. induction fuel as [|fuel IH]; intros offset; cbn [Submission.upload_chunks];
    (case_match; [by apply yields_ret|]); [by apply yields_ret|].
  do 2 (apply yields_bind; intros ?). case_match.
  - by eapply (yields_then _ _ _ (fun _ => _)); [apply yields_block|].
  - apply yields_bind. intros _. apply IH.
Qed.

Lemma yields_resume intent upload :
  yields outcome_recorded (Submission.resume_upload scope intent upload).
Proof.
  unfold Submission.resume_upload. cbv zeta. do 2 (apply yields_bind; intros ?).
  case_match; [apply yields_upload_conflict|]. case_match; [apply yields_blocked|].
  apply yields_bind. intros _. case_match; [outcomes|]. apply yields_bind. intros _.
  intros w w' o Hr. apply bind_ok in Hr as (w1 & progress & Hp & Hr). apply yields_chunks in Hp.
  destruct progress; [|by injection Hr as <- <-; apply Hp|done]. revert Hr.
  match goal with |- ?m _ = _ -> _ => enough (yields outcome_recorded m) as Hm by apply Hm end.
  unfold Submission.finish_upload. outcomes.
Qed.

Lemma yields_submit intent : yields outcome_recorded (Submission.submit_intent scope intent).
Proof.
  pose proof yields_namespace. unfold Submission.submit_intent.
  assert (yields outcome_recorded (Submission.submit_upload_intent scope intent)).
  { unfold Submission.submit_upload_intent. do 5 (apply yields_bind; intros ?).
    intros w w' o Hr. apply bind_ok in Hr as (w1 & [row|o'] & Hp & Hr).
    - by eapply yields_resume.
    - apply yields_session in Hp. by injection Hr as <- <-. }
  apply yields_bind. intros [checkpoint|error]; [|outcomes]. apply yields_bind. intros replica.
  case_match; [apply yields_blocked|]. case_match; auto.
Qed.

(** C22: The outcome of a call is what the database records when it returns. A
    submitted intent is in state SERVER_APPLIED with its applied result; an intent
    in conflict is in state CONFLICT, with an unresolved conflict of its own and a
    result that names it; a blocked intent is in state BLOCKED; and a call refuses
    to work because of a conflict only for an unresolved one of the library. *)
Theorem submission_outcome_recorded w w' outcome :
  Submission.process_next_ready_intent scope w = (w', Ok outcome) ->
  outcome_recorded (store w') outcome.
Proof.
  revert w w' outcome. change (yields outcome_recorded (Submission.process_next_ready_intent scope)).
  unfold Submission.process_next_ready_intent.
  do 3 (apply yields_bind; intros ?). case_match; [by apply yields_ret|].
  apply yields_bind. intros _ w w' o Hr. apply bind_ok in Hr as (w1 & conflict & Hc & Hr).
  apply read_ok in Hc as [Hc ->]. injection Hc as Hc. destruct conflict as [[c row]|].
  - injection Hr as <- <-. apply head_Some_elem_of in Hc.
    rewrite merge_sort_Permutation in Hc. apply list_elem_of_filter in Hc as [[Hl Hu] Hc].
    exists row. split; [by apply elem_of_map_to_list|done].
  - revert Hr.
    match goal with |- ?m _ = _ -> _ => enough (yields outcome_recorded m) as Hm by apply Hm end.
    apply yields_bind. intros [intent|]; [|by apply yields_ret].
    case_match; [by apply yields_ret|apply yields_submit].
Qed.

End Outcome.
