(* ===== verification/ConflictFacts.v ===== *)
(** * What resolving conflicts guarantees

    The pages of conflicts list each of them once, and a resolution settles its
    conflict: the local change is dropped, or it becomes a new intent on the
    current state of the replica, which the submission engine accepts. *)

From S2P Require Import Prelude Vocabulary Values Models Requests Rebaseline SyncTypes ClientPaths.
From S2P Require Import ClientStore FeedProtocol StoreFacts SyncWorld Candidates SnapshotFacts.
From S2P Require Import Inbound Cycle InboundFacts Disk OutboundTypes OutboundStore Submission.
From S2P Require Import Conflicts Materialize MaterializeFacts EditFacts SyncFacts ConvergenceFacts.
From S2P Require Import CycleFrame SubmissionFacts IntentFacts OutcomeFacts.

(** ** Pages *)

Section Pages.

Context (library : Z) (unresolved : bool) (limit : Z).

(** A reader that follows the cursors to the end; [fuel] bounds the pages. *)
Fixpoint all_conflicts (fuel : nat) (after : option (Z * Z)) (s : Store) :
  result (list (Z * ConflictRow)) ClientSyncError :=
  match fuel with
  | O => Err ResourceLimit
  | S fuel' =>
      let? page := Conflicts.list_conflicts_inner library unresolved after (Some limit) s in
      match Conflicts.page_next_cursor page with
      | None => Ok (Conflicts.page_items page)
      | Some c =>
          let? rest := all_conflicts fuel' (Some c) s in Ok (Conflicts.page_items page ++ rest)
      end
  end.

(** The strict order of the cursors. *)
Definition before (a b : Z * ConflictRow) : Prop := Conflicts.after_cursor (Some (Conflicts.cursor a)) b = true.

Lemma before_spec a b : before a b <-> Outbound.detected_first a b /\ Conflicts.cursor a <> Conflicts.cursor b.
Proof.
  unfold before, Outbound.detected_first, Conflicts.after_cursor, Conflicts.cursor.
  rewrite orb_true_iff, andb_true_iff, !Z.ltb_lt, Z.eqb_eq. split.
  - intros Hb. split; [lia|]. intros [=]. lia.
  - intros [Hd Hne]. destruct (decide (a.1 = b.1)) as [Heq|Hneq]; [|lia].
    destruct (decide (conflict_detected_at a.2 = conflict_detected_at b.2)) as [Ht|Ht]; [|lia].
    rewrite Heq, Ht in Hne. done.
Qed.

#[local] Instance detected_first_total : Total Outbound.detected_first.
Proof. intros [i a] [j b]. unfold Outbound.detected_first. cbn. lia. Qed.

#[local] Instance detected_first_trans : Transitive Outbound.detected_first.
Proof. intros [i a] [j b] [k c]. unfold Outbound.detected_first. cbn. lia. Qed.

(** The rows come in the strict order. *)
Lemma conflict_rows_sorted s : StronglySorted before (Conflicts.conflict_rows library unresolved s).
Proof.
  unfold Conflicts.conflict_rows. set (l := filter _ _).
  pose proof (StronglySorted_merge_sort Outbound.detected_first l) as Hs.
  assert (NoDup (fst <$> merge_sort Outbound.detected_first l)) as Hn.
  { rewrite merge_sort_Permutation. apply NoDup_fmap_fst; [|apply NoDup_filter, NoDup_map_to_list].
    intros i a b [_ Ha]%list_elem_of_filter [_ Hb]%list_elem_of_filter.
    apply elem_of_map_to_list in Ha, Hb. congruence. }
  induction Hs as [|x rest Hs IH Hx]; [constructor|]. apply NoDup_cons in Hn as [Hx1 Hn].
  constructor; [auto|]. rewrite Forall_forall in Hx |- *. intros y Hy. apply before_spec.
  split; [auto|]. intros [= _ Heq]. apply Hx1. rewrite Heq. by apply list_elem_of_fmap_2.
Qed.

(** What is left after a row of a sorted list is the list behind it. *)
Lemma filter_after pre p post :
  StronglySorted before (pre ++ p :: post) ->
  List.filter (Conflicts.after_cursor (Some (Conflicts.cursor p))) (pre ++ p :: post) = post.
Proof.
  intros Hs. induction pre as [|x pre IH].
  - apply StronglySorted_inv in Hs as [_ Hp]. cbn [app List.filter].
    replace (Conflicts.after_cursor _ p) with false
      by (unfold Conflicts.after_cursor, Conflicts.cursor; lia).
    induction Hp as [|y l Hy _ IHl]; [done|]. cbn [List.filter]. unfold before in Hy. by rewrite Hy, IHl.
  - apply StronglySorted_inv in Hs as [Hs Hx]. cbn [app List.filter].
    rewrite Forall_forall in Hx. assert (before x p) as Hxp by (apply Hx; set_solver).
    replace (Conflicts.after_cursor _ x) with false; [by apply IH|].
    unfold before in Hxp. unfold Conflicts.after_cursor, Conflicts.cursor in *. lia.
Qed.

(** What a page shows of a list of rows. *)
Lemma page_of after s :
  1 <= limit <= MAX_CONFLICT_PAGE_LIMIT ->
  match after with Some (detected, _) => detected <= i64_max | None => True end ->
  let rest := List.filter (Conflicts.after_cursor after)
                (Conflicts.conflict_rows library unresolved s) in
  Conflicts.list_conflicts_inner library unresolved after (Some limit) s
  = Ok (Conflicts.mk_ConflictPage (take (Z.to_nat limit) rest)
          (if limit <? len rest then Conflicts.cursor <$> last (take (Z.to_nat limit) rest)
           else None)).
Proof.
  intros Hl Ha rest. unfold Conflicts.list_conflicts_inner. cbn [default].
  assert (exists n, match after with Some (detected, _) => u64_i64 detected | None => Ok 0 end = Ok n)
    as [n ->].
  { destruct after as [[d i]|]; [|eauto]. unfold u64_i64, i64_try_from_is_err.
    replace (i64_max <? d) with false by lia. eauto. }
  cbn. fold rest.
  replace ((limit =? 0) || (MAX_CONFLICT_PAGE_LIMIT <? limit)) with false by lia.
  rewrite !take_z_take, take_take. unfold len. rewrite length_take.
  replace (Z.to_nat limit `min` Z.to_nat (limit + 1))%nat with (Z.to_nat limit) by lia.
  destruct (Z.ltb_spec limit (Z.of_nat (Z.to_nat (limit + 1) `min` length rest)%nat)),
    (Z.ltb_spec limit (Z.of_nat (length rest))); [done|lia|lia|done].
Qed.

(** The pages after a prefix of the rows. *)
Lemma conflicts_after s fuel pre post after :
  1 <= limit <= MAX_CONFLICT_PAGE_LIMIT ->
  Forall (fun p => conflict_detected_at p.2 <= i64_max) (pre ++ post) ->
  Conflicts.conflict_rows library unresolved s = pre ++ post ->
  after = Conflicts.cursor <$> last pre -> (length post < fuel)%nat ->
  all_conflicts fuel after s = Ok post.
Proof.
  intros Hl Hd Hrows -> Hf.
  revert pre post Hd Hrows Hf. induction fuel as [|fuel IH]; intros pre post Hd Hrows Hf; [lia|].
  assert (List.filter (Conflicts.after_cursor (Conflicts.cursor <$> last pre)) (pre ++ post) = post)
    as Hrest.
  { pose proof (conflict_rows_sorted s) as Hs. rewrite Hrows in Hs.
    destruct pre as [|p pre _] using rev_ind; [cbn; clear; induction post as [|x l IHl]; cbn; congruence|].
    rewrite last_snoc. rewrite <- app_assoc in Hs |- *. by apply filter_after. }
  cbn [all_conflicts]. rewrite page_of; [|done|].
  2: { destruct (last pre) as [p|] eqn:Hp; [|done]. apply last_Some_elem_of in Hp. cbn.
       rewrite Forall_forall in Hd. apply Hd. set_solver. }
  rewrite Hrows, Hrest. cbn. unfold len. destruct (Z.ltb_spec limit (Z.of_nat (length post))).
  - set (n := Z.to_nat limit). destruct (last (take n post)) as [p|] eqn:Hp.
    2: { apply last_None in Hp. apply (f_equal length) in Hp. rewrite length_take in Hp. cbn in Hp. lia. }
    cbn. replace (Some (Conflicts.cursor p)) with (Conflicts.cursor <$> last (pre ++ take n post))
      by (by rewrite last_app, Hp).
    erewrite (IH (pre ++ take n post) (drop n post)).
    + cbn. by rewrite take_drop.
    + by rewrite <- app_assoc, take_drop.
    + by rewrite <- app_assoc, take_drop.
    + rewrite length_drop. lia.
  - rewrite take_ge by lia. done.
Qed.

(** Reading the conflicts page by page, from cursor to cursor, lists every
    conflict of the library with the asked status exactly once, in the order of
    detection, for every page size the code accepts; one page per conflict is
    enough. *)
Theorem conflict_pages_complete s :
  1 <= limit <= MAX_CONFLICT_PAGE_LIMIT ->
  (forall id row, sync_conflicts s !! id = Some row -> conflict_detected_at row <= i64_max) ->
  let rows := Conflicts.conflict_rows library unresolved s in
  all_conflicts (S (length rows)) None s = Ok rows
  /\ NoDup rows
  /\ forall id row, (id, row) ∈ rows <-> sync_conflicts s !! id = Some row
       /\ conflict_library_id row = library /\ conflict_unresolved row = unresolved.
Proof.
  intros Hl Hd rows.
  assert (forall id row, (id, row) ∈ rows <-> sync_conflicts s !! id = Some row
    /\ conflict_library_id row = library /\ conflict_unresolved row = unresolved) as Hin.
  { intros id row. unfold rows, Conflicts.conflict_rows.
    rewrite merge_sort_Permutation, list_elem_of_filter, elem_of_map_to_list. naive_solver. }
  split_and!; [| |done].
  - apply (conflicts_after s _ [] rows None); [done| |done..|lia]. apply Forall_forall.
    intros [id row] Hp. apply Hin in Hp as [Hp _]. by eapply Hd.
  - unfold rows, Conflicts.conflict_rows. rewrite merge_sort_Permutation.
    apply NoDup_filter, NoDup_map_to_list.
Qed.

End Pages.

(** ** Resolution *)

Section Resolution.

Context {F : Type} `{U : Unicode} `{E : Env} `{I : Identifiers} `{H : Sha}.

(** What an intent changes, apart from what it rests on. *)
Definition same_change (a b : IntentRow) : Prop :=
  intent_library_id a = intent_library_id b /\ intent_node_id a = intent_node_id b
  /\ intent_parent_node_id a = intent_parent_node_id b /\ intent_kind a = intent_kind b
  /\ intent_observed_path a = intent_observed_path b /\ intent_old_path a = intent_old_path b
  /\ intent_fingerprint a = intent_fingerprint b.

(** The revision of a node, read from the replica; [fits] is what is asked of it. *)
Definition revision_at (s : Store) (library : Z) (id : option Z) (fits : LocalNode.t -> Prop)
  (revision version : option Z) : Prop :=
  match id with
  | None => revision = None /\ version = None
  | Some id =>
      exists node, Nodes.local_node library id s = Ok (Some node) /\ fits node
        /\ LocalNode.state node = NodeState.Active
        /\ revision = Some (LocalNode.revision node) /\ version = LocalNode.current_version_id node
  end.

(** The intent rests on the current state of the replica. *)
Definition base_current (s : Store) (row : IntentRow) : Prop :=
  let library := intent_library_id row in
  (exists replica, Feed.replica library s = Some replica
     /\ intent_base_epoch row = Replica.journal_epoch replica
     /\ intent_base_sequence row = Replica.applied_sequence replica)
  /\ revision_at s library (intent_node_id row) (fun _ => True) (intent_base_revision row)
       (intent_base_version_id row)
  /\ exists version, revision_at s library (intent_parent_node_id row)
       (fun node => LocalNode.kind node = NodeKind.Directory) (intent_base_parent_revision row)
       version.

(** The staged content of an upload is that of another, without its session. *)
Definition restaged (s s' : Store) (original fresh : Z) : Prop :=
  exists upload, outbound_upload_sessions s !! original = Some upload
    /\ outbound_upload_sessions s' !! fresh
       = Some (OutboundStore.set_upload upload None 0 (lit "STAGED")).

(** The new intent that stands for [original]. *)
Definition retried (s s' : Store) (original fresh : Z) : Prop :=
  exists old new,
    outbound_intents s !! original = Some old /\ outbound_intents s !! fresh = None
    /\ outbound_intents s' !! fresh = Some new
    /\ same_change old new /\ intent_state new = IntentPending /\ base_current s new
    /\ (intent_kind old ∈ [OutboundIntentKind.CreateFile; OutboundIntentKind.ModifyFileContent] ->
        restaged s s' original fresh).

Lemma current_base_ok library id fits now s s' node :
  Conflicts.current_base library id fits now s = Ok (s', node) ->
  s' = s /\ match id, node with
            | None, None => True
            | Some id, Some node => Nodes.local_node library id s = Ok (Some node) /\ fits node = true
            | _, _ => False
            end.
Proof.
  unfold Conflicts.current_base. destruct id as [id|]; [|by intros [= <- <-]]. intros Hr.
  repeat tx_step Hr. destruct a as [found|]; [|done]. repeat tx_step Hr. by injection Hr as <- <-.
Qed.

Lemma insert_intent_ok now0 id row now s s' u :
  OutboundStore.insert_intent now0 (id, row) now s = Ok (s', u) ->
  outbound_intents s !! id = None
  /\ s' = set_outbound_intents s (<[id := OutboundStore.set_created row now0]> (outbound_intents s)).
Proof.
  intros Hr. unfold OutboundStore.insert_intent in Hr. repeat tx_step Hr.
  apply write_ok in Hr as ->. cbn in Hb. by destruct (outbound_intents s !! id).
Qed.

Lemma revision_at_ok s library id fits found (P : LocalNode.t -> Prop) :
  (forall node, fits node = true -> LocalNode.state node = NodeState.Active /\ P node) ->
  match id, found with
  | None, None => True
  | Some id, Some node => Nodes.local_node library id s = Ok (Some node) /\ fits node = true
  | _, _ => False
  end ->
  revision_at s library id P (LocalNode.revision <$> found)
    (match found with Some node => LocalNode.current_version_id node | None => None end).
Proof.
  intros Hf. destruct id as [id|], found as [node|]; try done. intros [Hn Hfit].
  apply Hf in Hfit as [Ha Hp]. by exists node.
Qed.

Lemma restage_ok kind upload fresh now s s' u :
  (if bool_decide (kind ∈ [OutboundIntentKind.CreateFile; OutboundIntentKind.ModifyFileContent])
   then
     match upload with
     | None => attempt (Err ResolutionNotApplicable)
     | Some upload =>
         do! rows := select outbound_upload_sessions in
         do! _ := ensure (is_none (rows !! fresh)) Database in
         update (fun s => set_upload_sessions s
           (<[fresh := OutboundStore.set_upload upload None 0 (lit "STAGED")]>
              (outbound_upload_sessions s)))
     end
   else tx_ret tt) now s = Ok (s', u) ->
  outbound_intents s' = outbound_intents s /\ sync_conflicts s' = sync_conflicts s
  /\ (kind ∈ [OutboundIntentKind.CreateFile; OutboundIntentKind.ModifyFileContent] ->
      exists up, upload = Some up /\ outbound_upload_sessions s' !! fresh
                  = Some (OutboundStore.set_upload up None 0 (lit "STAGED"))).
Proof.
  case_bool_decide as Hk; [|by intros [= <- _]]. destruct upload as [up|]; [|done]. intros Hr.
  repeat tx_step Hr. injection Hr as <-. split_and!; [done..|]. intros _. exists up.
  split; [done|apply lookup_insert_eq].
Qed.

Lemma retry_ok fresh now0 original old now s s' replacement :
  outbound_intents s !! original = Some old ->
  Conflicts.replacement_intent_tx fresh now0 (original, old) now s = Ok (s', replacement) ->
  replacement.1 = fresh /\ retried s s' original fresh
  /\ sync_conflicts s' = sync_conflicts s.
Proof.
  intros Hold Hr. unfold Conflicts.replacement_intent_tx in Hr. cbn [fst snd] in Hr.
  tx_step Hr. tx_step Hr. tx_step Hr. apply current_base_ok in Hm as [-> Hnode].
  tx_step Hr. apply current_base_ok in Hm as [-> Hparent]. repeat tx_step Hr.
  injection Hr as <- <-. unfold new_intent in Ha0.
  destruct (Candidates.validate_intent_shape _); [|done]. injection Ha0 as <-.
  apply insert_intent_ok in Hm as [Hfresh ->]. apply restage_ok in Hm0 as (Hi & Hc & Hu).
  destruct (Feed.replica _ s) as [replica|] eqn:Hrep; [|done]. injection Ha as <-.
  split_and!; [done| |by rewrite Hc]. do 2 eexists. split_and!; [done..| | | | |].
  - rewrite Hi. apply lookup_insert_eq.
  - done.
  - done.
  - split_and!; [by exists replica| |eexists].
    + eapply revision_at_ok; [|exact Hnode]. intros node Hn. cbv beta in Hn. by rust_bool.
    + eapply revision_at_ok; [|exact Hparent]. intros node Hn. cbv beta in Hn. by rust_bool.
  - intros Hk. destruct (Hu Hk) as (up & Hup & Hs). by exists up.
Qed.

Lemma resolution_written c row columns now s s' u :
  Conflicts.write_resolution c row columns now s = Ok (s', u) ->
  s' = set_conflicts s (<[c := Conflicts.set_resolution row columns]> (sync_conflicts s)).
Proof. intros Hr. unfold Conflicts.write_resolution in Hr. repeat tx_step Hr. by injection Hr as <-. Qed.

Lemma required_ok id s row :
  OutboundStore.required_intent id s = Ok row -> row.1 = id /\ outbound_intents s !! id = Some row.2.
Proof.
  unfold OutboundStore.required_intent, OutboundStore.outbound_intent, OutboundStore.decode_optional.
  destruct (outbound_intents s !! id) as [r|]; [|done]. cbn. unfold OutboundStore.decode.
  destruct (Candidates.decode_outbound_intent _) as [r'|] eqn:Hd; [|done].
  cbn. intros [= <-]. split; [done|]. cbn. f_equal.
  unfold Candidates.decode_outbound_intent in Hd. cbn in Hd. by repeat case_match; simplify_eq/=.
Qed.

Lemma update_state_other id from to now s s' b k :
  OutboundStore.update_state id from to now s = Ok (s', b) -> k <> id ->
  outbound_intents s' !! k = outbound_intents s !! k.
Proof.
  intros Hr Hne. unfold OutboundStore.update_state in Hr. tx_step Hr.
  destruct (outbound_intents s !! id) as [row|]; [|by injection Hr as <- _].
  case_bool_decide; [|by injection Hr as <- _]. tx_step Hr. apply write_ok in Hm as ->.
  injection Hr as <- _. cbn. by rewrite lookup_insert_ne.
Qed.

(** What a resolution does with the local change. *)
Definition settled (s s' : Store) (intent : Z) (resolution : SyncConflictResolution.t)
  (replacement : option Z) : Prop :=
  match resolution with
  | SyncConflictResolution.AcceptRemote =>
      replacement = None /\ state_is intent IntentCancelled s'
  | SyncConflictResolution.RetryLocalAgainstCurrentBase =>
      state_is intent IntentSuperseded s'
      /\ exists fresh, replacement = Some fresh /\ retried s s' intent fresh
  end.

Lemma retried_then s s1 s' original fresh from to now b :
  retried s s1 original fresh ->
  OutboundStore.update_state original from to now s1 = Ok (s', b) -> retried s s' original fresh.
Proof.
  intros (old & new & Hold & Hfresh & Hnew & Hc & Hst & Hb & Hu) Hr. exists old, new.
  split_and!; try done.
  - rewrite (update_state_other _ _ _ _ _ _ _ fresh Hr); congruence.
  - intros Hk. destruct (Hu Hk) as (up & Hup & Hs). exists up. split; [done|].
    assert (keeps outbound_upload_sessions (OutboundStore.update_state original from to)) as Hkeep
      by walk fail.
    by rewrite (Hkeep _ _ _ _ Hr).
Qed.

(** The first resolution of a conflict. *)
Lemma resolve_first fresh fresh_resolution c existing expected resolution duplicate now s s' result :
  sync_conflicts s !! c = Some existing -> conflict_resolution existing = None ->
  Conflicts.resolve_tx fresh fresh_resolution c expected resolution duplicate now s = Ok (s', result) ->
  exists columns,
    result = (c, Conflicts.set_resolution existing columns)
    /\ ClientStore.resolution columns = resolution
    /\ sync_conflicts s' = <[c := Conflicts.set_resolution existing columns]> (sync_conflicts s)
    /\ settled s s' (conflict_intent_id existing) resolution (replacement_intent_id columns).
Proof.
  intros Hc Hres Hr. unfold Conflicts.resolve_tx in Hr. repeat tx_step Hr. rewrite Hc in Ha.
  injection Ha as <-. rewrite Hres in Hr. repeat tx_step Hr.
  apply required_ok in Ha as [Hid Hrow]. destruct a as [id row]. cbn in Hid, Hrow. subst id.
  apply resolution_written in Hm1 as ->. injection Hr as <- <-. destruct a1; [|done].
  assert (keeps sync_conflicts (OutboundStore.update_state (conflict_intent_id existing)
    OutboundStore.conflict_states (if is_some a0 then IntentSuperseded else IntentCancelled)))
    as Hkeep by walk fail.
  pose proof (Hkeep _ _ _ _ Hm0) as Hconf. pose proof (update_state_ok _ _ _ _ _ _ Hm0) as Hst.
  eexists. split_and!; [done..| |]; destruct resolution.
  - injection Hm as <- _. cbn. by rewrite Hconf.
  - repeat tx_step Hm. injection Hm as <- <-. apply retry_ok in Hm1 as (_ & _ & Hsame); [|done].
    cbn. by rewrite Hconf, Hsame.
  - injection Hm as <- <-. by split.
  - repeat tx_step Hm. injection Hm as <- <-. apply retry_ok in Hm1 as (<- & Hretry & _); [|done].
    split; [done|]. eexists. split; [done|]. eapply retried_then in Hretry; [|done]. exact Hretry.
Qed.

(** C24: A conflict is resolved at most once, and a resolution settles it. When a
    resolution is reported, either the conflict had already been resolved the same
    way and nothing changes, or it was unresolved and now carries the resolution.
    Accepting the remote side cancels the local intent. Retrying supersedes it by
    a new intent for the same change, pending, resting on the current epoch,
    sequence and revisions of the replica, with the staged content of the original
    for a change of content. No other conflict changes. *)
Theorem resolution_settles (w w' : World F) c expected resolution duplicate result :
  Conflicts.resolve_conflict_inner c expected resolution duplicate w = (w', Ok result) ->
  exists existing,
    sync_conflicts (store w) !! c = Some existing
    /\ (expected = None \/ expected = Some (conflict_library_id existing,
           conflict_intent_id existing, conflict_detected_at existing))
    /\ match conflict_resolution existing with
       | Some columns =>
           duplicate = false /\ ClientStore.resolution columns = resolution
           /\ result = (c, existing) /\ store w' = store w
       | None =>
           exists columns,
             result = (c, Conflicts.set_resolution existing columns)
             /\ ClientStore.resolution columns = resolution
             /\ sync_conflicts (store w')
                = <[c := Conflicts.set_resolution existing columns]> (sync_conflicts (store w))
             /\ settled (store w) (store w') (conflict_intent_id existing) resolution
                  (replacement_intent_id columns)
       end.
Proof.
  intros Hr. do 2 (apply bind_ok in Hr as (? & ? & [= <- _] & Hr)).
  apply call_ok in Hr as (s' & Hr & ->). cbn [store next] in *. revert Hr.
  generalize (clock (tick (next (next w)))). intros now Hr.
  pose proof Hr as Htx. unfold Conflicts.resolve_tx in Htx. repeat tx_step Htx.
  destruct (sync_conflicts (store w) !! c) as [existing|] eqn:Hc; [|done]. injection Ha as <-.
  exists existing. split_and!; [done| |].
  - destruct expected as [[[l i] d]|]; [right|by left]. rust_bool. by subst.
  - destruct (conflict_resolution existing) as [columns|] eqn:Hres; [|by eapply resolve_first].
    destruct (negb duplicate && _) eqn:Hd; [|done]. injection Htx as <- <-. by rust_bool.
Qed.

End Resolution.
