(* ===== verification/ClientFacts.v ===== *)
(** * The client as a whole

    Cycles with the real submission engine, interleaved with observation,
    resolution of conflicts and edits of the folder: the outbound side and the
    inbound side share one database and do not disturb each other. *)

From S2P Require Import Prelude Vocabulary Values Models Requests Rebaseline SyncTypes ClientPaths.
From S2P Require Import ClientStore FeedProtocol StoreFacts SyncWorld Candidates SnapshotFacts.
From S2P Require Import Inbound Cycle InboundFacts Disk OutboundTypes OutboundStore Submission.
From S2P Require Import Conflicts Materialize MaterializeFacts EditFacts SyncFacts ConvergenceFacts.
From S2P Require Import CycleFrame SubmissionFacts IntentFacts.

Section Client.

Context {F : Type} `{U : Unicode} `{E : Env} `{R : SyncRemote} `{D : SnapshotRemote}
  `{W : UploadRemote} `{L : LocalReplica F} `{C : ContentReader F} `{I : Identifiers} `{H : Sha}
  `{S : Serde}.
Context (scope : ReplicaScope) (profile : option Z) (config : EngineConfig.t) (page_limit : Z).

Notation lib := (library_id scope).

(** What the inbound side works on. *)
Definition inbound_state (s : Store) := (abs lib s, rebaseline_candidates s).

Notation rest v base := (at_rest (F := F) inbound_state v base).

Lemma fenced_rest {A} (m : M F A) :
  (forall v base, calm (rest v base) m) -> calm (fenced scope) m.
Proof.
  intros Hm w (f & Hf & Hw). destruct (Hm (inbound_state (store w)) (sent w) w) as [Hv _].
  { split; [done|]. exists []. by rewrite app_nil_r. }
  injection Hv as Ha Hc. exists f. by rewrite Ha, Hc.
Qed.

Lemma rest_chunks v base fuel i session staging length offset :
  calm (rest v base) (Submission.upload_chunks scope fuel i session staging length offset).
Proof.
  revert offset. induction fuel as [|fuel IH]; intros offset; cbn [Submission.upload_chunks];
    untouched.
Qed.

#[local] Hint Resolve rest_chunks : calms.

Lemma rest_upload v base intent :
  calm (rest v base) (Submission.submit_upload_intent scope intent).
Proof. untouched. Qed.

#[local] Hint Resolve rest_upload : calms.

Lemma rest_process v base : calm (rest v base) (Submission.process_next_ready_intent scope).
Proof. untouched. Qed.

Lemma fenced_cycle observed_at :
  calm (fenced scope)
    (sync_cycle (Mat := materializer scope) scope profile config page_limit observed_at).
Proof.
  unfold sync_cycle, Runner.run_once. apply calm_bind; [apply fenced_rest; intros; untouched|intros _].
  apply calm_bind.
  - apply calm_inspecting; [apply fenced_converge|]. intros r. apply fenced_rest. intros. untouched.
  - intros inbound. apply fenced_rest. intros v base. pose proof (rest_process v base). untouched.
Qed.

(** The commits of other components leave the feed and the snapshots alone. *)
Definition same_inbound (s s' : Store) : Prop := inbound_state s' = inbound_state s.

(** C13: The feed invariant and the fence around a snapshot hold throughout the
    life of a client, with the outbound engine, the observer and the resolution of
    conflicts working on the same database: they never move the cursor, open a page
    or touch a snapshot, and no cycle leaves a page or a bootstrap in hand while a
    snapshot is being created, fetched or handed off. *)
Theorem client_fence w w' :
  fenced scope w -> client_history scope profile config page_limit same_inbound w w' ->
  fenced scope w'.
Proof.
  intros Hw. apply client_invariant; [..|done].
  - apply fenced_cycle.
  - intros intent. apply fenced_rest. intros. untouched.
  - intros source intent. apply fenced_rest. intros. untouched.
  - intros node. apply fenced_rest. intros. untouched.
  - intros path. apply fenced_rest. intros. untouched.
  - intros node. apply fenced_rest. intros. untouched.
  - intros c x r d. apply fenced_rest. intros. untouched.
  - done.
  - intros v s (f & Hf & Hv) [= Ha Hc]. exists f. cbn. by rewrite Ha, Hc.
Qed.

End Client.
