(* ===== verification/CycleFacts.v ===== *)
(** * The outbound engine runs on a settled replica

    The cycle calls the outbound engine only after a safe inbound outcome and only
    when the local database shows no recovery, no feed work and no unresolved
    issue.  The engine is a parameter: the theorem says that nothing it would do in
    another state matters. *)

From S2P Require Import Prelude Vocabulary Models Rebaseline SyncTypes ClientPaths ClientStore.
From S2P Require Import StoreFacts SyncWorld Candidates SnapshotFacts Inbound Cycle.

Section Cycle.

Context {F : Type} `{U : Unicode} `{E : Env} `{R : SyncRemote} `{Sn : SnapshotRemote}
  `{L : LocalReplica F} `{Mat : Materializer F}.
Context (scope : ReplicaScope) (profile : option Z) (config : EngineConfig.t) (page_limit : Z).

Notation lib := (library_id scope).

(** The replica is rooted and has nothing in hand and nothing to resolve. *)
Record ready (s : Store) : Prop := mk_ready {
  ready_candidate : rebaseline_candidates s !! lib = None;
  ready_handoff : rebaseline_applied_handoffs s !! lib = None;
  ready_bootstrap : bootstrap_sessions s !! lib = None;
  ready_page : pending_pages s !! lib = None;
  ready_ack : pending_acknowledgements s !! lib = None;
  ready_issues : Ops.unresolved_rows lib s = [];
  ready_observed : Runner.unresolved_observation_issues scope s = Ok [];
  ready_replica : exists r, replicas s !! lib = Some r /\ Replica.scope r = scope
    /\ is_Some (Replica.root_node_id r) }.

Lemma issue_ok (issues : list IssueRow) (w w' : World F) found :
  (if negb (is_empty issues) then ret true
   else
     let! observed := read (Runner.unresolved_observation_issues scope) in
     ret (negb (is_empty observed))) w = (w', Ok found) ->
  store w' = store w
  /\ (found = false -> issues = [] /\ Runner.unresolved_observation_issues scope (store w) = Ok []).
Proof.
  destruct issues as [|i issues]; cbn [is_empty negb]; [|by intros [= <- <-]].
  intros H. apply bind_ok in H as (w1 & observed & H1 & H). apply read_ok in H1 as [Ho ->].
  injection H as <- <-. split; [done|]. by destruct observed.
Qed.

Lemma skip_none state :
  Policy.skip_for_inspection state = None ->
  Policy.has_candidate state = false /\ Policy.has_pending_handoff state = false
  /\ Policy.has_bootstrap state = false /\ Policy.has_pending_page state = false
  /\ Policy.has_pending_ack state = false /\ Policy.has_local_issue state = false
  /\ Policy.root_present state = true.
Proof. destruct state as [[] [] [] [] [] [] []]; by unfold Policy.skip_for_inspection; cbn. Qed.

Lemma is_some_false {A} (o : option A) : is_some o = false -> o = None.
Proof. by destruct o. Qed.

(** The inspection reads one store. *)
Lemma inspect_ok w w' state :
  Runner.inspect_local_state (F:=F) scope w = (w', Ok state) ->
  store w' = store w
  /\ (Policy.skip_for_inspection state = None -> ready (store w)).
Proof.
  intros H. unfold Runner.inspect_local_state in H.
  apply bind_ok in H as (w1 & r & H1 & H). apply read_ok in H1 as [Hr ->].
  apply bind_ok in H as (? & [] & H1 & H). apply reject_ok in H1 as [Hscope ->].
  apply bind_ok in H as (w2 & c & H1 & H). apply read_ok in H1 as [Hc ->].
  apply bind_ok in H as (w3 & h & H1 & H). apply read_ok in H1 as [[= <-] ->].
  apply bind_ok in H as (w4 & b & H1 & H). apply read_ok in H1 as [[= <-] ->].
  apply bind_ok in H as (w5 & p & H1 & H). apply read_ok in H1 as [Hp ->].
  apply bind_ok in H as (w6 & k & H1 & H). apply read_ok in H1 as [Hk ->].
  apply bind_ok in H as (w7 & i & H1 & H). apply read_ok in H1 as [Hi ->].
  apply bind_ok in H as (w8 & issue & H1 & H). apply issue_ok in H1 as [Hs8 Hissue].
  apply bind_ok in H as (w9 & ? & H1 & H). apply read_ok in H1 as [_ ->]. injection H as <- <-.
  cbn [store next] in *. split; [done|]. intros Hskip.
  apply skip_none in Hskip as (Nc & Nh & Nb & Np & Nk & Ni & Nr). cbn in *.
  apply is_some_false in Nc as ->, Nh, Nb, Np as ->, Nk as ->. subst issue.
  destruct (Hissue eq_refl) as [-> Hobs]. apply decode_optional_ok in Hc.
  split; try done.
  - unfold Feed.pending_page in Hp. destruct (pending_pages (store w) !! lib); [|done]. by rust_case.
  - unfold Apply.pending_ack in Hk. destruct (pending_acknowledgements (store w) !! lib); [|done].
    by rust_case.
  - unfold Ops.unresolved_issues in Hi. by case_match; simplify_eq/=.
  - unfold Feed.replica in Hr. destruct (replicas (store w) !! lib) as [r'|]; [|done].
    injection Hr as ->. exists r. split; [done|]. split; [by apply neq_false|].
    by destruct (Replica.root_node_id r).
Qed.

Lemma skip_for_inbound_safe inbound :
  Policy.skip_for_inbound inbound = None <-> InboundCycleOutcome.is_safe_for_outbound inbound = true.
Proof. by destruct inbound as [[|[]| |]| | | |]. Qed.

Lemma outbound_agree p q inbound w :
  (forall w : World F, ready (store w) -> p w = q w) ->
  Runner.outbound_step scope p inbound w = Runner.outbound_step scope q inbound w.
Proof.
  intros Hpq. unfold Runner.outbound_step. destruct (Policy.skip_for_inbound inbound); [done|].
  unfold bind at 1 3, Runner.skip_for_local_state.
  destruct (bind (Runner.inspect_local_state scope) _ w) as [w1 [skip|e]] eqn:H; [|done].
  destruct skip; [done|].
  apply bind_ok in H as (w2 & state & H & Hret). injection Hret as <- Hskip.
  apply inspect_ok in H as [Hs Hready]. unfold bind. rewrite Hpq; [done|]. rewrite Hs. auto.
Qed.

(** A cycle submits local changes only from a settled replica.  Whatever the
    outbound engine would do while a snapshot, a handoff, a bootstrap, a page or
    an acknowledgement is pending, while an issue is unresolved, or before the
    replica has a root, is irrelevant: two engines that agree on settled replicas
    give the same cycle.  And a cycle that did run the engine had a safe inbound
    outcome. *)
Theorem outbound_only_when_ready p q observed_at w :
  (forall w : World F, ready (store w) -> p w = q w) ->
  Runner.run_once scope profile config page_limit p observed_at w
  = Runner.run_once scope profile config page_limit q observed_at w
  /\ forall w' res out,
       Runner.run_once scope profile config page_limit p observed_at w = (w', Ok res) ->
       SyncCycleResult.outbound res = OutboundCycleOutcome.Attempted out ->
       InboundCycleOutcome.is_safe_for_outbound (SyncCycleResult.inbound res) = true.
Proof.
  intros Hpq. unfold Runner.run_once. split.
  - unfold bind at 1 4. destruct (Runner.inspect_local_state scope w) as [w1 [state|e]]; [|done].
    unfold bind at 1 3. destruct (inspecting _ _ w1) as [w2 [inbound|e]]; [|done].
    unfold bind at 1 2. by rewrite (outbound_agree p q).
  - intros w' res out H Hout. apply bind_ok in H as (w1 & state & _ & H).
    apply bind_ok in H as (w2 & inbound & _ & H). apply bind_ok in H as (w3 & outbound & Ho & H).
    injection H as <- <-. cbn in *. subst outbound. apply skip_for_inbound_safe.
    unfold Runner.outbound_step in Ho. by destruct (Policy.skip_for_inbound inbound).
Qed.

End Cycle.
