(* ===== verification/SyncExample.v ===== *)
(** * A concrete replica

    Small instances of everything the synchroniser takes as an argument, and one
    replica: a root directory and one file.  They show that the hypotheses of
    the theorems can hold, and carry the counterexamples. *)

From S2P Require Import Prelude Vocabulary Models Rebaseline SyncTypes ClientPaths ClientStore.
From S2P Require Import FeedProtocol StoreFacts SyncWorld Inbound Disk DiskFacts Materialize.
From S2P Require Import MaterializeFacts EditFacts SyncFacts.

Export UnicodeExample.

(** One-digit identifiers, the identity as digest. *)
#[export] Instance digit_identifiers : Identifiers := {|
  uuid_text z := [48 + z];
  uuid_parse s := match s with [b] => Some (b - 48) | _ => None end;
  uuid_version _ := 7
|}.

#[export] Instance plain_sha : Sha := fun content => content.

#[export] Instance calm_env : Env := {|
  clock _ := Ok 1000;
  db_fault _ := Fine;
  fresh_uuid t := Z.of_nat t mod 10;
  injected _ _ := false
|}.

(** User 1, device 2, library 3; the root is node 4, its file [a] is node 5. *)
Definition example_scope : ReplicaScope := mk_scope 1 2 3.

Definition example_replica : Replica.t :=
  Replica.mk example_scope None 6 (Some 4) 1 6 6 EngineStatus.Idle true.

Definition example_root : LocalNode.t :=
  LocalNode.mk 3 4 None [] (lit "root") NodeKind.Directory NodeState.Active 1 None None None
    None None 0 true None.

Definition example_file : LocalNode.t :=
  LocalNode.mk 3 5 (Some 4) (lit "a") (lit "a") NodeKind.File NodeState.Active 2 (Some 8) (Some 1)
    (Some [120]) (Some 1) (Some [120]) 0 true None.

Definition base_store : Store :=
  set_local_nodes (set_replicas empty_store {[3 := example_replica]})
    {[(3, 4) := mk_NodeRow example_root []; (3, 5) := mk_NodeRow example_file (lit "a")]}.

(** The marker of the managed root. *)
Definition example_marker : rstring :=
  MARKER_VERSION ++ [10; 54; 10; 49; 10; 50; 10; 51; 10].

(** The folder; its file holds [content]. *)
Definition example_disk (content : rstring) : Disk :=
  mk_Disk (Some Directory) true
    {[Managed.control := Directory; Managed.marker := File example_marker;
      [CONTROL_DIRECTORY; STAGING_DIRECTORY] := Directory;
      [CONTROL_DIRECTORY; QUARANTINE_DIRECTORY] := Directory;
      [lit "a"] := File content]}.

#[export] Instance example_folder : LocalReplica Disk :=
  filesystem_replica example_scope 6 None false.

Definition example_world (s : Store) (content : rstring) : World Disk :=
  mk_World s (example_disk content) 0 [].

(** The server's new version of the file, and the page that announces it. *)
Definition example_desired : SnapshotNode.t :=
  SnapshotNode.mk 5 (Some 4) (lit "a") NodeKind.File NodeState.Active 3 (Some 9) (Some 1)
    (Some (lit "y")).

Definition example_event : ChangeEvent.t :=
  ChangeEvent.mk 1 1 3 1 7 1 ChangeResourceKind.Node 5 ChangeKind.FileContentCommitted 900 3
    (Some 4) (Some NodeKind.File) (Some NodeState.Active) (Some 9).

Definition example_page : FeedPage.t :=
  FeedPage.mk example_scope 1 6 7 7 false
    [InboundChange.mk example_event (Some example_desired)] (Some (lit "evidence")).

Definition refuse {A} (kind : RemoteErrorKind.t) : result A RemoteError :=
  Err (mk_RemoteError kind None).

(** A server with that page; [acknowledgement] and [download] are its answers to
    the other two requests. *)
Definition serving (acknowledgement : result Checkpoint.t RemoteError)
  (download : result RemoteContent.t RemoteError) : SyncRemote := {|
  remote_profile_id := None;
  device_credential_id := None;
  get_checkpoint _ scope := Ok (Checkpoint.mk scope 1 6);
  fetch_changes _ scope _ := Ok example_page;
  acknowledge_changes _ _ _ := acknowledgement;
  remote_rebaseline_handoff _ _ _ := refuse RemoteErrorKind.NotFound;
  start_rebaseline _ _ := refuse RemoteErrorKind.NotFound;
  fetch_rebaseline_page _ _ _ _ _ := refuse RemoteErrorKind.NotFound;
  complete_rebaseline _ _ _ _ := refuse RemoteErrorKind.NotFound;
  download_current_content _ _ _ _ := download
|}.

Definition good_download : result RemoteContent.t RemoteError :=
  Ok (RemoteContent.mk 5 9 1 (lit "y") [Ok (lit "y")]).

Definition healthy : SyncRemote :=
  serving (Ok (Checkpoint.mk example_scope 1 7)) good_download.
Definition rotated : SyncRemote := serving (refuse RemoteErrorKind.RebaselineRequired) good_download.
Definition unreachable : SyncRemote :=
  serving (refuse RemoteErrorKind.NotFound) (refuse RemoteErrorKind.NotFound).

(** ** A page from fetch to acknowledgement *)

Definition example_sync (remote : SyncRemote) : M Disk SyncOutcome.t :=
  sync (R := remote) example_scope None EngineConfig.default false.

Definition start : World Disk := example_world base_store (lit "x").

Definition after : World Disk := (example_sync healthy start).1.

(** The cursor at rest at sequence [n]. *)
Definition resting (n : Z) : feed := mk_feed 1 n n None None None None true.

Lemma resting_wf n : n <= i64_max -> wf 3 (resting n).
Proof. intros Hn. split; cbn; done. Qed.

Lemma start_history (remote : SyncRemote) :
  history (R := remote) example_scope None EngineConfig.default start (example_sync remote start).1.
Proof. apply then_sync, here. Qed.

Lemma start_view : abs 3 (store start) = Some (resting 6).
Proof. reflexivity. Qed.

Lemma feed_refines_protocol_witness :
  rtc (ostep (fun _ => True) 3) (Some (resting 6)) (Some (resting 7)).
Proof.
  replace (Some (resting 7)) with (abs 3 (store after)) by (vm_compute; reflexivity).
  rewrite <- start_view.
  apply (feed_refines_protocol (R := healthy) example_scope None EngineConfig.default).
  apply start_history.
Defined.

Lemma feed_invariant_witness :
  exists g, abs 3 (store after) = Some g /\ wf 3 g
    /\ (handoff (resting 6) = None ->
        handoff g = None /\ acked (resting 6) <= acked g /\ applied (resting 6) <= applied g).
Proof.
  apply (feed_invariant (R := healthy) example_scope None EngineConfig.default start).
  - exact start_view.
  - by apply resting_wf.
  - apply start_history.
Defined.

(** The database when the acknowledgement was sent. *)
Definition at_acknowledgement : Store :=
  default empty_store (fst <$> last (sent after)).

Lemma acknowledged_only_applied_witness :
  exists r p, replicas at_acknowledgement !! 3 = Some r
    /\ pending_pages at_acknowledgement !! 3 = Some p
    /\ PageRow.ack_evidence p = Some (lit "evidence")
    /\ Replica.acknowledged_sequence r = PageRow.from_sequence p
    /\ Replica.applied_sequence r = PageRow.through_sequence p
    /\ map EventRow.sequence (default [] (pending_events at_acknowledgement !! 3))
       = seqZ (PageRow.from_sequence p + 1) (PageRow.through_sequence p - PageRow.from_sequence p).
Proof.
  apply (acknowledged_only_applied (R := healthy) example_scope None EngineConfig.default start
           after (resting 6)).
  - done.
  - exact start_view.
  - by apply resting_wf.
  - apply start_history.
  - apply (list_elem_of_lookup_2 _ 3). vm_compute. reflexivity.
Defined.

Lemma synchronize_one_page_witness :
  exists p g, abs 3 (store after) = Some g /\ p = page_of example_page /\ page_ok p
    /\ (page_more p = bool_decide (SyncOutcome.Progressed = SyncOutcome.MoreAvailable)
        \/ SyncOutcome.Progressed = SyncOutcome.Progressed /\ is_Some (acking (resting 6)))
    /\ acked (resting 6) = page_from p /\ acked g = page_through p /\ paging g = None.
Proof.
  apply (synchronize_one_page (R := healthy) example_scope None EngineConfig.default
           (fun p => p = page_of example_page) false start (resting 6) SyncOutcome.Progressed).
  - by intros t limit page [= <-].
  - exact start_view.
  - by apply resting_wf.
  - done.
  - done.
  - vm_compute. reflexivity.
  - done.
Defined.


(** The page applied, its acknowledgement refused. *)
Definition unacknowledged : World Disk := (example_sync rotated start).1.

Definition stuck_feed : feed := default (resting 6) (abs 3 (store unacknowledged)).

Lemma pending_ack_wedges_witness :
  abs 3 (store (calls (R := rotated) example_scope None EngineConfig.default true 4 unacknowledged))
  = Some stuck_feed
  /\ forall out,
       (sync (R := rotated) example_scope None EngineConfig.default true
          (calls (R := rotated) example_scope None EngineConfig.default true 4 unacknowledged)).2
       = Ok out -> out = SyncOutcome.Blocked \/ out = SyncOutcome.Offline.
Proof.
  apply (pending_ack_wedges (R := rotated) example_scope None EngineConfig.default)
    with (k := PendingAck.mk 3 1 6 7 7 (lit "evidence")).
  - intros t evidence. by eexists.
  - vm_compute. reflexivity.
  - vm_compute. reflexivity.
  - vm_compute. reflexivity.
  - vm_compute. reflexivity.
Defined.

(** ** The stored page *)

Definition persisted : Store :=
  match Feed.persist_page example_page (Ok 1000) base_store with
  | Ok (s, _) => s
  | Err _ => base_store
  end.

Lemma persist_page_roundtrip_witness :
  page_valid example_page
  /\ Feed.pending_page 3 persisted = Ok (Some (stored_page example_page)).
Proof.
  apply (persist_page_roundtrip 3 example_page (Ok 1000) base_store persisted tt).
  - done.
  - done.
  - split; [|by intros e [= <-]]. apply Forall_singleton. intros n [= <-]. by vm_compute.
  - vm_compute. reflexivity.
Defined.

(** ** The folder *)

#[export] Instance Disk_eq_dec : EqDecision Disk.
Proof. solve_decision. Defined.

(** Equations between folders, decided by evaluation. *)
Ltac evaluate := apply (bool_decide_eq_true_1 _); vm_compute; reflexivity.

Lemma example_root_ok content : root_ok example_scope 6 None (example_disk content).
Proof. split; try done. exists example_marker. split; [done|by vm_compute]. Qed.

Lemma example_tree_ok content : tree_ok (example_disk content).
Proof.
  split; [done|]. intros k e. cbn [example_disk entries].
  rewrite !lookup_insert_Some, lookup_singleton_Some. intros Hk.
  repeat (destruct Hk as [[<- <-]|[_ Hk]]; [by split|]). by destruct Hk as [<- <-].
Qed.

Lemma example_place name : Path.new name = Ok name -> name <> [] -> place name.
Proof. intros Hn Hne. split; [|done]. by apply Path.new_managed in Hn as [_ Hm]. Qed.

Definition renamed : Disk :=
  (Managed.rename_path example_scope 6 None false (lit "a") (lit "b") (example_disk (lit "x"))).1.

Lemma rename_path_roundtrip_witness :
  entries renamed !! [lit "b"] = Some (File (lit "x"))
  /\ Managed.rename_path example_scope 6 None false (lit "b") (lit "a") renamed
     = (example_disk (lit "x"), Ok tt).
Proof.
  destruct (rename_path_roundtrip example_scope 6 None false (example_disk (lit "x")) renamed
              (lit "a") (lit "b")) as (_ & _ & Hlook & Hback).
  - apply example_root_ok.
  - apply example_tree_ok.
  - by apply example_place.
  - by apply example_place.
  - done.
  - evaluate.
  - split; [by rewrite Hlook|exact Hback].
Defined.

(** A download that delivers the wrong bytes. *)
Definition wrong_content : list (result rstring RemoteError) := [Ok (lit "z")].

Definition staged : Disk * result rstring ClientSyncError :=
  Managed.stage_content example_scope 6 None false 8 1 (lit "y") wrong_content
    (example_disk (lit "x")).

Definition staging_path : rstring :=
  match Managed.staging_location 8 with Ok path => path | Err _ => [] end.

Lemma stage_content_integrity_witness :
  touches_only (Managed.components staging_path) (example_disk (lit "x")) staged.1
  /\ staged_result example_scope 6 None false staging_path 1 (lit "y") staged.1 staged.2.
Proof.
  apply (stage_content_integrity example_scope 6 None false 8 staging_path 1 (lit "y")
           wrong_content).
  - apply example_root_ok.
  - apply example_tree_ok.
  - evaluate.
  - evaluate.
Defined.

(** ** Edits the database has not seen *)

(** Applying the server's version of the file. *)
Definition apply_version (s : Store) (content : rstring) :
  World Disk * result AppliedNode ClientSyncError :=
  Folder.apply_desired_node (R := healthy) example_scope example_desired (Feed 7)
    (Some ChangeKind.FileContentCommitted) (example_world s content).


(** An upload of the file, finished and reconciled. *)
Definition uploaded_store : Store :=
  mk_Store (replicas base_store) ∅ ∅ ∅ ∅ (local_nodes base_store) ∅ ∅ ∅ ∅ ∅ [] [] ∅
    {[1 := mk_IntentRow 3 (Some 5) (Some 4) OutboundIntentKind.ModifyFileContent IntentReconciled
             (lit "a") None (Some (LocalFingerprint.file 1 [120])) 1 5 (Some 1) None None 900]}
    {[1 := mk_ResultRow OutcomeServerApplied (Some 5) (Some 2) (Some 8) (Some 1) (Some [120])
             (Some 6) None None None None None false]} ∅ ∅ ∅ ∅ (observation base_store).

(** After one finished upload of a file an edit the database has not seen is
    lost: the engine takes the old result row for an upload in flight, skips the
    comparison with the recorded content, and replaces the edited file by the
    server's version, so that no file of the folder holds the edit; without that
    row the same change is refused with [LocalDivergence]. *)
Theorem finished_upload_hides_edit :
  is_ok (apply_version uploaded_store (lit "edited")).2 = true
  /\ entries (files (apply_version uploaded_store (lit "edited")).1) !! [lit "a"]
     = Some (File (lit "y"))
  /\ map_Forall (fun _ e => e <> File (lit "edited"))
       (entries (files (apply_version uploaded_store (lit "edited")).1))
  /\ (apply_version base_store (lit "edited")).2 = Err (LocalIssue LocalIssueKind.LocalDivergence).
Proof.
  split_and!; try (vm_compute; reflexivity).
  apply map_Forall_to_list, Forall_forall. intros [k e] Hin ->.
  assert (forallb (fun e : list rstring * Entry => negb (e.2 == File (lit "edited")))
            (map_to_list (entries (files (apply_version uploaded_store (lit "edited")).1))) = true)
    as Hall by (vm_compute; reflexivity).
  rewrite forallb_forall in Hall. apply list_elem_of_In, Hall in Hin. by rust_bool.
Qed.

(** ** A download interrupted while a snapshot is applied *)

(** The file was trashed and is in quarantine. *)
Definition quarantined : rstring :=
  match Managed.quarantine_location 5 1 with Ok path => path | Err _ => [] end.

Definition trashed_store : Store :=
  set_local_nodes base_store
    {[(3, 4) := mk_NodeRow example_root [];
      (3, 5) := mk_NodeRow (LocalNode.mk 3 5 (Some 4) (lit "a") (lit "a") NodeKind.File
                              NodeState.Trashed 2 (Some 8) (Some 1) (Some [120]) (Some 1)
                              (Some [120]) 0 false (Some quarantined)) (lit "a")]}.

(** The file was never seen. *)
Definition unseen_store : Store :=
  set_local_nodes base_store {[(3, 4) := mk_NodeRow example_root []]}.

Definition trashed_disk : Disk :=
  set_entries (example_disk [])
    (<[Managed.components quarantined := File (lit "x")]>
       (delete [lit "a"] (entries (example_disk [])))).

(** A snapshot announces the file, restored and with new content; its download
    fails, and the next call recovers. *)
Definition interrupted (s : Store) : World Disk :=
  (Folder.apply_desired_node (R := unreachable) example_scope example_desired (Bootstrap 1) None
     (mk_World s trashed_disk 0 [])).1.
Definition recovery (s : Store) : result unit ClientSyncError :=
  (Folder.recover_startup_inner example_scope (interrupted s)).2.

(** A download that fails before it has touched the folder is not always
    recoverable: when the snapshot brings back a trashed file with new content,
    the operation is recorded without a source but with the fingerprint of the
    trashed file, which recovery then misses; it declares the untouched
    operation ambiguous and blocks the replica, whereas the same interruption
    for a file never seen before recovers. *)
Theorem interrupted_restore_ambiguous :
  files (interrupted trashed_store) = trashed_disk
  /\ recovery trashed_store = Err (LocalIssue LocalIssueKind.LocalRecoveryAmbiguous)
  /\ files (interrupted unseen_store) = trashed_disk /\ recovery unseen_store = Ok tt.
Proof. split_and!; evaluate. Qed.
