(* ===== verification/RecoveryExample.v ===== *)
(** * A concrete recovery

    The replica of [SyncExample] whose journal was pruned: one call of the
    coordinator creates, fetches, activates and hands off a snapshot.  The
    witnesses of the recovery theorems, and two behaviours of the client that its
    design does not intend. *)

From S2P Require Import Prelude Vocabulary Models Rebaseline SyncTypes ClientPaths ClientStore.
From S2P Require Import FeedProtocol StoreFacts SyncWorld Candidates SnapshotFacts Inbound Cycle.
From S2P Require Import Disk DiskFacts Materialize MaterializeFacts EditFacts SyncFacts.
From S2P Require Import ConvergenceFacts CycleFacts SyncExample.

(** ** The server *)

Definition snapshot_root : SnapshotNode.t :=
  SnapshotNode.mk 4 None (lit "root") NodeKind.Directory NodeState.Active 1 None None None.

(** The snapshot has the new version of the file. *)
Definition example_descriptor : Descriptor.t := Descriptor.mk 9 3 (Boundary.mk 2 20) 2.

Definition first_page : SnapshotPage.t :=
  SnapshotPage.mk example_descriptor [snapshot_root] (Some (lit "next")).
Definition last_page : SnapshotPage.t := SnapshotPage.mk example_descriptor [example_desired] None.

#[export] Instance two_pages : SnapshotRemote := {|
  create_snapshot _ _ := Ok example_descriptor;
  read_page _ _ _ cursor _ := Ok (match cursor with None => first_page | Some _ => last_page end)
|}.

(** A server whose journal no longer reaches back to the replica's cursor; after
    the handoff it serves an empty page. *)
Definition pruned : SyncRemote := {|
  remote_profile_id := None;
  device_credential_id := None;
  get_checkpoint _ scope := refuse RemoteErrorKind.RebaselineRequired;
  fetch_changes _ _ _ := refuse RemoteErrorKind.RebaselineRequired;
  acknowledge_changes _ _ _ := refuse RemoteErrorKind.NotFound;
  remote_rebaseline_handoff _ scope id :=
    Ok (HandoffConfirmation.mk id 3 (Checkpoint.mk scope 2 20));
  start_rebaseline _ _ := refuse RemoteErrorKind.NotFound;
  fetch_rebaseline_page _ _ _ _ _ := refuse RemoteErrorKind.NotFound;
  complete_rebaseline _ _ _ _ := refuse RemoteErrorKind.NotFound;
  download_current_content _ _ _ _ := good_download
|}.

Definition example_converge : M Disk ConvergenceOutcome.t :=
  converge (R := pruned) example_scope None EngineConfig.default 100.

Definition recovered : World Disk := (example_converge start).1.

(** A run by its outcome. *)
Lemma pair_ok {A B} (p : A * B) b : p.2 = b -> p = (p.1, b).
Proof. intros <-. by destruct p. Qed.

Lemma start_fenced : fenced example_scope start.
Proof. exists (resting 6). split; [exact start_view|]. by split; [apply resting_wf|]. Qed.

Lemma recovery_fence_witness : fenced example_scope recovered.
Proof.
  apply (recovery_fence (R := pruned) example_scope None EngineConfig.default 100 start).
  - exact start_fenced.
  - apply then_converge, recovery_here.
Defined.

Lemma converged_at_boundary_witness :
  exists g, abs 3 (store recovered) = Some g /\ epoch g = 2 /\ applied g = 20 /\ acked g = 20
    /\ handoff g = None.
Proof.
  apply (converged_at_boundary (R := pruned) example_scope None EngineConfig.default 100 start
           recovered 9 (Boundary.mk 2 20)).
  - exact start_fenced.
  - unfold recovered, example_converge. apply pair_ok. vm_compute. reflexivity.
Defined.

(** ** Fetching and activating *)

(** The snapshot is created and nothing fetched. *)
Definition created : World Disk :=
  mk_World (set_candidates base_store {[3 := Candidates.fetching example_descriptor]})
    (example_disk (lit "x")) 0 [].

Lemma page_loop_terminates_witness :
  (Applier.fetch_pages (F:=Disk) example_scope 100 7 example_descriptor created).2 <> Ok false
  /\ Applier.fetch_pages (F:=Disk) example_scope 100 7 example_descriptor created
     = Applier.fetch_pages example_scope 100 (Applier.page_fuel example_descriptor)
         example_descriptor created.
Proof.
  apply (page_loop_terminates example_scope 100 example_descriptor created 7).
  - done.
  - by intros c [= <-].
  - by vm_compute; lia.
Defined.

(** Both pages are fetched. *)
Definition fetched : World Disk :=
  (Applier.fetch_pages example_scope 100 (Applier.page_fuel example_descriptor) example_descriptor
     created).1.

Definition activated_world : World Disk :=
  (Candidates.activate_rebaseline_candidate example_scope example_descriptor fetched).1.


(** ** A cycle *)

Definition idle_engine : M Disk SubmissionOutcome.t := ret SubmissionOutcome.NoReadyIntent.

(** An engine that fails while a snapshot is being fetched. *)
Definition careless_engine : M Disk SubmissionOutcome.t := fun w =>
  match rebaseline_candidates (store w) !! 3 with
  | Some _ => raise Database w
  | None => idle_engine w
  end.

Definition cycle (engine : M Disk SubmissionOutcome.t) : M Disk SyncCycleResult.t :=
  Runner.run_once (R := healthy) (Mat := materializer (R := healthy) example_scope) example_scope None
    EngineConfig.default 100 engine 1000.

Lemma outbound_only_when_ready_witness :
  cycle careless_engine created = cycle idle_engine created
  /\ forall w' res out, cycle careless_engine created = (w', Ok res) ->
       SyncCycleResult.outbound res = OutboundCycleOutcome.Attempted out ->
       InboundCycleOutcome.is_safe_for_outbound (SyncCycleResult.inbound res) = true.
Proof.
  apply (outbound_only_when_ready (R := healthy) (Mat := materializer (R := healthy) example_scope)
           example_scope None EngineConfig.default 100 careless_engine idle_engine 1000 created).
  intros w Hw. unfold careless_engine.
  by rewrite (ready_candidate _ _ Hw : rebaseline_candidates (store w) !! 3 = None).
Defined.

(** ** A snapshot does not bring the content *)

(** The server after the handoff: nothing has happened since the boundary. *)
Definition caught_up : SyncRemote := {|
  remote_profile_id := None;
  device_credential_id := None;
  get_checkpoint _ scope := Ok (Checkpoint.mk scope 2 20);
  fetch_changes _ scope _ := Ok (FeedPage.mk scope 2 20 20 20 false [] None);
  acknowledge_changes _ _ _ := refuse RemoteErrorKind.NotFound;
  remote_rebaseline_handoff _ _ _ := refuse RemoteErrorKind.NotFound;
  start_rebaseline _ _ := refuse RemoteErrorKind.NotFound;
  fetch_rebaseline_page _ _ _ _ _ := refuse RemoteErrorKind.NotFound;
  complete_rebaseline _ _ _ _ := refuse RemoteErrorKind.NotFound;
  download_current_content _ _ _ _ := good_download
|}.

Definition settled_run : World Disk * result ConvergenceOutcome.t ClientSyncError :=
  converge (R := caught_up) example_scope None EngineConfig.default 100 recovered.

Definition sent_download (p : Store * request) : bool :=
  match p.2 with SentDownload _ _ => true | _ => false end.

(** Recovery by a snapshot leaves stale content behind.  The server's file
    has the new version 9 with content y; the coordinator reports convergence and
    the next call that there is nothing to do; the row of the file names
    version 9 with that content and says that the file is present; but nothing
    was downloaded, and the folder still holds the old content x. *)
Theorem snapshot_leaves_stale_content :
  (example_converge start).2
  = Ok (ConvergenceOutcome.RebaselineConverged 9 (Boundary.mk 2 20))
  /\ settled_run.2 = Ok ConvergenceOutcome.IncrementalReady
  /\ ((fun row => (LocalNode.current_version_id (row_node row),
                   LocalNode.content_sha256 (row_node row), LocalNode.present (row_node row)))
        <$> local_nodes (store settled_run.1) !! (3, 5))
     = Some (Some 9, Some (lit "y"), true)
  /\ entries (files settled_run.1) !! [lit "a"] = Some (File (lit "x"))
  /\ existsb sent_download (sent settled_run.1) = false.
Proof. split_and!; vm_compute; reflexivity. Qed.

(** ** A name in the trash is taken *)

(** The file is trashed; then a directory of the same name is created. *)
Definition trash_event : ChangeEvent.t :=
  ChangeEvent.mk 1 1 3 1 7 1 ChangeResourceKind.Node 5 ChangeKind.NodeTrashed 900 3 (Some 4)
    (Some NodeKind.File) (Some NodeState.Trashed) (Some 8).
Definition trashed_file : SnapshotNode.t :=
  SnapshotNode.mk 5 (Some 4) (lit "a") NodeKind.File NodeState.Trashed 3 (Some 8) (Some 1)
    (Some [120]).

Definition create_event (id : Z) : ChangeEvent.t :=
  ChangeEvent.mk 2 1 3 1 8 1 ChangeResourceKind.Node id ChangeKind.NodeCreated 901 1 (Some 4)
    (Some NodeKind.Directory) (Some NodeState.Active) None.
Definition new_directory (id : Z) (name : rstring) : SnapshotNode.t :=
  SnapshotNode.mk id (Some 4) name NodeKind.Directory NodeState.Active 1 None None None.

Definition recreate_page (name : rstring) : FeedPage.t :=
  FeedPage.mk example_scope 1 6 8 8 false
    [InboundChange.mk trash_event (Some trashed_file);
     InboundChange.mk (create_event 7) (Some (new_directory 7 name))] (Some (lit "evidence")).

Definition recreating (name : rstring) : SyncRemote := {|
  remote_profile_id := None;
  device_credential_id := None;
  get_checkpoint _ scope := Ok (Checkpoint.mk scope 1 6);
  fetch_changes _ scope _ := Ok (recreate_page name);
  acknowledge_changes _ scope _ := Ok (Checkpoint.mk scope 1 8);
  remote_rebaseline_handoff _ _ _ := refuse RemoteErrorKind.NotFound;
  start_rebaseline _ _ := refuse RemoteErrorKind.NotFound;
  fetch_rebaseline_page _ _ _ _ _ := refuse RemoteErrorKind.NotFound;
  complete_rebaseline _ _ _ _ := refuse RemoteErrorKind.NotFound;
  download_current_content _ _ _ _ := refuse RemoteErrorKind.NotFound
|}.

Definition recreate (name : rstring) : World Disk * result SyncOutcome.t ClientSyncError :=
  sync (R := recreating name) example_scope None EngineConfig.default true start.

(** A name in the trash is taken.  When the server trashes the file a and
    then creates a directory a, the replica applies the first change, moves the
    file out of the way, and then blocks on a name collision with the trashed
    node, although nothing is at that path; the acknowledged sequence stays where
    it was, and a snapshot that holds both nodes is refused as invalid.  With any
    other name, here b, both changes are applied. *)
Theorem trashed_name_blocks :
  (recreate (lit "a")).2 = Ok SyncOutcome.Blocked
  /\ map issue_kind (local_apply_issues (store (recreate (lit "a")).1))
     = [LocalIssueKind.LocalNameCollision]
  /\ entries (files (recreate (lit "a")).1) !! [lit "a"] = None
  /\ (acked <$> abs 3 (store (recreate (lit "a")).1)) = Some 6
  /\ Candidates.rebaseline_local_nodes 3 [snapshot_root; trashed_file; new_directory 7 (lit "a")] ∅
     = Err InvalidRemoteResponse
  /\ (recreate (lit "b")).2 = Ok SyncOutcome.Progressed
  /\ entries (files (recreate (lit "b")).1) !! [lit "b"] = Some Directory
  /\ (acked <$> abs 3 (store (recreate (lit "b")).1)) = Some 8.
Proof. split_and!; vm_compute; reflexivity. Qed.
