(* ===== verification/OutboundExample.v ===== *)
(** * Concrete submissions

    A replica with local changes to submit, and servers that accept, refuse or
    lose them: the witnesses of the outbound theorems, and behaviours of the
    client that its design does not intend. *)

From S2P Require Import Prelude Vocabulary Values Models Requests Rebaseline SyncTypes ClientPaths.
From S2P Require Import ClientStore FeedProtocol StoreFacts SyncWorld Candidates SnapshotFacts.
From S2P Require Import Inbound Cycle InboundFacts Disk OutboundTypes OutboundStore Submission.
From S2P Require Import Conflicts DiskFacts Materialize MaterializeFacts EditFacts SyncFacts.
From S2P Require Import ConvergenceFacts CycleFrame SubmissionFacts UploadFacts IntentFacts.
From S2P Require Import OutcomeFacts ConflictFacts ClientFacts SyncExample RecoveryExample.

(** ** Third-party code *)

(** A UUIDv7 with the number [n] in its last bits. *)
Definition v7 (n : Z) : Z := Z.shiftl 7 76 + Z.shiftl 2 62 + n.

(** Texts by their length, objects by their fields. *)
Definition put_text (s : rstring) : rstring := len s :: s.

Definition take_text (s : rstring) : option (rstring * rstring) :=
  match s with
  | [] => None
  | n :: rest => Some (take_z n rest, drop_z n rest)
  end.

Fixpoint put_fields (fields : list (rstring * rstring)) : rstring :=
  match fields with
  | [] => [0]
  | (name, value) :: rest => 1 :: put_text name ++ put_text value ++ put_fields rest
  end.

Fixpoint take_fields (fuel : nat) (s : rstring) : option (list (rstring * rstring)) :=
  match fuel, s with
  | S fuel', 1 :: s =>
      let* '(name, s) := take_text s in
      let* '(value, s) := take_text s in
      let* rest := take_fields fuel' s in
      Some ((name, value) :: rest)
  | _, [0] => Some []
  | _, _ => None
  end.

#[export] Instance plain_serde : Serde := {|
  Value := list (rstring * rstring);
  json_object fields := fields;
  from_value names v := if bool_decide (map fst v = names) then Some (map snd v) else None;
  to_string m := Some (put_text (json_mutation_id m) ++ put_text (json_base_epoch m)
                       ++ put_text (json_base_sequence m) ++ put_text (json_kind m)
                       ++ put_fields (json_payload m));
  from_str s :=
    let* '(id, s) := take_text s in
    let* '(epoch, s) := take_text s in
    let* '(sequence, s) := take_text s in
    let* '(kind, s) := take_text s in
    let* fields := take_fields (length s) s in
    Some (mk_MutationJson id epoch sequence kind fields)
|}.

Lemma take_put_text s rest : take_text (len s :: s ++ rest) = Some (s, rest).
Proof.
  unfold take_text, len. rewrite take_z_take, drop_z_drop, Nat2Z.id.
  by rewrite take_app_length, drop_app_length.
Qed.

Lemma take_put_fields fields fuel :
  (length fields <= fuel)%nat -> take_fields fuel (put_fields fields) = Some fields.
Proof.
  revert fuel. induction fields as [|[name value] fields IH]; intros fuel Hf; [by destruct fuel|].
  destruct fuel as [|fuel]; [cbn in Hf; lia|]. unfold put_text. cbn [put_fields take_fields put_text app].
  rewrite !take_put_text, IH; [done|]. cbn in Hf. lia.
Qed.

#[export] Instance plain_serde_laws : SerdeLaws plain_serde.
Proof.
  split.
  - intros fields _. cbn. by rewrite bool_decide_true.
  - intros [id epoch sequence kind fields] text [= <-]. cbn [from_str plain_serde].
    cbn [json_mutation_id json_base_epoch json_base_sequence json_kind json_payload].
    rewrite !take_put_text, take_put_fields; [done|].
    induction fields as [|[name value] fields IH]; [cbn; lia|].
    cbn [put_fields length]. rewrite !length_app. lia.
Qed.

#[export] Instance digit_identifier_laws : IdentifierLaws digit_identifiers.
Proof. intros u _. cbn. f_equal. lia. Qed.

(** Short texts for the identifiers [v7 n], one digit for the others. *)
#[export] Instance short_identifiers : Identifiers := {|
  uuid_text z := if z <? v7 0 then [48 + z] else 97 :: Decimal.fmt (z - v7 0);
  uuid_parse s :=
    match s with
    | [b] => Some (b - 48)
    | 97 :: n => v7 <$> expect (Decimal.parse_decimal n)
    | _ => None
    end;
  uuid_version _ := 7
|}.

(** ** The replica *)

(** Library 3 with the root [v7 4], the file [a] (node [v7 5]) and the directory [d]
    (node [v7 6]). *)
Definition own_root : LocalNode.t :=
  LocalNode.mk 3 (v7 4) None [] (lit "root") NodeKind.Directory NodeState.Active 1 None None None
    None None 0 true None.

Definition own_file : LocalNode.t :=
  LocalNode.mk 3 (v7 5) (Some (v7 4)) (lit "a") (lit "a") NodeKind.File NodeState.Active 2 (Some 8)
    (Some 1) (Some [120]) (Some 1) (Some [120]) 0 true None.

Definition own_replica : Replica.t :=
  Replica.mk example_scope None 6 (Some (v7 4)) 1 6 6 EngineStatus.Idle true.

Definition own_store (intents : gmap Z IntentRow) : Store :=
  set_outbound_intents
    (set_local_nodes (set_replicas empty_store {[3 := own_replica]})
       {[(3, v7 4) := mk_NodeRow own_root []; (3, v7 5) := mk_NodeRow own_file (lit "a")]})
    intents.

#[export] Instance v7_env : Env := {|
  clock _ := Ok 1000;
  db_fault _ := Fine;
  fresh_uuid t := v7 (100 + Z.of_nat t);
  injected _ _ := false
|}.

#[export] Instance own_folder : LocalReplica Disk := filesystem_replica example_scope 6 None false.

#[export] Instance own_content : ContentReader Disk := filesystem_content example_scope 6 None false.

(** A local change queued at time [created] on the cursor of the replica. *)
Definition queued (kind : OutboundIntentKind.t) (node : option Z) (path : rstring)
  (fingerprint : option LocalFingerprint.t) (created : Z) : IntentRow :=
  mk_IntentRow 3 node (Some (v7 4)) kind IntentPending path None fingerprint 1 6
    ((fun _ => 2) <$> node) ((fun _ => 8) <$> node) (Some 1) created.

Definition new_directory (path : rstring) (created : Z) : IntentRow :=
  queued OutboundIntentKind.CreateDirectory None path (Some LocalFingerprint.directory) created.

Definition with_entries (l : list (list rstring * Entry)) : Disk :=
  set_entries (example_disk (lit "x")) (list_to_map l ∪ entries (example_disk (lit "x"))).

(** ** The server *)

(** A feed with nothing new at sequence [n]. *)
Definition empty_page (n : Z) : FeedPage.t := FeedPage.mk example_scope 1 n n n false [] None.

Definition feeding (checkpoint : nat -> Z) (page : nat -> FeedPage.t) : SyncRemote := {|
  remote_profile_id := None;
  device_credential_id := None;
  get_checkpoint t scope := Ok (Checkpoint.mk scope 1 (checkpoint t));
  fetch_changes t scope _ := Ok (page t);
  acknowledge_changes t scope _ := Ok (Checkpoint.mk scope 1 7);
  remote_rebaseline_handoff _ _ _ := refuse RemoteErrorKind.NotFound;
  start_rebaseline _ _ := refuse RemoteErrorKind.NotFound;
  fetch_rebaseline_page _ _ _ _ _ := refuse RemoteErrorKind.NotFound;
  complete_rebaseline _ _ _ _ := refuse RemoteErrorKind.NotFound;
  download_current_content _ _ _ _ := Ok (RemoteContent.mk (v7 5) 9 3 (lit "one") [Ok (lit "one")])
|}.

Definition still_feed : SyncRemote := feeding (fun _ => 6) (fun _ => empty_page 6).

(** A server of mutations that fails until time [up]. *)
Definition mutating (up : nat) : UploadRemote := {|
  submit_client_mutation t _ r :=
    if (t <? up)%nat then refuse RemoteErrorKind.Offline
    else Ok (Applied (mk_RemoteMutationApplied (Mutation.mutation_id r) (v7 6) 1 (v7 7) 7 false));
  create_upload_session _ _ _ _ _ _ := refuse RemoteErrorKind.NotFound;
  get_upload_session _ _ _ := refuse RemoteErrorKind.NotFound;
  append_upload_chunk _ _ _ _ _ := refuse RemoteErrorKind.NotFound;
  complete_upload _ _ _ := refuse RemoteErrorKind.NotFound
|}.

(** A server of uploads that loses chunks until time [up]. *)
Definition storing (up : nat) (content : rstring) : UploadRemote :=
  let length := len content in
  let status := mk_UploadSessionStatus 70 (UploadTarget.ReplaceContent 3 (v7 5) 2)
                  UploadSessionState.Open length (Some content) 0 None false in
  {|
    submit_client_mutation _ _ _ := refuse RemoteErrorKind.NotFound;
    create_upload_session _ _ _ _ _ _ := Ok status;
    get_upload_session _ _ _ := Ok status;
    append_upload_chunk t _ _ offset chunk :=
      if (t <? up)%nat then refuse RemoteErrorKind.Offline else Ok (offset + len chunk);
    complete_upload _ _ _ := Ok (mk_UploadCompletion 70 (v7 5) 9 3 length content)
  |}.

(** ** Mutations *)

Definition submit (feed : SyncRemote) (uploads : UploadRemote) : M Disk SubmissionOutcome.t :=
  Submission.process_next_ready_intent (R := feed) (W := uploads) example_scope.

Definition run_cycle (feed : SyncRemote) (uploads : UploadRemote) : M Disk SyncCycleResult.t :=
  sync_cycle (R := feed) (W := uploads) (Mat := materializer (R := feed) example_scope)
    example_scope None EngineConfig.default 100 1000.

(** The outbound part of a cycle. *)
Definition outbound_of (r : result SyncCycleResult.t ClientSyncError) :
  option OutboundCycleOutcome.t :=
  match r with Ok result => Some (SyncCycleResult.outbound result) | Err _ => None end.

(** Two new directories wait to be submitted. *)
Definition two_directories : World Disk :=
  mk_World (own_store {[1 := new_directory (lit "d") 900; 2 := new_directory (lit "e") 901]})
    (with_entries [([lit "d"], Directory); ([lit "e"], Directory)]) 0 [].

(** The request of the first one. *)
Definition example_request : Mutation.Request :=
  Mutation.mk_Request (v7 90) 1 6 (Mutation.CreateDirectory (v7 4) 1 (lit "d")).

Definition example_text : rstring :=
  match mutation_request_to_json (I := digit_identifiers) example_request with
  | Ok text => text
  | Err _ => []
  end.

Lemma mutation_json_roundtrip_witness :
  mutation_request_from_json (I := digit_identifiers) example_text = Ok example_request.
Proof.
  apply (mutation_json_roundtrip (I := digit_identifiers) example_request example_text).
  - split_and!; try done. apply Forall_singleton. by split.
  - vm_compute. reflexivity.
Defined.

(** The first answer is lost, the second arrives. *)
Definition submitted_twice : World Disk :=
  (run_cycle still_feed (mutating 60) (run_cycle still_feed (mutating 60) two_directories).1).1.


(** The requests of a run, with their stores. *)
Definition nth_sent (n : nat) (w : World Disk) : Store * request :=
  default (empty_store, SentGetCheckpoint) (sent w !! n).

Definition sent_request (p : Store * request) : Mutation.Request :=
  match p.2 with SentMutation r => r | _ => example_request end.

Lemma mutation_requests_stable_witness :
  exists i1 i2,
    request_in (outbound_mutation_requests (nth_sent 3 submitted_twice).1) i1
    = Some (sent_request (nth_sent 3 submitted_twice))
    /\ request_in (outbound_mutation_requests (nth_sent 7 submitted_twice).1) i2
       = Some (sent_request (nth_sent 7 submitted_twice))
    /\ (i1 = i2 <-> Mutation.mutation_id (sent_request (nth_sent 3 submitted_twice))
                    = Mutation.mutation_id (sent_request (nth_sent 7 submitted_twice)))
    /\ (i1 = i2 -> sent_request (nth_sent 3 submitted_twice)
                   = sent_request (nth_sent 7 submitted_twice)).
Proof.
  apply (mutation_requests_stable (R := still_feed) (W := mutating 60) example_scope None
           EngineConfig.default 100 two_directories submitted_twice).
  - done.
  - by intros i j a b Hi.
  - apply client_cycle, client_cycle, client_here.
  - apply (list_elem_of_lookup_2 _ 3). vm_compute. reflexivity.
  - apply (list_elem_of_lookup_2 _ 7). vm_compute. reflexivity.
Defined.

Lemma submission_outcome_recorded_witness :
  outcome_recorded example_scope (store (submit still_feed (mutating 0) two_directories).1)
    (SubmissionOutcome.Submitted 1).
Proof.
  apply (submission_outcome_recorded (R := still_feed) (W := mutating 0) example_scope
           two_directories (submit still_feed (mutating 0) two_directories).1).
  unfold submit. apply pair_ok. vm_compute. reflexivity.
Defined.

(** ** Queued changes *)

(** The page that announces the directory [d]. *)
Definition created_page : FeedPage.t :=
  FeedPage.mk example_scope 1 6 7 7 false
    [InboundChange.mk
       (ChangeEvent.mk 1 1 3 1 7 1 ChangeResourceKind.Node (v7 6) ChangeKind.NodeCreated 900 1
          (Some (v7 4)) (Some NodeKind.Directory) (Some NodeState.Active) None)
       (Some (SnapshotNode.mk (v7 6) (Some (v7 4)) (lit "d") NodeKind.Directory NodeState.Active 1
                None None None))] (Some (lit "evidence")).

(** A feed that has the page from time 59 on, until it is acknowledged. *)
Definition announcing : SyncRemote :=
  feeding (fun t => if (t <? 99)%nat then 6 else 7)
    (fun t => if (t <? 59)%nat then empty_page 6
              else if (t <? 99)%nat then created_page else empty_page 7).

Definition first_cycle : World Disk * result SyncCycleResult.t ClientSyncError :=
  run_cycle announcing (mutating 0) two_directories.

Definition second_cycle : World Disk * result SyncCycleResult.t ClientSyncError :=
  run_cycle announcing (mutating 0) first_cycle.1.

Notation later := (client_history (R := announcing) (W := mutating 0) example_scope None
                     EngineConfig.default 100).

Lemma second_retired : retired 2 (store second_cycle.1).
Proof.
  eexists. split; [vm_compute; reflexivity|]. apply (bool_decide_unpack _). vm_compute. exact I.
Qed.

Lemma retired_forever_witness :
  retired 2 (store (run_cycle announcing (mutating 0) second_cycle.1).1)
  /\ forall row, OutboundStore.next_submittable_intent 3
                   (store (run_cycle announcing (mutating 0) second_cycle.1).1)
                 <> Ok (Some (2, row)).
Proof.
  apply (retired_forever (R := announcing) (W := mutating 0) example_scope None EngineConfig.default
           100 2 second_cycle.1).
  - exact second_retired.
  - apply client_cycle, client_here.
Defined.


(** ** Edits during an upload *)

(** An edit of [a], observed. *)
Definition edited (content : rstring) (created : Z) : IntentRow :=
  queued OutboundIntentKind.ModifyFileContent (Some (v7 5)) (lit "a")
    (Some (LocalFingerprint.file (len content) content)) created.

Definition edit_world : World Disk :=
  mk_World (own_store {[1 := edited (lit "one") 900]}) (example_disk (lit "one")) 0 [].

(** The connection breaks before the first chunk arrives. *)
Definition broken_upload : World Disk := (run_cycle still_feed (storing 70 (lit "one")) edit_world).1.

(** The user edits the file again, and the observer sees it. *)
Definition second_edit : World Disk :=
  let w := broken_upload in
  (OutboundStore.upsert_outbound_intent_with_result (2, edited (lit "second") 950)
     (mk_World (store w)
        (set_entries (files w) (<[[lit "a"] := File (lit "second")]> (entries (files w))))
        (tick w) (sent w))).1.

Definition resumed_upload : World Disk * result SyncCycleResult.t ClientSyncError :=
  run_cycle still_feed (storing 70 (lit "one")) second_edit.

(** The event of the upload. *)
Definition committed_page : FeedPage.t :=
  FeedPage.mk example_scope 1 6 7 7 false
    [InboundChange.mk
       (ChangeEvent.mk 1 1 3 1 7 1 ChangeResourceKind.Node (v7 5) ChangeKind.FileContentCommitted 900
          3 (Some (v7 4)) (Some NodeKind.File) (Some NodeState.Active) (Some 9))
       (Some (SnapshotNode.mk (v7 5) (Some (v7 4)) (lit "a") NodeKind.File NodeState.Active 3
                (Some 9) (Some 3) (Some (lit "one"))))] (Some (lit "evidence")).

Definition after_event : World Disk :=
  (run_cycle (feeding (fun _ => 6) (fun _ => committed_page)) (storing 70 (lit "one"))
     resumed_upload.1).1.

(** The bytes the server received in full. *)
Definition received (w : World Disk) : list rstring :=
  omap (fun p : Store * request =>
          match p.2 with SentAppendChunk _ _ chunk => Some chunk | _ => None end) (sent w).



(** ** A change observed again while it is being submitted *)

(** The submission of [d] did not get an answer. *)
Definition unanswered : World Disk := (submit still_feed (mutating 60) two_directories).1.

(** Observing the same change again fails on the index of active changes, which
    has the states of a submission that the search for duplicates leaves out. *)
Lemma observed_again_fails :
  (OutboundStore.upsert_outbound_intent_with_result (3, new_directory (lit "d") 950) unanswered).2
  = Err Database
  /\ is_ok (OutboundStore.upsert_outbound_intent_with_result (3, new_directory (lit "d") 950)
              two_directories).2 = true.
Proof. split; vm_compute; reflexivity. Qed.

(** ** A move that also renames *)

Definition moved_to (path : rstring) : IntentRow :=
  mk_IntentRow 3 (Some (v7 5)) (Some (v7 6)) OutboundIntentKind.MoveNode IntentPending path
    (Some (lit "a")) (Some (LocalFingerprint.file 1 (lit "x"))) 1 6 (Some 2) (Some 8) (Some 1) 900.

(** The mutation of a move does not carry the new name. *)
Lemma move_drops_name :
  mutation_request_for_intent (v7 90) (moved_to (lit "d/a"))
  = mutation_request_for_intent (v7 90) (moved_to (lit "d/b")).
Proof. vm_compute. reflexivity. Qed.

(** ** Chunks *)

(** Reading chunks of a file that can be opened. *)
Lemma folder_reads (f : Disk) staging content :
  open_visible_file staging f = (f, Ok content) ->
  forall f' o max, f' = f ->
    (read_staged_chunk staging o max f').1 = f
    /\ forall chunk, (read_staged_chunk staging o max f').2 = Ok chunk ->
         chunk <> [] /\ chunk `prefix_of` drop_z o content.
Proof.
  intros Hopen f' o max ->. cbn in Hopen |- *. unfold Managed.read_staged_chunk.
  destruct (is_none _); [done|]. unfold dbind. rewrite Hopen.
  destruct (take_z max (drop_z o content)) as [|b l] eqn:Ht; [done|]. split; [done|].
  intros chunk [= <-]. split; [done|]. rewrite <- Ht, take_z_take. apply prefix_take.
Qed.

Definition staged_at : rstring :=
  match outbound_upload_sessions (store broken_upload) !! 1 with
  | Some row => upload_staging_path row
  | None => []
  end.

Lemma upload_loop_terminates_witness :
  (Submission.upload_chunks (W := storing 0 (lit "one")) example_scope 5 1 70 staged_at 3 0
     broken_upload).2 <> Ok OutOfFuel
  /\ Submission.upload_chunks (W := storing 0 (lit "one")) example_scope 5 1 70 staged_at 3 0
       broken_upload
     = Submission.upload_chunks (W := storing 0 (lit "one")) example_scope
         (Submission.chunk_fuel 3 0) 1 70 staged_at 3 0 broken_upload.
Proof.
  apply (upload_loop_terminates (W := storing 0 (lit "one")) example_scope 1 70 staged_at 3 5 0
           broken_upload).
  unfold Submission.chunk_fuel. lia.
Defined.


(** ** Conflicts *)

(** A server that has a newer revision of the file [a]. *)
Definition refusing : UploadRemote := {|
  submit_client_mutation _ _ _ := refuse RemoteErrorKind.NotFound;
  create_upload_session _ _ _ _ _ _ := Err (mk_RemoteError RemoteErrorKind.Conflict (Some 3));
  get_upload_session _ _ _ := refuse RemoteErrorKind.NotFound;
  append_upload_chunk _ _ _ _ _ := refuse RemoteErrorKind.NotFound;
  complete_upload _ _ _ := refuse RemoteErrorKind.NotFound
|}.

Definition conflicted_world : World Disk := (submit still_feed refusing edit_world).1.

(** The conflict that was recorded. *)
Definition example_conflict : Z :=
  match map_to_list (sync_conflicts (store conflicted_world)) with
  | (id, _) :: _ => id
  | [] => 0
  end.

Definition resolved : World Disk * result (Z * ConflictRow) ClientSyncError :=
  Conflicts.resolve_conflict example_conflict SyncConflictResolution.RetryLocalAgainstCurrentBase
    conflicted_world.

Definition resolved_row : Z * ConflictRow :=
  default (0, mk_ConflictRow 0 0 None SyncConflictKind.RemoteMissing None None None None None None 0
                None) (expect resolved.2).

Lemma resolution_settles_witness :
  exists existing,
    sync_conflicts (store conflicted_world) !! example_conflict = Some existing
    /\ (@None (Z * Z * Z) = None \/ None = Some (conflict_library_id existing,
           conflict_intent_id existing, conflict_detected_at existing))
    /\ match conflict_resolution existing with
       | Some columns =>
           false = false
           /\ ClientStore.resolution columns = SyncConflictResolution.RetryLocalAgainstCurrentBase
           /\ resolved_row = (example_conflict, existing)
           /\ store resolved.1 = store conflicted_world
       | None =>
           exists columns,
             resolved_row = (example_conflict, Conflicts.set_resolution existing columns)
             /\ ClientStore.resolution columns = SyncConflictResolution.RetryLocalAgainstCurrentBase
             /\ sync_conflicts (store resolved.1)
                = <[example_conflict := Conflicts.set_resolution existing columns]>
                    (sync_conflicts (store conflicted_world))
             /\ settled (store conflicted_world) (store resolved.1) (conflict_intent_id existing)
                  SyncConflictResolution.RetryLocalAgainstCurrentBase (replacement_intent_id columns)
       end.
Proof.
  apply (resolution_settles conflicted_world resolved.1 example_conflict None
           SyncConflictResolution.RetryLocalAgainstCurrentBase false resolved_row).
  unfold resolved, Conflicts.resolve_conflict. apply pair_ok. vm_compute. reflexivity.
Defined.

(** Three conflicts, read two at a time. *)
Definition some_conflict (intent detected : Z) : ConflictRow :=
  mk_ConflictRow intent 3 (Some (v7 5)) SyncConflictKind.RemoteContentChanged (Some 2) (Some 3) None
    None None None detected None.

Definition three_conflicts : Store :=
  set_conflicts empty_store
    {[7 := some_conflict 1 1000; 8 := some_conflict 2 900; 9 := some_conflict 3 1000]}.

Lemma conflict_pages_complete_witness :
  let rows := [(8, some_conflict 2 900); (7, some_conflict 1 1000); (9, some_conflict 3 1000)] in
  all_conflicts 3 true 2 4 None three_conflicts = Ok rows.
Proof.
  assert (Conflicts.conflict_rows 3 true three_conflicts
    = [(8, some_conflict 2 900); (7, some_conflict 1 1000); (9, some_conflict 3 1000)]) as Hrows
    by (vm_compute; reflexivity).
  destruct (conflict_pages_complete 3 true 2 three_conflicts) as [Hall _].
  - by unfold MAX_CONFLICT_PAGE_LIMIT.
  - intros id row. cbn. rewrite !lookup_insert_Some, lookup_singleton_Some.
    intros [[_ <-]|[_ [[_ <-]|[_ [_ <-]]]]]; done.
  - rewrite Hrows in Hall. exact Hall.
Defined.

(** ** The whole client *)

Lemma client_fence_witness : fenced example_scope second_cycle.1.
Proof.
  apply (client_fence (R := announcing) (W := mutating 0) example_scope None EngineConfig.default 100
           two_directories).
  - exists (resting 6). split; [reflexivity|]. by split; [apply resting_wf|].
  - apply client_cycle, client_cycle, client_here.
Defined.
