(* ===== verification/ObservationExample.v ===== *)
(** * Concrete observations

    A folder that is watched and scanned while the synchroniser runs on it: the
    witnesses of the theorems on the observer, and behaviours of it that its
    design does not intend. *)

From S2P Require Import Prelude Vocabulary Values Models Requests Rebaseline SyncTypes ClientPaths.
From S2P Require Import ClientStore FeedProtocol StoreFacts SyncWorld Candidates SnapshotFacts.
From S2P Require Import Inbound Cycle InboundFacts Disk OutboundTypes OutboundStore ObservationStore.
From S2P Require Import Watchers Observation Submission Conflicts DiskFacts Materialize.
From S2P Require Import MaterializeFacts EditFacts SyncFacts ConvergenceFacts CycleFrame.
From S2P Require Import ScanFacts ObservationFacts WholeClient QuietFacts.
From S2P Require Import SyncExample RecoveryExample OutboundExample.

(** ** The host *)

Notation host := (Host Disk Manual.t).

#[export] Instance seconds : Monotonic := {| instant t := Z.of_nat t * 1000 |}.

#[export] Instance own_directories : DirectoryReader Disk := filesystem_directories.

#[export] Instance own_watcher : LocalChangeWatcher Manual.t := Manual.watcher true.

(** The default configuration with batches of [n] entries. *)
Definition batches (n : Z) : ObservationConfig.t := ObservationConfig.mk 1024 256 n 200.

(** The mirror [nodes] whose observer asks for its first scan. *)
Definition observed_store (nodes : gmap (Z * Z) NodeRow) : Store :=
  set_observation (set_local_nodes (own_store ∅) nodes)
    (mk_ObservationTables {[3 := mk_ObservationState true false 0]} ∅ ∅ ∅ ∅).

Definition hosting (s : Store) (d : Disk) : World host :=
  mk_World s (mk_Host d (mk_Observer (Manual.with_capacity 16) [] false false)) 0 [].

Definition own_nodes : gmap (Z * Z) NodeRow :=
  {[(3, v7 4) := mk_NodeRow own_root []; (3, v7 5) := mk_NodeRow own_file (lit "a")]}.

(** The file [a] as the mirror knows it. *)
Definition quiet : World host := hosting (observed_store own_nodes) (example_disk (lit "x")).

(** ** Events *)

Definition entering (n : Z) (entry : Observation.EntryPoint) (w : World host) : World host :=
  (Observation.enter (F := Disk) (W := Manual.t) example_scope (batches n) None entry w).1.

Fixpoint times (n : nat) (f : World host -> World host) (w : World host) : World host :=
  match n with
  | O => w
  | S n => times n f (f w)
  end.

(** A start of the program, and [n] turns of its loop. *)
Definition started_up (batch : Z) (n : nat) (w : World host) : World host :=
  times n (entering batch Observation.Reconcile) (entering batch Observation.Start w).

(** A person changes the folder. *)
Definition edited_by (f : gmap (list rstring) Entry -> gmap (list rstring) Entry) (w : World host) :
    World host :=
  mk_World (store w)
    (mk_Host (set_entries (folder (files w)) (f (entries (folder (files w))))) (observer (files w)))
    (tick w) (sent w).

(** The system reports a rename. *)
Definition hinting (source destination : rstring) (w : World host) : World host :=
  let o := observer (files w) in
  mk_World (store w)
    (mk_Host (folder (files w))
       (mk_Observer (Manual.push (WatchHint.mk WatchHintKind.Rename [source; destination]) (watcher o))
          (buffered_hints o) (durable_change_pending o) (started o)))
    (tick w) (sent w).

Definition polled (w : World host) : World host := times 2 (entering 128 Observation.Poll) w.

(** A cycle of the synchroniser. *)
Definition host_cycle (feed : SyncRemote) (uploads : UploadRemote) (w : World host) : World host :=
  (sync_cycle (R := feed) (W := uploads) (Mat := materializer (R := feed) example_scope)
     example_scope None EngineConfig.default 100 1000 w).1.

(** A server that takes every change of the file [a]. *)
Definition accepting : UploadRemote := {|
  submit_client_mutation _ _ r :=
    Ok (Applied (mk_RemoteMutationApplied (Mutation.mutation_id r) (v7 5) 3 (v7 7) 7 false));
  create_upload_session _ _ _ _ _ _ := refuse RemoteErrorKind.NotFound;
  get_upload_session _ _ _ := refuse RemoteErrorKind.NotFound;
  append_upload_chunk _ _ _ _ _ := refuse RemoteErrorKind.NotFound;
  complete_upload _ _ _ := refuse RemoteErrorKind.NotFound
|}.

(** ** What the worlds hold *)

Definition recorded (w : World host) : list (OutboundIntentKind.t * rstring * IntentState) :=
  map (fun p => (intent_kind p.2, intent_observed_path p.2, intent_state p.2))
    (map_to_list (outbound_intents (store w))).

Definition raised (w : World host) : list (ObservationIssueKind.t * option rstring) :=
  map (fun r => (observation_kind r, observation_path r)) (observation_issues (store w)).

Definition scanning (w : World host) : option ObservationState :=
  observation_state (observation (store w)) !! 3.

Definition sent_by (w : World host) : list request := map snd (sent w).

(** ** Witnesses *)

#[local] Instance Disk_eq_dec : EqDecision Disk.
Proof. solve_decision. Defined.

(** A folder that its validation leaves as it is. *)
Lemma steady_folder (d : Disk) :
  bool_decide ((Managed.validate_root example_scope 6 None false d).1 = d) = true -> steady d.
Proof. intros Hd. apply disk_steady. by apply bool_decide_eq_true in Hd. Qed.

(** While the program was off, the file [a] was deleted and the directory [e] added. *)
Definition changed_offline : World host :=
  edited_by (fun m => <[[lit "e"] := Directory]> (delete [lit "a"] m)) quiet.


(** The drive with the folder was taken out of the running system. *)
Definition unplugged : World host :=
  let w := started_up 128 5 quiet in
  mk_World (store w) (mk_Host (mk_Disk None true ∅) (observer (files w))) (tick w) (sent w).


(** The scan, the local changes it finds, and the cycle that submits one of them. *)
Definition caught_up : World host :=
  host_cycle still_feed accepting (entering 128 Observation.Start changed_offline).


(** While the program was off, the file [a] was deleted and another, [b], written.
    The scan cannot tell this from a rename. *)
Definition replaced_offline : World host :=
  edited_by (fun m => <[[lit "b"] := File (lit "other")]> (delete [lit "a"] m)) quiet.

Definition ambiguous : World host := started_up 128 5 replaced_offline.

(** The issue it raises, and a later edit with a cycle. *)
Definition raised_first (w : World host) : ObservationIssueRow :=
  default (mk_ObservationIssueRow 0 0 None None ObservationIssueKind.RootInvalid 0 None)
    (head (observation_issues (store w))).

Definition much_later : World host :=
  host_cycle still_feed accepting (entering 128 Observation.Poll ambiguous).

Lemma open_issue_fences_witness :
  raised ambiguous = [(ObservationIssueKind.AmbiguousRename, Some (lit "a"));
                      (ObservationIssueKind.AmbiguousRename, Some (lit "b"))]
  /\ raised_first ambiguous ∈ observation_issues (store much_later)
  /\ recorded much_later = [(OutboundIntentKind.CreateFile, lit "b", IntentPending)].
Proof.
  split_and!; [by vm_compute| |by vm_compute].
  apply (open_issue_fences (R := still_feed) (Up := accepting) (F := Disk) (W := Manual.t)
           example_scope None EngineConfig.default 100 (batches 128) None
           (raised_first ambiguous) ambiguous much_later).
  - by vm_compute.
  - by vm_compute.
  - vm_compute. left.
  - apply whole_client with (w1 := entering 128 Observation.Poll ambiguous).
    + apply whole_observer with (entry := Observation.Poll); [apply whole_here|].
      apply steady_folder. vm_compute. reflexivity.
    + unfold much_later. generalize (entering 128 Observation.Poll ambiguous) as w.
      intros w. apply client_cycle, client_here.
Defined.

Lemma quiet_settled : settled example_scope (folder (files quiet)) (store quiet).
Proof.
  split.
  - apply steady_folder. vm_compute. reflexivity.
  - vm_compute. reflexivity.
  - vm_compute. by intros rows [= <-].
  - intros id row Hid. change (outbound_intents (store quiet)) with (∅ : gmap Z IntentRow) in Hid.
    by rewrite lookup_empty in Hid.
  - eexists. vm_compute. reflexivity.
  - intros path Hp%mirrored_paths. vm_compute in Hp.
    repeat (apply elem_of_cons in Hp as [->|Hp]); [..|by apply not_elem_of_nil in Hp];
      (eexists; split; [by vm_compute|]); vm_compute; by intros known [= <-].
  - intros path fingerprint Hp%mirrored_paths Hf Hd. vm_compute in Hp.
    repeat (apply elem_of_cons in Hp as [->|Hp]); [..|by apply not_elem_of_nil in Hp];
      vm_compute in Hf; injection Hf as <-; [done|].
    split; [by vm_compute|]. intros names Hn. vm_compute in Hn. injection Hn as <-.
    repeat first [apply Forall_nil_2|apply Forall_cons_2]; (eexists; split; [reflexivity|]);
      first [left; vm_compute; reflexivity|right].
    all: eexists; split; [vm_compute; reflexivity|eexists; vm_compute; reflexivity].
Qed.

(** The program is started, and its scan ends, twice. *)
Definition idle_day : list Observation.EntryPoint :=
  Observation.Start :: repeat Observation.Reconcile 5 ++ Observation.Start :: repeat Observation.Reconcile 5.

Lemma quiet_scan_witness :
  let w' := after_calls (F := Disk) (W := Manual.t) example_scope (batches 128) None idle_day quiet in
  scanning w' = Some (mk_ObservationState false false 2)
  /\ outbound_intents (store w') = outbound_intents (store quiet)
  /\ nothing_raised (store quiet) (store w').
Proof.
  cbv zeta. split; [by vm_compute|].
  destruct (quiet_scan (F := Disk) (W := Manual.t) example_scope (batches 128) None idle_day quiet)
    as (_ & Hi & _ & Hr); [vm_compute; discriminate|apply quiet_settled| | |exact (conj Hi Hr)].
  - intros generation path cursor Hw.
    change (observation_scan_work (observation (store quiet)))
      with (∅ : gmap (Z * Z * rstring) (option rstring)) in Hw. by rewrite lookup_empty in Hw.
  - unfold idle_day. cbn [repeat app]. repeat first [apply Forall_nil_2|apply Forall_cons_2]; auto.
Defined.

(** Five names in batches of two, in the order the system happens to list them. *)
Definition listing : list rstring := [lit "c"; lit "a"; lit "e"; lit "b"; lit "d"].


(** ** Wide directories *)

(** The directory [d], known to the mirror, holds the new file [f]; beside it are
    [n] new directories. *)
Definition own_directory : LocalNode.t :=
  LocalNode.mk 3 (v7 6) (Some (v7 4)) (lit "d") (lit "d") NodeKind.Directory NodeState.Active 1 None
    None None None None 0 true None.

Definition beside (n : nat) : gmap (list rstring) Entry :=
  list_to_map (map (fun i => ([lit "g" ++ Decimal.fmt (Z.of_nat i)], Directory)) (seq 0 n)).

Definition wide (n : nat) : World host :=
  hosting (observed_store (<[(3, v7 6) := mk_NodeRow own_directory (lit "d")]> own_nodes))
    (set_entries (example_disk (lit "x"))
       (<[[lit "d"] := Directory]> (<[[lit "d"; lit "f"] := File (lit "new")]>
          (beside n ∪ entries (example_disk (lit "x")))))).

(** No scan is running or asked for. *)
Definition scan_over (w : World host) : bool :=
  match scanning w with
  | Some state => negb (rescan_required state || scan_active state)
  | None => false
  end.

Definition found (path : rstring) (w : World host) : bool :=
  existsb (fun e => bool_decide (e.1.2 = path)) (recorded w).


(** ** Changes of the server under the observer *)

(** The server's renames of the file: the one the client sent, then another's. *)
Definition renamed_event (sequence : Z) (name : rstring) (revision : Z) : InboundChange.t :=
  InboundChange.mk
    (ChangeEvent.mk sequence 1 3 1 sequence 1 ChangeResourceKind.Node (v7 5) ChangeKind.NodeRenamed 900
       revision (Some (v7 4)) (Some NodeKind.File) (Some NodeState.Active) (Some 8))
    (Some (SnapshotNode.mk (v7 5) (Some (v7 4)) name NodeKind.File NodeState.Active revision
             (Some 8) (Some 1) (Some [120]))).

Definition renames_feed : SyncRemote := {|
  remote_profile_id := None;
  device_credential_id := None;
  get_checkpoint _ scope := Ok (Checkpoint.mk scope 1 6);
  fetch_changes _ scope _ :=
    Ok (FeedPage.mk scope 1 6 8 8 false [renamed_event 7 (lit "b") 3; renamed_event 8 (lit "c") 4]
          (Some (lit "evidence")));
  acknowledge_changes _ scope _ := Ok (Checkpoint.mk scope 1 8);
  remote_rebaseline_handoff _ _ _ := refuse RemoteErrorKind.NotFound;
  start_rebaseline _ _ := refuse RemoteErrorKind.NotFound;
  fetch_rebaseline_page _ _ _ _ _ := refuse RemoteErrorKind.NotFound;
  complete_rebaseline _ _ _ _ := refuse RemoteErrorKind.NotFound;
  download_current_content _ _ _ _ := refuse RemoteErrorKind.NotFound
|}.

Definition settled_feed : SyncRemote := feeding (fun _ => 8) (fun _ => empty_page 8).

(** A person renames [a] to [b] here, and the client submits it. *)
Definition renamed_here : World host :=
  host_cycle still_feed accepting
    (polled (hinting (lit "a") (lit "b")
       (edited_by (fun m => <[[lit "b"] := File (lit "x")]> (delete [lit "a"] m))
          (started_up 128 4 quiet)))).

(** Another device renames it to [c], and the client follows. *)
Definition renamed_there : World host := host_cycle renames_feed accepting renamed_here.

(** The program is started twice, and the server refuses the new file it proposes. *)
Definition proposed : World host :=
  host_cycle settled_feed refusing (started_up 128 5 (started_up 128 5 renamed_there)).

(** The person takes the server's side. *)
Definition agreed : World host :=
  let conflict :=
    match map_to_list (sync_conflicts (store proposed)) with
    | (id, _) :: _ => id
    | [] => 0
    end in
  (Conflicts.resolve_conflict conflict SyncConflictResolution.AcceptRemote proposed).1.

(** The path of the file in the mirror. *)
Definition mirrored (w : World host) : option rstring :=
  LocalNode.relative_path ∘ row_node <$> local_nodes (store w) !! (3, v7 5).


(** ** Renames in one window *)

(** A file renamed and renamed back before the observer looks. *)
Definition there_and_back : World host :=
  hinting (lit "b") (lit "a") (hinting (lit "a") (lit "b") (started_up 128 4 quiet)).

(** A file that was renamed and renamed back within one window of the observer is
    taken for an ambiguous rename: the two hints become one from the path to itself,
    and although the folder is the one that was scanned, the issue is raised. *)
Theorem rename_back_is_ambiguous :
  coalesce_hints [WatchHint.mk WatchHintKind.Rename [lit "a"; lit "b"];
                  WatchHint.mk WatchHintKind.Rename [lit "b"; lit "a"]]
  = ([(lit "a", lit "a")], [])
  /\ raised there_and_back = []
  /\ folder (files there_and_back) = folder (files quiet)
  /\ raised (polled there_and_back) = [(ObservationIssueKind.AmbiguousRename, Some (lit "a"))].
Proof.
  split_and!; [by vm_compute..| |by vm_compute].
  apply (bool_decide_eq_true_1 _). vm_compute. reflexivity.
Qed.
