(* ===== verification/RuntimeExample.v ===== *)
(** * Runs of the runtime

    Concrete histories of the runtime with the default configuration: where the
    guarantees apply, and two in which a library is left behind. *)

From S2P Require Import Prelude Vocabulary Models Rebaseline SyncTypes ClientPaths ClientStore.
From S2P Require Import SyncWorld Candidates Inbound Cycle Disk OutboundTypes OutboundStore.
From S2P Require Import ObservationStore Watchers Observation Runtime RuntimeFacts RuntimeLiveness.

(** ** Histories as lists of moves *)

(** An executor is the identifier of its library. *)
Inductive Move : Type :=
| Register (id : Z) (first_sync : bool) | Unregister (id : Z) | Start
| Wake (id : Z) (reason : WakeReason.t) | Pause (paused : bool) | Shutdown | Pass (time : nat)
| Complete (id : Z) (execution : CycleExecution) | Supervise (recorded : bool).

Section Play.

Context (config : SyncRuntimeConfig.t).

Definition move (m : Move) (r : Runtime Z) : option (Runtime Z) :=
  match m with
  | Register id first_sync => Some (register_executor_with_first_sync (fun i => i) id first_sync r).1
  | Unregister id => Some (unregister_library id r).1
  | Start => Some (start r).1
  | Wake id reason => Some (wake_library id reason r).1
  | Pause paused => Some (set_user_paused paused r).1
  | Shutdown => Some (request_shutdown r)
  | Pass time => Some (set_clock r (clock_now r + Z.of_nat time))
  | Complete id execution => complete id execution r
  | Supervise recorded => supervise config recorded r
  end.

Fixpoint play (ms : list Move) (r : Runtime Z) : option (Runtime Z) :=
  match ms with
  | [] => Some r
  | m :: ms => let* r := move m r in play ms r
  end.

Lemma play_reachable ms : forall r r',
  reachable config (fun i => i) r -> play ms r = Some r' -> reachable config (fun i => i) r'.
Proof.
  induction ms as [|m ms IH]; cbn; intros r r' Hr; [by intros [= <-]|].
  destruct (move m r) as [r1|] eqn:Hm; [|done]. cbn. apply IH.
  eapply reachable_step; [done|].
  destruct m; cbn in Hm; try injection Hm as <-; by econstructor; eauto with lia.
Qed.

(** The runtime after a history that is possible. *)
Definition after (ms : list Move) : Runtime Z := default (new_runtime 0) (play ms (new_runtime 0)).

Lemma history_reachable ms : reachable config (fun i => i) (after ms).
Proof.
  unfold after. destruct (play ms (new_runtime 0)) as [r|] eqn:Hp; cbn; [|constructor].
  eapply play_reachable; [|done]. constructor.
Qed.

End Play.

Definition default_config : SyncRuntimeConfig.t := SyncRuntimeConfig.default.

Lemma default_valid : valid default_config.
Proof. by split. Qed.

Notation turns n := (replicate n (Supervise true)).

(** Two libraries are registered and started, and their first cycles begin. *)
Definition first_cycles : list Move :=
  [Register 1 true; Register 2 false; Start] ++ turns 2.

Definition idle_cycle : CycleExecution :=
  Returned (Ok (SyncCycleResult.mk 0 (InboundCycleOutcome.Converged ConvergenceOutcome.IncrementalReady)
                  (OutboundCycleOutcome.Attempted SubmissionOutcome.NoReadyIntent))).

(** The second cycle finishes with nothing to do while the first runs on, and the
    supervisor waits again. *)
Definition one_idle : list Move := first_cycles ++ [Complete 2 idle_cycle] ++ turns 15.

Definition entry_of (id : Z) (r : Runtime Z) : option (LibraryPhase.t * option Z * bool) :=
  (fun e => (phase (state e), next_due (state e), first_sync_completed (state e)))
    <$> libraries r !! id.

Lemma cycles_exclusive_witness :
  let r := after default_config first_cycles in
  cycles r = [1; 2]
  /\ NoDup (cycles r) /\ len (cycles r) <= 4
  /\ forall id, id ∈ cycles r <->
       exists e, libraries r !! id = Some e /\ running (state e) = true.
Proof.
  split; [vm_compute; reflexivity|].
  apply (cycles_exclusive (fun i => i) default_config default_valid). apply history_reachable.
Defined.

Lemma never_forgotten_witness :
  let r := after default_config one_idle in
  entry_of 2 r = Some (LibraryPhase.Idle, Some (seconds 30), true)
  /\ exists e, libraries r !! 2 = Some e /\ (2 ∈ cycles r \/ timely (clock_now r) (state e)).
Proof.
  split; [vm_compute; reflexivity|]. eexists. split; [vm_compute; reflexivity|].
  apply (never_forgotten (fun i => i) default_config default_valid); [apply history_reachable| |];
    vm_compute; reflexivity.
Defined.

Lemma rest_leaves_nothing_due_witness :
  let r := after default_config one_idle in
  completions r = [] /\ (shutdown_requested r = true -> in_flight r <> [])
  /\ forall id e, libraries r !! id = Some e -> runnable (clock_now r) e = true ->
       user_paused r = true \/ shutdown_requested r = true \/ len (in_flight r) = 4.
Proof.
  eapply (rest_leaves_nothing_due (fun i => i) default_config default_valid _ _ true);
    [apply history_reachable| |]; vm_compute; reflexivity.
Defined.

Lemma supervisor_rests_witness :
  Acc (fun r' r => exists recorded, supervise default_config recorded r = Some r')
    (after default_config first_cycles).
Proof.
  apply (supervisor_rests (fun i => i) default_config default_valid). apply history_reachable.
Defined.

(** One slot for two libraries. *)
Definition one_at_a_time : SyncRuntimeConfig.t :=
  SyncRuntimeConfig.mk (seconds 30) (seconds 1) (seconds 60) (seconds 30) 1.

Lemma turns_are_bounded_witness :
  let r := after one_at_a_time [Register 1 true; Register 2 true; Start] in
  let '(r', started, cursor') := spawn_due_cycles one_at_a_time 0 None r in
  started = [1]
  /\ exists e, libraries r !! 2 = Some e
  /\ (2 ∈ started \/ (len started = 1 - 0 /\ libraries r' !! 2 = Some e
      /\ exists k, (k < 1)%nat /\ rotation (registered_libraries r') cursor' !! k = Some 2)).
Proof.
  split; [vm_compute; reflexivity|]. eexists. split; [vm_compute; reflexivity|].
  apply (turns_are_bounded one_at_a_time 0 None (after one_at_a_time [Register 1 true; Register 2 true; Start])
           1%nat 2); vm_compute; reflexivity.
Defined.

(** ** Libraries left behind *)

(** The cycle of the library runs when it is unregistered. *)
Definition leaving : list Move := [Register 1 true; Start] ++ turns 2 ++ [Unregister 1].

(** A library that is unregistered while its cycle runs cannot be registered again:
    it is not among the registered libraries, yet the call answers that it is already
    registered and changes nothing.  When the cycle ends the library is gone. *)
Theorem reregistration_refused :
  let r := after default_config leaving in
  let r' := after default_config (leaving ++ [Register 1 true; Complete 1 idle_cycle] ++ turns 12) in
  registered_libraries r = []
  /\ register_executor_with_first_sync (fun i => i) 1 true r = (r, Ok AlreadyRegistered)
  /\ lifecycle r' = LifecycleRunning /\ supervise default_config true r' = None
  /\ status 1 r' = None.
Proof.
  cbv zeta. split; [vm_compute; reflexivity|]. split; [vm_compute; reflexivity|].
  split; [vm_compute; reflexivity|]. split; vm_compute; reflexivity.
Qed.

(** The root comes back, and the user asks for a cycle, while a cycle runs that still
    finds the root gone. *)
Definition root_back (also : list Move) (n : nat) : list Move :=
  [Register 1 true; Start] ++ turns 2 ++ [Wake 1 WakeReason.RootAvailable] ++ also
  ++ [Complete 1 (Returned (Err RootUnavailable))] ++ turns n.

